(** * GLTF loader: resource materialization, transforms and animation

    A shallow embedding of the parts of [AssetLoader/src/GLTFLoader.cpp]
    that prepare texture data, upload pending GPU payloads, and evaluate
    node transforms and keyframed animation. *)

From Stdlib Require Import ZArith QArith Qround Lia SpecFloat.
From stdpp Require Import base list strings gmap.

(** ** Single-precision floating point

    The C++ [float] is IEEE-754 binary32 with round-to-nearest-even.  The
    operations are those of the Standard Library's [SpecFloat] at precision
    24 and maximal exponent 128. *)
Module F32.
Local Open Scope Z_scope.

Definition prec : Z := 24.
Definition emax : Z := 128.

Definition float : Type := spec_float.

Definition add : float -> float -> float := SFadd prec emax.
Definition sub : float -> float -> float := SFsub prec emax.
Definition mul : float -> float -> float := SFmul prec emax.
Definition div : float -> float -> float := SFdiv prec emax.

(** [a < b], [a <= b], [a == b], [a != b], [a > b], [a >= b] *)
Definition ltb : float -> float -> bool := SFltb.
Definition leb : float -> float -> bool := SFleb.
Definition eqb : float -> float -> bool := SFeqb.
Definition neb (a b : float) : bool := negb (SFeqb a b).
Definition gtb (a b : float) : bool := SFltb b a.
Definition geb (a b : float) : bool := SFleb b a.

(** Conversion of an integer to [float] (exact for 8-bit values). *)
Definition of_Z (z : Z) : float := binary_normalize prec emax z 0 false.

(** The dyadic number [m * 2^e], rounded to [float]. *)
Definition of_dyadic (m e : Z) : float := binary_normalize prec emax m e false.

Definition zero : float := S754_zero false.
Definition one : float := of_Z 1.
(** [FLT_MAX] *)
Definition FLT_MAX : float := S754_finite false (2 ^ 24 - 1) 104.
Definition nan : float := S754_nan.

Definition is_nan (a : float) : bool :=
  match a with S754_nan => true | _ => false end.

(** [std::max(a, b)] is [(a < b) ? b : a]; [std::min(a, b)] is
    [(b < a) ? b : a]. *)
Definition std_max (a b : float) : float := if ltb a b then b else a.
Definition std_min (a b : float) : float := if ltb b a then b else a.

(** Truncation toward zero, the value conversion of [static_cast] from
    [float] to an integer type.  Infinities and NaN have no integer value
    (undefined behaviour in C++); they are mapped to 0 here. *)
Definition trunc (a : float) : Z :=
  match a with
  | S754_finite s m e =>
      let v := match e with
               | Zneg p => Z.shiftr (Zpos m) (Zpos p)
               | _ => Z.shiftl (Zpos m) e
               end in
      if s then - v else v
  | _ => 0
  end.

(** [static_cast<Uint8>(a)]: the truncated value, which the C++ standard
    only defines when it lies in [0, 255]; outside it is reduced modulo 256
    here. *)
Definition to_Uint8 (a : float) : Z := trunc a mod 256.

(** The order of floats as a lexicographic order on three integers *)
Definition rk1 (x : float) : Z :=
  match x with
  | S754_infinity true => -2
  | S754_finite true _ _ => -1
  | S754_zero _ | S754_nan => 0
  | S754_finite false _ _ => 1
  | S754_infinity false => 2
  end.
Definition rk2 (x : float) : Z :=
  match x with
  | S754_finite true _ e => - e
  | S754_finite false _ e => e
  | _ => 0
  end.
Definition rk3 (x : float) : Z :=
  match x with
  | S754_finite true m _ => Zneg m
  | S754_finite false m _ => Zpos m
  | _ => 0
  end.

Definition lex_lt (x y : float) : Prop :=
  rk1 x < rk1 y \/ (rk1 x = rk1 y /\ (rk2 x < rk2 y \/ (rk2 x = rk2 y /\ rk3 x < rk3 y))).
Definition lex_eq (x y : float) : Prop :=
  rk1 x = rk1 y /\ rk2 x = rk2 y /\ rk3 x = rk3 y.

(** NaN-ness as an integer, so that [lia] can reason about it *)
Definition nanz (x : float) : Z := if is_nan x then 1 else 0.

End F32.

(** ** Diagnostics

    [LOG_WARNING_MESSAGE], [UNEXPECTED] and [UNSUPPORTED] write a message
    and let execution continue; the functions below return the messages
    they emit (the fixed text of the message, without the formatted
    values). *)
Inductive Diag : Type :=
| DiagWarning (msg : string)
| DiagUnexpected (msg : string)
| DiagUnsupported (msg : string).

(** ** Texture data on the CPU side *)

(** Properties of a texture format, as returned by the graphics library's
    [GetTextureFormatAttribs]. *)
Record TextureFormatAttribs : Type := {
  FmtBlockWidth : Z;
  FmtBlockHeight : Z;
  FmtComponentSize : Z;
  FmtNumComponents : Z;
  FmtIsCompressed : bool  (* ComponentType == COMPONENT_TYPE_COMPRESSED *)
}.

(** [Diligent::TextureDesc], the fields the loader reads or sets. *)
Record TextureDesc (TEXTURE_FORMAT : Type) : Type := {
  TexWidth : Z;
  TexHeight : Z;
  TexMipLevels : Z;
  TexFormat : TEXTURE_FORMAT
}.
Arguments TexWidth {_} _.
Arguments TexHeight {_} _.
Arguments TexMipLevels {_} _.
Arguments TexFormat {_} _.

(** The image file formats the loader distinguishes *)
Inductive IMAGE_FILE_FORMAT : Type :=
| IMAGE_FILE_FORMAT_UNKNOWN
| IMAGE_FILE_FORMAT_DDS
| IMAGE_FILE_FORMAT_KTX
| IMAGE_FILE_FORMAT_OTHER.

(** The functions of the graphics library (GraphicsAccessories,
    GraphicsUtilities, Align) that the loader calls.  They belong to the
    engine core and are parameters of the development. *)
Class GraphicsAccessories : Type := {
  TEXTURE_FORMAT : Type;
  TEX_FORMAT_RGBA8_UNORM : TEXTURE_FORMAT;
  GetTextureFormatAttribs : TEXTURE_FORMAT -> TextureFormatAttribs;
  (** [AlignUp(val, alignment)] *)
  AlignUp : Z -> Z -> Z;
  (** [ComputeMipLevel] applied to format, fine width, fine height, fine
      data, fine stride, coarse stride and the coarse buffer; returns the
      coarse buffer it filled. *)
  ComputeMipLevel :
    TEXTURE_FORMAT -> Z -> Z -> list Z -> Z -> Z -> list Z -> list Z;
  (** logical width and height returned by [GetMipLevelProperties] *)
  GetMipLevelProperties : TextureDesc TEXTURE_FORMAT -> Z -> Z * Z;
  (** the number of mip levels the device gives a texture created with
      [MipLevels = 0] *)
  ComputeMipLevelsCount : Z -> Z -> Z;
  (** the bytes written by [GenerateCheckerBoardPattern] for an RGBA8
      texture of the given width and height *)
  GenerateCheckerBoardPattern : Z -> Z -> list Z;
  (** the description of the texture that a loader created by
      [CreateTextureLoaderFromMemory] produces, if the loader can be created *)
  CreateTextureLoaderFromMemory :
    list Z -> IMAGE_FILE_FORMAT -> option (TextureDesc TEXTURE_FORMAT)
}.

(** Modelled from the spec: [Model::ImageData] is declared in
    GLTFLoader.hpp, which is not among the sources; these are the fields the
    loader reads: a decoded image with its dimensions, component count,
    bytes per component and pixel bytes. *)
Record ImageData : Type := {
  ImgWidth : Z;
  ImgHeight : Z;
  ImgNumComponents : Z;
  ImgComponentSize : Z;
  ImgFileFormat : IMAGE_FILE_FORMAT;
  ImgpData : list Z;   (* bytes, each in [0, 255] *)
  ImgDataSize : Z
}.

(** [TextureInitData::LevelData]: the bytes of one mip level.
    [SubResData.pData] always points at [Data] and is not represented. *)
Record LevelData : Type := {
  LvlData : list Z;
  LvlStride : Z;      (* SubResData.Stride *)
  LvlWidth : Z;
  LvlHeight : Z
}.

Definition LevelData_default : LevelData :=
  {| LvlData := []; LvlStride := 0; LvlWidth := 0; LvlHeight := 0 |}.

Definition wrap32 (z : Z) : Z := (z mod 2 ^ 32)%Z.
Definition wrap64 (z : Z) : Z := (z mod 2 ^ 64)%Z.

(** Writing the four bytes of pixel [i] through the [dst] pointer.  A write
    past the end of the buffer is undefined in C++ and leaves the list
    unchanged here. *)
Definition store_pixel (dst : list Z) (i : nat) (r g b a : Z) : list Z :=
  <[4 * i + 3 := a]> (<[4 * i + 2 := b]> (<[4 * i + 1 := g]> (<[4 * i := r]> dst))).

(** Reading byte [k] of the source image (0 past the end, where C++ reads
    out of bounds). *)
Definition src_byte (src : list Z) (k : nat) : Z := nth k src 0%Z.

(** The RGB to RGBA loop of [PrepareGLTFTextureInitData]. *)
Definition ExpandRGB (src : list Z) (n : nat) (dst : list Z) : list Z :=
  fold_left
    (fun dst i =>
       store_pixel dst i (src_byte src (3 * i)) (src_byte src (3 * i + 1))
                   (src_byte src (3 * i + 2)) 255%Z)
    (seq 0 n) dst.

(** The new alpha byte of one pixel; [AlphaCutoff] is the cutoff already
    multiplied by [255.f]. *)
Definition RemapAlpha (AlphaCutoff : F32.float) (a : Z) : Z :=
  Z.max a
    (F32.to_Uint8
       (F32.std_min
          (F32.add
             (F32.mul (F32.div (F32.of_Z 1) (F32.of_Z 3)) (F32.of_Z a))
             (F32.mul (F32.div (F32.of_Z 2) (F32.of_Z 3)) AlphaCutoff))
          (F32.of_Z 255))).

(** The alpha remapping loop of [PrepareGLTFTextureInitData]. *)
Definition RemapAlphaLoop (AlphaCutoff : F32.float) (src : list Z) (n : nat)
    (dst : list Z) : list Z :=
  fold_left
    (fun dst i =>
       store_pixel dst i (src_byte src (4 * i)) (src_byte src (4 * i + 1))
                   (src_byte src (4 * i + 2))
                   (RemapAlpha AlphaCutoff (src_byte src (4 * i + 3))))
    (seq 0 n) dst.

(** [TextureInitData]: either mip levels or a staging texture (identified
    by its handle). *)
Record TextureInitData : Type := {
  Levels : list LevelData;
  pStagingTex : option nat
}.

Section TextureInit.
Context `{GA : GraphicsAccessories}.

(** One iteration of the loop of [TextureInitData::GenerateMipLevels]. *)
Definition GenerateMipLevel (Format : TEXTURE_FORMAT)
    (st : list LevelData * list Diag) (mip : nat) : list LevelData * list Diag :=
  let '(Lv, log) := st in
  let FmtAttribs := GetTextureFormatAttribs Format in
  let FineLevel := nth (mip - 1) Lv LevelData_default in
  let Width :=
    AlignUp (Z.max (LvlWidth FineLevel / 2) 1) (FmtBlockWidth FmtAttribs) in
  let Height :=
    AlignUp (Z.max (LvlHeight FineLevel / 2) 1) (FmtBlockHeight FmtAttribs) in
  let Stride :=
    wrap64 (Width / FmtBlockWidth FmtAttribs * FmtComponentSize FmtAttribs *
            (if FmtIsCompressed FmtAttribs then 1 else FmtNumComponents FmtAttribs)) in
  let MipSize := (wrap64 (Stride * Height) / FmtBlockHeight FmtAttribs)%Z in
  let Data0 := resize (Z.to_nat MipSize) 0%Z [] in
  if FmtIsCompressed FmtAttribs then
    (<[mip := {| LvlData := Data0; LvlStride := Stride;
                 LvlWidth := Width; LvlHeight := Height |}]> Lv,
     log ++ [DiagUnsupported
               "Mip generation for compressed formats is not currently implemented"])
  else
    (<[mip := {| LvlData :=
                   ComputeMipLevel Format (LvlWidth FineLevel) (LvlHeight FineLevel)
                     (LvlData FineLevel) (LvlStride FineLevel) Stride Data0;
                 LvlStride := Stride; LvlWidth := Width; LvlHeight := Height |}]> Lv,
     log).

(** [TextureInitData::GenerateMipLevels(StartMipLevel, Format)] *)
Definition GenerateMipLevels (StartMipLevel : nat) (Format : TEXTURE_FORMAT)
    (Lv : list LevelData) : list LevelData * list Diag :=
  fold_left (GenerateMipLevel Format)
            (seq StartMipLevel (length Lv - StartMipLevel)) (Lv, []).

(** [PrepareGLTFTextureInitData(Image, AlphaCutoff, NumMipLevels)] *)
Definition PrepareGLTFTextureInitData (Image : ImageData) (AlphaCutoff : F32.float)
    (NumMipLevels : nat) : TextureInitData * list Diag :=
  let Level0Width := wrap32 (ImgWidth Image) in
  let Level0Height := wrap32 (ImgHeight Image) in
  let Level0Stride := (Level0Width * 4)%Z in
  let size := Z.to_nat (wrap64 (Level0Stride * ImgHeight Image)) in
  let n := Z.to_nat (ImgWidth Image * ImgHeight Image) in
  let pSrcData := ImgpData Image in
  let '(Data, log0) :=
    if (ImgNumComponents Image =? 3)%Z then
      (ExpandRGB pSrcData n (resize size 0%Z []), [])
    else if (ImgNumComponents Image =? 4)%Z then
      if F32.gtb AlphaCutoff F32.zero then
        (RemapAlphaLoop (F32.mul AlphaCutoff (F32.of_Z 255)) pSrcData n
                        (resize size 0%Z []), [])
      else
        (take (Z.to_nat (ImgDataSize Image)) pSrcData, [])
    else
      ([], [DiagUnexpected "Unexpected number of color components in gltf image"]) in
  let Level0 :=
    {| LvlData := Data; LvlStride := Level0Stride;
       LvlWidth := Level0Width; LvlHeight := Level0Height |} in
  let Lv0 := <[0%nat := Level0]> (resize NumMipLevels LevelData_default []) in
  let '(Lv, log1) := GenerateMipLevels 1 TEX_FORMAT_RGBA8_UNORM Lv0 in
  ({| Levels := Lv; pStagingTex := None |}, log0 ++ log1).

End TextureInit.

(** ** Vectors, quaternions and matrices

    [float3], [float4], [QuaternionF] and [float4x4] come from the engine's
    BasicMath header.  Vectors and quaternions are plain tuples of floats;
    the matrix type and the functions computing with matrices, lerp, slerp,
    normalize and clamp are parameters. *)
Record float3 : Type := mk_float3 { f3x : F32.float; f3y : F32.float; f3z : F32.float }.
Record float4 : Type :=
  mk_float4 { f4x : F32.float; f4y : F32.float; f4z : F32.float; f4w : F32.float }.
Record QuaternionF : Type := mk_Quaternion { Quat_q : float4 }.

(** [float3{}], [float3{1, 1, 1}] and [QuaternionF{}] (the identity rotation) *)
Definition float3_zero : float3 := mk_float3 F32.zero F32.zero F32.zero.
Definition float3_ones : float3 := mk_float3 F32.one F32.one F32.one.
Definition float4_zero : float4 := mk_float4 F32.zero F32.zero F32.zero F32.zero.
Definition Quaternion_default : QuaternionF :=
  mk_Quaternion (mk_float4 F32.zero F32.zero F32.zero F32.one).

(** [a != b] on vectors and quaternions: some component differs. *)
Definition float3_neb (a b : float3) : bool :=
  negb (F32.eqb (f3x a) (f3x b) && F32.eqb (f3y a) (f3y b) && F32.eqb (f3z a) (f3z b)).
Definition float4_neb (a b : float4) : bool :=
  negb (F32.eqb (f4x a) (f4x b) && F32.eqb (f4y a) (f4y b) &&
        F32.eqb (f4z a) (f4z b) && F32.eqb (f4w a) (f4w b)).
Definition Quaternion_neb (a b : QuaternionF) : bool :=
  float4_neb (Quat_q a) (Quat_q b).

(** The conversion [float3 v = OutputsVec4[i]] *)
Definition float3_of_float4 (v : float4) : float3 :=
  mk_float3 (f4x v) (f4y v) (f4z v).

Record BoundBox : Type := { BBMin : float3; BBMax : float3 }.

Class BasicMath : Type := {
  float4x4 : Type;
  (** [float4x4{}], the value of a freshly resized vector element *)
  float4x4_default : float4x4;
  float4x4_Identity : float4x4;
  (** [a * b] *)
  float4x4_mul : float4x4 -> float4x4 -> float4x4;
  float4x4_Translation : float3 -> float4x4;
  float4x4_Scale : float3 -> float4x4;
  Quaternion_ToMatrix : QuaternionF -> float4x4;
  float4x4_Inverse : float4x4 -> float4x4;
  lerp : float3 -> float3 -> F32.float -> float3;
  slerp : QuaternionF -> QuaternionF -> F32.float -> QuaternionF;
  normalize : QuaternionF -> QuaternionF;
  (** [clamp(val, min, max)] *)
  clamp : F32.float -> F32.float -> F32.float -> F32.float;
  (** [BB.Transform(m)] *)
  BoundBox_Transform : BoundBox -> float4x4 -> BoundBox;
  (** [std::min] and [std::max] on [float3] *)
  float3_min : float3 -> float3 -> float3;
  float3_max : float3 -> float3 -> float3
}.

Infix "*m" := float4x4_mul (at level 40, left associativity).

(** ** The model

    Modelled from the spec: the classes [Material], [Mesh], [Skin], [Node],
    [AnimationSampler], [AnimationChannel], [Animation], [TextureInfo],
    [BufferInfo], [ModelTransforms] and [Model] are declared in
    GLTFLoader.hpp, which is not among the sources.  The records below have
    the fields that GLTFLoader.cpp reads and writes, with the types of the
    spec's data model. *)

Inductive ALPHA_MODE : Type := ALPHA_MODE_OPAQUE | ALPHA_MODE_MASK | ALPHA_MODE_BLEND.

Definition ALPHA_MODE_eqb (a b : ALPHA_MODE) : bool :=
  match a, b with
  | ALPHA_MODE_OPAQUE, ALPHA_MODE_OPAQUE
  | ALPHA_MODE_MASK, ALPHA_MODE_MASK
  | ALPHA_MODE_BLEND, ALPHA_MODE_BLEND => true
  | _, _ => false
  end.

(** Modelled from the spec: [Material] (GLTFLoader.hpp): the texture index
    per texture attribute, and the alpha mode and cutoff of
    [Material::Attribs]. *)
Record Material : Type := {
  TextureIds : list Z;
  Attribs_AlphaMode : ALPHA_MODE;
  Attribs_AlphaCutoff : F32.float
}.

(** Modelled from the spec: [TextureAttributeDesc] (GLTFLoader.hpp). *)
Record TextureAttributeDesc : Type := {
  TexAttribName : string;
  TexAttribIndex : Z
}.

(** Modelled from the spec: [Mesh] (GLTFLoader.hpp); [MeshIsValidBB] is the
    value of [IsValidBB()]. *)
Record Mesh : Type := {
  MeshBB : BoundBox;
  MeshIsValidBB : bool
}.

(** Modelled from the spec: [TextureInfo] and [BufferInfo] (GLTFLoader.hpp):
    handles of a texture or an atlas suballocation, of a buffer or a buffer
    suballocation; a null pointer is [None]. *)
Record TextureInfo : Type := {
  pTexture : option nat;
  pAtlasSuballocation : option nat
}.

Record BufferInfo : Type := {
  pBuffer : option nat;
  pSuballocation : option nat
}.

Inductive INTERPOLATION_TYPE : Type := LINEAR | STEP | CUBICSPLINE.

Inductive PATH_TYPE : Type := TRANSLATION | ROTATION | SCALE | WEIGHTS.

(** Modelled from the spec: [AnimationSampler] (GLTFLoader.hpp). *)
Record AnimationSampler : Type := {
  Interpolation : INTERPOLATION_TYPE;
  Inputs : list F32.float;
  OutputsVec4 : list float4
}.

(** Modelled from the spec: [AnimationChannel] (GLTFLoader.hpp).  [pNode] is
    only used through [pNode->Index], which [ChannelNodeIndex] holds. *)
Record AnimationChannel : Type := {
  PathType : PATH_TYPE;
  ChannelNodeIndex : nat;
  SamplerIndex : nat
}.

(** Modelled from the spec: [Animation] (GLTFLoader.hpp). *)
Record Animation : Type := {
  Samplers : list AnimationSampler;
  Channels : list AnimationChannel;
  AnimStart : F32.float;
  AnimEnd : F32.float
}.

(** Modelled from the spec: [TransformData], the element of
    [ModelTransforms::NodeAnimations] (GLTFLoader.hpp). *)
Record TransformData : Type := {
  TDTranslation : float3;
  TDRotation : QuaternionF;
  TDScale : float3
}.

Definition TransformData_default : TransformData :=
  {| TDTranslation := float3_zero; TDRotation := Quaternion_default;
     TDScale := float3_ones |}.

Section GLTF.
Context `{BM : BasicMath}.

(** Modelled from the spec: [Skin] (GLTFLoader.hpp).  Each joint is a
    pointer to a node that is only used through its [Index]. *)
Record Skin : Type := {
  Joints : list nat;
  InverseBindMatrices : list float4x4
}.

(** Modelled from the spec: [Node] (GLTFLoader.hpp).  [Children] holds
    pointers to nodes; the pointed-to nodes form the subtrees below this
    node. *)
#[local] Set Warnings "-register-all".
Inductive Node : Type := mkNode {
  Index : nat;
  SkinTransformsIndex : nat;
  Translation : float3;
  Rotation : QuaternionF;
  Scale : float3;
  Matrix : float4x4;
  Children : list Node;
  pMesh : option Mesh;
  pSkin : option Skin
}.

(** Modelled from the spec: [SkinTransforms] and [ModelTransforms]
    (GLTFLoader.hpp). *)
Record SkinTransforms : Type := { JointMatrices : list float4x4 }.

Record ModelTransforms : Type := {
  NodeLocalMatrices : list float4x4;
  NodeGlobalMatrices : list float4x4;
  Skins : list SkinTransforms;
  NodeAnimations : list TransformData
}.

(** Modelled from the spec: [Model] (GLTFLoader.hpp), the members used by
    the functions below. *)
Record Model : Type := {
  TextureAttributes : list TextureAttributeDesc;
  Materials : list Material;
  Textures : list TextureInfo;
  Buffers : list BufferInfo;
  GPUDataInitialized : bool;
  LinearNodes : list Node;
  RootNodes : list Node;
  Animations : list Animation;
  SkinTransformsCount : nat
}.

(** The name of the base color texture attribute, a constant of
    GLTFLoader.hpp. *)
Variable BaseColorTextureName : string.

(** [Model::GetTextureAttibuteIndex] *)
Definition GetTextureAttibuteIndex (M : Model) (Name : string) : Z :=
  match find (fun Attrib => String.eqb (TexAttribName Attrib) Name) (TextureAttributes M) with
  | Some Attrib => TexAttribIndex Attrib
  | None => (-1)%Z
  end.

(** The loop of [Model::GetTextureAlphaCutoffValue] over the materials that
    remain, with the current value of the local [AlphaCutoff]; the result
    is the value the function returns. *)
Fixpoint AlphaCutoffLoop (BaseTexAttribIdx TextureIndex : Z) (Mats : list Material)
    (AlphaCutoff : F32.float) : F32.float * list Diag :=
  match Mats with
  | [] => (F32.std_max AlphaCutoff F32.zero, [])
  | Mat :: rest =>
      if negb (nth (Z.to_nat BaseTexAttribIdx) (TextureIds Mat) (-1) =? TextureIndex)%Z then
        AlphaCutoffLoop BaseTexAttribIdx TextureIndex rest AlphaCutoff
      else if ALPHA_MODE_eqb (Attribs_AlphaMode Mat) ALPHA_MODE_OPAQUE then
        AlphaCutoffLoop BaseTexAttribIdx TextureIndex rest AlphaCutoff
      else
        let NewAlphaCutoff :=
          if ALPHA_MODE_eqb (Attribs_AlphaMode Mat) ALPHA_MODE_MASK
          then Attribs_AlphaCutoff Mat else F32.zero in
        if F32.ltb AlphaCutoff F32.zero then
          AlphaCutoffLoop BaseTexAttribIdx TextureIndex rest NewAlphaCutoff
        else if F32.neb AlphaCutoff NewAlphaCutoff then
          if F32.eqb AlphaCutoff F32.zero || F32.eqb NewAlphaCutoff F32.zero then
            (F32.zero,
             [DiagWarning "Texture is used in an alpha-cut material as well as in an alpha-blend material. Alpha remapping to improve mipmap generation will be disabled."])
          else
            let '(r, log) :=
              AlphaCutoffLoop BaseTexAttribIdx TextureIndex rest
                              (F32.std_min AlphaCutoff NewAlphaCutoff) in
            (r, DiagWarning "Texture is used in alpha-cut materials with different cutoff thresholds." :: log)
        else
          AlphaCutoffLoop BaseTexAttribIdx TextureIndex rest AlphaCutoff
  end.

(** [Model::GetTextureAlphaCutoffValue] *)
Definition GetTextureAlphaCutoffValue (M : Model) (TextureIndex : Z)
    : F32.float * list Diag :=
  let BaseTexAttribIdx := GetTextureAttibuteIndex M BaseColorTextureName in
  if (BaseTexAttribIdx <? 0)%Z then (F32.zero, [])
  else AlphaCutoffLoop BaseTexAttribIdx TextureIndex (Materials M)
                       (F32.of_Z (-1)).

(** *** Vectors as arrays

    [v[i]] on a [std::vector] is [nth i v d] (an out-of-range read is
    undefined in C++ and gives [d] here), [v[i] = x] is [<[i := x]> v] (an
    out-of-range write leaves the list unchanged here), [v.resize(n)] is
    [resize n d v] with [d] the value-initialised element. *)

(** The elements of a vector with their positions, for the loops
    [for (i = 0; i < v.size(); ++i)]. *)
Definition enumerate {A : Type} (l : list A) : list (nat * A) :=
  combine (seq 0 (length l)) l.

Definition set_NodeLocalMatrices (T : ModelTransforms) (v : list float4x4) :=
  {| NodeLocalMatrices := v; NodeGlobalMatrices := NodeGlobalMatrices T;
     Skins := Skins T; NodeAnimations := NodeAnimations T |}.
Definition set_NodeGlobalMatrices (T : ModelTransforms) (v : list float4x4) :=
  {| NodeLocalMatrices := NodeLocalMatrices T; NodeGlobalMatrices := v;
     Skins := Skins T; NodeAnimations := NodeAnimations T |}.
Definition set_Skins (T : ModelTransforms) (v : list SkinTransforms) :=
  {| NodeLocalMatrices := NodeLocalMatrices T;
     NodeGlobalMatrices := NodeGlobalMatrices T;
     Skins := v; NodeAnimations := NodeAnimations T |}.
Definition set_NodeAnimations (T : ModelTransforms) (v : list TransformData) :=
  {| NodeLocalMatrices := NodeLocalMatrices T;
     NodeGlobalMatrices := NodeGlobalMatrices T;
     Skins := Skins T; NodeAnimations := v |}.

(** *** Global transforms *)

(** The [ParentMatrix] argument of [UpdateNodeGlobalTransform] is a
    reference: to the caller's root transform for a root, and to the
    parent's element of [NodeGlobalMatrices] for a child. *)
Inductive MatrixRef : Type :=
| RefValue (m : float4x4)
| RefGlobal (i : nat).

Definition deref (T : ModelTransforms) (r : MatrixRef) : float4x4 :=
  match r with
  | RefValue m => m
  | RefGlobal i => nth i (NodeGlobalMatrices T) float4x4_default
  end.

(** The assignment [GlobalMat = LocalMat * ParentMatrix] for node index [i] *)
Definition WriteGlobal (T : ModelTransforms) (i : nat) (ParentMatrix : MatrixRef)
    : ModelTransforms :=
  set_NodeGlobalMatrices T
    (<[i := nth i (NodeLocalMatrices T) float4x4_default *m deref T ParentMatrix]>
       (NodeGlobalMatrices T)).

(** [UpdateNodeGlobalTransform(node, ParentMatrix, Transforms)] *)
Fixpoint UpdateNodeGlobalTransform (node : Node) (ParentMatrix : MatrixRef)
    (T : ModelTransforms) {struct node} : ModelTransforms :=
  fold_left
    (fun T' pChild => UpdateNodeGlobalTransform pChild (RefGlobal (Index node)) T')
    (Children node)
    (WriteGlobal T (Index node) ParentMatrix).

(** [ComputeNodeLocalMatrix(Scale, Rotation, Translation, Matrix)] *)
Definition ComputeNodeLocalMatrix4 (Scale : float3) (Rotation : QuaternionF)
    (Translation : float3) (Matrix : float4x4) : float4x4 :=
  let LocalMatrix := Matrix in
  let LocalMatrix :=
    if float3_neb Translation float3_zero
    then float4x4_Translation Translation *m LocalMatrix else LocalMatrix in
  let LocalMatrix :=
    if Quaternion_neb Rotation Quaternion_default
    then Quaternion_ToMatrix Rotation *m LocalMatrix else LocalMatrix in
  let LocalMatrix :=
    if float3_neb Scale float3_ones
    then float4x4_Scale Scale *m LocalMatrix else LocalMatrix in
  LocalMatrix.

(** [ComputeNodeLocalMatrix(N)] *)
Definition ComputeNodeLocalMatrix (N : Node) : float4x4 :=
  ComputeNodeLocalMatrix4 (Scale N) (Rotation N) (Translation N) (Matrix N).

(** *** Animation *)

Definition AnimationSampler_default : AnimationSampler :=
  {| Interpolation := LINEAR; Inputs := []; OutputsVec4 := [] |}.

(** The test of the keyframe scan: [time >= Inputs[i] && time <= Inputs[i + 1]] *)
Definition Brackets (inputs : list F32.float) (time : F32.float) (i : nat) : bool :=
  F32.geb time (nth i inputs F32.zero) && F32.leb time (nth (i + 1) inputs F32.zero).

(** The scan [for (i = 0; i < Inputs.size() - 1; i++)] up to its [break]:
    the first index whose pair of keyframes brackets [time].  For an empty
    [Inputs] the C++ bound wraps around and the loop reads out of bounds;
    here the loop then has no iteration. *)
Definition FindKeyframe (inputs : list F32.float) (time : F32.float) : option nat :=
  find (Brackets inputs time) (seq 0 (length inputs - 1)).

Definition Quaternion_of_float4 (v : float4) : QuaternionF :=
  mk_Quaternion (mk_float4 (f4x v) (f4y v) (f4z v) (f4w v)).

(** The body of the loop over the channels of an animation in
    [Model::UpdateAnimation]: the channel is sampled at [time] and its value
    is written to the pose of the channel's node. *)
Definition ApplyChannel (animation : Animation) (time : F32.float)
    (st : list TransformData * list Diag) (channel : AnimationChannel)
    : list TransformData * list Diag :=
  let '(Anims, log) := st in
  let sampler := nth (SamplerIndex channel) (Samplers animation) AnimationSampler_default in
  if length (OutputsVec4 sampler) <? length (Inputs sampler) then (Anims, log)
  else
    match FindKeyframe (Inputs sampler) time with
    | None => (Anims, log)
    | Some i =>
        let u :=
          match Interpolation sampler with
          | LINEAR =>
              F32.div (F32.sub time (nth i (Inputs sampler) F32.zero))
                      (F32.sub (nth (i + 1) (Inputs sampler) F32.zero)
                               (nth i (Inputs sampler) F32.zero))
          | _ => F32.zero
          end in
        let out_i := nth i (OutputsVec4 sampler) float4_zero in
        let out_i1 := nth (i + 1) (OutputsVec4 sampler) float4_zero in
        match PathType channel with
        | TRANSLATION =>
            (alter (fun A => {| TDTranslation :=
                                  lerp (float3_of_float4 out_i) (float3_of_float4 out_i1) u;
                                TDRotation := TDRotation A; TDScale := TDScale A |})
                   (ChannelNodeIndex channel) Anims, log)
        | SCALE =>
            (alter (fun A => {| TDTranslation := TDTranslation A;
                                TDRotation := TDRotation A;
                                TDScale :=
                                  lerp (float3_of_float4 out_i) (float3_of_float4 out_i1) u |})
                   (ChannelNodeIndex channel) Anims, log)
        | ROTATION =>
            (alter (fun A => {| TDTranslation := TDTranslation A;
                                TDRotation :=
                                  normalize (slerp (Quaternion_of_float4 out_i)
                                                   (Quaternion_of_float4 out_i1) u);
                                TDScale := TDScale A |})
                   (ChannelNodeIndex channel) Anims, log)
        | WEIGHTS =>
            (Anims, log ++ [DiagUnexpected "Weights are not currently supported"])
        end
    end.

(** The pose of a node before any channel is applied *)
Definition StaticPose (N : Node) : TransformData :=
  {| TDTranslation := Translation N; TDRotation := Rotation N; TDScale := Scale N |}.

(** [Model::UpdateAnimation(index, time, Transforms)] *)
Definition UpdateAnimation (M : Model) (index : nat) (time : F32.float)
    (T : ModelTransforms) : ModelTransforms * list Diag :=
  match Animations M !! index with
  | None => (T, [DiagWarning "No animation with index"])
  | Some animation =>
      let time := clamp time (AnimStart animation) (AnimEnd animation) in
      let Anims0 :=
        if Nat.eqb (length (NodeAnimations T)) (length (LinearNodes M))
        then NodeAnimations T
        else resize (length (LinearNodes M)) TransformData_default (NodeAnimations T) in
      let Anims1 :=
        fold_left (fun A '(i, N) => <[i := StaticPose N]> A)
                  (enumerate (LinearNodes M)) Anims0 in
      let '(Anims2, log) :=
        fold_left (ApplyChannel animation time) (Channels animation) (Anims1, []) in
      let Locals :=
        fold_left
          (fun L '(i, N) =>
             let A := nth i Anims2 TransformData_default in
             <[i := ComputeNodeLocalMatrix4 (TDScale A) (TDRotation A)
                                            (TDTranslation A) (Matrix N)]> L)
          (enumerate (LinearNodes M)) (NodeLocalMatrices T) in
      (set_NodeLocalMatrices (set_NodeAnimations T Anims2) Locals, log)
  end.

(** *** Transforms of the whole model *)

Definition SkinTransforms_default : SkinTransforms := {| JointMatrices := [] |}.

(** The joint matrices of one skinned node, written over the previous
    contents [JM] of its [JointMatrices] vector. *)
Definition ComputeJointMatrices (T : ModelTransforms) (node : Node) (skin : Skin)
    (JM : list float4x4) : list float4x4 :=
  let NodeGlobalMat := nth (Index node) (NodeGlobalMatrices T) float4x4_default in
  let JM0 :=
    if Nat.eqb (length JM) (length (Joints skin)) then JM
    else resize (length (Joints skin)) float4x4_default JM in
  let InverseTransform := float4x4_Inverse NodeGlobalMat in
  fold_left
    (fun JM' '(i, JointNodeIndex) =>
       <[i := nth i (InverseBindMatrices skin) float4x4_default
              *m nth JointNodeIndex (NodeGlobalMatrices T) float4x4_default
              *m InverseTransform]> JM')
    (enumerate (Joints skin)) JM0.

(** The body of the loop that updates the joint matrices *)
Definition UpdateJoints (T : ModelTransforms) (node : Node) : ModelTransforms :=
  match pMesh node, pSkin node with
  | Some _, Some skin =>
      set_Skins T
        (alter (fun S => {| JointMatrices := ComputeJointMatrices T node skin (JointMatrices S) |})
               (SkinTransformsIndex node) (Skins T))
  | _, _ => T
  end.

(** [Model::ComputeTransforms(Transforms, RootTransform, AnimationIndex, Time)] *)
Definition ComputeTransforms (M : Model) (T : ModelTransforms)
    (RootTransform : float4x4) (AnimationIndex : Z) (Time : F32.float)
    : ModelTransforms * list Diag :=
  let n := length (LinearNodes M) in
  let T1 :=
    set_NodeLocalMatrices
      (set_NodeGlobalMatrices T (resize n float4x4_default (NodeGlobalMatrices T)))
      (resize n float4x4_default (NodeLocalMatrices T)) in
  let '(T2, log) :=
    if (0 <=? AnimationIndex)%Z then
      UpdateAnimation M (Z.to_nat AnimationIndex) Time
        (set_Skins T1 (resize (SkinTransformsCount M) SkinTransforms_default (Skins T1)))
    else
      (set_NodeLocalMatrices (set_Skins T1 [])
         (fold_left (fun L '(i, N) => <[i := ComputeNodeLocalMatrix N]> L)
                    (enumerate (LinearNodes M)) (NodeLocalMatrices T1)), []) in
  let T3 :=
    fold_left (fun T' pRoot => UpdateNodeGlobalTransform pRoot (RefValue RootTransform) T')
              (RootNodes M) T2 in
  let T4 :=
    match Skins T3 with
    | [] => T3
    | _ => fold_left UpdateJoints (LinearNodes M) T3
    end in
  (T4, log).

(** [Model::CompatibleWithTransforms(Transforms)] *)
Definition CompatibleWithTransforms (M : Model) (T : ModelTransforms) : bool :=
  Nat.eqb (length (NodeLocalMatrices T)) (length (LinearNodes M)) &&
  Nat.eqb (length (NodeGlobalMatrices T)) (length (LinearNodes M)).

(** [Model::ComputeBoundingBox(Transforms)].  A default-constructed
    [BoundBox] has zero corners. *)
Definition ComputeBoundingBox (M : Model) (T : ModelTransforms) : BoundBox * list Diag :=
  if CompatibleWithTransforms M T then
    (fold_left
       (fun ModelAABB '(i, N) =>
          match pMesh N with
          | Some mesh =>
              if MeshIsValidBB mesh then
                let GlobalMatrix := nth i (NodeGlobalMatrices T) float4x4_default in
                let NodeAABB := BoundBox_Transform (MeshBB mesh) GlobalMatrix in
                {| BBMin := float3_min (BBMin ModelAABB) (BBMin NodeAABB);
                   BBMax := float3_max (BBMax ModelAABB) (BBMax NodeAABB) |}
              else ModelAABB
          | None => ModelAABB
          end)
       (enumerate (LinearNodes M))
       {| BBMin := mk_float3 F32.FLT_MAX F32.FLT_MAX F32.FLT_MAX;
          BBMax := mk_float3 (SFopp F32.FLT_MAX) (SFopp F32.FLT_MAX) (SFopp F32.FLT_MAX) |},
     [])
  else
    ({| BBMin := float3_zero; BBMax := float3_zero |},
     [DiagUnexpected "Incompatible transforms. Please use the ComputeTransforms() method first."]).

End GLTF.

(** ** GPU objects and the device context

    Textures, atlas suballocations, buffers and buffer suballocations are
    reference-counted objects shared between models; a model holds handles
    to them.  The objects live in a store indexed by handle, and every
    command given to the device context is recorded. *)
Section GPU.
Context `{GA : GraphicsAccessories} `{BM : BasicMath}.

Record TextureObject : Type := {
  TexObjDesc : TextureDesc TEXTURE_FORMAT;         (* GetDesc() *)
  TexObjUserData : option TextureInitData           (* GetUserData() *)
}.

Record AtlasSuballocation : Type := {
  AllocAtlasTexture : option nat;    (* GetAtlas()->GetTexture(pDevice, pCtx) *)
  AllocUserData : option TextureInitData;
  AllocSlice : Z;
  AllocOrigin : Z * Z
}.

Record BufferObject : Type := {
  BufObjUserData : option (list Z)   (* the bytes of an IDataBlob *)
}.

Record BufferSuballocation : Type := {
  SubAllocBuffer : option nat;       (* GetAllocator()->GetBuffer(pDevice, pCtx) *)
  SubAllocOffset : Z;
  SubAllocUserData : option (list Z)
}.

Record Device : Type := {
  DevTextures : gmap nat TextureObject;
  DevAllocations : gmap nat AtlasSuballocation;
  DevBuffers : gmap nat BufferObject;
  DevBufferAllocations : gmap nat BufferSuballocation
}.

Record Box : Type := { MinX : Z; MaxX : Z; MinY : Z; MaxY : Z }.

Inductive RESOURCE_STATE : Type :=
| RESOURCE_STATE_SHADER_RESOURCE
| RESOURCE_STATE_INDEX_BUFFER
| RESOURCE_STATE_VERTEX_BUFFER.

Inductive DeviceObject : Type :=
| ObjTexture (pTexture : nat)
| ObjBuffer (pBuffer : option nat).

(** A barrier from [RESOURCE_STATE_UNKNOWN] with
    [STATE_TRANSITION_FLAG_UPDATE_STATE] *)
Record StateTransitionDesc : Type := {
  pResource : DeviceObject;
  NewState : RESOURCE_STATE
}.

Inductive Command : Type :=
| CmdUpdateTexture (pTexture : nat) (MipLevel : nat) (Slice : Z) (DstBox : Box)
                   (SubresData : LevelData)
| CmdGenerateMips (pTexture : nat)
| CmdCopyTexture (pSrcTexture pDstTexture : nat) (MipLevel : nat) (DstSlice DstX DstY : Z)
| CmdUpdateBuffer (pBuffer : option nat) (Offset Size : Z) (pData : list Z)
| CmdTransitionResourceStates (Barriers : list StateTransitionDesc).

(** [SetUserData(nullptr)] on the four kinds of objects *)
Definition ClearTextureUserData (Dev : Device) (t : nat) : Device :=
  {| DevTextures :=
       alter (fun o => {| TexObjDesc := TexObjDesc o; TexObjUserData := None |}) t
             (DevTextures Dev);
     DevAllocations := DevAllocations Dev;
     DevBuffers := DevBuffers Dev;
     DevBufferAllocations := DevBufferAllocations Dev |}.

Definition ClearAllocationUserData (Dev : Device) (a : nat) : Device :=
  {| DevTextures := DevTextures Dev;
     DevAllocations :=
       alter (fun o => {| AllocAtlasTexture := AllocAtlasTexture o; AllocUserData := None;
                          AllocSlice := AllocSlice o; AllocOrigin := AllocOrigin o |}) a
             (DevAllocations Dev);
     DevBuffers := DevBuffers Dev;
     DevBufferAllocations := DevBufferAllocations Dev |}.

Definition ClearBufferUserData (Dev : Device) (b : nat) : Device :=
  {| DevTextures := DevTextures Dev;
     DevAllocations := DevAllocations Dev;
     DevBuffers := alter (fun _ => {| BufObjUserData := None |}) b (DevBuffers Dev);
     DevBufferAllocations := DevBufferAllocations Dev |}.

Definition ClearBufferAllocationUserData (Dev : Device) (a : nat) : Device :=
  {| DevTextures := DevTextures Dev;
     DevAllocations := DevAllocations Dev;
     DevBuffers := DevBuffers Dev;
     DevBufferAllocations :=
       alter (fun o => {| SubAllocBuffer := SubAllocBuffer o;
                          SubAllocOffset := SubAllocOffset o;
                          SubAllocUserData := None |}) a
             (DevBufferAllocations Dev) |}.

(** The loop that drops the mip levels of a compressed staging texture
    that are smaller than a block *)
Fixpoint TrimSrcMips (SrcTexDesc : TextureDesc TEXTURE_FORMAT)
    (FmtAttribs : TextureFormatAttribs) (SrcMips : nat) : nat :=
  match SrcMips with
  | O => O
  | S k =>
      let '(LogicalWidth, LogicalHeight) := GetMipLevelProperties SrcTexDesc (Z.of_nat k) in
      if (FmtBlockWidth FmtAttribs <=? LogicalWidth)%Z &&
         (FmtBlockHeight FmtAttribs <=? LogicalHeight)%Z
      then SrcMips
      else TrimSrcMips SrcTexDesc FmtAttribs k
  end.

(** The upload commands for one texture whose init data [InitData] was
    found: the part of the loop body of [Model::PrepareGPUResources] after
    the two [continue]s and before the barrier. *)
Definition UploadTextureData (Dev : Device) (DstTexInfo : TextureInfo)
    (alloc : option AtlasSuballocation) (pTex : nat)
    (TexDesc : TextureDesc TEXTURE_FORMAT) (InitData : TextureInitData) : list Command :=
  let DstSlice := match alloc with Some al => AllocSlice al | None => 0%Z end in
  let '(DstX, DstY) := match alloc with Some al => AllocOrigin al | None => (0%Z, 0%Z) end in
  match Levels InitData, pStagingTex InitData with
  | [], None => []
  | [], Some pStaging =>
      match DevTextures Dev !! pStaging with
      | None => []
      | Some staging =>
          let FmtAttribs := GetTextureFormatAttribs (TexFormat TexDesc) in
          let SrcTexDesc := TexObjDesc staging in
          let SrcMips := Z.to_nat (Z.min (TexMipLevels SrcTexDesc) (TexMipLevels TexDesc)) in
          let SrcMips :=
            if FmtIsCompressed FmtAttribs
            then TrimSrcMips SrcTexDesc FmtAttribs SrcMips else SrcMips in
          map (fun mip =>
                 CmdCopyTexture pStaging pTex mip DstSlice
                                (Z.shiftr DstX (Z.of_nat mip)) (Z.shiftr DstY (Z.of_nat mip)))
              (seq 0 SrcMips)
      end
  | Lv, _ =>
      map (fun '(mip, Level) =>
             let MinX := Z.shiftr DstX (Z.of_nat mip) in
             let MinY := Z.shiftr DstY (Z.of_nat mip) in
             CmdUpdateTexture pTex mip DstSlice
               {| MinX := MinX; MaxX := wrap32 (MinX + LvlWidth Level);
                  MinY := MinY; MaxY := wrap32 (MinY + LvlHeight Level) |}
               Level)
          (enumerate Lv)
      ++ (if Nat.eqb (length Lv) 1 && (1 <? TexMipLevels TexDesc)%Z &&
             bool_decide (is_Some (pTexture DstTexInfo))
          then [CmdGenerateMips pTex] else [])
  end.

(** The state threaded through the loops of [Model::PrepareGPUResources]:
    the objects, the local vector [Barriers], and the commands issued. *)
Definition PrepareState : Type := (Device * list StateTransitionDesc * list Command)%type.

(** The body of the loop over [Textures] *)
Definition PrepareTexture (st : PrepareState) (DstTexInfo : TextureInfo) : PrepareState :=
  let '(Dev, Barriers, Cmds) := st in
  let '(pTex, pInitData, alloc, Dev1) :=
    match pAtlasSuballocation DstTexInfo with
    | Some a =>
        match DevAllocations Dev !! a with
        | Some al =>
            (AllocAtlasTexture al, AllocUserData al, Some al, ClearAllocationUserData Dev a)
        | None => (None, None, None, Dev)
        end
    | None =>
        match pTexture DstTexInfo with
        | Some t =>
            match DevTextures Dev !! t with
            | Some o => (Some t, TexObjUserData o, None, ClearTextureUserData Dev t)
            | None => (None, None, None, Dev)
            end
        | None => (None, None, None, Dev)
        end
    end in
  match pTex with
  | None => (Dev1, Barriers, Cmds)
  | Some pTex =>
      match pInitData with
      | None => (Dev1, Barriers, Cmds)
      | Some InitData =>
          match DevTextures Dev1 !! pTex with
          | None => (Dev1, Barriers, Cmds)
          | Some o =>
              (Dev1,
               match pTexture DstTexInfo with
               | Some _ =>
                   Barriers ++ [{| pResource := ObjTexture pTex;
                                   NewState := RESOURCE_STATE_SHADER_RESOURCE |}]
               | None => Barriers
               end,
               Cmds ++ UploadTextureData Dev1 DstTexInfo alloc pTex (TexObjDesc o) InitData)
          end
      end
  end.

(** The body of the loop over [Buffers]; [last] tells whether [BuffId] is
    [Buffers.size() - 1]. *)
Definition PrepareBuffer (st : PrepareState) (entry : bool * BufferInfo) : PrepareState :=
  let '(Dev, Barriers, Cmds) := st in
  let '(last, BuffInfo) := entry in
  let found :=
    match pSuballocation BuffInfo with
    | Some a =>
        match DevBufferAllocations Dev !! a with
        | Some al =>
            Some (SubAllocBuffer al, SubAllocOffset al, SubAllocUserData al,
                  ClearBufferAllocationUserData Dev a)
        | None => None
        end
    | None =>
        match pBuffer BuffInfo with
        | Some b =>
            match DevBuffers Dev !! b with
            | Some o => Some (Some b, 0%Z, BufObjUserData o, ClearBufferUserData Dev b)
            | None => None
            end
        | None => None
        end
    end in
  match found with
  | None => (Dev, Barriers, Cmds)
  | Some (pBuf, Offset, pInitData, Dev1) =>
      match pInitData with
      | None => (Dev1, Barriers, Cmds)
      | Some data =>
          (Dev1,
           match pBuffer BuffInfo with
           | Some _ =>
               Barriers ++ [{| pResource := ObjBuffer pBuf;
                               NewState := if last then RESOURCE_STATE_INDEX_BUFFER
                                           else RESOURCE_STATE_VERTEX_BUFFER |}]
           | None => Barriers
           end,
           Cmds ++ [CmdUpdateBuffer pBuf Offset (wrap32 (Z.of_nat (length data))) data])
      end
  end.

(** The buffers with the flag [BuffId == Buffers.size() - 1] *)
Definition MarkLast (Bufs : list BufferInfo) : list (bool * BufferInfo) :=
  map (fun '(BuffId, B) => (Nat.eqb (S BuffId) (length Bufs), B)) (enumerate Bufs).

Definition set_GPUDataInitialized (M : Model) (b : bool) : Model :=
  {| TextureAttributes := TextureAttributes M; Materials := Materials M;
     Textures := Textures M; Buffers := Buffers M;
     GPUDataInitialized := b;
     LinearNodes := LinearNodes M; RootNodes := RootNodes M;
     Animations := Animations M; SkinTransformsCount := SkinTransformsCount M |}.

(** [Model::PrepareGPUResources(pDevice, pCtx)]: the model and the objects
    after the call, and the commands given to the context. *)
Definition PrepareGPUResources (M : Model) (Dev : Device) : Model * Device * list Command :=
  if GPUDataInitialized M then (M, Dev, [])
  else
    let st := fold_left PrepareTexture (Textures M) (Dev, [], []) in
    let '(Dev', Barriers, Cmds) := fold_left PrepareBuffer (MarkLast (Buffers M)) st in
    (set_GPUDataInitialized M true, Dev',
     match Barriers with
     | [] => Cmds
     | _ => Cmds ++ [CmdTransitionResourceStates Barriers]
     end).

End GPU.

(** ** Loading textures through the texture cache *)

(** Modelled from the spec: [TextureCacheType] (GLTFLoader.hpp): the table
    from cache key to a weak reference to a texture, guarded by the mutex
    [TexturesMtx].  A weak reference is a handle; locking it succeeds when
    the texture still exists in the store. *)
Record TextureCacheType : Type := { CacheTextures : gmap string nat }.

Section Loading.
Context `{GA : GraphicsAccessories} `{BM : BasicMath}.
Variable BaseColorTextureName : string.

(** [pDevice->CreateTexture]: a new texture object under a fresh handle *)
Definition DeviceCreateTexture (Dev : Device) (Desc : TextureDesc TEXTURE_FORMAT)
    (UserData : option TextureInitData) : nat * Device :=
  let t := fresh (dom (DevTextures Dev)) in
  (t, {| DevTextures :=
           <[t := {| TexObjDesc := Desc; TexObjUserData := UserData |}]> (DevTextures Dev);
         DevAllocations := DevAllocations Dev;
         DevBuffers := DevBuffers Dev;
         DevBufferAllocations := DevBufferAllocations Dev |}).

Definition TextureInfo_null : TextureInfo :=
  {| pTexture := None; pAtlasSuballocation := None |}.

(** [TextureInfo::IsValid()] *)
Definition TextureInfo_IsValid (TexInfo : TextureInfo) : bool :=
  bool_decide (is_Some (pTexture TexInfo)) ||
  bool_decide (is_Some (pAtlasSuballocation TexInfo)).

Definition IsDDSorKTX (Image : ImageData) : bool :=
  match ImgFileFormat Image with
  | IMAGE_FILE_FORMAT_DDS | IMAGE_FILE_FORMAT_KTX => true
  | _ => false
  end.

(** The first critical section of [Model::AddTexture] when no resource
    manager is used ([pResourceMgr == nullptr]): under the lock of the
    cache, the texture is looked up by [CacheId]. *)
Definition AddTexture_Find (pTextureCache : option TextureCacheType) (Dev : Device)
    (Image : ImageData) (CacheId : string)
    : TextureInfo * option TextureCacheType * list Diag :=
  match pTextureCache with
  | Some Cache =>
      if String.eqb CacheId "" then (TextureInfo_null, pTextureCache, [])
      else
        match CacheTextures Cache !! CacheId with
        | None => (TextureInfo_null, pTextureCache, [])
        | Some t =>
            match DevTextures Dev !! t with
            | Some _ =>
                ({| pTexture := Some t; pAtlasSuballocation := None |}, pTextureCache, [])
            | None =>
                if ((0 <? ImgWidth Image)%Z && (0 <? ImgHeight Image)%Z) || IsDDSorKTX Image
                then (TextureInfo_null, pTextureCache,
                      [DiagUnexpected "Stale textures should not be found in the texture cache because we hold strong references."])
                else (TextureInfo_null,
                      Some {| CacheTextures := delete CacheId (CacheTextures Cache) |}, [])
            end
        end
  | None => (TextureInfo_null, pTextureCache, [])
  end.

Definition set_Textures (M : Model) (v : list TextureInfo) : Model :=
  {| TextureAttributes := TextureAttributes M; Materials := Materials M;
     Textures := v; Buffers := Buffers M;
     GPUDataInitialized := GPUDataInitialized M;
     LinearNodes := LinearNodes M; RootNodes := RootNodes M;
     Animations := Animations M; SkinTransformsCount := SkinTransformsCount M |}.

(** The rest of [Model::AddTexture] when no resource manager is used: if
    the lookup found nothing, the texture is created with its init data
    and, under the lock of the cache, entered into the cache with
    [emplace], which keeps an entry that is already there; the texture is
    appended to [Textures].  Samplers are not represented.  The update of
    the UV scale and slice of the materials is made for an atlas
    suballocation only, which a load without a resource manager does not
    create. *)
Definition AddTexture_Create (M : Model) (TexInfo : TextureInfo)
    (pTextureCache : option TextureCacheType) (Dev : Device)
    (Image : ImageData) (CacheId : string)
    : Model * option TextureCacheType * Device * list Diag :=
  let NewTexId := Z.of_nat (length (Textures M)) in
  let '(TexInfo', pTextureCache', Dev', log) :=
    if TextureInfo_IsValid TexInfo then (TexInfo, pTextureCache, Dev, [])
    else
      let '(AlphaCutoff, log0) := GetTextureAlphaCutoffValue BaseColorTextureName M NewTexId in
      let '(pTex, Dev1, log1) :=
        if (0 <? ImgWidth Image)%Z && (0 <? ImgHeight Image)%Z then
          let '(InitData, l) := PrepareGLTFTextureInitData Image AlphaCutoff 1 in
          let '(t, Dev1) :=
            DeviceCreateTexture Dev
              {| TexWidth := ImgWidth Image; TexHeight := ImgHeight Image;
                 TexMipLevels := ComputeMipLevelsCount (ImgWidth Image) (ImgHeight Image);
                 TexFormat := TEX_FORMAT_RGBA8_UNORM |}
              (Some InitData) in
          (Some t, Dev1, l)
        else if IsDDSorKTX Image then
          match CreateTextureLoaderFromMemory (ImgpData Image) (ImgFileFormat Image) with
          | Some Desc =>
              let '(t, Dev1) :=
                DeviceCreateTexture Dev Desc
                  (Some {| Levels := []; pStagingTex := None |}) in
              (Some t, Dev1, [])
          | None => (None, Dev, [])
          end
        else (None, Dev, []) in
      let '(pTex, Dev2) :=
        match pTex with
        | Some t => (Some t, Dev1)
        | None =>
            let Level0 :=
              {| LvlData := GenerateCheckerBoardPattern 32 32;
                 LvlStride := 32 * 4; LvlWidth := 32; LvlHeight := 32 |} in
            let '(t, Dev2) :=
              DeviceCreateTexture Dev1
                {| TexWidth := 32; TexHeight := 32; TexMipLevels := 1;
                   TexFormat := TEX_FORMAT_RGBA8_UNORM |}
                (Some {| Levels := [Level0]; pStagingTex := None |}) in
            (Some t, Dev2)
        end in
      let Cache' :=
        match pTex, pTextureCache with
        | Some t, Some Cache =>
            Some {| CacheTextures :=
                      match CacheTextures Cache !! CacheId with
                      | Some _ => CacheTextures Cache
                      | None => <[CacheId := t]> (CacheTextures Cache)
                      end |}
        | _, _ => pTextureCache
        end in
      ({| pTexture := pTex; pAtlasSuballocation := None |}, Cache', Dev2, log0 ++ log1) in
  (set_Textures M (Textures M ++ [TexInfo']), pTextureCache', Dev', log).

(** [Model::AddTexture] with [pResourceMgr == nullptr], run without
    interference from another thread *)
Definition AddTexture (M : Model) (pTextureCache : option TextureCacheType)
    (Dev : Device) (Image : ImageData) (CacheId : string)
    : Model * option TextureCacheType * Device * list Diag :=
  let '(TexInfo, pTextureCache1, log0) := AddTexture_Find pTextureCache Dev Image CacheId in
  let '(M', pTextureCache2, Dev', log1) :=
    AddTexture_Create M TexInfo pTextureCache1 Dev Image CacheId in
  (M', pTextureCache2, Dev', log0 ++ log1).

End Loading.

(** ** A reference implementation of the external interfaces

    The examples below run the loader on concrete data.  For that the
    parameters are instantiated with single-precision implementations
    written after the engine's BasicMath and GraphicsAccessories headers,
    which are not part of this repository: 4x4 matrices in row-vector
    convention, [lerp(l, r, w) = l * (1 - w) + r * w], and
    [clamp(v, lo, hi) = v < lo ? lo : (v > hi ? hi : v)]. *)
Module Ref.

Definition Mat4 : Type := list (list F32.float).

Definition idx4 : list nat := [0; 1; 2; 3].

Definition mget (m : Mat4) (i j : nat) : F32.float := nth j (nth i m []) F32.zero.

Definition mbuild (f : nat -> nat -> F32.float) : Mat4 :=
  map (fun i => map (f i) idx4) idx4.

Definition mzero : Mat4 := mbuild (fun _ _ => F32.zero).

Definition midentity : Mat4 :=
  mbuild (fun i j => if Nat.eqb i j then F32.one else F32.zero).

Definition mmul (a b : Mat4) : Mat4 :=
  mbuild (fun i j =>
            fold_left (fun acc k => F32.add acc (F32.mul (mget a i k) (mget b k j)))
                      idx4 F32.zero).

Definition mtranslation (v : float3) : Mat4 :=
  [[F32.one; F32.zero; F32.zero; F32.zero];
   [F32.zero; F32.one; F32.zero; F32.zero];
   [F32.zero; F32.zero; F32.one; F32.zero];
   [f3x v; f3y v; f3z v; F32.one]].

Definition mscale (v : float3) : Mat4 :=
  [[f3x v; F32.zero; F32.zero; F32.zero];
   [F32.zero; f3y v; F32.zero; F32.zero];
   [F32.zero; F32.zero; f3z v; F32.zero];
   [F32.zero; F32.zero; F32.zero; F32.one]].

Definition two : F32.float := F32.of_Z 2.

Definition mrotation (r : QuaternionF) : Mat4 :=
  let q := Quat_q r in
  let p a b := F32.mul (F32.mul two a) b in
  let xx := p (f4x q) (f4x q) in let yy := p (f4y q) (f4y q) in
  let zz := p (f4z q) (f4z q) in
  let xy := p (f4x q) (f4y q) in let xz := p (f4x q) (f4z q) in
  let yz := p (f4y q) (f4z q) in
  let wx := p (f4w q) (f4x q) in let wy := p (f4w q) (f4y q) in
  let wz := p (f4w q) (f4z q) in
  let om a b := F32.sub (F32.sub F32.one a) b in
  [[om yy zz; F32.add xy wz; F32.sub xz wy; F32.zero];
   [F32.sub xy wz; om xx zz; F32.add yz wx; F32.zero];
   [F32.add xz wy; F32.sub yz wx; om xx yy; F32.zero];
   [F32.zero; F32.zero; F32.zero; F32.one]].

(** Determinant by expansion along the first row, for an [n] x [n] matrix *)
Definition drop_nth {A : Type} (k : nat) (l : list A) : list A :=
  take k l ++ drop (S k) l.

Fixpoint det (n : nat) (m : list (list F32.float)) : F32.float :=
  match n with
  | O => F32.one
  | S n' =>
      fold_left
        (fun acc j =>
           let c := F32.mul (nth j (nth 0 m []) F32.zero)
                            (det n' (map (drop_nth j) (drop 1 m))) in
           if Nat.even j then F32.add acc c else F32.sub acc c)
        (seq 0 n) F32.zero
  end.

Definition minverse (m : Mat4) : Mat4 :=
  let d := det 4 m in
  mbuild (fun i j =>
            let c := det 3 (map (drop_nth i) (drop_nth j m)) in
            F32.div (if Nat.even (i + j) then c else SFopp c) d).

Definition vlerp (l r : float3) (w : F32.float) : float3 :=
  let f a b := F32.add (F32.mul a (F32.sub F32.one w)) (F32.mul b w) in
  mk_float3 (f (f3x l) (f3x r)) (f (f3y l) (f3y r)) (f (f3z l) (f3z r)).

Definition qnormalize (r : QuaternionF) : QuaternionF :=
  let q := Quat_q r in
  let sq a := F32.mul a a in
  let len :=
    SFsqrt F32.prec F32.emax
      (F32.add (F32.add (F32.add (sq (f4x q)) (sq (f4y q))) (sq (f4z q))) (sq (f4w q))) in
  mk_Quaternion (mk_float4 (F32.div (f4x q) len) (F32.div (f4y q) len)
                           (F32.div (f4z q) len) (F32.div (f4w q) len)).

(** Spherical interpolation needs [acos] and [sin]; the reference
    implementation has only its branch for nearly parallel quaternions,
    which interpolates linearly and normalises. *)
Definition qslerp (a b : QuaternionF) (t : F32.float) : QuaternionF :=
  let f x y := F32.add x (F32.mul t (F32.sub y x)) in
  let p := Quat_q a in let q := Quat_q b in
  qnormalize (mk_Quaternion (mk_float4 (f (f4x p) (f4x q)) (f (f4y p) (f4y q))
                                       (f (f4z p) (f4z q)) (f (f4w p) (f4w q)))).

Definition fclamp (v lo hi : F32.float) : F32.float :=
  if F32.ltb v lo then lo else if F32.gtb v hi then hi else v.

Definition vmin (a b : float3) : float3 :=
  mk_float3 (F32.std_min (f3x a) (f3x b)) (F32.std_min (f3y a) (f3y b))
            (F32.std_min (f3z a) (f3z b)).
Definition vmax (a b : float3) : float3 :=
  mk_float3 (F32.std_max (f3x a) (f3x b)) (F32.std_max (f3y a) (f3y b))
            (F32.std_max (f3z a) (f3z b)).

(** A point as a row vector times a matrix *)
Definition transform_point (v : float3) (m : Mat4) : float3 :=
  let c j :=
    F32.add (F32.add (F32.add (F32.mul (f3x v) (mget m 0 j)) (F32.mul (f3y v) (mget m 1 j)))
                     (F32.mul (f3z v) (mget m 2 j))) (mget m 3 j) in
  mk_float3 (c 0) (c 1) (c 2).

Definition bb_transform (bb : BoundBox) (m : Mat4) : BoundBox :=
  let corners :=
    map (fun '(a, b, c) =>
           transform_point
             (mk_float3 (f3x (if a : bool then BBMax bb else BBMin bb))
                        (f3y (if b : bool then BBMax bb else BBMin bb))
                        (f3z (if c : bool then BBMax bb else BBMin bb))) m)
        [(false, false, false); (false, false, true); (false, true, false);
         (false, true, true); (true, false, false); (true, false, true);
         (true, true, false); (true, true, true)] in
  match corners with
  | [] => bb
  | c0 :: rest =>
      {| BBMin := fold_left vmin rest c0; BBMax := fold_left vmax rest c0 |}
  end.

Definition Math : BasicMath := {|
  float4x4 := Mat4;
  float4x4_default := mzero;
  float4x4_Identity := midentity;
  float4x4_mul := mmul;
  float4x4_Translation := mtranslation;
  float4x4_Scale := mscale;
  Quaternion_ToMatrix := mrotation;
  float4x4_Inverse := minverse;
  lerp := vlerp;
  slerp := qslerp;
  normalize := qnormalize;
  clamp := fclamp;
  BoundBox_Transform := bb_transform;
  float3_min := vmin;
  float3_max := vmax
|}.

(** Graphics: a device that knows the format RGBA8_UNORM and one
    block-compressed format with 4x4 blocks. *)
Inductive Format : Type := RGBA8_UNORM | BC1_UNORM.

Definition format_attribs (f : Format) : TextureFormatAttribs :=
  match f with
  | RGBA8_UNORM =>
      {| FmtBlockWidth := 1; FmtBlockHeight := 1; FmtComponentSize := 1;
         FmtNumComponents := 4; FmtIsCompressed := false |}
  | BC1_UNORM =>
      {| FmtBlockWidth := 4; FmtBlockHeight := 4; FmtComponentSize := 8;
         FmtNumComponents := 3; FmtIsCompressed := true |}
  end.

Definition align_up (v a : Z) : Z := ((v + (a - 1)) / a * a)%Z.

(** Box filter: every byte of the coarse level is the mean of the (up to)
    2x2 bytes of the fine level above it, for 4 bytes per pixel. *)
Definition box_filter (fmt : Format) (FineWidth FineHeight : Z) (Fine : list Z)
    (FineStride CoarseStride : Z) (Coarse : list Z) : list Z :=
  let at_ (r c : Z) :=
    nth (Z.to_nat (Z.min r (FineHeight - 1) * FineStride + c)) Fine 0%Z in
  imap (fun k _ =>
          let r := (Z.of_nat k / CoarseStride)%Z in
          let c := (Z.of_nat k mod CoarseStride)%Z in
          let px := (c / 4)%Z in let ch := (c mod 4)%Z in
          let c0 := (Z.min (2 * px) (FineWidth - 1) * 4 + ch)%Z in
          let c1 := (Z.min (2 * px + 1) (FineWidth - 1) * 4 + ch)%Z in
          ((at_ (2 * r) c0 + at_ (2 * r) c1 + at_ (2 * r + 1) c0 + at_ (2 * r + 1) c1) / 4)%Z)
       Coarse.

Definition mip_props (d : TextureDesc Format) (mip : Z) : Z * Z :=
  (Z.max (Z.shiftr (TexWidth d) mip) 1, Z.max (Z.shiftr (TexHeight d) mip) 1).

Definition mip_count (w h : Z) : Z := (Z.log2 (Z.max (Z.max w h) 1) + 1)%Z.

Definition checkerboard (w h : Z) : list Z :=
  flat_map (fun k =>
              let r := (Z.of_nat k / w)%Z in let c := (Z.of_nat k mod w)%Z in
              let v := if Z.even (r / 4 + c / 4) then 255%Z else 0%Z in
              [v; v; v; 255%Z])
           (seq 0 (Z.to_nat (w * h))).

Definition Graphics : GraphicsAccessories := {|
  TEXTURE_FORMAT := Format;
  TEX_FORMAT_RGBA8_UNORM := RGBA8_UNORM;
  GetTextureFormatAttribs := format_attribs;
  AlignUp := align_up;
  ComputeMipLevel := box_filter;
  GetMipLevelProperties := mip_props;
  ComputeMipLevelsCount := mip_count;
  GenerateCheckerBoardPattern := checkerboard;
  CreateTextureLoaderFromMemory := fun _ _ => None  (* no container loader *)
|}.

End Ref.

(** ** Notions used in the statements *)

(** A material that is not opaque and uses texture [TextureIndex] as its
    base color: the materials [GetTextureAlphaCutoffValue] does not skip *)
Definition NonOpaqueUser (BaseTexAttribIdx TextureIndex : Z) (Mat : Material) : bool :=
  (nth (Z.to_nat BaseTexAttribIdx) (TextureIds Mat) (-1) =? TextureIndex)%Z &&
  negb (ALPHA_MODE_eqb (Attribs_AlphaMode Mat) ALPHA_MODE_OPAQUE).

(** The local [NewAlphaCutoff] of [GetTextureAlphaCutoffValue] *)
Definition NewCutoff (Mat : Material) : F32.float :=
  if ALPHA_MODE_eqb (Attribs_AlphaMode Mat) ALPHA_MODE_MASK
  then Attribs_AlphaCutoff Mat else F32.zero.

(** The contract of [clamp(val, min, max)] for a non-empty interval *)
Definition ClampSpec `{BM : BasicMath} : Prop :=
  forall v lo hi : F32.float,
    F32.leb lo hi = true ->
    (F32.ltb v lo = true -> clamp v lo hi = lo) /\
    (F32.ltb hi v = true -> clamp v lo hi = hi) /\
    (F32.leb lo v = true -> F32.leb v hi = true -> clamp v lo hi = v).

Section Forests.
Context `{BM : BasicMath}.

(** The node indices of a subtree in depth-first pre-order *)
Fixpoint Preorder (n : Node) : list nat :=
  Index n :: flat_map Preorder (Children n).

(** The assignments of the global pass below a node, in depth-first
    pre-order: the index written and the reference to the parent matrix *)
Fixpoint Edges (n : Node) (ParentMatrix : MatrixRef) : list (nat * MatrixRef) :=
  (Index n, ParentMatrix) :: flat_map (fun c => Edges c (RefGlobal (Index n))) (Children n).

(** The nodes reachable from a list of roots *)
Inductive InForest (roots : list Node) : Node -> Prop :=
| InForest_root r : In r roots -> InForest roots r
| InForest_child p c : InForest roots p -> In c (Children p) -> InForest roots c.

(** A node with the default translation, rotation and scale and the
    identity matrix *)
Definition DefaultTRS (N : Node) : Prop :=
  Translation N = float3_zero /\ Rotation N = Quaternion_default /\
  Scale N = float3_ones /\ Matrix N = float4x4_Identity.

(** What the global pass leaves alone *)
Definition SameShape (T T' : ModelTransforms) : Prop :=
  NodeLocalMatrices T' = NodeLocalMatrices T /\
  length (NodeGlobalMatrices T') = length (NodeGlobalMatrices T) /\
  Skins T' = Skins T /\ NodeAnimations T' = NodeAnimations T.

End Forests.

(** The first pair of keyframes that brackets [time] *)
Definition FirstBracket (inputs : list F32.float) (time : F32.float) (i : nat) : Prop :=
  Brackets inputs time i = true /\ forall j, j < i -> Brackets inputs time j = false.

(** The interpolation parameter of LINEAR interpolation in bracket [i]:
    [(time - Inputs[i]) / (Inputs[i + 1] - Inputs[i])] *)
Definition LinearParameter (inputs : list F32.float) (time : F32.float) (i : nat) : F32.float :=
  F32.div (F32.sub time (nth i inputs F32.zero))
          (F32.sub (nth (i + 1) inputs F32.zero) (nth i inputs F32.zero)).

Definition set_TDTranslation (A : TransformData) (v : float3) : TransformData :=
  {| TDTranslation := v; TDRotation := TDRotation A; TDScale := TDScale A |}.
Definition set_TDRotation (A : TransformData) (q : QuaternionF) : TransformData :=
  {| TDTranslation := TDTranslation A; TDRotation := q; TDScale := TDScale A |}.
Definition set_TDScale (A : TransformData) (v : float3) : TransformData :=
  {| TDTranslation := TDTranslation A; TDRotation := TDRotation A; TDScale := v |}.

(** The alpha remapping formula as the specification words it, over the
    rationals: [max(A, round(clamp(A/3 + 2/3 * cutoff * 255, 0, 255)))] with
    rounding to the nearest integer. *)
Definition Qmin2 (a b : Q) : Q := if Qle_bool a b then a else b.
Definition Qmax2 (a b : Q) : Q := if Qle_bool a b then b else a.
Definition Qclamp (q lo hi : Q) : Q := Qmax2 lo (Qmin2 q hi).
Definition Qround_nearest (q : Q) : Z := Qfloor (q + (1 # 2)).
Definition spec_alpha_remap (A : Z) (cutoff : Q) : Z :=
  Z.max A (Qround_nearest
             (Qclamp (inject_Z A / 3 + (2 # 3) * (cutoff * 255)) 0 255)).

(** The same formula with the fraction dropped instead, as the conversion
    of a [float] to an integer does *)
Definition exact_alpha_remap (A : Z) (cutoff : Q) : Z :=
  Z.max A (Qfloor (Qmin2 (inject_Z A / 3 + (2 # 3) * (cutoff * 255)) 255)).

(** The float [0.5] *)
Definition half : F32.float := F32.of_dyadic 1 (-1).

(** A loop that writes the bytes [fr i], [fg i], [fb i], [fa i] to pixel [i]
    for [i < n]: the shape of both pixel loops of
    [PrepareGLTFTextureInitData] *)
Definition pixel_loop (fr fg fb fa : nat -> Z) (n : nat) (dst : list Z) : list Z :=
  fold_left (fun dst i => store_pixel dst i (fr i) (fg i) (fb i) (fa i)) (seq 0 n) dst.

(** The payload slot of a texture entry: the user data of its atlas
    suballocation if it has one, else of its texture *)
Inductive Slot : Type :=
| SlotTexture (t : nat)
| SlotAllocation (a : nat).

#[export] Instance Slot_eq_dec : EqDecision Slot.
Proof. solve_decision. Defined.

Definition TextureSlot (TexInfo : TextureInfo) : option Slot :=
  match pAtlasSuballocation TexInfo with
  | Some a => Some (SlotAllocation a)
  | None =>
      match pTexture TexInfo with
      | Some t => Some (SlotTexture t)
      | None => None
      end
  end.

Section Slots.
Context `{GA : GraphicsAccessories}.

(** The data of level 0 that [PrepareGLTFTextureInitData] produces *)
Definition Level0Data (Image : ImageData) (AlphaCutoff : F32.float) (NumMipLevels : nat)
    : list Z :=
  LvlData (nth 0 (Levels (fst (PrepareGLTFTextureInitData Image AlphaCutoff NumMipLevels)))
               LevelData_default).

(** The init data attached to a slot *)
Definition SlotData (Dev : Device) (s : Slot) : option TextureInitData :=
  match s with
  | SlotTexture t =>
      match DevTextures Dev !! t with Some o => TexObjUserData o | None => None end
  | SlotAllocation a =>
      match DevAllocations Dev !! a with Some al => AllocUserData al | None => None end
  end.

(** The init data attached to a buffer entry *)
Definition BufferData (Dev : Device) (BuffInfo : BufferInfo) : option (list Z) :=
  match pSuballocation BuffInfo with
  | Some a =>
      match DevBufferAllocations Dev !! a with
      | Some al => SubAllocUserData al
      | None => None
      end
  | None =>
      match pBuffer BuffInfo with
      | Some b =>
          match DevBuffers Dev !! b with Some o => BufObjUserData o | None => None end
      | None => None
      end
  end.

(** What [SetUserData(nullptr)] never changes: the descriptions of the
    textures and the placement of the suballocations *)
Definition SameObjects (Dev Dev' : Device) : Prop :=
  (forall t, TexObjDesc <$> DevTextures Dev' !! t = TexObjDesc <$> DevTextures Dev !! t) /\
  (forall a,
     (fun al => (AllocAtlasTexture al, AllocSlice al, AllocOrigin al))
       <$> DevAllocations Dev' !! a
     = (fun al => (AllocAtlasTexture al, AllocSlice al, AllocOrigin al))
       <$> DevAllocations Dev !! a).

(** The commands [PrepareTexture] issues for an entry whose init data is
    [InitData] *)
Definition TextureUpload (Dev : Device) (TexInfo : TextureInfo) (InitData : TextureInitData)
    : list Command :=
  match pAtlasSuballocation TexInfo with
  | Some a =>
      match DevAllocations Dev !! a with
      | Some al =>
          match AllocAtlasTexture al with
          | Some pTex =>
              match DevTextures Dev !! pTex with
              | Some o =>
                  UploadTextureData Dev TexInfo (Some al) pTex (TexObjDesc o) InitData
              | None => []
              end
          | None => []
          end
      | None => []
      end
  | None =>
      match pTexture TexInfo with
      | Some t =>
          match DevTextures Dev !! t with
          | Some o => UploadTextureData Dev TexInfo None t (TexObjDesc o) InitData
          | None => []
          end
      | None => []
      end
  end.

Definition st_dev (st : PrepareState) : Device := fst (fst st).
Definition st_barriers (st : PrepareState) : list StateTransitionDesc := snd (fst st).
Definition st_cmds (st : PrepareState) : list Command := snd st.


End Slots.

Section Calls.
Context `{GA : GraphicsAccessories} `{BM : BasicMath}.


End Calls.

(** ** Concrete data for the examples *)
Module Ex.

Definition v3 (a b c : Z) : float3 := mk_float3 (F32.of_Z a) (F32.of_Z b) (F32.of_Z c).
Definition v4 (a b c d : Z) : float4 :=
  mk_float4 (F32.of_Z a) (F32.of_Z b) (F32.of_Z c) (F32.of_Z d).

(** A node with default translation, rotation and scale and the identity
    matrix *)
Definition plain_node (i : nat) (children : list (@Node Ref.Math)) : @Node Ref.Math :=
  @mkNode Ref.Math i 0 float3_zero Quaternion_default float3_ones Ref.midentity children
          None None.

Definition no_transforms : @ModelTransforms Ref.Math :=
  {| NodeLocalMatrices := []; NodeGlobalMatrices := []; Skins := []; NodeAnimations := [] |}.

(** Translation keyframes (t = 0, v = (0,0,0)) and (t = 2, v = (2,0,0)),
    interpolated linearly *)
Definition linear_animation : Animation :=
  {| Samplers := [{| Interpolation := LINEAR;
                     Inputs := [F32.of_Z 0; F32.of_Z 2];
                     OutputsVec4 := [v4 0 0 0 0; v4 2 0 0 0] |}];
     Channels := [{| PathType := TRANSLATION; ChannelNodeIndex := 0; SamplerIndex := 0 |}];
     AnimStart := F32.of_Z 0; AnimEnd := F32.of_Z 2 |}.

(** Translation keyframes at t = 0, 1, 2 with values (10,0,0), (20,0,0),
    (30,0,0), with STEP interpolation *)
Definition step_animation : Animation :=
  {| Samplers := [{| Interpolation := STEP;
                     Inputs := [F32.of_Z 0; F32.of_Z 1; F32.of_Z 2];
                     OutputsVec4 := [v4 10 0 0 0; v4 20 0 0 0; v4 30 0 0 0] |}];
     Channels := [{| PathType := TRANSLATION; ChannelNodeIndex := 0; SamplerIndex := 0 |}];
     AnimStart := F32.of_Z 0; AnimEnd := F32.of_Z 2 |}.

Definition base_color : string := "baseColorTexture".

Definition material (tex : Z) (mode : ALPHA_MODE) (cutoff : F32.float) : Material :=
  {| TextureIds := [tex]; Attribs_AlphaMode := mode; Attribs_AlphaCutoff := cutoff |}.

Definition quarter : F32.float := F32.of_dyadic 1 (-2).

(** A root with one child, two animations; texture 0 is the base color of
    two alpha-mask materials and an opaque one, texture 1 of an alpha-mask
    and an alpha-blend material, texture 2 of no material. *)
Definition model : @Model Ref.Math :=
  {| TextureAttributes := [{| TexAttribName := base_color; TexAttribIndex := 0 |}];
     Materials := [material 0 ALPHA_MODE_MASK half; material 0 ALPHA_MODE_MASK quarter;
                   material 0 ALPHA_MODE_OPAQUE half;
                   material 1 ALPHA_MODE_MASK half; material 1 ALPHA_MODE_BLEND half];
     Textures := []; Buffers := []; GPUDataInitialized := false;
     LinearNodes := [plain_node 0 [plain_node 1 []]; plain_node 1 []];
     RootNodes := [plain_node 0 [plain_node 1 []]];
     Animations := [linear_animation; step_animation];
     SkinTransformsCount := 0 |}.

Definition root_transform : Ref.Mat4 := Ref.mtranslation (v3 1 2 3).

(** A 1x1 RGBA image with the given alpha byte *)
Definition image (alpha : Z) : ImageData :=
  {| ImgWidth := 1; ImgHeight := 1; ImgNumComponents := 4; ImgComponentSize := 1;
     ImgFileFormat := IMAGE_FILE_FORMAT_UNKNOWN;
     ImgpData := [10; 20; 30; alpha]%Z; ImgDataSize := 4 |}.

Definition no_objects : @Device Ref.Graphics :=
  {| DevTextures := ∅; DevAllocations := ∅; DevBuffers := ∅; DevBufferAllocations := ∅ |}.

Definition empty_cache : option TextureCacheType := Some {| CacheTextures := ∅ |}.

Definition key : string := "scene/wall.png".

(** A scene load: a model without textures that adds the texture [key] *)
Definition scene : @Model Ref.Math :=
  {| TextureAttributes := []; Materials := []; Textures := []; Buffers := [];
     GPUDataInitialized := false; LinearNodes := []; RootNodes := [];
     Animations := []; SkinTransformsCount := 0 |}.





End Ex.

(** * The rest of the loader *)

(** A call of [TransitionResourceStates] *)
Definition IsTransition (c : Command) : bool :=
  match c with CmdTransitionResourceStates _ => true | _ => false end.

Section IssueNotions.
Context `{GA : GraphicsAccessories} `{BM : BasicMath}.

(** A command that uploads a payload that was attached to an entry of the
    model before the call *)
Definition UploadsPayload (M : Model) (Dev : Device) (c : Command) : Prop :=
  (exists X s d, In X (Textures M) /\ TextureSlot X = Some s /\
                 SlotData Dev s = Some d /\ In c (TextureUpload Dev X d)) \/
  (exists B data p Offset, In B (Buffers M) /\ BufferData Dev B = Some data /\
                           c = CmdUpdateBuffer p Offset (wrap32 (Z.of_nat (length data))) data).

(** The local [pTexture] of the loop over the textures: the texture of the
    atlas for an entry with a suballocation, else the texture of the
    entry *)
Definition EntryTexture (Dev : Device) (X : TextureInfo) : option nat :=
  match pAtlasSuballocation X with
  | Some a =>
      match DevAllocations Dev !! a with
      | Some al => AllocAtlasTexture al
      | None => None
      end
  | None => pTexture X
  end.

(** The local [pBuffer] of the loop over the buffers: the buffer of the
    allocator for an entry with a suballocation, else the buffer of the
    entry *)
Definition EntryBuffer (Dev : Device) (B : BufferInfo) : option nat :=
  match pSuballocation B with
  | Some a =>
      match DevBufferAllocations Dev !! a with
      | Some al => SubAllocBuffer al
      | None => None
      end
  | None => pBuffer B
  end.


(** A barrier of a call on the objects [Dev].  A barrier to the shader
    resource state names the texture (the local [pTexture]) of an entry of
    [Textures] whose member [pTexture] is set and whose slot held init data
    before the call; a barrier to the index buffer state names the buffer
    of the last entry of [Buffers], one to the vertex buffer state the
    buffer of an earlier entry, in both cases an entry whose member
    [pBuffer] is set and that held init data before the call *)
Definition BarrierOf (M : Model) (Dev : Device) (b : StateTransitionDesc) : Prop :=
  match NewState b with
  | RESOURCE_STATE_SHADER_RESOURCE =>
      exists X t s d,
        In X (Textures M) /\ is_Some (pTexture X) /\
        EntryTexture Dev X = Some t /\ pResource b = ObjTexture t /\
        TextureSlot X = Some s /\ SlotData Dev s = Some d
  | RESOURCE_STATE_INDEX_BUFFER =>
      exists B data,
        last (Buffers M) = Some B /\ is_Some (pBuffer B) /\
        pResource b = ObjBuffer (EntryBuffer Dev B) /\ BufferData Dev B = Some data
  | RESOURCE_STATE_VERTEX_BUFFER =>
      exists i B data,
        Buffers M !! i = Some B /\ S i < length (Buffers M) /\ is_Some (pBuffer B) /\
        pResource b = ObjBuffer (EntryBuffer Dev B) /\ BufferData Dev B = Some data
  end.

End IssueNotions.

Section LoadingNotions.
Context `{GA : GraphicsAccessories} `{BM : BasicMath}.
Variable BaseColorTextureName : string.

(** What [emplace] does to the cache: an entry that is there is kept *)
Definition Emplace (pTextureCache : option TextureCacheType) (CacheId : string) (t : nat)
    : option TextureCacheType :=
  match pTextureCache with
  | Some Cache =>
      Some {| CacheTextures :=
                match CacheTextures Cache !! CacheId with
                | Some _ => CacheTextures Cache
                | None => <[CacheId := t]> (CacheTextures Cache)
                end |}
  | None => None
  end.

(** The store with one more texture *)
Definition WithTexture (Dev : Device) (t : nat) (o : TextureObject) : Device :=
  {| DevTextures := <[t := o]> (DevTextures Dev);
     DevAllocations := DevAllocations Dev;
     DevBuffers := DevBuffers Dev;
     DevBufferAllocations := DevBufferAllocations Dev |}.

(** The checkerboard stub *)
Definition StubTexture : TextureObject :=
  {| TexObjDesc := {| TexWidth := 32; TexHeight := 32; TexMipLevels := 1;
                      TexFormat := TEX_FORMAT_RGBA8_UNORM |};
     TexObjUserData :=
       Some {| Levels := [{| LvlData := GenerateCheckerBoardPattern 32 32;
                             LvlStride := 32 * 4; LvlWidth := 32; LvlHeight := 32 |}];
               pStagingTex := None |} |}.

(** The texture for a decoded image *)
Definition ImageTexture (M : Model) (Image : ImageData) : TextureObject :=
  {| TexObjDesc := {| TexWidth := ImgWidth Image; TexHeight := ImgHeight Image;
                      TexMipLevels := ComputeMipLevelsCount (ImgWidth Image) (ImgHeight Image);
                      TexFormat := TEX_FORMAT_RGBA8_UNORM |};
     TexObjUserData :=
       Some (fst (PrepareGLTFTextureInitData Image
                    (fst (GetTextureAlphaCutoffValue BaseColorTextureName M
                            (Z.of_nat (length (Textures M)))))
                    1)) |}.

End LoadingNotions.

(** ** Loading the textures of a file *)

(** The fields of [tinygltf::Image] and [tinygltf::Texture] that
    [Model::LoadTextures] reads.  For an image that was found in a cache,
    or a DDS or KTX file, [LoadImageData] has left [pixel_type] and the
    dimensions as markers instead of decoded pixels. *)
Record GltfImage : Type := {
  img_uri : string;
  img_width : Z;
  img_height : Z;
  img_component : Z;
  img_bits : Z;
  img_pixel_type : Z;
  img_image : list Z
}.

Record GltfTexture : Type := {
  tex_source : Z;
  tex_sampler : Z
}.

(** A default-constructed [tinygltf::Image] *)
Definition GltfImage_default : GltfImage :=
  {| img_uri := ""; img_width := -1; img_height := -1; img_component := -1;
     img_bits := -1; img_pixel_type := -1; img_image := [] |}.

Section LoadTextures.
Context `{GA : GraphicsAccessories} `{BM : BasicMath}.
Variable BaseColorTextureName : string.

(** [FileSystem::SimplifyPath], a function of the engine's platform layer *)
Variable SimplifyPath : string -> string.

(** The conversion [static_cast<IMAGE_FILE_FORMAT>(pixel_type)]; the values
    of the enumeration belong to the engine's image library *)
Variable IMAGE_FILE_FORMAT_of_int : Z -> IMAGE_FILE_FORMAT.

(** The [ImageData] that the loop body of [Model::LoadTextures] fills in *)
Definition LoadTextures_Image (gltf_image : GltfImage) : ImageData :=
  {| ImgWidth := img_width gltf_image;
     ImgHeight := img_height gltf_image;
     ImgNumComponents := img_component gltf_image;
     ImgComponentSize := Z.quot (img_bits gltf_image) 8;
     ImgFileFormat :=
       if (img_width gltf_image <? 0)%Z && (img_height gltf_image <? 0)%Z
       then IMAGE_FILE_FORMAT_of_int (img_pixel_type gltf_image)
       else IMAGE_FILE_FORMAT_UNKNOWN;
     ImgpData := img_image gltf_image;
     ImgDataSize := Z.of_nat (length (img_image gltf_image)) |}.

(** The local [CacheId] of the loop body *)
Definition LoadTextures_CacheId (BaseDir : string) (gltf_image : GltfImage) : string :=
  if String.eqb (img_uri gltf_image) "" then ""
  else SimplifyPath (String.append BaseDir (img_uri gltf_image)).

(** [gltf_model.images[gltf_tex.source]]: an index out of range (a
    negative one included) is undefined in C++ and reads a default image
    here *)
Definition SourceImage (gltf_images : list GltfImage) (source : Z) : GltfImage :=
  if (source <? 0)%Z then GltfImage_default
  else nth (Z.to_nat source) gltf_images GltfImage_default.

(** The textures of the file whose images exist *)
Definition SourcesInRange (gltf_textures : list GltfTexture) (gltf_images : list GltfImage)
    : Prop :=
  Forall (fun gltf_tex => (0 <= tex_source gltf_tex < Z.of_nat (length gltf_images))%Z)
         gltf_textures.

(** The state of the loop: the model, the cache, the store and the
    messages so far *)
Definition LoadState : Type :=
  (Model * option TextureCacheType * Device * list Diag)%type.

(** The loop body of [Model::LoadTextures] for [pResourceMgr == nullptr] *)
Definition LoadTexture (gltf_images : list GltfImage) (BaseDir : string)
    (st : LoadState) (gltf_tex : GltfTexture) : LoadState :=
  let '(M, pTextureCache, Dev, log) := st in
  let gltf_image := SourceImage gltf_images (tex_source gltf_tex) in
  let CacheId := LoadTextures_CacheId BaseDir gltf_image in
  let '(M', pTextureCache', Dev', l) :=
    AddTexture BaseColorTextureName M pTextureCache Dev
               (LoadTextures_Image gltf_image) CacheId in
  (M', pTextureCache', Dev', log ++ l).

(** [Model::LoadTextures] with [pResourceMgr == nullptr] *)
Definition LoadTextures (M : Model) (pTextureCache : option TextureCacheType)
    (Dev : Device) (gltf_textures : list GltfTexture) (gltf_images : list GltfImage)
    (BaseDir : string) : LoadState :=
  fold_left (LoadTexture gltf_images BaseDir) gltf_textures (M, pTextureCache, Dev, []).

(** The cache key of a texture of the file *)
Definition TextureKey (gltf_images : list GltfImage) (BaseDir : string)
    (gltf_tex : GltfTexture) : string :=
  LoadTextures_CacheId BaseDir (SourceImage gltf_images (tex_source gltf_tex)).

End LoadTextures.

(** A cache without stale entries: every texture it names is in the store *)
Definition CacheAlive `{GA : GraphicsAccessories} (pTextureCache : option TextureCacheType)
    (Dev : Device) : Prop :=
  forall C k t, pTextureCache = Some C -> CacheTextures C !! k = Some t ->
                is_Some (DevTextures Dev !! t).

(** A channel that writes a pose at [time]: its sampler has at least as
    many outputs as inputs, some pair of consecutive keyframes brackets
    [time], and the path is not [WEIGHTS] *)
Definition ChannelWrites (animation : Animation) (time : F32.float)
    (channel : AnimationChannel) : bool :=
  let sampler := nth (SamplerIndex channel) (Samplers animation) AnimationSampler_default in
  negb (length (OutputsVec4 sampler) <? length (Inputs sampler)) &&
  bool_decide (is_Some (FindKeyframe (Inputs sampler) time)) &&
  match PathType channel with WEIGHTS => false | _ => true end.

Section TransformNotions.
Context `{BM : BasicMath}.

(** The transforms after the first stage of [ComputeTransforms] (the
    animation update, or the static local matrices) *)
Definition AfterPoses (M : Model) (T : ModelTransforms) (AnimationIndex : Z)
    (Time : F32.float) : ModelTransforms :=
  let n := length (LinearNodes M) in
  let T1 :=
    set_NodeLocalMatrices
      (set_NodeGlobalMatrices T (resize n float4x4_default (NodeGlobalMatrices T)))
      (resize n float4x4_default (NodeLocalMatrices T)) in
  if (0 <=? AnimationIndex)%Z then
    fst (UpdateAnimation M (Z.to_nat AnimationIndex) Time
           (set_Skins T1 (resize (SkinTransformsCount M) SkinTransforms_default (Skins T1))))
  else
    set_NodeLocalMatrices (set_Skins T1 [])
      (fold_left (fun L '(i, N) => <[i := ComputeNodeLocalMatrix N]> L)
                 (enumerate (LinearNodes M)) (NodeLocalMatrices T1)).

(** The pose that a channel gives its node when the scan over the
    keyframes of its sampler stops at the pair [i] for the time [time]: the
    static pose of the node with the translation, rotation or scale
    interpolated between the outputs [i] and [i + 1] *)
Definition SampledPose (N : Node) (channel : AnimationChannel) (sampler : AnimationSampler)
    (time : F32.float) (i : nat) : TransformData :=
  let u := match Interpolation sampler with
           | LINEAR => LinearParameter (Inputs sampler) time i
           | _ => F32.zero
           end in
  let out_i := nth i (OutputsVec4 sampler) float4_zero in
  let out_i1 := nth (i + 1) (OutputsVec4 sampler) float4_zero in
  match PathType channel with
  | TRANSLATION =>
      set_TDTranslation (StaticPose N)
        (lerp (float3_of_float4 out_i) (float3_of_float4 out_i1) u)
  | SCALE =>
      set_TDScale (StaticPose N) (lerp (float3_of_float4 out_i) (float3_of_float4 out_i1) u)
  | ROTATION =>
      set_TDRotation (StaticPose N)
        (normalize (slerp (Quaternion_of_float4 out_i) (Quaternion_of_float4 out_i1) u))
  | WEIGHTS => StaticPose N
  end.

(** The poses of [T'] are those of the animation sampled at [time]: every
    channel that is the only channel of its node, whose sampler has an
    output for every input and a first pair [i] of keyframes that brackets
    [time], gives its node the pose sampled in that pair *)
Definition PosesSampledAt (M : Model) (animation : Animation) (time : F32.float)
    (T' : ModelTransforms) : Prop :=
  forall l1 ch l2 sampler i N,
    Channels animation = l1 ++ ch :: l2 ->
    (forall c, In c (l1 ++ l2) -> ChannelNodeIndex c <> ChannelNodeIndex ch) ->
    LinearNodes M !! ChannelNodeIndex ch = Some N ->
    Samplers animation !! SamplerIndex ch = Some sampler ->
    length (Inputs sampler) <= length (OutputsVec4 sampler) ->
    i + 1 < length (Inputs sampler) ->
    FirstBracket (Inputs sampler) time i ->
    NodeAnimations T' !! ChannelNodeIndex ch = Some (SampledPose N ch sampler time i).

End TransformNotions.

(** Componentwise [<=] on vectors, and vectors with a NaN component *)
Definition float3_leb (a b : float3) : bool :=
  F32.leb (f3x a) (f3x b) && F32.leb (f3y a) (f3y b) && F32.leb (f3z a) (f3z b).

Definition float3_has_nan (a : float3) : bool :=
  F32.is_nan (f3x a) || F32.is_nan (f3y a) || F32.is_nan (f3z a).

(** ** The callbacks given to the importer

    [Callbacks::LoaderData], [LoadImageData], [FileExists] and
    [ReadWholeFile] for a load without a resource manager
    ([LoaderData.pResourceMgr == nullptr]); the branches that ask the
    resource manager for an allocation are not part of the model.  The texture
    cache is shared with [AddTexture]; [TexturesHold] keeps strong
    references to the textures found in it.  The file system is a table
    from path to contents.  The error texts of [LoadImageData] are the
    fixed first parts of its messages, without the formatted index, name
    and sizes. *)
Record LoaderData : Type := {
  LD_pTextureCache : option TextureCacheType;
  TexturesHold : list nat;
  LD_BaseDir : string;
  (** [ModelCreateInfo::FileExistsCallback], if one is set *)
  LD_FileExists : option (string -> bool);
  (** [ModelCreateInfo::ReadWholeFileCallback], if one is set: from the
      path and the current [out] and [err] to the result and the new
      [out] and [err] *)
  LD_ReadWholeFile : option (string -> list Z -> string -> bool * list Z * string)
}.

Definition set_TexturesHold (LD : LoaderData) (v : list nat) : LoaderData :=
  {| LD_pTextureCache := LD_pTextureCache LD; TexturesHold := v;
     LD_BaseDir := LD_BaseDir LD; LD_FileExists := LD_FileExists LD;
     LD_ReadWholeFile := LD_ReadWholeFile LD |}.

Definition set_LD_pTextureCache (LD : LoaderData) (v : option TextureCacheType)
    : LoaderData :=
  {| LD_pTextureCache := v; TexturesHold := TexturesHold LD;
     LD_BaseDir := LD_BaseDir LD; LD_FileExists := LD_FileExists LD;
     LD_ReadWholeFile := LD_ReadWholeFile LD |}.

(** An image decoded by the engine's image library: [Image::GetDesc()] and
    the pixel bytes *)
Record DecodedImage : Type := {
  DecWidth : Z;
  DecHeight : Z;
  DecNumComponents : Z;
  DecComponentSize : Z;    (* GetValueSize(ImgDesc.ComponentType) *)
  DecRowStride : Z;
  DecPixels : list Z
}.

Section Callbacks.
Context `{GA : GraphicsAccessories}.

(** [FileSystem::SimplifyPath], [Image::GetFileFormat],
    [Image::CreateFromDataBlob] and the integer value of a file format
    belong to the engine *)
Variable SimplifyPath : string -> string.
Variable GetFileFormat : list Z -> IMAGE_FILE_FORMAT.
Variable CreateFromDataBlob : list Z -> IMAGE_FILE_FORMAT -> option DecodedImage.
Variable IMAGE_FILE_FORMAT_to_int : IMAGE_FILE_FORMAT -> Z.

(** [TINYGLTF_COMPONENT_TYPE_UNSIGNED_BYTE] *)
Definition TINYGLTF_COMPONENT_TYPE_UNSIGNED_BYTE : Z := 5121.

(** The file system: the files that exist, with their contents *)
Definition FileSystem : Type := gmap string (list Z).

(** The lookup of [CacheId] in the texture cache followed by [Lock()] on
    the weak reference: the texture, if it is in the cache and alive *)
Definition LockCached (Dev : Device) (LD : LoaderData) (CacheId : string) : option nat :=
  match LD_pTextureCache LD with
  | Some Cache =>
      match CacheTextures Cache !! CacheId with
      | Some t => if bool_decide (is_Some (DevTextures Dev !! t)) then Some t else None
      | None => None
      end
  | None => None
  end.

(** [Callbacks::FileExists(abs_filename, user_data)] with
    [pResourceMgr == nullptr] in the loader data *)
Definition Callbacks_FileExists (FS : FileSystem) (abs_filename : string)
    (user_data : option LoaderData) : bool :=
  match user_data with
  | Some LD =>
      let CacheId := SimplifyPath abs_filename in
      let cached :=
        match LD_pTextureCache LD with
        | Some Cache => bool_decide (is_Some (CacheTextures Cache !! CacheId))
        | None => false
        end in
      if cached then true
      else
        match LD_FileExists LD with
        | Some cb => cb abs_filename
        | None => bool_decide (is_Some (FS !! abs_filename))
        end
  | None => bool_decide (is_Some (FS !! abs_filename))
  end.

(** The line feed that ends a message *)
Definition newline : string := String (Ascii.ascii_of_nat 10) EmptyString.

(** The part of [Callbacks::ReadWholeFile] that reads from the file
    system; [out] and [err] are not null (the function checks this with
    [VERIFY_EXPR]) *)
Definition ReadFromFileSystem (FS : FileSystem) (out : list Z) (err : string)
    (filepath : string) : bool * list Z * string :=
  match FS !! filepath with
  | None =>
      (false, out,
       String.append err (String.append "Unable to open file " (String.append filepath newline)))
  | Some bytes =>
      if Nat.eqb (length bytes) 0
      then (false, out,
            String.append err (String.append "File is empty: " (String.append filepath newline)))
      else (true, bytes, err)
  end.

(** [Callbacks::ReadWholeFile(out, err, filepath, user_data)] with
    [pResourceMgr == nullptr] in the loader data: the result, the new [out]
    and [err], and the loader data afterwards *)
Definition Callbacks_ReadWholeFile (Dev : Device) (FS : FileSystem) (out : list Z)
    (err : string) (filepath : string) (user_data : option LoaderData)
    : bool * list Z * string * option LoaderData :=
  match user_data with
  | Some LD =>
      let CacheId := SimplifyPath filepath in
      match LockCached Dev LD CacheId with
      | Some t =>
          (true, resize 1 0%Z out, err, Some (set_TexturesHold LD (TexturesHold LD ++ [t])))
      | None =>
          match LD_ReadWholeFile LD with
          | Some cb => (cb filepath out err, user_data)
          | None => (ReadFromFileSystem FS out err filepath, user_data)
          end
      end
  | None => (ReadFromFileSystem FS out err filepath, None)
  end.

(** The rows of the decoded image copied into [gltf_image->image] (already
    resized), whose [component] field has been set before: for three components the loops
    over rows and columns that append the alpha byte 255; else, if
    [component] is 4, one [memcpy] of [DstRowSize] bytes per row; else
    nothing ([None]: the caller reports the number of components).  A read
    past the end of the pixels is undefined in C++ and gives 0 here. *)
Definition CopyPixels (Img : DecodedImage) (DstRowSize : Z) (component : Z)
    (image : list Z) : option (list Z) :=
  let src k := nth (Z.to_nat k) (DecPixels Img) 0%Z in
  if (DecNumComponents Img =? 3)%Z then
    Some
      (fold_left
         (fun dst row =>
            fold_left
              (fun dst col =>
                 let d := Z.to_nat (DstRowSize * Z.of_nat row + Z.of_nat col * component) in
                 let s := (DecRowStride Img * Z.of_nat row
                           + Z.of_nat col * DecNumComponents Img)%Z in
                 <[d + 3 := 255%Z]> (<[d + 2 := src (s + 2)%Z]> (<[d + 1 := src (s + 1)%Z]>
                   (<[d := src s]> dst))))
              (seq 0 (Z.to_nat (DecWidth Img))) dst)
         (seq 0 (Z.to_nat (DecHeight Img))) image)
  else if (component =? 4)%Z then
    Some
      (fold_left
         (fun dst row =>
            fold_left
              (fun dst k =>
                 <[Z.to_nat (DstRowSize * Z.of_nat row) + k :=
                     src (DecRowStride Img * Z.of_nat row + Z.of_nat k)%Z]> dst)
              (seq 0 (Z.to_nat DstRowSize)) dst)
         (seq 0 (Z.to_nat (DecHeight Img))) image)
  else None.

(** [Callbacks::LoadImageData] with [pResourceMgr == nullptr] in the
    loader data: the result, the image and the error text afterwards, the
    loader data afterwards, and what the debug check
    [VERIFY(size != 1, ...)] reports.  [image_data] holds the [size] bytes
    the importer passes; [error] may be a null pointer ([None]). *)
Definition LoadImageData (Dev : Device) (gltf_image : GltfImage)
    (error : option string) (req_width req_height : Z) (image_data : list Z)
    (user_data : option LoaderData)
    : bool * GltfImage * option string * option LoaderData * list Diag :=
  let report msg := option_map (fun e => String.append e msg) error in
  let verify :=
    if Nat.eqb (length image_data) 1
    then [DiagUnexpected "The texture was previously cached, but was not found in the cache now"]
    else [] in
  let decode (user_data : option LoaderData) :=
    (let Format := GetFileFormat image_data in
    match Format with
    | IMAGE_FILE_FORMAT_UNKNOWN =>
        (false, gltf_image, report "Unknown format for image", user_data)
    | IMAGE_FILE_FORMAT_DDS | IMAGE_FILE_FORMAT_KTX =>
        (true,
         {| img_uri := img_uri gltf_image; img_width := img_width gltf_image;
            img_height := img_height gltf_image; img_component := img_component gltf_image;
            img_bits := img_bits gltf_image;
            img_pixel_type := IMAGE_FILE_FORMAT_to_int Format;
            img_image := image_data |},
         error, user_data)
    | IMAGE_FILE_FORMAT_OTHER =>
        match CreateFromDataBlob image_data Format with
        | None => (false, gltf_image, report "Failed to load image", user_data)
        | Some Img =>
            if (0 <? req_width)%Z && negb (wrap32 req_width =? DecWidth Img)%Z then
              (false, gltf_image, report "Image width mismatch for image", user_data)
            else if (0 <? req_height)%Z && negb (wrap32 req_height =? DecHeight Img)%Z then
              (false, gltf_image, report "Image height mismatch for image", user_data)
            else
              let bits := (DecComponentSize Img * 8)%Z in
              let component := 4%Z in
              let DstRowSize := (DecWidth Img * component * Z.quot bits 8)%Z in
              let image pixels :=
                {| img_uri := img_uri gltf_image; img_width := DecWidth Img;
                   img_height := DecHeight Img; img_component := component;
                   img_bits := bits;
                   img_pixel_type := TINYGLTF_COMPONENT_TYPE_UNSIGNED_BYTE;
                   img_image := pixels |} in
              let resized :=
                resize (Z.to_nat (DecHeight Img * DstRowSize)) 0%Z (img_image gltf_image) in
              match CopyPixels Img DstRowSize component resized with
              | Some pixels => (true, image pixels, error, user_data)
              | None =>
                  (false, image resized,
                   report "Unexpected number of image components", user_data)
              end
        end
    end, verify) in
  match user_data with
  | Some LD =>
      let CacheId :=
        if String.eqb (img_uri gltf_image) "" then ""
        else SimplifyPath (String.append (LD_BaseDir LD) (img_uri gltf_image)) in
      match LD_pTextureCache LD with
      | Some Cache =>
          match CacheTextures Cache !! CacheId with
          | Some t =>
              match DevTextures Dev !! t with
              | Some o =>
                  let FmtAttribs := GetTextureFormatAttribs (TexFormat (TexObjDesc o)) in
                  (true,
                   {| img_uri := img_uri gltf_image;
                      img_width := TexWidth (TexObjDesc o);
                      img_height := TexHeight (TexObjDesc o);
                      img_component := FmtNumComponents FmtAttribs;
                      img_bits := FmtComponentSize FmtAttribs * 8;
                      img_pixel_type := TINYGLTF_COMPONENT_TYPE_UNSIGNED_BYTE;
                      img_image := img_image gltf_image |},
                   error,
                   Some (set_TexturesHold LD (TexturesHold LD ++ [t])),
                   [])
              | None =>
                  decode (Some (set_LD_pTextureCache LD
                                  (Some {| CacheTextures := delete CacheId (CacheTextures Cache) |})))
              end
          | None => decode user_data
          end
      | None => decode user_data
      end
  | None => decode user_data
  end.

(** The live texture that [LoadImageData] finds in the texture cache for
    the image, if there is one *)
Definition LoadImageData_Cached (Dev : Device) (gltf_image : GltfImage)
    (user_data : option LoaderData) : option nat :=
  match user_data with
  | Some LD =>
      LockCached Dev LD
        (if String.eqb (img_uri gltf_image) "" then ""
         else SimplifyPath (String.append (LD_BaseDir LD) (img_uri gltf_image)))
  | None => None
  end.

End Callbacks.

(** A DDS or KTX file *)
Definition IsDDSorKTX_format (f : IMAGE_FILE_FORMAT) : bool :=
  match f with
  | IMAGE_FILE_FORMAT_DDS | IMAGE_FILE_FORMAT_KTX => true
  | _ => false
  end.

(** ** The file name in [Model::LoadFromFile] *)

(** [s.find_last_of(chars)]: the position of the last character of [s]
    that is one of [chars], if there is one ([npos] otherwise);
    [s.rfind(c, s.length())] is the case of one character *)
Fixpoint find_last_of (s : string) (chars : list Ascii.ascii) : option nat :=
  match s with
  | EmptyString => None
  | String c rest =>
      match find_last_of rest chars with
      | Some i => Some (S i)
      | None => if existsb (Ascii.eqb c) chars then Some 0 else None
      end
  end.

(** The characters ['/'] and ['\\'] *)
Definition slash : Ascii.ascii := Ascii.ascii_of_nat 47.
Definition backslash : Ascii.ascii := Ascii.ascii_of_nat 92.
Definition dot : Ascii.ascii := Ascii.ascii_of_nat 46.

(** [LoaderData.BaseDir] as [Model::LoadFromFile] computes it from the file
    name: the part before the last slash or backslash, if there is one,
    followed by a slash *)
Definition LoadFromFile_BaseDir (filename : string) : string :=
  let BaseDir :=
    match find_last_of filename [slash; backslash] with
    | Some pos => String.substring 0 pos filename
    | None => EmptyString
    end in
  String.append BaseDir (String slash EmptyString).

(** The local [binary] of [Model::LoadFromFile]: whether the file is read
    as a binary glTF file *)
Definition LoadFromFile_binary (filename : string) : bool :=
  match find_last_of filename [dot] with
  | Some extpos =>
      String.eqb (String.substring (extpos + 1) (String.length filename - extpos) filename) "glb"
  | None => false
  end.

(** A string without any of the characters [chars] *)
Fixpoint free_of (chars : list Ascii.ascii) (s : string) : bool :=
  match s with
  | EmptyString => true
  | String c rest => negb (existsb (Ascii.eqb c) chars) && free_of chars rest
  end.

(** ** More concrete data *)
Module Ex2.

(** A 2x1 RGB image *)
Definition rgb_image : ImageData :=
  {| ImgWidth := 2; ImgHeight := 1; ImgNumComponents := 3; ImgComponentSize := 1;
     ImgFileFormat := IMAGE_FILE_FORMAT_UNKNOWN;
     ImgpData := [1; 2; 3; 4; 5; 6]%Z; ImgDataSize := 6 |}.

(** A 5x3 RGBA image, all bytes 7 *)
Definition wide_image : ImageData :=
  {| ImgWidth := 5; ImgHeight := 3; ImgNumComponents := 4; ImgComponentSize := 1;
     ImgFileFormat := IMAGE_FILE_FORMAT_UNKNOWN;
     ImgpData := repeat 7%Z 60; ImgDataSize := 60 |}.

(** A 1x1 image with two components (luminance and alpha) *)
Definition gray_image : ImageData :=
  {| ImgWidth := 1; ImgHeight := 1; ImgNumComponents := 2; ImgComponentSize := 1;
     ImgFileFormat := IMAGE_FILE_FORMAT_UNKNOWN;
     ImgpData := [9; 8]%Z; ImgDataSize := 2 |}.

(** The texture of [wide_image], loaded without a cache *)
Definition wide_loaded : @Model Ref.Math * @Device Ref.Graphics :=
  let '(M, _, Dev, _) :=
    AddTexture (GA := Ref.Graphics) Ex.base_color Ex.scene None Ex.no_objects wide_image "" in
  (M, Dev).

(** An image that could not be loaded *)
Definition missing_image : ImageData :=
  {| ImgWidth := 0; ImgHeight := 0; ImgNumComponents := 0; ImgComponentSize := 0;
     ImgFileFormat := IMAGE_FILE_FORMAT_UNKNOWN; ImgpData := []; ImgDataSize := 0 |}.

(** A 16x16 block-compressed staging texture with all its mip levels *)
Definition staging_desc : TextureDesc (@TEXTURE_FORMAT Ref.Graphics) :=
  {| TexWidth := 16; TexHeight := 16; TexMipLevels := 5; TexFormat := Ref.BC1_UNORM |}.

Definition staging_device : @Device Ref.Graphics :=
  {| DevTextures := {[ 0 := {| TexObjDesc := staging_desc; TexObjUserData := None |} ]};
     DevAllocations := ∅; DevBuffers := ∅; DevBufferAllocations := ∅ |}.

Definition staging_data : TextureInitData := {| Levels := []; pStagingTex := Some 0 |}.

(** A store whose texture 0 is the checkerboard stub, a cache that has it
    under [Ex.key], and a cache with a stale entry under that key *)
Definition stub_device : @Device Ref.Graphics :=
  {| DevTextures := {[ 0 := StubTexture (GA := Ref.Graphics) ]};
     DevAllocations := ∅; DevBuffers := ∅; DevBufferAllocations := ∅ |}.

Definition wall_cache : TextureCacheType := {| CacheTextures := {[ Ex.key := 0 ]} |}.

Definition stale_cache : TextureCacheType := {| CacheTextures := {[ Ex.key := 5 ]} |}.

(** The images and textures of a file: textures 0 and 2 use the image
    [wall.png], texture 1 the image [floor.png] *)
Definition wall_image : GltfImage :=
  {| img_uri := "wall.png"; img_width := 1; img_height := 1; img_component := 4;
     img_bits := 8; img_pixel_type := 5121; img_image := [10; 20; 30; 2]%Z |}.

Definition floor_image : GltfImage :=
  {| img_uri := "floor.png"; img_width := 1; img_height := 1; img_component := 4;
     img_bits := 8; img_pixel_type := 5121; img_image := [40; 50; 60; 255]%Z |}.

Definition gltf_images : list GltfImage := [wall_image; floor_image].

(** An image of a DDS file as the importer passes it to [LoadImageData] *)
Definition dds_image : GltfImage :=
  {| img_uri := "floor.dds"; img_width := -1; img_height := -1; img_component := -1;
     img_bits := -1; img_pixel_type := -1; img_image := [] |}.

Definition gltf_textures : list GltfTexture :=
  [{| tex_source := 0; tex_sampler := 0 |}; {| tex_source := 1; tex_sampler := 0 |};
   {| tex_source := 0; tex_sampler := 0 |}].

(** The engine's functions in the examples: paths are simple already, and
    the file formats are numbered from 0 *)
Definition simple_path (s : string) : string := s.

Definition format_to_int (f : IMAGE_FILE_FORMAT) : Z :=
  match f with
  | IMAGE_FILE_FORMAT_UNKNOWN => 0
  | IMAGE_FILE_FORMAT_DDS => 1
  | IMAGE_FILE_FORMAT_KTX => 2
  | IMAGE_FILE_FORMAT_OTHER => 3
  end.

Definition format_of_int (z : Z) : IMAGE_FILE_FORMAT :=
  match z with
  | 1%Z => IMAGE_FILE_FORMAT_DDS
  | 2%Z => IMAGE_FILE_FORMAT_KTX
  | 3%Z => IMAGE_FILE_FORMAT_OTHER
  | _ => IMAGE_FILE_FORMAT_UNKNOWN
  end.

(** A decoder that gives a 1x1 image with one component for any bytes *)
Definition gray_pixel : DecodedImage :=
  {| DecWidth := 1; DecHeight := 1; DecNumComponents := 1; DecComponentSize := 1;
     DecRowStride := 1; DecPixels := [9]%Z |}.

(** The loader data of a load of [scene/model.gltf] with the cache
    [wall_cache] and without callbacks of the application *)
Definition loader_data : LoaderData :=
  {| LD_pTextureCache := Some wall_cache; TexturesHold := []; LD_BaseDir := "scene/";
     LD_FileExists := None; LD_ReadWholeFile := None |}.

(** Two files, one of them empty *)
Definition files : FileSystem :=
  {[ "scene/model.bin" := [1; 2; 3]%Z; "scene/empty.bin" := [] ]}.

(** A translation channel on node 0 whose sampler has a single keyframe *)
Definition still_animation : Animation :=
  {| Samplers := [{| Interpolation := LINEAR; Inputs := [F32.of_Z 0];
                     OutputsVec4 := [Ex.v4 5 0 0 0] |}];
     Channels := [{| PathType := TRANSLATION; ChannelNodeIndex := 0; SamplerIndex := 0 |}];
     AnimStart := F32.of_Z 0; AnimEnd := F32.of_Z 0 |}.

Definition unit_box : BoundBox := {| BBMin := Ex.v3 0 0 0; BBMax := Ex.v3 1 1 1 |}.

Definition unit_mesh : Mesh := {| MeshBB := unit_box; MeshIsValidBB := true |}.

Definition skin : @Skin Ref.Math :=
  @Build_Skin Ref.Math [0; 1] [Ref.midentity; Ref.mtranslation (Ex.v3 1 0 0)].

(** Node 1 has a mesh and a skin with the joints 0 and 1 *)
Definition skinned_node : @Node Ref.Math :=
  @mkNode Ref.Math 1 0 float3_zero Quaternion_default float3_ones Ref.midentity []
          (Some unit_mesh) (Some skin).

(** A root with the skinned node as its child, and a node 2 that is in no
    scene *)
Definition skinned_model : @Model Ref.Math :=
  {| TextureAttributes := []; Materials := []; Textures := []; Buffers := [];
     GPUDataInitialized := false;
     LinearNodes := [Ex.plain_node 0 [skinned_node]; skinned_node; Ex.plain_node 2 []];
     RootNodes := [Ex.plain_node 0 [skinned_node]];
     Animations := [still_animation];
     SkinTransformsCount := 1 |}.

(** Transforms in which node 1 is moved by (1, 2, 3) *)
Definition posed : @ModelTransforms Ref.Math :=
  @Build_ModelTransforms Ref.Math
    [Ref.midentity; Ref.midentity; Ref.midentity]
    [Ref.midentity; Ref.mtranslation (Ex.v3 1 2 3); Ref.midentity]
    [] [].

(** Translation keyframes (t = 1, v = (10,0,0)) and (t = 3, v = (30,0,0))
    for node 0, interpolated linearly, in an animation from 1 to 3 *)
Definition slide_animation : Animation :=
  {| Samplers := [{| Interpolation := LINEAR;
                     Inputs := [F32.of_Z 1; F32.of_Z 3];
                     OutputsVec4 := [Ex.v4 10 0 0 0; Ex.v4 30 0 0 0] |}];
     Channels := [{| PathType := TRANSLATION; ChannelNodeIndex := 0; SamplerIndex := 0 |}];
     AnimStart := F32.of_Z 1; AnimEnd := F32.of_Z 3 |}.

(** A root with one child and the animation [slide_animation] *)
Definition slide_model : @Model Ref.Math :=
  {| TextureAttributes := []; Materials := []; Textures := []; Buffers := [];
     GPUDataInitialized := false;
     LinearNodes := [Ex.plain_node 0 [Ex.plain_node 1 []]; Ex.plain_node 1 []];
     RootNodes := [Ex.plain_node 0 [Ex.plain_node 1 []]];
     Animations := [slide_animation];
     SkinTransformsCount := 0 |}.

(** Texture 0 is the base color of two alpha-mask materials, the first
    with the cutoff -1/2, and texture 1 of an alpha-mask material whose
    cutoff is a NaN *)
Definition odd_cutoffs : @Model Ref.Math :=
  {| TextureAttributes := [{| TexAttribName := Ex.base_color; TexAttribIndex := 0 |}];
     Materials := [Ex.material 0 ALPHA_MODE_MASK (F32.of_dyadic (-1) (-1));
                   Ex.material 0 ALPHA_MODE_MASK Ex.quarter;
                   Ex.material 1 ALPHA_MODE_MASK F32.nan];
     Textures := []; Buffers := []; GPUDataInitialized := false;
     LinearNodes := []; RootNodes := []; Animations := []; SkinTransformsCount := 0 |}.

End Ex2.

(** * Properties *)

(** ** The order of floats *)
Module F32Facts.
Import F32.
Local Open Scope Z_scope.

Lemma SFcompare_spec x y :
  is_nan x = false -> is_nan y = false ->
  match SFcompare x y with
  | Some Lt => lex_lt x y
  | Some Eq => lex_eq x y
  | Some Gt => lex_lt y x
  | None => False
  end.
Proof.
  unfold lex_lt, lex_eq.
  destruct x as [sx|sx| |sx mx ex], y as [sy|sy| |sy my ey]; simpl; try discriminate;
    intros _ _; try destruct sx; try destruct sy; simpl; try lia.
  - destruct (Z.compare_spec ex ey); simpl; try lia.
    subst. rewrite Pos.compare_cont_spec. simpl.
    destruct (Pos.compare_spec mx my); simpl; lia.
  - destruct (Z.compare_spec ex ey); simpl; try lia.
    subst. rewrite Pos.compare_cont_spec. simpl.
    destruct (Pos.compare_spec mx my); simpl; lia.
Qed.

Lemma SFcompare_nan x y :
  SFcompare x y = None <-> is_nan x = true \/ is_nan y = true.
Proof.
  destruct x as [sx|sx| |sx mx ex], y as [sy|sy| |sy my ey]; simpl;
    intuition (try discriminate; eauto).
  all: try destruct sx; try destruct sy; try discriminate.
Qed.

Lemma nanz_range x : 0 <= nanz x <= 1.
Proof. unfold nanz. destruct (is_nan x); lia. Qed.

Lemma is_nan_false x : is_nan x = false <-> nanz x = 0.
Proof. unfold nanz. destruct (is_nan x); split; intros; try reflexivity; try discriminate; lia. Qed.

Lemma is_nan_true x : is_nan x = true <-> nanz x = 1.
Proof. unfold nanz. destruct (is_nan x); split; intros; try reflexivity; try discriminate; lia. Qed.

Lemma compare_cases x y :
  (nanz x = 0 /\ nanz y = 0 /\
   ((SFcompare x y = Some Lt /\ lex_lt x y) \/
    (SFcompare x y = Some Eq /\ lex_eq x y) \/
    (SFcompare x y = Some Gt /\ lex_lt y x))) \/
  ((nanz x = 1 \/ nanz y = 1) /\ SFcompare x y = None).
Proof.
  destruct (is_nan x) eqn:Hx.
  { right. split; [left; apply is_nan_true; exact Hx | apply SFcompare_nan; auto]. }
  destruct (is_nan y) eqn:Hy.
  { right. split; [right; apply is_nan_true; exact Hy | apply SFcompare_nan; auto]. }
  left. pose proof (SFcompare_spec x y Hx Hy) as H.
  apply is_nan_false in Hx, Hy.
  destruct (SFcompare x y) as [[| |]|]; [| | |destruct H]; auto 10.
Qed.

Lemma ltb_spec x y :
  ltb x y = true <-> nanz x = 0 /\ nanz y = 0 /\ lex_lt x y.
Proof.
  unfold ltb, SFltb, lex_lt, lex_eq.
  destruct (compare_cases x y) as [(Hx & Hy & [[-> H] | [[-> H] | [-> H]]]) | [Hn ->]];
    unfold lex_lt, lex_eq in *; split; intros; try discriminate; try lia; auto.
Qed.

Lemma leb_spec x y :
  leb x y = true <-> nanz x = 0 /\ nanz y = 0 /\ (lex_lt x y \/ lex_eq x y).
Proof.
  unfold leb, SFleb, lex_lt, lex_eq.
  destruct (compare_cases x y) as [(Hx & Hy & [[-> H] | [[-> H] | [-> H]]]) | [Hn ->]];
    unfold lex_lt, lex_eq in *; split; intros; try discriminate; try lia; auto.
Qed.

Lemma eqb_spec x y :
  eqb x y = true <-> nanz x = 0 /\ nanz y = 0 /\ lex_eq x y.
Proof.
  unfold eqb, SFeqb, lex_lt, lex_eq.
  destruct (compare_cases x y) as [(Hx & Hy & [[-> H] | [[-> H] | [-> H]]]) | [Hn ->]];
    unfold lex_lt, lex_eq in *; split; intros; try discriminate; try lia; auto.
Qed.

Lemma ltb_false x y :
  ltb x y = false <-> nanz x = 1 \/ nanz y = 1 \/ lex_lt y x \/ lex_eq x y.
Proof.
  rewrite <- Bool.not_true_iff_false, ltb_spec.
  pose proof (nanz_range x). pose proof (nanz_range y).
  unfold lex_lt, lex_eq. lia.
Qed.

Lemma leb_false x y :
  leb x y = false <-> nanz x = 1 \/ nanz y = 1 \/ lex_lt y x.
Proof.
  rewrite <- Bool.not_true_iff_false, leb_spec.
  pose proof (nanz_range x). pose proof (nanz_range y).
  unfold lex_lt, lex_eq. lia.
Qed.

Lemma eqb_false x y :
  eqb x y = false <-> nanz x = 1 \/ nanz y = 1 \/ lex_lt x y \/ lex_lt y x.
Proof.
  rewrite <- Bool.not_true_iff_false, eqb_spec.
  pose proof (nanz_range x). pose proof (nanz_range y).
  unfold lex_lt, lex_eq. lia.
Qed.

(** Turns comparisons of floats in the context and the goal into linear
    arithmetic over integers, and solves the goal. *)
Ltac f32_order :=
  unfold gtb, geb, neb in *;
  change SFeqb with eqb in *; change SFltb with ltb in *; change SFleb with leb in *;
  rewrite ?Bool.negb_true_iff, ?Bool.negb_false_iff in *;
  rewrite ?ltb_spec, ?leb_spec, ?eqb_spec, ?ltb_false, ?leb_false, ?eqb_false,
          ?is_nan_false, ?is_nan_true in *;
  unfold lex_lt, lex_eq in *;
  cbn [rk1 rk2 rk3 nanz is_nan zero] in *;
  repeat match goal with
  | |- context [nanz ?x] =>
      lazymatch goal with
      | _ : 0 <= nanz x <= 1 |- _ => fail
      | _ => pose proof (nanz_range x)
      end
  | _ : context [nanz ?x] |- _ =>
      lazymatch goal with
      | _ : 0 <= nanz x <= 1 |- _ => fail
      | _ => pose proof (nanz_range x)
      end
  end;
  lia.

Lemma leb_trans x y z : leb x y = true -> leb y z = true -> leb x z = true.
Proof. intros. f32_order. Qed.

Lemma ltb_leb_trans x y z : ltb x y = true -> leb y z = true -> ltb x z = true.
Proof. intros. f32_order. Qed.

Lemma leb_refl x : is_nan x = false -> leb x x = true.
Proof. intros. f32_order. Qed.

Lemma not_ltb_leb x y : is_nan x = false -> is_nan y = false -> ltb y x = false -> leb x y = true.
Proof. intros. f32_order. Qed.

End F32Facts.

Import F32Facts.

(** ** The shape of the transform buffers *)
Section TransformFacts.
Context `{BM : BasicMath}.

(** Induction over a node and the subtrees below it *)
Lemma Node_forall_ind (P : Node -> Prop) :
  (forall n, Forall P (Children n) -> P n) -> forall n, P n.
Proof.
  intros H. fix IH 1. intros n. apply H.
  destruct n as [i s t r sc m ch me sk]; simpl.
  induction ch as [|c ch IHch]; constructor; [apply IH | exact IHch].
Qed.

Lemma WriteGlobal_local T i r :
  NodeLocalMatrices (WriteGlobal T i r) = NodeLocalMatrices T.
Proof. reflexivity. Qed.

Lemma WriteGlobal_length T i r :
  length (NodeGlobalMatrices (WriteGlobal T i r)) = length (NodeGlobalMatrices T).
Proof. unfold WriteGlobal; simpl. apply length_insert. Qed.

Lemma UpdateNodeGlobalTransform_unfold node r T :
  UpdateNodeGlobalTransform node r T =
  fold_left (fun T' pChild => UpdateNodeGlobalTransform pChild (RefGlobal (Index node)) T')
            (Children node) (WriteGlobal T (Index node) r).
Proof. destruct node; reflexivity. Qed.

Lemma SameShape_refl T : SameShape T T.
Proof. repeat split. Qed.

Lemma SameShape_trans T1 T2 T3 : SameShape T1 T2 -> SameShape T2 T3 -> SameShape T1 T3.
Proof. unfold SameShape. intros (a & b & c & d) (a' & b' & c' & d'). repeat split; congruence. Qed.

Lemma fold_SameShape {A} (f : ModelTransforms -> A -> ModelTransforms) l :
  Forall (fun a => forall T, SameShape T (f T a)) l ->
  forall T, SameShape T (fold_left f l T).
Proof.
  induction 1 as [|a l Ha _ IH]; intros T; simpl; [apply SameShape_refl|].
  eapply SameShape_trans; [apply Ha | apply IH].
Qed.

Lemma UpdateNodeGlobalTransform_shape node :
  forall r T, SameShape T (UpdateNodeGlobalTransform node r T).
Proof.
  induction node as [node IH] using Node_forall_ind. intros r T.
  rewrite UpdateNodeGlobalTransform_unfold.
  eapply SameShape_trans; [|apply fold_SameShape].
  - repeat split. apply WriteGlobal_length.
  - eapply Forall_impl; [exact IH|]. simpl. intros c Hc T'. apply Hc.
Qed.


Lemma fold_insert_length {A B} (f : list A -> nat -> B -> A) (l : list (nat * B)) :
  forall L, length (fold_left (fun L '(i, N) => <[i := f L i N]> L) l L) = length L.
Proof.
  induction l as [|[i N] l IH]; intros L; simpl; [reflexivity|].
  rewrite IH. apply length_insert.
Qed.

Lemma UpdateAnimation_lengths M index time T :
  length (NodeLocalMatrices (fst (UpdateAnimation M index time T)))
    = length (NodeLocalMatrices T) /\
  NodeGlobalMatrices (fst (UpdateAnimation M index time T)) = NodeGlobalMatrices T /\
  Skins (fst (UpdateAnimation M index time T)) = Skins T.
Proof.
  unfold UpdateAnimation. destruct (Animations M !! index) as [animation|]; simpl; [|auto].
  destruct (fold_left _ (Channels animation) _) as [Anims2 log] eqn:E. simpl.
  split; [|auto].
  apply (fold_insert_length
           (fun _ i N => ComputeNodeLocalMatrix4 (TDScale (nth i Anims2 TransformData_default))
                           (TDRotation (nth i Anims2 TransformData_default))
                           (TDTranslation (nth i Anims2 TransformData_default)) (Matrix N))).
Qed.

Lemma UpdateJoints_matrices T node :
  NodeLocalMatrices (UpdateJoints T node) = NodeLocalMatrices T /\
  NodeGlobalMatrices (UpdateJoints T node) = NodeGlobalMatrices T.
Proof. unfold UpdateJoints. destruct (pMesh node), (pSkin node); auto. Qed.

Lemma fold_UpdateJoints_matrices nodes : forall T,
  NodeLocalMatrices (fold_left UpdateJoints nodes T) = NodeLocalMatrices T /\
  NodeGlobalMatrices (fold_left UpdateJoints nodes T) = NodeGlobalMatrices T.
Proof.
  induction nodes as [|n nodes IH]; intros T; simpl; [auto|].
  destruct (IH (UpdateJoints T n)) as [-> ->]. apply UpdateJoints_matrices.
Qed.

Lemma fold_roots_shape roots r : forall T,
  SameShape T (fold_left (fun T' pRoot => UpdateNodeGlobalTransform pRoot r T') roots T).
Proof.
  intros T. apply fold_SameShape. apply Forall_forall. intros n _ T'.
  apply UpdateNodeGlobalTransform_shape.
Qed.

Lemma ComputeTransforms_lengths M T RootTransform AnimationIndex Time :
  length (NodeLocalMatrices (fst (ComputeTransforms M T RootTransform AnimationIndex Time)))
    = length (LinearNodes M) /\
  length (NodeGlobalMatrices (fst (ComputeTransforms M T RootTransform AnimationIndex Time)))
    = length (LinearNodes M).
Proof.
  unfold ComputeTransforms.
  set (n := length (LinearNodes M)).
  set (T1 := set_NodeLocalMatrices _ _).
  assert (H1 : length (NodeLocalMatrices T1) = n /\ length (NodeGlobalMatrices T1) = n).
  { subst T1; simpl. split; apply length_resize. }
  set (br := if (0 <=? AnimationIndex)%Z then _ else _).
  assert (H2 : length (NodeLocalMatrices (fst br)) = n /\
               length (NodeGlobalMatrices (fst br)) = n).
  { subst br. destruct (0 <=? AnimationIndex)%Z.
    - match goal with |- context [UpdateAnimation ?M ?i ?t ?T] =>
        destruct (UpdateAnimation_lengths M i t T) as (a & b & _) end.
      rewrite a, b. simpl. exact H1.
    - simpl. split; [|apply H1].
      rewrite (fold_insert_length (fun _ _ N => ComputeNodeLocalMatrix N)). apply H1. }
  destruct br as [T2 log]. simpl in H2. simpl.
  pose proof (fold_roots_shape (RootNodes M) (RefValue RootTransform) T2) as (a & b & _ & _).
  set (T3 := fold_left _ (RootNodes M) T2) in *.
  destruct (Skins T3).
  - rewrite a, b. exact H2.
  - destruct (fold_UpdateJoints_matrices (LinearNodes M) T3) as [-> ->].
    rewrite a, b. exact H2.
Qed.

End TransformFacts.

(** ** The alpha cutoff of a texture *)
Section AlphaCutoffFacts.
Context `{BM : BasicMath}.
Variable idx ti : Z.

Abbreviation loop := (AlphaCutoffLoop idx ti).
Abbreviation user := (NonOpaqueUser idx ti).

Lemma loop_skip Mat rest a :
  user Mat = false -> loop (Mat :: rest) a = loop rest a.
Proof.
  unfold NonOpaqueUser. simpl. intros H.
  destruct (nth _ _ _ =? ti)%Z; simpl in *; [|reflexivity].
  apply Bool.negb_false_iff in H. rewrite H. reflexivity.
Qed.

Lemma loop_user Mat rest a :
  user Mat = true ->
  fst (loop (Mat :: rest) a) =
    if F32.ltb a F32.zero then fst (loop rest (NewCutoff Mat))
    else if F32.neb a (NewCutoff Mat) then
      if F32.eqb a F32.zero || F32.eqb (NewCutoff Mat) F32.zero then F32.zero
      else fst (loop rest (F32.std_min a (NewCutoff Mat)))
    else fst (loop rest a).
Proof.
  unfold NonOpaqueUser. simpl. intros H.
  apply andb_prop in H as [H1 H2]. rewrite H1. simpl.
  apply Bool.negb_true_iff in H2. rewrite H2. fold (NewCutoff Mat).
  destruct (F32.ltb a F32.zero); [reflexivity|].
  destruct (F32.neb a (NewCutoff Mat)); [|reflexivity].
  destruct (_ || _); [reflexivity|].
  destruct (loop rest _). reflexivity.
Qed.

Lemma loop_never_negative Mats : forall a, F32.ltb (fst (loop Mats a)) F32.zero = false.
Proof.
  induction Mats as [|Mat rest IH]; intros a.
  - simpl. unfold F32.std_max. destruct (F32.ltb a F32.zero) eqn:E; [reflexivity | exact E].
  - destruct (user Mat) eqn:U; [|rewrite loop_skip by exact U; apply IH].
    rewrite loop_user by exact U.
    repeat match goal with |- context [if ?b then _ else _] => destruct b end;
      try apply IH; reflexivity.
Qed.

Lemma zero_not_nan : F32.is_nan F32.zero = false.
Proof. reflexivity. Qed.

Lemma std_min_cases a b : F32.std_min a b = a \/ F32.std_min a b = b.
Proof. unfold F32.std_min. destruct (F32.ltb b a); auto. Qed.

Lemma loop_nonneg Mats : forall a,
  F32.is_nan a = false ->
  (forall Mat, In Mat Mats -> user Mat = true -> F32.is_nan (NewCutoff Mat) = false) ->
  F32.leb F32.zero (fst (loop Mats a)) = true.
Proof.
  induction Mats as [|Mat rest IH]; intros a Ha Hn.
  - simpl. unfold F32.std_max. destruct (F32.ltb a F32.zero) eqn:E; [reflexivity|].
    clear - Ha E. f32_order.
  - assert (Hrest : forall Mat0, In Mat0 rest -> user Mat0 = true ->
                      F32.is_nan (NewCutoff Mat0) = false)
      by (intros; apply Hn; [right|]; assumption).
    destruct (user Mat) eqn:U; [|rewrite loop_skip by exact U; apply IH; assumption].
    rewrite loop_user by exact U.
    assert (Hc : F32.is_nan (NewCutoff Mat) = false) by (apply Hn; [left|]; auto).
    repeat match goal with |- context [if ?b then _ else _] => destruct b end;
      try reflexivity; apply IH; try assumption.
    destruct (std_min_cases a (NewCutoff Mat)) as [-> | ->]; assumption.
Qed.

Lemma loop_none Mats : forall a,
  (forall Mat, In Mat Mats -> user Mat = false) ->
  fst (loop Mats a) = F32.std_max a F32.zero.
Proof.
  induction Mats as [|Mat rest IH]; intros a H; [reflexivity|].
  rewrite loop_skip by (apply H; left; reflexivity).
  apply IH. intros; apply H; right; assumption.
Qed.

(** Once the running value is zero the result is zero *)
Lemma loop_from_zero Mats : forall a,
  F32.eqb a F32.zero = true -> F32.eqb (fst (loop Mats a)) F32.zero = true.
Proof.
  induction Mats as [|Mat rest IH]; intros a Ha.
  - simpl. unfold F32.std_max. destruct (F32.ltb a F32.zero) eqn:E; [reflexivity | exact Ha].
  - destruct (user Mat) eqn:U; [|rewrite loop_skip by exact U; apply IH; assumption].
    rewrite loop_user by exact U.
    destruct (F32.ltb a F32.zero) eqn:E1; [clear - Ha E1; f32_order|].
    rewrite Ha. simpl.
    destruct (F32.neb a (NewCutoff Mat)); [reflexivity | apply IH; assumption].
Qed.

Lemma loop_zero_user Mats : forall a,
  (exists Mat, In Mat Mats /\ user Mat = true /\ F32.eqb (NewCutoff Mat) F32.zero = true) ->
  F32.eqb (fst (loop Mats a)) F32.zero = true.
Proof.
  induction Mats as [|Mat rest IH]; intros a (Mat0 & Hin & U0 & Hz); [destruct Hin|].
  destruct Hin as [<- | Hin].
  - rewrite loop_user by exact U0.
    destruct (F32.ltb a F32.zero) eqn:E1; [apply loop_from_zero; assumption|].
    rewrite Hz, Bool.orb_true_r.
    destruct (F32.neb a (NewCutoff Mat)) eqn:E2; [reflexivity|].
    apply loop_from_zero. clear - Hz E2. f32_order.
  - assert (Hex : exists Mat1, In Mat1 rest /\ user Mat1 = true /\
                               F32.eqb (NewCutoff Mat1) F32.zero = true) by eauto.
    destruct (user Mat) eqn:U; [|rewrite loop_skip by exact U; apply IH; assumption].
    rewrite loop_user by exact U.
    repeat match goal with |- context [if ?b then _ else _] => destruct b end;
      try reflexivity; apply IH; assumption.
Qed.

(** With a non-negative running value [a] and non-negative cutoffs, the
    result is a lower bound of [a] and of the cutoffs that remain, and it
    equals one of them. *)
Lemma loop_min Mats : forall a,
  F32.leb F32.zero a = true ->
  (forall Mat, In Mat Mats -> user Mat = true -> F32.leb F32.zero (NewCutoff Mat) = true) ->
  let r := fst (loop Mats a) in
  F32.leb r a = true /\
  (forall Mat, In Mat Mats -> user Mat = true -> F32.leb r (NewCutoff Mat) = true) /\
  (F32.eqb r a = true \/
   exists Mat, In Mat Mats /\ user Mat = true /\ F32.eqb r (NewCutoff Mat) = true).
Proof.
  induction Mats as [|Mat rest IH]; intros a Ha Hn; cbv zeta.
  - simpl. unfold F32.std_max.
    destruct (F32.ltb a F32.zero) eqn:E; [clear - Ha E; f32_order|].
    split; [clear - Ha; f32_order|]. split; [intros ? []|]. left. clear - Ha; f32_order.
  - assert (Hrest : forall Mat0, In Mat0 rest -> user Mat0 = true ->
                      F32.leb F32.zero (NewCutoff Mat0) = true)
      by (intros; apply Hn; [right|]; assumption).
    destruct (user Mat) eqn:U.
    2:{ rewrite loop_skip by exact U. destruct (IH a Ha Hrest) as (H1 & H2 & H3).
        split; [exact H1|]. split.
        - intros Mat0 [<-|Hin] U0; [congruence | apply H2; assumption].
        - destruct H3 as [H3 | (Mat0 & Hin & U0 & H3)]; [left; exact H3|].
          right. exists Mat0. split; [right; exact Hin | auto]. }
    rewrite loop_user by exact U.
    assert (Hc : F32.leb F32.zero (NewCutoff Mat) = true) by (apply Hn; [left|]; auto).
    destruct (F32.ltb a F32.zero) eqn:E1; [clear - Ha E1; f32_order|].
    destruct (F32.neb a (NewCutoff Mat)) eqn:E2.
    + destruct (F32.eqb a F32.zero || F32.eqb (NewCutoff Mat) F32.zero) eqn:E3.
      * split; [exact Ha|]. split.
        -- intros Mat0 Hin U0. apply Hn; assumption.
        -- apply Bool.orb_true_iff in E3 as [E3|E3].
           ++ left. clear - E3. f32_order.
           ++ right. exists Mat. split; [left; reflexivity|]. split; [exact U|].
              clear - E3. f32_order.
      * apply Bool.orb_false_iff in E3 as [E3 E4].
        assert (Hm : F32.leb F32.zero (F32.std_min a (NewCutoff Mat)) = true)
          by (destruct (std_min_cases a (NewCutoff Mat)) as [-> | ->]; assumption).
        destruct (IH _ Hm Hrest) as (H1 & H2 & H3).
        set (r := fst (loop rest (F32.std_min a (NewCutoff Mat)))) in *.
        assert (Hma : F32.leb (F32.std_min a (NewCutoff Mat)) a = true).
        { unfold F32.std_min.
          destruct (F32.ltb (NewCutoff Mat) a) eqn:E5; clear - Ha Hc E5; f32_order. }
        assert (Hmn : F32.leb (F32.std_min a (NewCutoff Mat)) (NewCutoff Mat) = true).
        { unfold F32.std_min.
          destruct (F32.ltb (NewCutoff Mat) a) eqn:E5; clear - Ha Hc E5; f32_order. }
        split; [eapply leb_trans; eassumption|]. split.
        -- intros Mat0 [<-|Hin] U0; [eapply leb_trans; eassumption | apply H2; assumption].
        -- destruct H3 as [H3 | (Mat0 & Hin & U0 & H3)].
           ++ destruct (std_min_cases a (NewCutoff Mat)) as [Hs | Hs]; rewrite Hs in H3.
              ** left; exact H3.
              ** right. exists Mat. split; [left; reflexivity | auto].
           ++ right. exists Mat0. split; [right; exact Hin | auto].
    + destruct (IH a Ha Hrest) as (H1 & H2 & H3).
      set (r := fst (loop rest a)) in *.
      split; [exact H1|]. split.
      * intros Mat0 [<-|Hin] U0; [clear - H1 E2; f32_order | apply H2; assumption].
      * destruct H3 as [H3 | (Mat0 & Hin & U0 & H3)]; [left; exact H3|].
        right. exists Mat0. split; [right; exact Hin | auto].
Qed.


Lemma loop_min_unset Mats : forall a,
  F32.ltb a F32.zero = true ->
  (exists Mat, In Mat Mats /\ user Mat = true) ->
  (forall Mat, In Mat Mats -> user Mat = true -> F32.leb F32.zero (NewCutoff Mat) = true) ->
  let r := fst (loop Mats a) in
  (forall Mat, In Mat Mats -> user Mat = true -> F32.leb r (NewCutoff Mat) = true) /\
  (exists Mat, In Mat Mats /\ user Mat = true /\ F32.eqb r (NewCutoff Mat) = true).
Proof.
  induction Mats as [|Mat rest IH]; intros a Ha (Mat0 & Hin & U0) Hn; cbv zeta;
    [destruct Hin|].
  assert (Hrest : forall Mat1, In Mat1 rest -> user Mat1 = true ->
                    F32.leb F32.zero (NewCutoff Mat1) = true)
    by (intros; apply Hn; [right|]; assumption).
  destruct (user Mat) eqn:U.
  - rewrite loop_user by exact U. rewrite Ha.
    assert (Hc : F32.leb F32.zero (NewCutoff Mat) = true) by (apply Hn; [left|]; auto).
    destruct (loop_min rest (NewCutoff Mat) Hc Hrest) as (H1 & H2 & H3).
    split.
    + intros Mat1 [<-|Hin1] U1; [exact H1 | apply H2; assumption].
    + destruct H3 as [H3 | (Mat1 & Hin1 & U1 & H3)].
      * exists Mat. split; [left; reflexivity | auto].
      * exists Mat1. split; [right; exact Hin1 | auto].
  - rewrite loop_skip by exact U.
    destruct Hin as [<- | Hin]; [congruence|].
    destruct (IH a Ha (ex_intro _ Mat0 (conj Hin U0)) Hrest) as (H2 & Mat1 & Hin1 & U1 & H3).
    split.
    + intros Mat2 [<-|Hin2] U2; [congruence | apply H2; assumption].
    + exists Mat1. split; [right; exact Hin1 | auto].
Qed.

End AlphaCutoffFacts.

Section AlphaCutoffClaim.
Context `{BM : BasicMath}.
Variable BaseColorTextureName : string.

(** C10 (as amended): the value returned by [GetTextureAlphaCutoffValue]
    is never negative, and is [>= 0] when no cutoff is a NaN; it is 0 when
    there is
    no base color attribute or no material that is not opaque uses the
    texture as base color; when all those materials are alpha-mask
    materials (with cutoffs [>= 0]) it is the minimum of their cutoffs; and
    when both an alpha-mask and an alpha-blend material use the texture it
    is 0. *)
Theorem GetTextureAlphaCutoffValue_result (M : Model) (TextureIndex : Z) :
  let idx := GetTextureAttibuteIndex M BaseColorTextureName in
  let r := fst (GetTextureAlphaCutoffValue BaseColorTextureName M TextureIndex) in
  let user := NonOpaqueUser idx TextureIndex in
  F32.ltb r F32.zero = false /\
  ((forall Mat, In Mat (Materials M) -> user Mat = true ->
      F32.is_nan (Attribs_AlphaCutoff Mat) = false) ->
   F32.leb F32.zero r = true) /\
  ((idx < 0)%Z \/ (forall Mat, In Mat (Materials M) -> user Mat = false) ->
   r = F32.zero) /\
  ((0 <= idx)%Z ->
   (exists Mat, In Mat (Materials M) /\ user Mat = true) ->
   (forall Mat, In Mat (Materials M) -> user Mat = true ->
      Attribs_AlphaMode Mat = ALPHA_MODE_MASK /\
      F32.leb F32.zero (Attribs_AlphaCutoff Mat) = true) ->
   (forall Mat, In Mat (Materials M) -> user Mat = true ->
      F32.leb r (Attribs_AlphaCutoff Mat) = true) /\
   (exists Mat, In Mat (Materials M) /\ user Mat = true /\
      F32.eqb r (Attribs_AlphaCutoff Mat) = true)) /\
  ((0 <= idx)%Z ->
   (exists Mat, In Mat (Materials M) /\ user Mat = true /\
      Attribs_AlphaMode Mat = ALPHA_MODE_MASK) ->
   (exists Mat, In Mat (Materials M) /\ user Mat = true /\
      Attribs_AlphaMode Mat = ALPHA_MODE_BLEND) ->
   F32.eqb r F32.zero = true).
Proof.
  cbv zeta. unfold GetTextureAlphaCutoffValue.
  set (idx := GetTextureAttibuteIndex M BaseColorTextureName).
  destruct (idx <? 0)%Z eqn:Eidx.
  { apply Z.ltb_lt in Eidx. simpl.
    split; [reflexivity|]. split; [reflexivity|]. split; [reflexivity|].
    split; intros; lia. }
  apply Z.ltb_ge in Eidx.
  split; [apply loop_never_negative|]. split.
  { intros Hn. apply loop_nonneg; [reflexivity|].
    intros Mat Hin U. unfold NewCutoff.
    destruct (ALPHA_MODE_eqb _ _); [apply Hn; assumption | reflexivity]. }
  split.
  { intros [Hlt | Hnone]; [lia|]. rewrite loop_none by exact Hnone. reflexivity. }
  split.
  { intros _ Hex Hall.
    assert (Hnew : forall Mat, In Mat (Materials M) ->
                     NonOpaqueUser idx TextureIndex Mat = true ->
                     NewCutoff Mat = Attribs_AlphaCutoff Mat).
    { intros Mat Hin U. destruct (Hall Mat Hin U) as [Hm _]. unfold NewCutoff.
      rewrite Hm. reflexivity. }
    destruct (loop_min_unset idx TextureIndex (Materials M) (F32.of_Z (-1)))
      as (H1 & Mat1 & Hin1 & U1 & H2); [reflexivity | exact Hex | |].
    - intros Mat Hin U. rewrite Hnew by assumption. apply Hall; assumption.
    - split.
      + intros Mat Hin U. rewrite <- Hnew by assumption. apply H1; assumption.
      + exists Mat1. rewrite <- Hnew by assumption. auto. }
  intros _ _ (Mat & Hin & U & Hb).
  apply loop_zero_user. exists Mat. split; [exact Hin|]. split; [exact U|].
  unfold NewCutoff. rewrite Hb. reflexivity.
Qed.

End AlphaCutoffClaim.

(** ** Idempotence, unknown animations, buffer shape, time clamp *)
Section Claims.
Context `{GA : GraphicsAccessories} `{BM : BasicMath}.

(** C2: [PrepareGPUResources] sets the flag [GPUDataInitialized]; a call
    on a model whose flag is set, whatever the state of the objects, issues
    no command and changes neither the model nor the objects. *)
Theorem PrepareGPUResources_idempotent (M : Model) (Dev : Device) :
  let '(M1, Dev1, Cmds1) := PrepareGPUResources M Dev in
  GPUDataInitialized M1 = true /\
  forall Dev2 : Device, PrepareGPUResources M1 Dev2 = (M1, Dev2, []).
Proof.
  unfold PrepareGPUResources.
  destruct (GPUDataInitialized M) eqn:E.
  - split; [exact E|]. intros Dev2. rewrite E. reflexivity.
  - destruct (fold_left PrepareBuffer _ _) as [[Dev' Barriers] Cmds].
    split; [reflexivity|]. intros Dev2. reflexivity.
Qed.

(** C8: for an animation index that is not below the number of
    animations, [UpdateAnimation] logs a warning and returns the transforms
    unchanged, and [ComputeTransforms] returns with that warning, the node
    poses untouched and the local matrices only resized. *)
Theorem ComputeTransforms_unknown_animation (M : Model) (T : ModelTransforms)
    (RootTransform : float4x4) (AnimationIndex : Z) (Time : F32.float) :
  (Z.of_nat (length (Animations M)) <= AnimationIndex)%Z ->
  (forall T0, UpdateAnimation M (Z.to_nat AnimationIndex) Time T0
              = (T0, [DiagWarning "No animation with index"])) /\
  snd (ComputeTransforms M T RootTransform AnimationIndex Time)
    = [DiagWarning "No animation with index"] /\
  NodeAnimations (fst (ComputeTransforms M T RootTransform AnimationIndex Time))
    = NodeAnimations T /\
  NodeLocalMatrices (fst (ComputeTransforms M T RootTransform AnimationIndex Time))
    = resize (length (LinearNodes M)) float4x4_default (NodeLocalMatrices T).
Proof.
  intros Hge.
  assert (HU : forall T0, UpdateAnimation M (Z.to_nat AnimationIndex) Time T0
                          = (T0, [DiagWarning "No animation with index"])).
  { intros T0. unfold UpdateAnimation.
    rewrite (lookup_ge_None_2 (Animations M) (Z.to_nat AnimationIndex)) by lia.
    reflexivity. }
  split; [exact HU|].
  unfold ComputeTransforms.
  assert (Hpos : (0 <=? AnimationIndex)%Z = true) by (apply Z.leb_le; lia).
  rewrite Hpos, HU.
  match goal with |- context [fold_left ?f (RootNodes M) ?T2] =>
    pose proof (fold_roots_shape (RootNodes M) (RefValue RootTransform) T2) as (a & _ & c & d);
    set (T3 := fold_left f (RootNodes M) T2) in * end.
  simpl in a, c, d.
  destruct (Skins T3) eqn:ES; simpl.
  - rewrite a, d. auto.
  - destruct (fold_UpdateJoints_matrices (LinearNodes M) T3) as [-> _].
    rewrite a. split; [reflexivity|]. split; [|reflexivity].
    rewrite <- d. clear. generalize T3.
    induction (LinearNodes M) as [|n l IH]; intros T'; simpl; [reflexivity|].
    rewrite IH. unfold UpdateJoints. destruct (pMesh n), (pSkin n); reflexivity.
Qed.

(** C9: after [ComputeTransforms], for any arguments, both matrix arrays
    have the length of [LinearNodes]; [CompatibleWithTransforms] holds and
    [ComputeBoundingBox] does not report incompatible transforms. *)
Theorem ComputeTransforms_compatible (M : Model) (T : ModelTransforms)
    (RootTransform : float4x4) (AnimationIndex : Z) (Time : F32.float) :
  let T' := fst (ComputeTransforms M T RootTransform AnimationIndex Time) in
  length (NodeLocalMatrices T') = length (LinearNodes M) /\
  length (NodeGlobalMatrices T') = length (LinearNodes M) /\
  CompatibleWithTransforms M T' = true /\
  snd (ComputeBoundingBox M T') = [].
Proof.
  cbv zeta.
  destruct (ComputeTransforms_lengths M T RootTransform AnimationIndex Time) as [H1 H2].
  split; [exact H1|]. split; [exact H2|].
  assert (HC : CompatibleWithTransforms M
                 (fst (ComputeTransforms M T RootTransform AnimationIndex Time)) = true).
  { unfold CompatibleWithTransforms. rewrite H1, H2, Nat.eqb_refl. reflexivity. }
  split; [exact HC|].
  unfold ComputeBoundingBox. rewrite HC. reflexivity.
Qed.

End Claims.

(** ** The global pass *)
Section GlobalPass.
Context `{BM : BasicMath}.

Abbreviation write := (fun T' (e : nat * MatrixRef) => WriteGlobal T' (fst e) (snd e)).
Abbreviation G T i := (nth i (NodeGlobalMatrices T) float4x4_default).
Abbreviation L T i := (nth i (NodeLocalMatrices T) float4x4_default).

Lemma Edges_unfold n par :
  Edges n par = (Index n, par) :: flat_map (fun c => Edges c (RefGlobal (Index n))) (Children n).
Proof. destruct n; reflexivity. Qed.

Lemma Preorder_unfold n : Preorder n = Index n :: flat_map Preorder (Children n).
Proof. destruct n; reflexivity. Qed.

Lemma Edges_Preorder n : forall par, map fst (Edges n par) = Preorder n.
Proof.
  induction n as [n IH] using Node_forall_ind. intros par.
  rewrite Edges_unfold, Preorder_unfold. simpl. f_equal.
  induction (Children n) as [|c l IHl]; simpl; [reflexivity|].
  inversion IH; subst. rewrite map_app. f_equal; auto.
Qed.

Lemma fold_left_flat_map {A B C} (f : A -> C -> A) (g : B -> list C) l : forall a,
  fold_left f (flat_map g l) a = fold_left (fun a' b => fold_left f (g b) a') l a.
Proof.
  induction l as [|b l IH]; intros a; simpl; [reflexivity|].
  rewrite fold_left_app. apply IH.
Qed.

Lemma fold_left_ext_Forall {A B} (f g : A -> B -> A) l :
  Forall (fun b => forall a, f a b = g a b) l ->
  forall a, fold_left f l a = fold_left g l a.
Proof.
  induction 1 as [|b l Hb _ IH]; intros a; simpl; [reflexivity|].
  rewrite Hb. apply IH.
Qed.

(** The recursive pass performs the assignments of [Edges] in order. *)
Lemma UpdateNodeGlobalTransform_Edges n :
  forall par T, UpdateNodeGlobalTransform n par T = fold_left write (Edges n par) T.
Proof.
  induction n as [n IH] using Node_forall_ind. intros par T.
  rewrite UpdateNodeGlobalTransform_unfold, Edges_unfold. simpl.
  rewrite fold_left_flat_map. apply fold_left_ext_Forall.
  eapply Forall_impl; [exact IH|]. simpl. intros c Hc a. apply Hc.
Qed.

Lemma roots_pass_Edges roots par T :
  fold_left (fun T' pRoot => UpdateNodeGlobalTransform pRoot par T') roots T
  = fold_left write (flat_map (fun r => Edges r par) roots) T.
Proof.
  rewrite fold_left_flat_map. apply fold_left_ext_Forall.
  apply Forall_forall. intros r _ a. apply UpdateNodeGlobalTransform_Edges.
Qed.

(** A sequence of assignments *)
Lemma writes_local ws : forall T, NodeLocalMatrices (fold_left write ws T) = NodeLocalMatrices T.
Proof. induction ws as [|e ws IH]; intros T; simpl; [reflexivity|]. rewrite IH. reflexivity. Qed.

Lemma writes_length ws : forall T,
  length (NodeGlobalMatrices (fold_left write ws T)) = length (NodeGlobalMatrices T).
Proof.
  induction ws as [|e ws IH]; intros T; simpl; [reflexivity|].
  rewrite IH. apply WriteGlobal_length.
Qed.

Lemma nth_insert_eq {A} (l : list A) i x d : i < length l -> nth i (<[i := x]> l) d = x.
Proof.
  intros H. apply nth_lookup_Some. apply list_lookup_insert_eq. exact H.
Qed.

Lemma nth_insert_ne {A} (l : list A) i j x d : i <> j -> nth j (<[i := x]> l) d = nth j l d.
Proof.
  intros H. rewrite !nth_lookup. rewrite list_lookup_insert_ne by exact H. reflexivity.
Qed.

Lemma writes_other ws : forall T i,
  ~ In i (map fst ws) -> G (fold_left write ws T) i = G T i.
Proof.
  induction ws as [|[j r] ws IH]; intros T i Hni; simpl; [reflexivity|].
  simpl in Hni. rewrite IH by tauto.
  unfold WriteGlobal; simpl. apply nth_insert_ne. tauto.
Qed.

Lemma writes_final pre i par post T :
  NoDup (map fst (pre ++ (i, par) :: post)) ->
  i < length (NodeGlobalMatrices T) ->
  G (fold_left write (pre ++ (i, par) :: post) T) i
  = L T i *m deref (fold_left write pre T) par.
Proof.
  intros Hnd Hi. rewrite fold_left_app. simpl.
  rewrite map_app in Hnd. simpl in Hnd.
  apply NoDup_app in Hnd as (_ & _ & Hnd). apply NoDup_cons in Hnd as [Hni _].
  rewrite writes_other by (rewrite <- list_elem_of_In; exact Hni).
  unfold WriteGlobal at 1; simpl.
  rewrite nth_insert_eq by (rewrite writes_length; exact Hi).
  rewrite writes_local. reflexivity.
Qed.

Lemma writes_final_child pre i j post T :
  NoDup (map fst (pre ++ (i, RefGlobal j) :: post)) ->
  i < length (NodeGlobalMatrices T) ->
  In j (map fst pre) ->
  G (fold_left write (pre ++ (i, RefGlobal j) :: post) T) i
  = L T i *m G (fold_left write (pre ++ (i, RefGlobal j) :: post) T) j.
Proof.
  intros Hnd Hi Hj. rewrite writes_final by assumption. simpl. f_equal.
  rewrite fold_left_app. symmetry. apply writes_other.
  rewrite map_app in Hnd. apply NoDup_app in Hnd as (_ & Hdis & _).
  intros Hin. apply (Hdis j); rewrite list_elem_of_In; assumption.
Qed.

(** Where the assignments of a node and of its children are in the list *)
Lemma root_edge roots par r :
  In r roots ->
  exists pre post, flat_map (fun r => Edges r par) roots = pre ++ (Index r, par) :: post.
Proof.
  intros Hin. apply in_split in Hin as (l1 & l2 & ->).
  rewrite flat_map_app. simpl. rewrite (Edges_unfold r).
  eexists _, _. simpl. reflexivity.
Qed.

Lemma forest_edges roots par p :
  InForest roots p ->
  exists par' pre post,
    flat_map (fun r => Edges r par) roots = pre ++ Edges p par' ++ post.
Proof.
  induction 1 as [r Hin | p c _ (par' & pre & post & IH) Hin].
  - apply in_split in Hin as (l1 & l2 & ->).
    rewrite flat_map_app. simpl. eexists par, _, _. reflexivity.
  - apply in_split in Hin as (l1 & l2 & Hch).
    rewrite IH, (Edges_unfold p), Hch, flat_map_app. simpl.
    exists (RefGlobal (Index p)),
           (pre ++ (Index p, par') :: flat_map (fun c0 => Edges c0 (RefGlobal (Index p))) l1),
           (flat_map (fun c0 => Edges c0 (RefGlobal (Index p))) l2 ++ post).
    simpl. rewrite <- ?app_assoc. simpl. rewrite <- ?app_assoc. reflexivity.
Qed.

Lemma child_edge roots par p c :
  InForest roots p -> In c (Children p) ->
  exists pre post,
    flat_map (fun r => Edges r par) roots = pre ++ (Index c, RefGlobal (Index p)) :: post /\
    In (Index p) (map fst pre).
Proof.
  intros Hp Hin. destruct (forest_edges roots par p Hp) as (par' & pre & post & E).
  apply in_split in Hin as (l1 & l2 & Hch).
  rewrite E, (Edges_unfold p), Hch, flat_map_app. simpl. rewrite (Edges_unfold c).
  exists (pre ++ (Index p, par') :: flat_map (fun c0 => Edges c0 (RefGlobal (Index p))) l1).
  eexists. split.
  - simpl. rewrite <- ?app_assoc. simpl. rewrite <- ?app_assoc. simpl. reflexivity.
  - rewrite map_app. apply in_or_app. right. left. reflexivity.
Qed.

Lemma InForest_Preorder roots p :
  InForest roots p -> In (Index p) (flat_map Preorder roots).
Proof.
  intros Hp. destruct (forest_edges roots (RefGlobal 0) p Hp) as (par' & pre & post & E).
  assert (Hm : flat_map Preorder roots = map fst (flat_map (fun r => Edges r (RefGlobal 0)) roots)).
  { clear. induction roots as [|r l IH]; simpl; [reflexivity|].
    rewrite map_app, Edges_Preorder, IH. reflexivity. }
  rewrite Hm, E, !map_app, (Edges_unfold p). simpl.
  apply in_or_app. right. left. reflexivity.
Qed.

Lemma forest_edges_Preorder roots par :
  map fst (flat_map (fun r => Edges r par) roots) = flat_map Preorder roots.
Proof.
  induction roots as [|r l IH]; simpl; [reflexivity|].
  rewrite map_app, Edges_Preorder, IH. reflexivity.
Qed.

(** The result of the global pass on a forest without repeated indices *)
Lemma global_pass roots Root T :
  NoDup (flat_map Preorder roots) ->
  (forall i, In i (flat_map Preorder roots) -> i < length (NodeGlobalMatrices T)) ->
  let T' := fold_left (fun T' pRoot => UpdateNodeGlobalTransform pRoot (RefValue Root) T')
                      roots T in
  (forall r, In r roots -> G T' (Index r) = L T (Index r) *m Root) /\
  (forall p c, InForest roots p -> In c (Children p) ->
               G T' (Index c) = L T (Index c) *m G T' (Index p)).
Proof.
  intros Hnd Hlt. cbv zeta. rewrite roots_pass_Edges.
  rewrite <- (forest_edges_Preorder roots (RefValue Root)) in Hnd.
  split.
  - intros r Hr. destruct (root_edge roots (RefValue Root) r Hr) as (pre & post & E).
    rewrite E in *. rewrite writes_final; [reflexivity | exact Hnd |].
    apply Hlt. apply (InForest_Preorder roots r). constructor. exact Hr.
  - intros p c Hp Hc.
    destruct (child_edge roots (RefValue Root) p c Hp Hc) as (pre & post & E & Hin).
    rewrite E in *. apply writes_final_child; [exact Hnd | | exact Hin].
    apply Hlt. apply (InForest_Preorder roots c). econstructor 2; eassumption.
Qed.

End GlobalPass.

Section TransformsClaim.
Context `{BM : BasicMath}.

Lemma fold_insert_map {A B} (f : B -> A) (l : list B) : forall k (L0 : list A),
  length L0 = k + length l ->
  fold_left (fun L '(i, N) => <[i := f N]> L) (combine (seq k (length l)) l) L0
  = take k L0 ++ map f l.
Proof.
  induction l as [|b l IH]; intros k L0 Hlen; simpl in *.
  - rewrite app_nil_r. rewrite take_ge by lia. reflexivity.
  - rewrite IH by (rewrite length_insert; lia).
    rewrite (take_S_r _ _ (f b)) by (apply list_lookup_insert_eq; lia).
    rewrite take_insert_ge by lia. rewrite <- app_assoc. reflexivity.
Qed.

Lemma fold_enumerate_map {A B} (f : B -> A) (l : list B) (L0 : list A) :
  length L0 = length l ->
  fold_left (fun L '(i, N) => <[i := f N]> L) (enumerate l) L0 = map f l.
Proof.
  intros H. unfold enumerate. rewrite (fold_insert_map f l 0 L0) by exact H. reflexivity.
Qed.

Lemma ComputeNodeLocalMatrix_default N :
  DefaultTRS N -> ComputeNodeLocalMatrix N = float4x4_Identity.
Proof.
  intros (Ht & Hr & Hs & Hm). unfold ComputeNodeLocalMatrix, ComputeNodeLocalMatrix4.
  rewrite Ht, Hr, Hs, Hm. reflexivity.
Qed.

(** The stages of [ComputeTransforms]: the transforms [T2] before the
    global pass, whose local matrices are final, and the global pass, whose
    global matrices are final. *)
Lemma ComputeTransforms_stages M T RootTransform AnimationIndex Time :
  exists T2,
    length (NodeGlobalMatrices T2) = length (LinearNodes M) /\
    NodeLocalMatrices (fst (ComputeTransforms M T RootTransform AnimationIndex Time))
      = NodeLocalMatrices T2 /\
    NodeGlobalMatrices (fst (ComputeTransforms M T RootTransform AnimationIndex Time))
      = NodeGlobalMatrices
          (fold_left (fun T' pRoot =>
                        UpdateNodeGlobalTransform pRoot (RefValue RootTransform) T')
                     (RootNodes M) T2) /\
    ((AnimationIndex < 0)%Z ->
     NodeLocalMatrices T2 = map ComputeNodeLocalMatrix (LinearNodes M)).
Proof.
  unfold ComputeTransforms.
  set (n := length (LinearNodes M)).
  set (T1 := set_NodeLocalMatrices _ _).
  assert (H1 : length (NodeLocalMatrices T1) = n /\ length (NodeGlobalMatrices T1) = n).
  { subst T1; simpl. split; apply length_resize. }
  destruct (0 <=? AnimationIndex)%Z eqn:Eidx.
  - match goal with |- context [UpdateAnimation ?M ?i ?t ?T0] =>
      destruct (UpdateAnimation_lengths M i t T0) as (a & b & _);
      destruct (UpdateAnimation M i t T0) as [T2 log] end.
    simpl in a, b. exists T2.
    pose proof (fold_roots_shape (RootNodes M) (RefValue RootTransform) T2) as (c & _ & _ & _).
    set (T3 := fold_left _ (RootNodes M) T2) in *.
    split; [rewrite b; apply H1|].
    simpl. apply Z.leb_le in Eidx. destruct (Skins T3).
    + split; [exact c|]. split; [reflexivity|]. lia.
    + destruct (fold_UpdateJoints_matrices (LinearNodes M) T3) as [-> ->].
      split; [exact c|]. split; [reflexivity|]. lia.
  - match goal with |- context [fold_left ?f (RootNodes M) ?T0] =>
      set (T2 := T0);
      pose proof (fold_roots_shape (RootNodes M) (RefValue RootTransform) T2)
        as (c & _ & d & _);
      set (T3 := fold_left f (RootNodes M) T2) in * end.
    exists T2. simpl in d. simpl. rewrite d. simpl.
    split; [apply H1|]. split; [exact c|]. split; [reflexivity|].
    intros _. subst T2. simpl. apply fold_enumerate_map. apply H1.
Qed.

(** C3: the global matrices after [ComputeTransforms].  The global pass
    performs its assignments in depth-first pre-order from each root; for
    a node forest without repeated indices, all within the node array, the
    global matrix of a root is its local matrix times the root transform
    and the global matrix of a child is its local matrix times the global
    matrix of its parent.  When no animation is applied, every node has
    default translation, rotation and scale and the identity matrix, and
    the identity matrix times the root transform is the root transform,
    every root has the root transform as global matrix and every other
    node the global matrix of its parent. *)
Theorem ComputeTransforms_global_matrices (M : Model) (T : ModelTransforms)
    (RootTransform : float4x4) (AnimationIndex : Z) (Time : F32.float) :
  let T' := fst (ComputeTransforms M T RootTransform AnimationIndex Time) in
  let Local i := nth i (NodeLocalMatrices T') float4x4_default in
  let Global i := nth i (NodeGlobalMatrices T') float4x4_default in
  (forall T0,
     fold_left (fun T1 pRoot => UpdateNodeGlobalTransform pRoot (RefValue RootTransform) T1)
               (RootNodes M) T0
     = fold_left (fun T1 e => WriteGlobal T1 (fst e) (snd e))
                 (flat_map (fun r => Edges r (RefValue RootTransform)) (RootNodes M)) T0) /\
  (NoDup (flat_map Preorder (RootNodes M)) ->
   (forall i, In i (flat_map Preorder (RootNodes M)) -> i < length (LinearNodes M)) ->
   (forall r, In r (RootNodes M) -> Global (Index r) = Local (Index r) *m RootTransform) /\
   (forall p c, InForest (RootNodes M) p -> In c (Children p) ->
                Global (Index c) = Local (Index c) *m Global (Index p)) /\
   ((AnimationIndex < 0)%Z ->
    (forall N, In N (LinearNodes M) -> DefaultTRS N) ->
    float4x4_Identity *m RootTransform = RootTransform ->
    (forall r, In r (RootNodes M) -> Global (Index r) = RootTransform) /\
    (forall p c, InForest (RootNodes M) p -> In c (Children p) ->
                 Global (Index c) = Global (Index p)))).
Proof.
  cbv zeta. split; [intros T0; apply roots_pass_Edges|].
  intros Hnd Hlt.
  destruct (ComputeTransforms_stages M T RootTransform AnimationIndex Time)
    as (T2 & Hlen & HL & HG & Hmap).
  rewrite HL, HG.
  destruct (global_pass (RootNodes M) RootTransform T2 Hnd) as [Hroot Hchild].
  { intros i Hi. rewrite Hlen. apply Hlt. exact Hi. }
  split; [exact Hroot|]. split; [exact Hchild|].
  intros Hneg Hdef Hid.
  assert (Hloc : forall p, InForest (RootNodes M) p ->
                   nth (Index p) (NodeLocalMatrices T2) float4x4_default = float4x4_Identity).
  { intros p Hp. rewrite (Hmap Hneg).
    assert (Hi : Index p < length (LinearNodes M))
      by (apply Hlt; apply InForest_Preorder; exact Hp).
    destruct (lookup_lt_is_Some_2 (LinearNodes M) (Index p) Hi) as [N HN].
    erewrite nth_lookup_Some; [|rewrite list_lookup_fmap, HN; reflexivity].
    apply ComputeNodeLocalMatrix_default. apply Hdef.
    apply list_elem_of_In. eapply list_elem_of_lookup_2. exact HN. }
  assert (Hall : forall p, InForest (RootNodes M) p ->
            nth (Index p)
                (NodeGlobalMatrices
                   (fold_left (fun T' pRoot =>
                                 UpdateNodeGlobalTransform pRoot (RefValue RootTransform) T')
                              (RootNodes M) T2)) float4x4_default = RootTransform).
  { induction 1 as [r Hr | p c Hp IH Hc].
    - rewrite Hroot by exact Hr. rewrite Hloc by (constructor; exact Hr). exact Hid.
    - rewrite (Hchild p c Hp Hc), IH.
      rewrite Hloc by (econstructor 2; eassumption). exact Hid. }
  split.
  - intros r Hr. apply Hall. constructor. exact Hr.
  - intros p c Hp Hc. rewrite (Hall p Hp). apply Hall. econstructor 2; eassumption.
Qed.

End TransformsClaim.

(** ** Sampling a channel *)
Section AnimationFacts.
Context `{BM : BasicMath}.

Lemma find_seq_first (P : nat -> bool) n : forall k i,
  k <= i < k + n -> P i = true ->
  exists i0, find P (seq k n) = Some i0 /\ k <= i0 <= i /\ P i0 = true /\
             forall j, k <= j < i0 -> P j = false.
Proof.
  induction n as [|n IH]; intros k i Hi HP; [lia|]. simpl.
  destruct (P k) eqn:Ek.
  - exists k. repeat split; try lia; auto.
  - assert (Hne : i <> k) by congruence.
    destruct (IH (S k) i) as (i0 & Hf & Hr & HP0 & Hfirst); [lia | exact HP|].
    exists i0. repeat split; try lia; auto.
    intros j Hj. destruct (Nat.eq_dec j k) as [-> | Hjk]; [exact Ek | apply Hfirst; lia].
Qed.

Lemma find_seq_Some (P : nat -> bool) n : forall k i,
  find P (seq k n) = Some i -> k <= i < k + n.
Proof.
  intros k i H. apply find_some in H as [H _]. apply in_seq in H. lia.
Qed.

(** The scan finds the first bracket, if there is any bracket. *)
Lemma FindKeyframe_first inputs time i :
  i + 1 < length inputs -> Brackets inputs time i = true ->
  exists i0, FindKeyframe inputs time = Some i0 /\ i0 <= i /\ FirstBracket inputs time i0.
Proof.
  intros Hi Hb. unfold FindKeyframe.
  destruct (find_seq_first (Brackets inputs time) (length inputs - 1) 0 i)
    as (i0 & Hf & Hr & HP0 & Hfirst); [lia | exact Hb|].
  exists i0. split; [exact Hf|]. split; [lia|]. split; [exact HP0|].
  intros j Hj. apply Hfirst. lia.
Qed.

Lemma FirstBracket_unique inputs time i j :
  FirstBracket inputs time i -> FirstBracket inputs time j -> i = j.
Proof.
  intros [Hi Hi'] [Hj Hj'].
  destruct (Nat.lt_trichotomy i j) as [H | [H | H]]; [|exact H|].
  - rewrite (Hj' i H) in Hi. discriminate.
  - rewrite (Hi' j H) in Hj. discriminate.
Qed.

(** The value a channel writes when the scan stops at bracket [i] *)
Lemma ApplyChannel_sample animation time Anims log channel sampler i A :
  Samplers animation !! SamplerIndex channel = Some sampler ->
  length (Inputs sampler) <= length (OutputsVec4 sampler) ->
  FindKeyframe (Inputs sampler) time = Some i ->
  Anims !! ChannelNodeIndex channel = Some A ->
  let u := match Interpolation sampler with
           | LINEAR => LinearParameter (Inputs sampler) time i
           | _ => F32.zero
           end in
  let out_i := nth i (OutputsVec4 sampler) float4_zero in
  let out_i1 := nth (i + 1) (OutputsVec4 sampler) float4_zero in
  let Anims' := fst (ApplyChannel animation time (Anims, log) channel) in
  match PathType channel with
  | TRANSLATION =>
      Anims' !! ChannelNodeIndex channel
      = Some (set_TDTranslation A (lerp (float3_of_float4 out_i) (float3_of_float4 out_i1) u))
  | SCALE =>
      Anims' !! ChannelNodeIndex channel
      = Some (set_TDScale A (lerp (float3_of_float4 out_i) (float3_of_float4 out_i1) u))
  | ROTATION =>
      Anims' !! ChannelNodeIndex channel
      = Some (set_TDRotation A (normalize (slerp (Quaternion_of_float4 out_i)
                                                 (Quaternion_of_float4 out_i1) u)))
  | WEIGHTS => Anims' = Anims
  end.
Proof.
  intros Hs Hlen Hf HA. cbv zeta. unfold ApplyChannel.
  rewrite (nth_lookup_Some _ _ _ _ Hs).
  assert (Hl : (length (OutputsVec4 sampler) <? length (Inputs sampler)) = false)
    by (apply Nat.ltb_ge; exact Hlen).
  rewrite Hl, Hf. unfold LinearParameter.
  destruct (PathType channel); simpl; try reflexivity;
    rewrite list_lookup_alter_eq, HA; reflexivity.
Qed.

End AnimationFacts.

(** ** Texture init data *)
Section PixelLoops.

Variables fr fg fb fa : nat -> Z.

Abbreviation pixel_loop := (pixel_loop fr fg fb fa).

Lemma store_pixel_length dst i r g b a : length (store_pixel dst i r g b a) = length dst.
Proof. unfold store_pixel. rewrite !length_insert. reflexivity. Qed.

Lemma pixel_loop_length n : forall dst, length (pixel_loop n dst) = length dst.
Proof.
  unfold pixel_loop. generalize 0.
  induction n as [|n IH]; intros k dst; simpl; [reflexivity|].
  rewrite IH. apply store_pixel_length.
Qed.

Lemma pixel_loop_S n dst :
  pixel_loop (S n) dst = store_pixel (pixel_loop n dst) n (fr n) (fg n) (fb n) (fa n).
Proof. unfold pixel_loop. rewrite seq_S, fold_left_app. reflexivity. Qed.

Lemma nth_store_pixel dst i r g b a j :
  4 * i + 3 < length dst ->
  nth j (store_pixel dst i r g b a) 0%Z =
    if Nat.eqb j (4 * i) then r
    else if Nat.eqb j (4 * i + 1) then g
    else if Nat.eqb j (4 * i + 2) then b
    else if Nat.eqb j (4 * i + 3) then a
    else nth j dst 0%Z.
Proof.
  intros Hlen. unfold store_pixel. rewrite !nth_lookup.
  destruct (Nat.eqb_spec j (4 * i)) as [-> | H0].
  { rewrite !list_lookup_insert_ne by lia.
    rewrite list_lookup_insert_eq by lia. reflexivity. }
  destruct (Nat.eqb_spec j (4 * i + 1)) as [-> | H1].
  { rewrite !list_lookup_insert_ne by lia.
    rewrite list_lookup_insert_eq by (rewrite ?length_insert; lia). reflexivity. }
  destruct (Nat.eqb_spec j (4 * i + 2)) as [-> | H2].
  { rewrite !list_lookup_insert_ne by lia.
    rewrite list_lookup_insert_eq by (rewrite ?length_insert; lia). reflexivity. }
  destruct (Nat.eqb_spec j (4 * i + 3)) as [-> | H3].
  { rewrite list_lookup_insert_eq by (rewrite ?length_insert; lia). reflexivity. }
  rewrite !list_lookup_insert_ne by lia. reflexivity.
Qed.

(** After the loop over [n] pixels, pixel [k < n] holds the four bytes
    written for it. *)
Lemma pixel_loop_nth n : forall dst k,
  4 * n <= length dst -> k < n ->
  nth (4 * k) (pixel_loop n dst) 0%Z = fr k /\
  nth (4 * k + 1) (pixel_loop n dst) 0%Z = fg k /\
  nth (4 * k + 2) (pixel_loop n dst) 0%Z = fb k /\
  nth (4 * k + 3) (pixel_loop n dst) 0%Z = fa k.
Proof.
  induction n as [|n IH]; intros dst k Hlen Hk; [lia|].
  rewrite pixel_loop_S.
  assert (Hl : 4 * n + 3 < length (pixel_loop n dst)) by (rewrite pixel_loop_length; lia).
  rewrite !nth_store_pixel by exact Hl.
  destruct (Nat.eq_dec k n) as [-> | Hne].
  - rewrite Nat.eqb_refl.
    replace (4 * n + 1 =? 4 * n) with false by (symmetry; apply Nat.eqb_neq; lia).
    replace (4 * n + 2 =? 4 * n) with false by (symmetry; apply Nat.eqb_neq; lia).
    replace (4 * n + 3 =? 4 * n) with false by (symmetry; apply Nat.eqb_neq; lia).
    replace (4 * n + 2 =? 4 * n + 1) with false by (symmetry; apply Nat.eqb_neq; lia).
    replace (4 * n + 3 =? 4 * n + 1) with false by (symmetry; apply Nat.eqb_neq; lia).
    replace (4 * n + 3 =? 4 * n + 2) with false by (symmetry; apply Nat.eqb_neq; lia).
    rewrite !Nat.eqb_refl. auto.
  - destruct (IH dst k) as (H0 & H1 & H2 & H3); [lia | lia|].
    repeat match goal with
    | |- context [?a =? ?b] =>
        replace (a =? b) with false by (symmetry; apply Nat.eqb_neq; lia)
    end.
    auto.
Qed.

End PixelLoops.

Section TextureInitFacts.
Context `{GA : GraphicsAccessories}.

Lemma GenerateMipLevel_level0 Format st mip :
  0 < mip ->
  nth 0 (fst (GenerateMipLevel Format st mip)) LevelData_default
  = nth 0 (fst st) LevelData_default.
Proof.
  intros Hm. destruct st as [Lv log]. unfold GenerateMipLevel. simpl.
  destruct (FmtIsCompressed _); simpl; rewrite !nth_lookup;
    rewrite list_lookup_insert_ne by lia; reflexivity.
Qed.

Lemma GenerateMipLevels_level0 Format Lv :
  nth 0 (fst (GenerateMipLevels 1 Format Lv)) LevelData_default = nth 0 Lv LevelData_default.
Proof.
  unfold GenerateMipLevels.
  change (nth 0 Lv LevelData_default) with (nth 0 (fst (Lv, @nil Diag)) LevelData_default).
  generalize (Lv, @nil Diag). generalize (length Lv - 1).
  assert (H : forall n k st, 0 < k ->
            nth 0 (fst (fold_left (GenerateMipLevel Format) (seq k n) st)) LevelData_default
            = nth 0 (fst st) LevelData_default).
  { induction n as [|n IH]; intros k st Hk; simpl; [reflexivity|].
    rewrite IH by lia. apply GenerateMipLevel_level0. exact Hk. }
  intros n st. apply H. lia.
Qed.

Lemma Level0Data_remap Image AlphaCutoff NumMipLevels :
  ImgNumComponents Image = 4%Z ->
  F32.gtb AlphaCutoff F32.zero = true ->
  0 < NumMipLevels ->
  Level0Data Image AlphaCutoff NumMipLevels
  = RemapAlphaLoop (F32.mul AlphaCutoff (F32.of_Z 255)) (ImgpData Image)
      (Z.to_nat (ImgWidth Image * ImgHeight Image))
      (resize (Z.to_nat (wrap64 (wrap32 (ImgWidth Image) * 4 * ImgHeight Image))) 0%Z []).
Proof.
  intros Hc Hcut Hn. unfold Level0Data, PrepareGLTFTextureInitData.
  rewrite Hc, Hcut. simpl.
  destruct (GenerateMipLevels 1 _ _) as [Lv log] eqn:E. simpl.
  change Lv with (fst (Lv, log)). rewrite <- E, GenerateMipLevels_level0.
  rewrite nth_lookup, list_lookup_insert_eq by (rewrite length_resize; lia).
  reflexivity.
Qed.

End TextureInitFacts.

(** ** Materialization *)
Section PrepareFacts.
Context `{GA : GraphicsAccessories} `{BM : BasicMath}.

Lemma SameObjects_refl Dev : SameObjects Dev Dev.
Proof. split; reflexivity. Qed.

Lemma SameObjects_trans D1 D2 D3 : SameObjects D1 D2 -> SameObjects D2 D3 -> SameObjects D1 D3.
Proof. intros [a b] [c d]. split; intros; [rewrite c, a | rewrite d, b]; reflexivity. Qed.

Lemma ClearTexture_slot Dev t s :
  SlotData (ClearTextureUserData Dev t) s
  = if decide (s = SlotTexture t) then None else SlotData Dev s.
Proof.
  destruct (decide (s = SlotTexture t)) as [-> | N].
  - simpl. rewrite lookup_alter_eq. destruct (DevTextures Dev !! t); reflexivity.
  - destruct s as [t' | a]; simpl; [|reflexivity].
    rewrite lookup_alter_ne by congruence. reflexivity.
Qed.

Lemma ClearAllocation_slot Dev a s :
  SlotData (ClearAllocationUserData Dev a) s
  = if decide (s = SlotAllocation a) then None else SlotData Dev s.
Proof.
  destruct (decide (s = SlotAllocation a)) as [-> | N].
  - simpl. rewrite lookup_alter_eq. destruct (DevAllocations Dev !! a); reflexivity.
  - destruct s as [t | a']; simpl; [reflexivity|].
    rewrite lookup_alter_ne by congruence. reflexivity.
Qed.

Lemma ClearTexture_same Dev t : SameObjects Dev (ClearTextureUserData Dev t).
Proof.
  split; intros x; simpl; [|reflexivity].
  destruct (decide (t = x)) as [-> | N].
  - rewrite lookup_alter_eq. destruct (DevTextures Dev !! x); reflexivity.
  - rewrite lookup_alter_ne by exact N. reflexivity.
Qed.

Lemma ClearAllocation_same Dev a : SameObjects Dev (ClearAllocationUserData Dev a).
Proof.
  split; intros x; simpl; [reflexivity|].
  destruct (decide (a = x)) as [-> | N].
  - rewrite lookup_alter_eq. destruct (DevAllocations Dev !! x); reflexivity.
  - rewrite lookup_alter_ne by exact N. reflexivity.
Qed.

Lemma UploadTextureData_same Dev Dev' TexInfo alloc pTex TexDesc InitData :
  SameObjects Dev Dev' ->
  UploadTextureData Dev' TexInfo alloc pTex TexDesc InitData
  = UploadTextureData Dev TexInfo alloc pTex TexDesc InitData.
Proof.
  intros [Ht _]. unfold UploadTextureData.
  destruct alloc as [al|]; destruct (AllocOrigin _) || idtac;
    destruct (Levels InitData); try reflexivity;
    destruct (pStagingTex InitData) as [p|]; try reflexivity;
    specialize (Ht p);
    destruct (DevTextures Dev' !! p), (DevTextures Dev !! p); simpl in Ht;
    try discriminate; try reflexivity; injection Ht as ->; reflexivity.
Qed.

Lemma SameObjects_desc Dev Dev' t o :
  SameObjects Dev Dev' -> DevTextures Dev' !! t = Some o ->
  exists o', DevTextures Dev !! t = Some o' /\ TexObjDesc o' = TexObjDesc o.
Proof.
  intros [Ht _] Ho. specialize (Ht t). rewrite Ho in Ht. simpl in Ht.
  destruct (DevTextures Dev !! t) as [o'|]; [|discriminate].
  exists o'. split; [reflexivity|]. simpl in Ht. congruence.
Qed.

Lemma SameObjects_nodesc Dev Dev' t :
  SameObjects Dev Dev' -> DevTextures Dev' !! t = None -> DevTextures Dev !! t = None.
Proof.
  intros [Ht _] Ho. specialize (Ht t). rewrite Ho in Ht. simpl in Ht.
  destruct (DevTextures Dev !! t); [discriminate | reflexivity].
Qed.

(** One step of the texture loop *)
Lemma PrepareTexture_step Dev Barriers Cmds TexInfo :
  exists Dev' extraB,
    PrepareTexture (Dev, Barriers, Cmds) TexInfo
    = (Dev', Barriers ++ extraB,
       Cmds ++ match TextureSlot TexInfo with
               | Some s =>
                   match SlotData Dev s with
                   | Some InitData => TextureUpload Dev TexInfo InitData
                   | None => []
                   end
               | None => []
               end) /\
    SameObjects Dev Dev' /\
    (forall s, SlotData Dev' s
               = if decide (TextureSlot TexInfo = Some s) then None else SlotData Dev s) /\
    (forall B, BufferData Dev' B = BufferData Dev B) /\
    (match TextureSlot TexInfo with
     | Some s => SlotData Dev s = None -> extraB = []
     | None => extraB = []
     end).
Proof.
  unfold PrepareTexture, TextureSlot, TextureUpload.
  destruct TexInfo as [pT pA]; simpl.
  destruct pA as [a|].
  - destruct (DevAllocations Dev !! a) as [al|] eqn:Ea.
    + pose proof (ClearAllocation_same Dev a) as Hsame.
      assert (Hslots : forall s, SlotData (ClearAllocationUserData Dev a) s
                = if decide (Some (SlotAllocation a) = Some s) then None else SlotData Dev s).
      { intros s. rewrite ClearAllocation_slot.
        destruct (decide (s = SlotAllocation a)), (decide (Some (SlotAllocation a) = Some s));
          congruence. }
      destruct (AllocAtlasTexture al) as [pTex|] eqn:Et.
      * destruct (AllocUserData al) as [InitData|] eqn:Eu.
        -- destruct (DevTextures (ClearAllocationUserData Dev a) !! pTex) as [o|] eqn:Eo.
           ++ destruct (SameObjects_desc _ _ _ _ Hsame Eo) as (o' & -> & <-).
              rewrite (UploadTextureData_same _ _ _ _ _ _ _ Hsame).
              exists (ClearAllocationUserData Dev a),
                     (match pT with
                      | Some _ => [{| pResource := ObjTexture pTex;
                                      NewState := RESOURCE_STATE_SHADER_RESOURCE |}]
                      | None => []
                      end).
              split; [cbn [SlotData]; rewrite ?Ea, ?Eo, ?Eu; destruct pT; rewrite ?app_nil_r; reflexivity|].
              split; [exact Hsame|]. split; [exact Hslots|].
              split; [reflexivity|]. cbn [SlotData]; rewrite ?Ea, ?Eo, ?Eu; discriminate.
           ++ rewrite (SameObjects_nodesc _ _ _ Hsame Eo).
              exists (ClearAllocationUserData Dev a), []. rewrite !app_nil_r.
              split; [cbn [SlotData]; rewrite ?Ea, ?Eo, ?Eu, ?app_nil_r; reflexivity|].
              split; [exact Hsame|]. split; [exact Hslots|].
              split; [reflexivity|]. reflexivity.
        -- exists (ClearAllocationUserData Dev a), []. rewrite !app_nil_r.
           split; [cbn [SlotData]; rewrite ?Ea, ?Eo, ?Eu, ?app_nil_r; reflexivity|].
           split; [exact Hsame|]. split; [exact Hslots|].
           split; [reflexivity|]. reflexivity.
      * exists (ClearAllocationUserData Dev a), []. rewrite !app_nil_r.
        split; [cbn [SlotData]; rewrite ?Ea, ?Et; destruct (AllocUserData al); rewrite ?app_nil_r; reflexivity|].
        split; [exact Hsame|]. split; [exact Hslots|].
        split; [reflexivity|]. reflexivity.
    + exists Dev, []. rewrite !app_nil_r. split; [cbn [SlotData]; rewrite ?Ea, ?Eo, ?Eu, ?app_nil_r; reflexivity|].
      split; [apply SameObjects_refl|]. split.
      * intros s. case_decide as E; [|reflexivity].
        inversion E; subst. simpl. rewrite Ea. reflexivity.
      * split; reflexivity.
  - destruct pT as [t|].
    + destruct (DevTextures Dev !! t) as [o|] eqn:Eo.
      * pose proof (ClearTexture_same Dev t) as Hsame.
        assert (Hslots : forall s, SlotData (ClearTextureUserData Dev t) s
                  = if decide (Some (SlotTexture t) = Some s) then None else SlotData Dev s).
        { intros s. rewrite ClearTexture_slot.
          destruct (decide (s = SlotTexture t)), (decide (Some (SlotTexture t) = Some s));
            congruence. }
        assert (Eo' : DevTextures (ClearTextureUserData Dev t) !! t
                      = Some {| TexObjDesc := TexObjDesc o; TexObjUserData := None |}).
        { simpl. rewrite lookup_alter_eq, Eo. reflexivity. }
        destruct (TexObjUserData o) as [InitData|] eqn:Eu.
        -- rewrite Eo'. rewrite (UploadTextureData_same _ _ _ _ _ _ _ Hsame).
           exists (ClearTextureUserData Dev t),
                  [{| pResource := ObjTexture t; NewState := RESOURCE_STATE_SHADER_RESOURCE |}].
           split; [cbn [SlotData]; rewrite ?Eo, ?Eu; reflexivity|].
           split; [exact Hsame|]. split; [exact Hslots|].
           split; [reflexivity|]. cbn [SlotData]; rewrite ?Ea, ?Eo, ?Eu; discriminate.
        -- exists (ClearTextureUserData Dev t), []. rewrite !app_nil_r.
           split; [cbn [SlotData]; rewrite ?Ea, ?Eo, ?Eu, ?app_nil_r; reflexivity|].
           split; [exact Hsame|]. split; [exact Hslots|].
           split; [reflexivity|]. reflexivity.
      * exists Dev, []. rewrite !app_nil_r. split; [cbn [SlotData]; rewrite ?Ea, ?Eo, ?Eu, ?app_nil_r; reflexivity|].
        split; [apply SameObjects_refl|]. split.
        -- intros s. case_decide as E; [|reflexivity].
           inversion E; subst. simpl. rewrite Eo. reflexivity.
        -- split; reflexivity.
    + exists Dev, []. rewrite !app_nil_r. split; [cbn [SlotData]; rewrite ?Ea, ?Eo, ?Eu, ?app_nil_r; reflexivity|].
      split; [apply SameObjects_refl|]. split.
      * intros s. case_decide; [discriminate | reflexivity].
      * split; reflexivity.
Qed.


Lemma TextureUpload_same Dev Dev' TexInfo InitData :
  SameObjects Dev Dev' ->
  TextureUpload Dev' TexInfo InitData = TextureUpload Dev TexInfo InitData.
Proof.
  intros Hsame. pose proof Hsame as [Ht Ha]. unfold TextureUpload.
  destruct (pAtlasSuballocation TexInfo) as [a|].
  - specialize (Ha a).
    destruct (DevAllocations Dev' !! a) as [al'|], (DevAllocations Dev !! a) as [al|];
      simpl in Ha; try discriminate; try reflexivity.
    injection Ha as E1 E2 E3. rewrite E1.
    destruct (AllocAtlasTexture al) as [pTex|]; [|reflexivity].
    specialize (Ht pTex).
    destruct (DevTextures Dev' !! pTex) as [o'|], (DevTextures Dev !! pTex) as [o|];
      simpl in Ht; try discriminate; try reflexivity.
    injection Ht as ->. rewrite (UploadTextureData_same _ _ _ _ _ _ _ Hsame).
    unfold UploadTextureData. rewrite E2, E3. reflexivity.
  - destruct (pTexture TexInfo) as [t|]; [|reflexivity].
    specialize (Ht t).
    destruct (DevTextures Dev' !! t) as [o'|], (DevTextures Dev !! t) as [o|];
      simpl in Ht; try discriminate; try reflexivity.
    injection Ht as ->. apply UploadTextureData_same. exact Hsame.
Qed.

(** The loop over the textures *)
Lemma PrepareTextures_state l : forall st,
  let st' := fold_left PrepareTexture l st in
  SameObjects (st_dev st) (st_dev st') /\
  (forall B, BufferData (st_dev st') B = BufferData (st_dev st) B) /\
  (forall s, (exists X, In X l /\ TextureSlot X = Some s) -> SlotData (st_dev st') s = None) /\
  (forall s, (forall X, In X l -> TextureSlot X <> Some s) ->
             SlotData (st_dev st') s = SlotData (st_dev st) s) /\
  (forall s, SlotData (st_dev st) s = None -> SlotData (st_dev st') s = None) /\
  (exists eB eC, st_barriers st' = st_barriers st ++ eB /\ st_cmds st' = st_cmds st ++ eC /\
     ((forall X s, In X l -> TextureSlot X = Some s -> SlotData (st_dev st) s = None) ->
      eB = [] /\ eC = [])).
Proof.
  induction l as [|X l IH]; intros [[Dev B] C]; cbv zeta.
  - simpl. split; [apply SameObjects_refl|]. split; [reflexivity|].
    split; [intros s (X & [] & _)|]. split; [reflexivity|]. split; [auto|].
    exists [], []. rewrite !app_nil_r. auto.
  - cbn [fold_left].
    destruct (PrepareTexture_step Dev B C X) as (Dev1 & eB1 & E & Hsame & Hslots & Hbuf & Hq).
    rewrite E.
    destruct (IH (Dev1, B ++ eB1,
                  C ++ match TextureSlot X with
                       | Some s => match SlotData Dev s with
                                   | Some InitData => TextureUpload Dev X InitData
                                   | None => []
                                   end
                       | None => []
                       end))
      as (IHsame & IHbuf & IHsome & IHnone & IHmono & eB & eC & IHB & IHC & IHq).
    set (st' := fold_left PrepareTexture l _) in *.
    unfold st_dev, st_barriers, st_cmds in *. simpl in *.
    split; [eapply SameObjects_trans; eassumption|].
    split; [intros B0; rewrite IHbuf; apply Hbuf|].
    split.
    { intros s (Y & [<- | HY] & HYs).
      - apply IHmono. rewrite Hslots. rewrite decide_True by exact HYs. reflexivity.
      - apply IHsome. eauto. }
    split.
    { intros s Hs. rewrite IHnone by (intros Y HY; apply Hs; right; exact HY).
      rewrite Hslots. rewrite decide_False by (apply Hs; left; reflexivity). reflexivity. }
    split.
    { intros s Hs. apply IHmono. rewrite Hslots. case_decide; [reflexivity | exact Hs]. }
    eexists _, _. split; [rewrite IHB, <- app_assoc; reflexivity|].
    split; [rewrite IHC, <- app_assoc; reflexivity|].
    intros Hquiet.
    assert (HX : eB1 = [] /\
                 match TextureSlot X with
                 | Some s => match SlotData Dev s with
                             | Some InitData => TextureUpload Dev X InitData
                             | None => []
                             end
                 | None => []
                 end = []).
    { destruct (TextureSlot X) as [s|] eqn:Es; [|auto].
      assert (Hn : SlotData Dev s = None) by (apply (Hquiet X); auto).
      rewrite Hn. auto. }
    destruct HX as [-> ->].
    destruct IHq as [-> ->]; [|auto].
    intros Y s HY HYs. rewrite Hslots. case_decide; [reflexivity|]. apply (Hquiet Y); auto.
Qed.

(** The commands of the call that visits a slot first while it holds init
    data *)
Lemma PrepareTextures_first l1 X l2 st s InitData :
  TextureSlot X = Some s ->
  (forall Y, In Y l1 -> TextureSlot Y <> Some s) ->
  SlotData (st_dev st) s = Some InitData ->
  exists c1 c2,
    st_cmds (fold_left PrepareTexture (l1 ++ X :: l2) st)
    = st_cmds st ++ c1 ++ TextureUpload (st_dev st) X InitData ++ c2.
Proof.
  intros HX Hl1 Hdata. rewrite fold_left_app. cbn [fold_left].
  destruct (PrepareTextures_state l1 st)
    as (Hsame & _ & _ & Hnone & _ & eB & c1 & _ & HC & _).
  destruct (fold_left PrepareTexture l1 st) as [[Dev1 B1] C1].
  unfold st_dev, st_cmds in *. simpl in Hsame, Hnone, HC.
  destruct (PrepareTexture_step Dev1 B1 C1 X) as (Dev2 & eB2 & E & _).
  rewrite E, HX, (Hnone s Hl1), Hdata.
  destruct (PrepareTextures_state l2
              (Dev2, B1 ++ eB2, C1 ++ TextureUpload Dev1 X InitData))
    as (_ & _ & _ & _ & _ & eB3 & c2 & _ & HC2 & _).
  unfold st_cmds in HC2. simpl in HC2. rewrite HC2.
  exists c1, c2. rewrite HC, (TextureUpload_same _ _ _ _ Hsame), <- !app_assoc. reflexivity.
Qed.

(** One step of the loop over the buffers *)
Lemma PrepareBuffer_step Dev Barriers Cmds last BuffInfo :
  exists Dev' eB eC,
    PrepareBuffer (Dev, Barriers, Cmds) (last, BuffInfo) = (Dev', Barriers ++ eB, Cmds ++ eC) /\
    DevTextures Dev' = DevTextures Dev /\
    DevAllocations Dev' = DevAllocations Dev /\
    (forall B, BufferData Dev B = None -> BufferData Dev' B = None) /\
    (BufferData Dev BuffInfo = None -> eB = [] /\ eC = []).
Proof.
  unfold PrepareBuffer, BufferData. destruct BuffInfo as [pB pS]; simpl.
  destruct pS as [a|].
  - destruct (DevBufferAllocations Dev !! a) as [al|] eqn:Ea.
    + assert (Hmono : forall B, BufferData Dev B = None ->
                        BufferData (ClearBufferAllocationUserData Dev a) B = None).
      { intros [b s0] HB. unfold BufferData in *. simpl in *.
        destruct s0 as [a0|]; [|exact HB].
        destruct (decide (a = a0)) as [-> | N].
        - rewrite lookup_alter_eq. destruct (DevBufferAllocations Dev !! a0); reflexivity.
        - rewrite lookup_alter_ne by exact N. exact HB. }
      destruct (SubAllocUserData al) as [data|].
      * exists (ClearBufferAllocationUserData Dev a),
               (match pB with
                | Some _ =>
                    [{| pResource := ObjBuffer (SubAllocBuffer al);
                        NewState := if last then RESOURCE_STATE_INDEX_BUFFER
                                    else RESOURCE_STATE_VERTEX_BUFFER |}]
                | None => []
                end),
               [CmdUpdateBuffer (SubAllocBuffer al) (SubAllocOffset al)
                                (wrap32 (Z.of_nat (length data))) data].
        split; [destruct pB; rewrite ?app_nil_r; reflexivity|].
        split; [reflexivity|]. split; [reflexivity|]. split; [exact Hmono|]. discriminate.
      * exists (ClearBufferAllocationUserData Dev a), [], []. rewrite !app_nil_r.
        split; [reflexivity|]. split; [reflexivity|]. split; [reflexivity|].
        split; [exact Hmono | auto].
    + exists Dev, [], []. rewrite !app_nil_r. auto 10.
  - destruct pB as [b|].
    + destruct (DevBuffers Dev !! b) as [o|] eqn:Eo.
      * assert (Hmono : forall B, BufferData Dev B = None ->
                          BufferData (ClearBufferUserData Dev b) B = None).
        { intros [b0 s0] HB. unfold BufferData in *. simpl in *.
          destruct s0 as [a0|]; [exact HB|]. destruct b0 as [b0|]; [|exact HB].
          destruct (decide (b = b0)) as [-> | N].
          - rewrite lookup_alter_eq. destruct (DevBuffers Dev !! b0); reflexivity.
          - rewrite lookup_alter_ne by exact N. exact HB. }
        destruct (BufObjUserData o) as [data|].
        -- exists (ClearBufferUserData Dev b),
                  [{| pResource := ObjBuffer (Some b);
                      NewState := if last then RESOURCE_STATE_INDEX_BUFFER
                                  else RESOURCE_STATE_VERTEX_BUFFER |}],
                  [CmdUpdateBuffer (Some b) 0%Z (wrap32 (Z.of_nat (length data))) data].
           split; [reflexivity|].
           split; [reflexivity|]. split; [reflexivity|]. split; [exact Hmono|]. discriminate.
        -- exists (ClearBufferUserData Dev b), [], []. rewrite !app_nil_r.
           split; [reflexivity|]. split; [reflexivity|]. split; [reflexivity|].
           split; [exact Hmono | auto].
      * exists Dev, [], []. rewrite !app_nil_r. auto 10.
    + exists Dev, [], []. rewrite !app_nil_r. auto 10.
Qed.

Lemma PrepareBuffers_state l : forall st,
  let st' := fold_left PrepareBuffer l st in
  DevTextures (st_dev st') = DevTextures (st_dev st) /\
  DevAllocations (st_dev st') = DevAllocations (st_dev st) /\
  (exists eB eC, st_barriers st' = st_barriers st ++ eB /\ st_cmds st' = st_cmds st ++ eC /\
     ((forall e, In e l -> BufferData (st_dev st) (snd e) = None) -> eB = [] /\ eC = [])).
Proof.
  induction l as [|[last X] l IH]; intros [[Dev B] C]; cbv zeta.
  - simpl. split; [reflexivity|]. split; [reflexivity|].
    exists [], []. rewrite !app_nil_r. auto.
  - cbn [fold_left].
    destruct (PrepareBuffer_step Dev B C last X) as (Dev1 & eB1 & eC1 & E & Ht & Ha & Hm & Hq).
    rewrite E.
    destruct (IH (Dev1, B ++ eB1, C ++ eC1)) as (IHt & IHa & eB & eC & IHB & IHC & IHq).
    set (st' := fold_left PrepareBuffer l _) in *.
    unfold st_dev, st_barriers, st_cmds in *. simpl in *.
    split; [congruence|]. split; [congruence|].
    eexists _, _. split; [rewrite IHB, <- app_assoc; reflexivity|].
    split; [rewrite IHC, <- app_assoc; reflexivity|].
    intros Hquiet.
    destruct Hq as [-> ->]; [apply (Hquiet (last, X)); left; reflexivity|].
    destruct IHq as [-> ->]; [|auto].
    intros e He. apply Hm. apply Hquiet. right. exact He.
Qed.


Lemma MarkLast_In Bufs e : In e (MarkLast Bufs) -> In (snd e) Bufs.
Proof.
  unfold MarkLast, enumerate. intros H. apply in_map_iff in H as ([i B] & <- & Hin).
  simpl. apply in_combine_r in Hin. exact Hin.
Qed.


(** One call *)
Lemma PrepareGPUResources_call M Dev :
  let Dev' := snd (fst (PrepareGPUResources M Dev)) in
  let Cmds := snd (PrepareGPUResources M Dev) in
  SameObjects Dev Dev' /\
  (forall s, SlotData Dev s = None -> SlotData Dev' s = None) /\
  (GPUDataInitialized M = false ->
   forall s, (exists X, In X (Textures M) /\ TextureSlot X = Some s) ->
             SlotData Dev' s = None) /\
  ((forall X s, In X (Textures M) -> TextureSlot X = Some s -> SlotData Dev s = None) ->
   (forall B, In B (Buffers M) -> BufferData Dev B = None) ->
   Cmds = []) /\
  (GPUDataInitialized M = false ->
   forall l1 X l2 s InitData,
     Textures M = l1 ++ X :: l2 -> TextureSlot X = Some s ->
     (forall Y, In Y l1 -> TextureSlot Y <> Some s) ->
     SlotData Dev s = Some InitData ->
     exists c1 c2, Cmds = c1 ++ TextureUpload Dev X InitData ++ c2).
Proof.
  cbv zeta. unfold PrepareGPUResources.
  destruct (GPUDataInitialized M) eqn:Eflag.
  { simpl. split; [apply SameObjects_refl|]. split; [auto|].
    split; [discriminate|]. split; [reflexivity | discriminate]. }
  destruct (PrepareTextures_state (Textures M) (Dev, [], []))
    as (Hsame & Hbuf & Hsome & _ & Hmono & eB & eC & HB & HC & Hq).
  set (st1 := fold_left PrepareTexture (Textures M) (Dev, [], [])) in *.
  destruct (PrepareBuffers_state (MarkLast (Buffers M)) st1)
    as (Ht & Ha & eB' & eC' & HB' & HC' & Hq').
  destruct (fold_left PrepareBuffer (MarkLast (Buffers M)) st1) as [[Dev' Barriers] Cmds] eqn:E2.
  unfold st_dev, st_barriers, st_cmds in *. simpl in *.
  assert (Hslot : forall s, SlotData Dev' s = SlotData (fst (fst st1)) s).
  { intros [t | a]; simpl; [rewrite Ht | rewrite Ha]; reflexivity. }
  split.
  { destruct Hsame as [H1 H2]. split; intros x; [rewrite Ht; apply H1 | rewrite Ha; apply H2]. }
  split; [intros s Hs; rewrite Hslot; apply Hmono; exact Hs|].
  split; [intros _ s Hs; rewrite Hslot; apply Hsome; exact Hs|].
  split.
  { intros Hquiet Hbq.
    destruct Hq as [-> ->]; [exact Hquiet|].
    destruct Hq' as [-> ->].
    { intros e He. rewrite Hbuf. apply Hbq. apply MarkLast_In. exact He. }
    rewrite app_nil_r in HB', HC'. simpl in HB, HC. rewrite HB', HB, HC', HC. reflexivity. }
  intros _ l1 X l2 s InitData Hl HX Hl1 Hd.
  destruct (PrepareTextures_first l1 X l2 (Dev, [], []) s InitData HX Hl1 Hd) as (c1 & c2 & Hc).
  rewrite <- Hl in Hc. fold st1 in Hc. unfold st_cmds, st_dev in Hc. simpl in Hc.
  rewrite HC', Hc.
  destruct Barriers.
  - exists c1, (c2 ++ eC'). rewrite <- !app_assoc. reflexivity.
  - eexists c1, _. rewrite <- !app_assoc. reflexivity.
Qed.



End PrepareFacts.

(** ** LINEAR and STEP interpolation *)

(** C4: a channel with LINEAR interpolation, sampled at a time that some
    pair of consecutive keyframes brackets: the scan stops at the first
    bracketing pair [i0]; with [u = (time - Inputs[i0]) / (Inputs[i0 + 1] -
    Inputs[i0])], a translation or scale channel writes
    [lerp(Outputs[i0], Outputs[i0 + 1], u)] and a rotation channel writes
    [normalize(slerp(q(i0), q(i0 + 1), u))].  With translation keyframes
    (t = 0, v = (0,0,0)) and (t = 2, v = (2,0,0)), the time 1 gives the
    translation (1,0,0). *)
Theorem LINEAR_interpolation :
  (forall (BM : BasicMath) (animation : Animation) (time : F32.float)
          (Anims : list TransformData) (log : list Diag) (channel : AnimationChannel)
          (sampler : AnimationSampler) (i : nat) (A : TransformData),
     Samplers animation !! SamplerIndex channel = Some sampler ->
     Interpolation sampler = LINEAR ->
     length (Inputs sampler) <= length (OutputsVec4 sampler) ->
     i + 1 < length (Inputs sampler) ->
     Brackets (Inputs sampler) time i = true ->
     Anims !! ChannelNodeIndex channel = Some A ->
     exists i0,
       i0 <= i /\ FirstBracket (Inputs sampler) time i0 /\
       let u := LinearParameter (Inputs sampler) time i0 in
       let out_i := nth i0 (OutputsVec4 sampler) float4_zero in
       let out_i1 := nth (i0 + 1) (OutputsVec4 sampler) float4_zero in
       let Anims' := fst (ApplyChannel animation time (Anims, log) channel) in
       match PathType channel with
       | TRANSLATION =>
           Anims' !! ChannelNodeIndex channel
           = Some (set_TDTranslation A
                     (lerp (float3_of_float4 out_i) (float3_of_float4 out_i1) u))
       | SCALE =>
           Anims' !! ChannelNodeIndex channel
           = Some (set_TDScale A (lerp (float3_of_float4 out_i) (float3_of_float4 out_i1) u))
       | ROTATION =>
           Anims' !! ChannelNodeIndex channel
           = Some (set_TDRotation A
                     (normalize (slerp (Quaternion_of_float4 out_i)
                                       (Quaternion_of_float4 out_i1) u)))
       | WEIGHTS => Anims' = Anims
       end) /\
  TDTranslation
    <$> NodeAnimations (fst (ComputeTransforms Ex.model Ex.no_transforms Ex.root_transform
                                               0 (F32.of_Z 1))) !! 0
  = Some (Ex.v3 1 0 0).
Proof.
  split; [|vm_compute; reflexivity].
  intros BM animation time Anims log channel sampler i A Hs HL Hlen Hi Hb HA.
  destruct (FindKeyframe_first (Inputs sampler) time i Hi Hb) as (i0 & Hf & Hle & Hfirst).
  exists i0. split; [exact Hle|]. split; [exact Hfirst|].
  pose proof (ApplyChannel_sample animation time Anims log channel sampler i0 A
                                  Hs Hlen Hf HA) as H.
  cbv zeta in *. rewrite HL in H. exact H.
Qed.

(** C5: the code at a failing input.  For the STEP channel with keyframes
    at t = 0, 1, 2 and values (10,0,0), (20,0,0), (30,0,0), the time 1 lies
    in the bracket [1, 2) of keyframe 1, whose value is (20,0,0); the scan
    stops at the pair (0, 1), which also brackets the time, and the
    translation written is (10,0,0). *)
Theorem STEP_at_keyframe_time :
  Brackets [F32.of_Z 0; F32.of_Z 1; F32.of_Z 2] (F32.of_Z 1) 1 = true /\
  F32.ltb (F32.of_Z 1) (F32.of_Z 2) = true /\
  FindKeyframe [F32.of_Z 0; F32.of_Z 1; F32.of_Z 2] (F32.of_Z 1) = Some 0 /\
  TDTranslation
    <$> NodeAnimations (fst (ComputeTransforms Ex.model Ex.no_transforms Ex.root_transform
                                               1 (F32.of_Z 1))) !! 0
  = Some (Ex.v3 10 0 0).
Proof. repeat split; vm_compute; reflexivity. Qed.

(** ** Alpha remapping *)

(** C7 (as amended): for a 4-component image and a cutoff greater than 0,
    with [Width * Height] pixels, no arithmetic overflow and at least one
    mip level, level 0 has four bytes per pixel; the red, green and blue
    bytes are those of the source and the alpha byte [A] becomes
    [max(A, (Uint8) min(1/3 * A + 2/3 * (cutoff * 255), 255))], computed in
    single precision and converted by dropping the fraction.  Source alpha
    0 with cutoff 0.5 gives 85; for cutoff 0.5 every alpha byte gets the
    value of the exact formula with the fraction dropped. *)
Theorem alpha_remap_drops_fraction :
  (forall (GA : GraphicsAccessories) (Image : ImageData) (AlphaCutoff : F32.float)
          (NumMipLevels : nat),
     ImgNumComponents Image = 4%Z ->
     F32.gtb AlphaCutoff F32.zero = true ->
     0 < NumMipLevels ->
     (0 < ImgWidth Image < 2 ^ 32)%Z ->
     (0 < ImgHeight Image)%Z ->
     (4 * ImgWidth Image * ImgHeight Image < 2 ^ 64)%Z ->
     let Data := Level0Data Image AlphaCutoff NumMipLevels in
     let src := src_byte (ImgpData Image) in
     length Data = 4 * Z.to_nat (ImgWidth Image * ImgHeight Image) /\
     forall k, k < Z.to_nat (ImgWidth Image * ImgHeight Image) ->
       nth (4 * k) Data 0%Z = src (4 * k) /\
       nth (4 * k + 1) Data 0%Z = src (4 * k + 1) /\
       nth (4 * k + 2) Data 0%Z = src (4 * k + 2) /\
       nth (4 * k + 3) Data 0%Z
       = Z.max (src (4 * k + 3))
           (F32.to_Uint8
              (F32.std_min
                 (F32.add
                    (F32.mul (F32.div (F32.of_Z 1) (F32.of_Z 3)) (F32.of_Z (src (4 * k + 3))))
                    (F32.mul (F32.div (F32.of_Z 2) (F32.of_Z 3))
                             (F32.mul AlphaCutoff (F32.of_Z 255))))
                 (F32.of_Z 255)))) /\
  nth 3 (Level0Data (GA := Ref.Graphics) (Ex.image 0) half 1) 0%Z = 85%Z /\
  (forall A, (0 <= A <= 255)%Z ->
     RemapAlpha (F32.mul half (F32.of_Z 255)) A = exact_alpha_remap A (1 # 2)).
Proof.
  split; [|split; [vm_compute; reflexivity|]].
  - intros GA Image AlphaCutoff NumMipLevels Hc Hcut Hn HW HH Hsz. cbv zeta.
    rewrite Level0Data_remap by assumption.
    assert (Hsize : Z.to_nat (wrap64 (wrap32 (ImgWidth Image) * 4 * ImgHeight Image))
                    = 4 * Z.to_nat (ImgWidth Image * ImgHeight Image)).
    { unfold wrap32, wrap64. rewrite (Z.mod_small (ImgWidth Image)) by lia.
      rewrite Z.mod_small by nia. nia. }
    rewrite Hsize. unfold RemapAlphaLoop.
    change (fold_left _ (seq 0 ?n) ?dst)
      with (pixel_loop (fun i => src_byte (ImgpData Image) (4 * i))
                       (fun i => src_byte (ImgpData Image) (4 * i + 1))
                       (fun i => src_byte (ImgpData Image) (4 * i + 2))
                       (fun i => RemapAlpha (F32.mul AlphaCutoff (F32.of_Z 255))
                                            (src_byte (ImgpData Image) (4 * i + 3)))
                       n dst).
    split; [rewrite pixel_loop_length, length_resize; reflexivity|].
    intros k Hk.
    assert (Hlen : 4 * Z.to_nat (ImgWidth Image * ImgHeight Image)
                   <= length (resize (4 * Z.to_nat (ImgWidth Image * ImgHeight Image)) 0%Z []))
      by (rewrite length_resize; lia).
    exact (pixel_loop_nth _ _ _ _ _ _ k Hlen Hk).
  - intros A HA.
    assert (Hall : forallb (fun a => (RemapAlpha (F32.mul half (F32.of_Z 255)) (Z.of_nat a)
                                      =? exact_alpha_remap (Z.of_nat a) (1 # 2))%Z)
                           (seq 0 256) = true) by (vm_compute; reflexivity).
    rewrite forallb_forall in Hall.
    specialize (Hall (Z.to_nat A)). rewrite Z2Nat.id in Hall by lia.
    apply Z.eqb_eq. apply Hall. apply in_seq. lia.
Qed.

(** C7, counterexample to the claim as stated: for source alpha 2 and
    cutoff 0.5 the code writes alpha 85, while
    [max(A, round(clamp(A/3 + 2/3 * cutoff * 255, 0, 255)))] is 86. *)
Lemma alpha_remap_does_not_round :
  nth 3 (Level0Data (GA := Ref.Graphics) (Ex.image 2) half 1) 0%Z = 85%Z /\
  spec_alpha_remap 2 (1 # 2) = 86%Z /\
  nth 3 (Level0Data (GA := Ref.Graphics) (Ex.image 2) half 1) 0%Z
    <> spec_alpha_remap 2 (1 # 2).
Proof.
  assert (H1 : nth 3 (Level0Data (GA := Ref.Graphics) (Ex.image 2) half 1) 0%Z = 85%Z)
    by (vm_compute; reflexivity).
  assert (H2 : spec_alpha_remap 2 (1 # 2) = 86%Z) by (vm_compute; reflexivity).
  split; [exact H1|]. split; [exact H2|]. rewrite H1, H2. discriminate.
Qed.

(** C10, counterexample to the claim as stated.  Texture 0 is the base
    color of two alpha-mask materials with the cutoffs -1/2 and 1/4 and of
    no other material; the value returned is 1/4, which is not the minimum
    of the cutoffs: a cutoff below 0 leaves the local [AlphaCutoff] below
    0, as it is before the first material, and the next material sets it
    anew.  Texture 1 is the base color of one alpha-mask material whose
    cutoff is a NaN; the value returned is a NaN, which is not [>= 0]. *)
Lemma negative_cutoff_is_not_the_minimum :
  let r t := fst (GetTextureAlphaCutoffValue Ex.base_color Ex2.odd_cutoffs t) in
  List.filter (NonOpaqueUser 0 0) (Materials Ex2.odd_cutoffs)
  = [Ex.material 0 ALPHA_MODE_MASK (F32.of_dyadic (-1) (-1));
     Ex.material 0 ALPHA_MODE_MASK Ex.quarter] /\
  r 0%Z = Ex.quarter /\
  F32.ltb (F32.of_dyadic (-1) (-1)) (r 0%Z) = true /\
  List.filter (NonOpaqueUser 0 1) (Materials Ex2.odd_cutoffs)
  = [Ex.material 1 ALPHA_MODE_MASK F32.nan] /\
  F32.is_nan (r 1%Z) = true /\
  F32.leb F32.zero (r 1%Z) = false.
Proof. vm_compute. repeat split; reflexivity. Qed.


(** ** The reference implementation meets the contracts *)

Lemma Ref_ClampSpec : ClampSpec (BM := Ref.Math).
Proof.
  intros v lo hi Hle. simpl. unfold Ref.fclamp.
  split; [intros H; rewrite H; reflexivity|]. split.
  - intros H. assert (H1 : F32.ltb v lo = false) by (clear - Hle H; f32_order).
    rewrite H1. unfold F32.gtb. change (SFltb hi v) with (F32.ltb hi v). rewrite H. reflexivity.
  - intros Hlo Hhi.
    assert (H1 : F32.ltb v lo = false) by (clear - Hlo; f32_order).
    assert (H2 : F32.ltb hi v = false) by (clear - Hhi; f32_order).
    rewrite H1. unfold F32.gtb. change (SFltb hi v) with (F32.ltb hi v). rewrite H2. reflexivity.
Qed.

(** ** The theorems at concrete inputs *)

Lemma ComputeTransforms_global_matrices_witness :
  let G := NodeGlobalMatrices
             (fst (ComputeTransforms Ex.model Ex.no_transforms Ex.root_transform (-1)
                                     F32.zero)) in
  nth 0 G float4x4_default = Ex.root_transform /\
  nth 1 G float4x4_default = nth 0 G float4x4_default.
Proof.
  cbv zeta.
  destruct (ComputeTransforms_global_matrices
              Ex.model Ex.no_transforms Ex.root_transform (-1) F32.zero) as [_ H].
  destruct H as (_ & _ & H).
  - simpl. apply (bool_decide_unpack _). vm_compute. reflexivity.
  - intros i Hi. simpl in Hi. simpl. destruct Hi as [<- | [<- | []]]; lia.
  - destruct H as [Hroot Hchild].
    + reflexivity.
    + intros N HN. simpl in HN. destruct HN as [<- | [<- | []]]; repeat split.
    + vm_compute. reflexivity.
    + split.
      * apply (Hroot (Ex.plain_node 0 [Ex.plain_node 1 []])). left. reflexivity.
      * apply (Hchild (Ex.plain_node 0 [Ex.plain_node 1 []]) (Ex.plain_node 1 [])).
        -- constructor. left. reflexivity.
        -- left. reflexivity.
Defined.

Lemma LINEAR_interpolation_witness :
  exists i0,
    i0 <= 0 /\
    FirstBracket [F32.of_Z 0; F32.of_Z 2] (F32.of_Z 1) i0 /\
    fst (ApplyChannel (BM := Ref.Math) Ex.linear_animation (F32.of_Z 1)
           ([TransformData_default], [])
           {| PathType := TRANSLATION; ChannelNodeIndex := 0; SamplerIndex := 0 |}) !! 0
    = Some (set_TDTranslation TransformData_default
              (lerp (BasicMath := Ref.Math)
                 (float3_of_float4 (nth i0 [Ex.v4 0 0 0 0; Ex.v4 2 0 0 0] float4_zero))
                 (float3_of_float4 (nth (i0 + 1) [Ex.v4 0 0 0 0; Ex.v4 2 0 0 0] float4_zero))
                 (LinearParameter [F32.of_Z 0; F32.of_Z 2] (F32.of_Z 1) i0))).
Proof.
  apply (proj1 LINEAR_interpolation Ref.Math Ex.linear_animation (F32.of_Z 1)
               [TransformData_default] []
               {| PathType := TRANSLATION; ChannelNodeIndex := 0; SamplerIndex := 0 |}
               {| Interpolation := LINEAR;
                  Inputs := [F32.of_Z 0; F32.of_Z 2];
                  OutputsVec4 := [Ex.v4 0 0 0 0; Ex.v4 2 0 0 0] |}
               0 TransformData_default).
  - reflexivity.
  - reflexivity.
  - simpl. lia.
  - simpl. lia.
  - vm_compute. reflexivity.
  - reflexivity.
Defined.

Lemma alpha_remap_drops_fraction_witness :
  let Data := Level0Data (GA := Ref.Graphics) (Ex.image 0) half 1 in
  length Data = 4 /\
  nth 0 Data 0%Z = 10%Z /\ nth 1 Data 0%Z = 20%Z /\ nth 2 Data 0%Z = 30%Z /\
  nth 3 Data 0%Z = 85%Z.
Proof.
  cbv zeta.
  destruct (proj1 alpha_remap_drops_fraction Ref.Graphics (Ex.image 0) half 1) as [Hlen Hpx].
  - reflexivity.
  - vm_compute. reflexivity.
  - lia.
  - simpl. lia.
  - simpl. lia.
  - simpl. lia.
  - split; [exact Hlen|].
    destruct (Hpx 0) as (H0 & H1 & H2 & H3); [simpl; lia|].
    split; [exact H0|]. split; [exact H1|]. split; [exact H2|].
    change (4 * 0 + 3) with 3 in H3. rewrite H3. vm_compute. reflexivity.
Defined.

Lemma ComputeTransforms_unknown_animation_witness :
  snd (ComputeTransforms Ex.model Ex.no_transforms Ex.root_transform 5 F32.zero)
  = [DiagWarning "No animation with index"] /\
  NodeAnimations (fst (ComputeTransforms Ex.model Ex.no_transforms Ex.root_transform 5
                                         F32.zero))
  = [].
Proof.
  destruct (ComputeTransforms_unknown_animation Ex.model Ex.no_transforms Ex.root_transform
              5 F32.zero) as (_ & H1 & H2 & _).
  - simpl. lia.
  - split; [exact H1 | exact H2].
Defined.

Lemma GetTextureAlphaCutoffValue_result_witness :
  let r := fun t => fst (GetTextureAlphaCutoffValue Ex.base_color Ex.model t) in
  F32.leb F32.zero (r 0%Z) = true /\
  F32.leb (r 0%Z) Ex.quarter = true /\
  F32.eqb (r 1%Z) F32.zero = true /\
  r 2%Z = F32.zero.
Proof.
  cbv zeta.
  destruct (GetTextureAlphaCutoffValue_result Ex.base_color Ex.model 0)
    as (_ & Hnn & _ & Hmin & _).
  destruct (GetTextureAlphaCutoffValue_result Ex.base_color Ex.model 1)
    as (_ & _ & _ & _ & Hboth).
  destruct (GetTextureAlphaCutoffValue_result Ex.base_color Ex.model 2)
    as (_ & _ & Hnone & _ & _).
  split.
  { apply Hnn. intros Mat HM _. vm_compute in HM.
    destruct HM as [<- | [<- | [<- | [<- | [<- | []]]]]]; reflexivity. }
  split.
  { destruct Hmin as [Hle _].
    - vm_compute. discriminate.
    - exists (Ex.material 0 ALPHA_MODE_MASK half). split; [left; reflexivity | reflexivity].
    - intros Mat HM HU. vm_compute in HM.
      destruct HM as [<- | [<- | [<- | [<- | [<- | []]]]]];
        try (vm_compute in HU; discriminate HU); split; reflexivity.
    - apply (Hle (Ex.material 0 ALPHA_MODE_MASK Ex.quarter)).
      + right. left. reflexivity.
      + reflexivity. }
  split.
  { apply Hboth.
    - vm_compute. discriminate.
    - exists (Ex.material 1 ALPHA_MODE_MASK half).
      split; [do 3 right; left; reflexivity | split; reflexivity].
    - exists (Ex.material 1 ALPHA_MODE_BLEND half).
      split; [do 4 right; left; reflexivity | split; reflexivity]. }
  apply Hnone. right. intros Mat HM. vm_compute in HM.
  destruct HM as [<- | [<- | [<- | [<- | [<- | []]]]]]; reflexivity.
Defined.

(** * Further properties *)

(** ** The mip chain of the texture init data *)
Section MipChainFacts.
Context `{GA : GraphicsAccessories}.

(** The level that one iteration of [GenerateMipLevels] writes at [mip],
    computed from the finer level [Fine] *)
Lemma GenerateMipLevel_writes Format Lv log mip :
  mip < length Lv ->
  let st' := GenerateMipLevel Format (Lv, log) mip in
  let Fine := nth (mip - 1) Lv LevelData_default in
  let A := GetTextureFormatAttribs Format in
  length (fst st') = length Lv /\
  (forall j, j <> mip -> nth j (fst st') LevelData_default = nth j Lv LevelData_default) /\
  LvlWidth (nth mip (fst st') LevelData_default)
    = AlignUp (Z.max (LvlWidth Fine / 2) 1) (FmtBlockWidth A) /\
  LvlHeight (nth mip (fst st') LevelData_default)
    = AlignUp (Z.max (LvlHeight Fine / 2) 1) (FmtBlockHeight A) /\
  LvlStride (nth mip (fst st') LevelData_default)
    = wrap64 (AlignUp (Z.max (LvlWidth Fine / 2) 1) (FmtBlockWidth A) / FmtBlockWidth A
              * FmtComponentSize A
              * (if FmtIsCompressed A then 1 else FmtNumComponents A)).
Proof.
  intros Hm. cbv zeta. unfold GenerateMipLevel.
  destruct (FmtIsCompressed (GetTextureFormatAttribs Format)); cbn [fst];
    (split; [apply length_insert|]);
    (split; [intros j Hj; rewrite !nth_lookup, list_lookup_insert_ne by congruence; reflexivity|]);
    rewrite !nth_lookup, list_lookup_insert_eq by exact Hm; cbn; repeat split; reflexivity.
Qed.

Lemma GenerateMipLevels_chain Format n : forall k st,
  0 < k -> k + n <= length (fst st) ->
  let st' := fold_left (GenerateMipLevel Format) (seq k n) st in
  let A := GetTextureFormatAttribs Format in
  length (fst st') = length (fst st) /\
  (forall j, j < k -> nth j (fst st') LevelData_default = nth j (fst st) LevelData_default) /\
  (forall mip, k <= mip < k + n ->
     let Fine := nth (mip - 1) (fst st') LevelData_default in
     LvlWidth (nth mip (fst st') LevelData_default)
       = AlignUp (Z.max (LvlWidth Fine / 2) 1) (FmtBlockWidth A) /\
     LvlHeight (nth mip (fst st') LevelData_default)
       = AlignUp (Z.max (LvlHeight Fine / 2) 1) (FmtBlockHeight A) /\
     LvlStride (nth mip (fst st') LevelData_default)
       = wrap64 (AlignUp (Z.max (LvlWidth Fine / 2) 1) (FmtBlockWidth A) / FmtBlockWidth A
                 * FmtComponentSize A
                 * (if FmtIsCompressed A then 1 else FmtNumComponents A))).
Proof.
  induction n as [|n IH]; intros k [Lv log] Hk Hlen; cbv zeta.
  - cbn [seq fold_left]. split; [reflexivity|]. split; [reflexivity|]. intros mip Hm. lia.
  - cbn [seq fold_left]. cbn [fst] in Hlen.
    destruct (GenerateMipLevel_writes Format Lv log k) as (Hl1 & Hother & Hw & Hh & Hs); [lia|].
    destruct (GenerateMipLevel Format (Lv, log) k) as [Lv1 log1] eqn:E1. cbn [fst] in *.
    destruct (IH (S k) (Lv1, log1)) as (Hl2 & Hkeep & Hrec); [lia | cbn [fst]; lia |].
    cbn [fst] in *.
    split; [congruence|]. split.
    + intros j Hj. rewrite Hkeep by lia. apply Hother. lia.
    + intros mip Hm. destruct (decide (mip = k)) as [-> | Hne].
      * rewrite !Hkeep by lia. rewrite (Hother (k - 1)) by lia.
        split; [exact Hw|]. split; [exact Hh | exact Hs].
      * apply Hrec. lia.
Qed.

End MipChainFacts.

Lemma half_extent (w : Z) :
  (0 <= w)%Z -> Z.max (Z.max w 1 / 2) 1 = Z.max (w / 2) 1.
Proof.
  intros Hw. destruct (Z.le_gt_cases 1 w) as [H | H].
  - rewrite (Z.max_l w 1) by lia. reflexivity.
  - assert (w = 0)%Z as -> by lia. reflexivity.
Qed.

Section InitDataFacts.
Context `{GA : GraphicsAccessories}.

(** The data of level 0 by the number of components of the image *)
Lemma Level0Data_cases Image AlphaCutoff NumMipLevels :
  0 < NumMipLevels ->
  Level0Data Image AlphaCutoff NumMipLevels
  = let size := Z.to_nat (wrap64 (wrap32 (ImgWidth Image) * 4 * ImgHeight Image)) in
    let n := Z.to_nat (ImgWidth Image * ImgHeight Image) in
    if (ImgNumComponents Image =? 3)%Z then
      ExpandRGB (ImgpData Image) n (resize size 0%Z [])
    else if (ImgNumComponents Image =? 4)%Z then
      if F32.gtb AlphaCutoff F32.zero then
        RemapAlphaLoop (F32.mul AlphaCutoff (F32.of_Z 255)) (ImgpData Image) n
                       (resize size 0%Z [])
      else take (Z.to_nat (ImgDataSize Image)) (ImgpData Image)
    else [].
Proof.
  intros Hn. unfold Level0Data, PrepareGLTFTextureInitData. cbv zeta.
  destruct (ImgNumComponents Image =? 3)%Z;
    [|destruct (ImgNumComponents Image =? 4)%Z; [destruct (F32.gtb AlphaCutoff F32.zero)|]];
    cbv beta iota;
    (destruct (GenerateMipLevels 1 _ _) as [Lv log] eqn:E; cbn [fst Levels];
     change Lv with (fst (Lv, log)); rewrite <- E, GenerateMipLevels_level0;
     rewrite nth_lookup, list_lookup_insert_eq by (rewrite length_resize; lia);
     reflexivity).
Qed.

Lemma PrepareGLTFTextureInitData_levels Image AlphaCutoff NumMipLevels :
  Levels (fst (PrepareGLTFTextureInitData Image AlphaCutoff NumMipLevels))
  = fst (GenerateMipLevels 1 TEX_FORMAT_RGBA8_UNORM
           (<[0 := {| LvlData := Level0Data Image AlphaCutoff NumMipLevels;
                      LvlStride := wrap32 (ImgWidth Image) * 4;
                      LvlWidth := wrap32 (ImgWidth Image);
                      LvlHeight := wrap32 (ImgHeight Image) |}]>
              (resize NumMipLevels LevelData_default []))).
Proof.
  destruct NumMipLevels as [|N].
  - unfold PrepareGLTFTextureInitData. cbv zeta.
    destruct (ImgNumComponents Image =? 3)%Z;
      [|destruct (ImgNumComponents Image =? 4)%Z; [destruct (F32.gtb AlphaCutoff F32.zero)|]];
      reflexivity.
  - rewrite Level0Data_cases by lia.
    unfold PrepareGLTFTextureInitData. cbv zeta.
    destruct (ImgNumComponents Image =? 3)%Z;
      [|destruct (ImgNumComponents Image =? 4)%Z; [destruct (F32.gtb AlphaCutoff F32.zero)|]];
      cbv beta iota; destruct (GenerateMipLevels 1 _ _) as [Lv log] eqn:E; reflexivity.
Qed.

End InitDataFacts.

(** X1: [PrepareGLTFTextureInitData] returns as many levels as were asked
    for.  When the format RGBA8 has 1x1 blocks of four one-byte components
    (and aligning to 1 changes nothing), level [mip] is
    [max(Width >> mip, 1)] by [max(Height >> mip, 1)] with a stride of four
    bytes per pixel, so that the levels past the finest 1x1 level are all
    1x1. *)
Theorem PrepareGLTFTextureInitData_mip_chain
    (GA : GraphicsAccessories) (Image : ImageData) (AlphaCutoff : F32.float)
    (NumMipLevels : nat) :
  0 < NumMipLevels ->
  (0 < ImgWidth Image < 2 ^ 32)%Z ->
  (0 < ImgHeight Image < 2 ^ 32)%Z ->
  GetTextureFormatAttribs TEX_FORMAT_RGBA8_UNORM
    = {| FmtBlockWidth := 1; FmtBlockHeight := 1; FmtComponentSize := 1;
         FmtNumComponents := 4; FmtIsCompressed := false |} ->
  (forall v : Z, AlignUp v 1 = v) ->
  let Lv := Levels (fst (PrepareGLTFTextureInitData Image AlphaCutoff NumMipLevels)) in
  length Lv = NumMipLevels /\
  forall mip, mip < NumMipLevels ->
    LvlWidth (nth mip Lv LevelData_default) = Z.max (ImgWidth Image / 2 ^ Z.of_nat mip) 1 /\
    LvlHeight (nth mip Lv LevelData_default) = Z.max (ImgHeight Image / 2 ^ Z.of_nat mip) 1 /\
    LvlStride (nth mip Lv LevelData_default)
      = (4 * LvlWidth (nth mip Lv LevelData_default))%Z.
Proof.
  intros HN HW HH Hfmt Halign. cbv zeta.
  rewrite PrepareGLTFTextureInitData_levels. unfold GenerateMipLevels.
  set (Level0 := {| LvlData := _; LvlStride := _; LvlWidth := _; LvlHeight := _ |}).
  set (Lv0 := <[0 := Level0]> (resize NumMipLevels LevelData_default [])).
  assert (Hlen0 : length Lv0 = NumMipLevels)
    by (unfold Lv0; rewrite length_insert, length_resize; reflexivity).
  destruct (GenerateMipLevels_chain TEX_FORMAT_RGBA8_UNORM (length Lv0 - 1) 1 (Lv0, []))
    as (Hlen & Hkeep & Hrec); [lia | cbn [fst]; lia |].
  cbn [fst] in *. set (Lv := fst (fold_left _ _ _)) in *.
  split; [congruence|].
  assert (H0 : nth 0 Lv LevelData_default = Level0).
  { rewrite Hkeep by lia. unfold Lv0.
    rewrite nth_lookup, list_lookup_insert_eq by (rewrite length_resize; lia). reflexivity. }
  rewrite Hfmt in Hrec. cbn in Hrec.
  assert (Hdim : forall mip, mip < NumMipLevels ->
            LvlWidth (nth mip Lv LevelData_default)
              = Z.max (ImgWidth Image / 2 ^ Z.of_nat mip) 1 /\
            LvlHeight (nth mip Lv LevelData_default)
              = Z.max (ImgHeight Image / 2 ^ Z.of_nat mip) 1).
  { induction mip as [|mip IH]; intros Hm.
    - rewrite H0. unfold Level0. cbn. unfold wrap32.
      rewrite !Z.mod_small, !Z.div_1_r by lia. lia.
    - destruct IH as [IHw IHh]; [lia|].
      destruct (Hrec (S mip)) as (Hw & Hh & _); [lia|].
      replace (S mip - 1) with mip in * by lia.
      rewrite Hw, Hh, !Halign, IHw, IHh.
      rewrite Nat2Z.inj_succ, Z.pow_succ_r, (Z.mul_comm 2) by lia.
      assert (Hp : (0 < 2 ^ Z.of_nat mip)%Z) by (apply Z.pow_pos_nonneg; lia).
      rewrite <- !Z.div_div by lia.
      split; apply half_extent; apply Z.div_pos; lia. }
  intros mip Hm. destruct (Hdim mip Hm) as [Hw Hh].
  split; [exact Hw|]. split; [exact Hh|].
  destruct mip as [|mip].
  - rewrite H0. unfold Level0. cbn. lia.
  - destruct (Hrec (S mip)) as (Hw' & _ & Hs); [lia|].
    rewrite Hs, Hw. rewrite Hw' in Hw. rewrite Hw, Z.div_1_r.
    unfold wrap64. rewrite Z.mod_small; [lia|].
    assert (Hp : (0 < 2 ^ Z.of_nat (S mip))%Z) by (apply Z.pow_pos_nonneg; lia).
    assert (ImgWidth Image / 2 ^ Z.of_nat (S mip) <= ImgWidth Image)%Z
      by (apply Z.div_le_upper_bound; nia).
    lia.
Qed.

(** X2: an image with three components is expanded to RGBA whatever the
    alpha cutoff: level 0 has four bytes per pixel, the red, green and blue
    bytes of the source and the alpha byte 255. *)
Theorem RGB_image_becomes_opaque_RGBA
    (GA : GraphicsAccessories) (Image : ImageData) (AlphaCutoff : F32.float)
    (NumMipLevels : nat) :
  ImgNumComponents Image = 3%Z ->
  0 < NumMipLevels ->
  (0 < ImgWidth Image < 2 ^ 32)%Z ->
  (0 < ImgHeight Image)%Z ->
  (4 * ImgWidth Image * ImgHeight Image < 2 ^ 64)%Z ->
  let Data := Level0Data Image AlphaCutoff NumMipLevels in
  let src := src_byte (ImgpData Image) in
  length Data = 4 * Z.to_nat (ImgWidth Image * ImgHeight Image) /\
  forall k, k < Z.to_nat (ImgWidth Image * ImgHeight Image) ->
    nth (4 * k) Data 0%Z = src (3 * k) /\
    nth (4 * k + 1) Data 0%Z = src (3 * k + 1) /\
    nth (4 * k + 2) Data 0%Z = src (3 * k + 2) /\
    nth (4 * k + 3) Data 0%Z = 255%Z.
Proof.
  intros Hc Hn HW HH Hsz. cbv zeta.
  rewrite Level0Data_cases by assumption. cbv zeta. rewrite Hc. cbn [Z.eqb Pos.eqb].
  assert (Hsize : Z.to_nat (wrap64 (wrap32 (ImgWidth Image) * 4 * ImgHeight Image))
                  = 4 * Z.to_nat (ImgWidth Image * ImgHeight Image)).
  { unfold wrap32, wrap64. rewrite (Z.mod_small (ImgWidth Image)) by lia.
    rewrite Z.mod_small by nia. nia. }
  rewrite Hsize. unfold ExpandRGB.
  change (fold_left _ (seq 0 ?n) ?dst)
    with (pixel_loop (fun i => src_byte (ImgpData Image) (3 * i))
                     (fun i => src_byte (ImgpData Image) (3 * i + 1))
                     (fun i => src_byte (ImgpData Image) (3 * i + 2))
                     (fun _ => 255%Z) n dst).
  split; [rewrite pixel_loop_length, length_resize; reflexivity|].
  intros k Hk.
  assert (Hlen : 4 * Z.to_nat (ImgWidth Image * ImgHeight Image)
                 <= length (resize (4 * Z.to_nat (ImgWidth Image * ImgHeight Image)) 0%Z []))
    by (rewrite length_resize; lia).
  exact (pixel_loop_nth _ _ _ _ _ _ k Hlen Hk).
Qed.

Lemma to_Uint8_range a : (0 <= F32.to_Uint8 a < 256)%Z.
Proof. unfold F32.to_Uint8. apply Z.mod_pos_bound. lia. Qed.

(** X3: for an image with four components the remapping never lowers an
    alpha byte and never changes a colour byte, whatever the cutoff (a NaN
    included): every pixel keeps its red, green and blue bytes, and its new
    alpha byte lies between the old one and 255.  When the cutoff is not
    greater than 0 the bytes of level 0 are those of the source. *)
Theorem RGBA_alpha_is_never_lowered
    (GA : GraphicsAccessories) (Image : ImageData) (AlphaCutoff : F32.float)
    (NumMipLevels : nat) :
  ImgNumComponents Image = 4%Z ->
  0 < NumMipLevels ->
  (0 < ImgWidth Image < 2 ^ 32)%Z ->
  (0 < ImgHeight Image)%Z ->
  (4 * ImgWidth Image * ImgHeight Image < 2 ^ 64)%Z ->
  ImgDataSize Image = (4 * ImgWidth Image * ImgHeight Image)%Z ->
  length (ImgpData Image) = Z.to_nat (ImgDataSize Image) ->
  Forall (fun b => 0 <= b <= 255)%Z (ImgpData Image) ->
  let Data := Level0Data Image AlphaCutoff NumMipLevels in
  let src := ImgpData Image in
  length Data = length src /\
  (forall k, k < Z.to_nat (ImgWidth Image * ImgHeight Image) ->
     nth (4 * k) Data 0%Z = nth (4 * k) src 0%Z /\
     nth (4 * k + 1) Data 0%Z = nth (4 * k + 1) src 0%Z /\
     nth (4 * k + 2) Data 0%Z = nth (4 * k + 2) src 0%Z /\
     (nth (4 * k + 3) src 0%Z <= nth (4 * k + 3) Data 0%Z <= 255)%Z) /\
  (F32.gtb AlphaCutoff F32.zero = false -> Data = src).
Proof.
  intros Hc Hn HW HH Hsz Hds Hlen Hbytes. cbv zeta.
  rewrite Level0Data_cases by assumption. cbv zeta. rewrite Hc. cbn [Z.eqb Pos.eqb].
  assert (Hsize : Z.to_nat (wrap64 (wrap32 (ImgWidth Image) * 4 * ImgHeight Image))
                  = 4 * Z.to_nat (ImgWidth Image * ImgHeight Image)).
  { unfold wrap32, wrap64. rewrite (Z.mod_small (ImgWidth Image)) by lia.
    rewrite Z.mod_small by nia. nia. }
  assert (Hn4 : length (ImgpData Image) = 4 * Z.to_nat (ImgWidth Image * ImgHeight Image))
    by (rewrite Hlen, Hds; nia).
  destruct (F32.gtb AlphaCutoff F32.zero) eqn:Hcut.
  - rewrite Hsize. unfold RemapAlphaLoop.
    change (fold_left _ (seq 0 ?n) ?dst)
      with (pixel_loop (fun i => src_byte (ImgpData Image) (4 * i))
                       (fun i => src_byte (ImgpData Image) (4 * i + 1))
                       (fun i => src_byte (ImgpData Image) (4 * i + 2))
                       (fun i => RemapAlpha (F32.mul AlphaCutoff (F32.of_Z 255))
                                            (src_byte (ImgpData Image) (4 * i + 3)))
                       n dst).
    split; [rewrite pixel_loop_length, length_resize; lia|].
    split; [|discriminate].
    intros k Hk.
    assert (Hl : 4 * Z.to_nat (ImgWidth Image * ImgHeight Image)
                 <= length (resize (4 * Z.to_nat (ImgWidth Image * ImgHeight Image)) 0%Z []))
      by (rewrite length_resize; lia).
    destruct (pixel_loop_nth
                (fun i => src_byte (ImgpData Image) (4 * i))
                (fun i => src_byte (ImgpData Image) (4 * i + 1))
                (fun i => src_byte (ImgpData Image) (4 * i + 2))
                (fun i => RemapAlpha (F32.mul AlphaCutoff (F32.of_Z 255))
                                     (src_byte (ImgpData Image) (4 * i + 3)))
                _ _ k Hl Hk) as (H0 & H1 & H2 & H3).
    split; [exact H0|]. split; [exact H1|]. split; [exact H2|].
    rewrite H3. unfold RemapAlpha, src_byte.
    assert (Hb : (0 <= nth (4 * k + 3) (ImgpData Image) 0 <= 255)%Z).
    { rewrite List.Forall_forall in Hbytes. apply Hbytes, nth_In. lia. }
    pose proof (to_Uint8_range
                  (F32.std_min
                     (F32.add
                        (F32.mul (F32.div (F32.of_Z 1) (F32.of_Z 3))
                                 (F32.of_Z (nth (4 * k + 3) (ImgpData Image) 0%Z)))
                        (F32.mul (F32.div (F32.of_Z 2) (F32.of_Z 3))
                                 (F32.mul AlphaCutoff (F32.of_Z 255))))
                     (F32.of_Z 255))) as Hu.
    lia.
  - rewrite <- Hlen, firstn_all.
    split; [reflexivity|]. split; [|reflexivity].
    intros k Hk.
    assert (Hb : (0 <= nth (4 * k + 3) (ImgpData Image) 0 <= 255)%Z).
    { rewrite List.Forall_forall in Hbytes. apply Hbytes, nth_In. lia. }
    repeat split; lia.
Qed.

(** X4: an image whose number of components is neither 3 nor 4 is
    reported as unexpected, and the init data is still returned: level 0
    has the width, height and stride of the image and no bytes. *)
Theorem unexpected_components_give_empty_level
    (GA : GraphicsAccessories) (Image : ImageData) (AlphaCutoff : F32.float)
    (NumMipLevels : nat) :
  ImgNumComponents Image <> 3%Z ->
  ImgNumComponents Image <> 4%Z ->
  0 < NumMipLevels ->
  let r := PrepareGLTFTextureInitData Image AlphaCutoff NumMipLevels in
  let Level0 := nth 0 (Levels (fst r)) LevelData_default in
  head (snd r) = Some (DiagUnexpected "Unexpected number of color components in gltf image") /\
  LvlData Level0 = [] /\
  LvlWidth Level0 = wrap32 (ImgWidth Image) /\
  LvlHeight Level0 = wrap32 (ImgHeight Image) /\
  LvlStride Level0 = (wrap32 (ImgWidth Image) * 4)%Z.
Proof.
  intros H3 H4 Hn. cbv zeta.
  rewrite PrepareGLTFTextureInitData_levels, GenerateMipLevels_level0.
  rewrite nth_lookup, list_lookup_insert_eq by (rewrite length_resize; lia).
  cbn [default from_option LvlData LvlWidth LvlHeight LvlStride].
  rewrite Level0Data_cases by assumption. cbv zeta.
  apply Z.eqb_neq in H3, H4. rewrite H3, H4.
  split; [|repeat split].
  unfold PrepareGLTFTextureInitData. cbv zeta. rewrite H3, H4. cbv beta iota.
  destruct (GenerateMipLevels 1 _ _). reflexivity.
Qed.

(** ** What a call of [PrepareGPUResources] issues *)
Section IssueFacts.
Context `{GA : GraphicsAccessories} `{BM : BasicMath}.

Lemma UploadTextureData_kinds Dev X alloc pTex TexDesc InitData :
  Forall (fun c => IsTransition c = false)
         (UploadTextureData Dev X alloc pTex TexDesc InitData).
Proof.
  unfold UploadTextureData.
  destruct (match alloc with Some al => AllocOrigin al | None => (0%Z, 0%Z) end) as [DstX DstY].
  destruct (Levels InitData) as [|L Lv] eqn:El.
  - destruct (pStagingTex InitData) as [p|]; [|constructor].
    destruct (DevTextures Dev !! p); [|constructor].
    apply List.Forall_forall. intros c Hc. apply in_map_iff in Hc as (mip & <- & _). reflexivity.
  - apply Forall_app. split.
    + apply List.Forall_forall. intros c Hc. apply in_map_iff in Hc as ([mip Level] & <- & _).
      reflexivity.
    + destruct (_ && _); repeat constructor.
Qed.

Lemma TextureUpload_kinds Dev X InitData :
  Forall (fun c => IsTransition c = false) (TextureUpload Dev X InitData).
Proof.
  unfold TextureUpload.
  repeat (match goal with
          | |- context [match ?x with _ => _ end] => destruct x
          end; try constructor; try apply UploadTextureData_kinds).
Qed.

Lemma EntryTexture_same Dev Dev' X :
  SameObjects Dev Dev' -> EntryTexture Dev' X = EntryTexture Dev X.
Proof.
  intros [_ H]. unfold EntryTexture. destruct (pAtlasSuballocation X) as [a|]; [|reflexivity].
  specialize (H a).
  destruct (DevAllocations Dev' !! a) as [al'|], (DevAllocations Dev !! a) as [al|];
    cbn in H; try discriminate H; [|reflexivity].
  injection H as H _ _. exact H.
Qed.

(** The barrier that one step of the loop over the textures adds *)
Lemma PrepareTexture_barrier Dev Barriers Cmds X :
  exists eB,
    st_barriers (PrepareTexture (Dev, Barriers, Cmds) X) = Barriers ++ eB /\
    Forall (fun b => NewState b = RESOURCE_STATE_SHADER_RESOURCE /\
                     is_Some (pTexture X) /\
                     exists t s d, EntryTexture Dev X = Some t /\
                                   pResource b = ObjTexture t /\
                                   TextureSlot X = Some s /\ SlotData Dev s = Some d) eB.
Proof.
  unfold PrepareTexture, st_barriers, EntryTexture, TextureSlot.
  destruct X as [pT pA]; cbn [pTexture pAtlasSuballocation].
  assert (Hnil : forall P : StateTransitionDesc -> Prop,
             exists eB : list StateTransitionDesc, Barriers = Barriers ++ eB /\ Forall P eB)
    by (intros P; exists []; rewrite app_nil_r; split; [reflexivity | constructor]).
  destruct pA as [a|].
  - destruct (DevAllocations Dev !! a) as [al|] eqn:Ea; [|apply Hnil].
    destruct (AllocAtlasTexture al) as [pTex|] eqn:Et; [|apply Hnil].
    destruct (AllocUserData al) as [d|] eqn:Ed; [|apply Hnil].
    destruct (DevTextures (ClearAllocationUserData Dev a) !! pTex) as [o|]; [|apply Hnil].
    cbn [fst snd].
    destruct pT as [t|]; [|apply Hnil].
    eexists. split; [reflexivity|]. constructor; [|constructor].
    split; [reflexivity|]. split; [eauto|].
    exists pTex, (SlotAllocation a), d. cbn. rewrite Ea. auto.
  - destruct pT as [t|]; [|apply Hnil].
    destruct (DevTextures Dev !! t) as [o|] eqn:Eo; [|apply Hnil].
    destruct (TexObjUserData o) as [d|] eqn:Ed; [|apply Hnil].
    destruct (DevTextures (ClearTextureUserData Dev t) !! t) as [o'|]; [|apply Hnil].
    cbn [fst snd].
    eexists. split; [reflexivity|]. constructor; [|constructor].
    split; [reflexivity|]. split; [eauto|].
    exists t, (SlotTexture t), d. cbn. rewrite Eo. auto.
Qed.

(** Init data that is found at a slot after a step was there before it *)
Lemma PrepareTexture_data_before Dev Barriers Cmds X s d :
  SlotData (st_dev (PrepareTexture (Dev, Barriers, Cmds) X)) s = Some d ->
  SlotData Dev s = Some d.
Proof.
  destruct (PrepareTexture_step Dev Barriers Cmds X) as (Dev' & eB & E & _ & Hslots & _).
  rewrite E. unfold st_dev. cbn [fst]. rewrite Hslots. case_decide; [discriminate | auto].
Qed.

(** The loop over the textures: every barrier names the texture of an
    entry with [pTexture] set that had init data before the loop, and every
    command uploads init data that was attached to a slot of the list
    before the loop *)
Lemma PrepareTextures_issue l : forall st,
  let st' := fold_left PrepareTexture l st in
  exists eB eC,
    st_barriers st' = st_barriers st ++ eB /\
    st_cmds st' = st_cmds st ++ eC /\
    Forall (fun b => NewState b = RESOURCE_STATE_SHADER_RESOURCE /\
                     exists X t s d,
                       In X l /\ is_Some (pTexture X) /\
                       EntryTexture (st_dev st) X = Some t /\ pResource b = ObjTexture t /\
                       TextureSlot X = Some s /\ SlotData (st_dev st) s = Some d) eB /\
    Forall (fun c => exists X s d,
                In X l /\ TextureSlot X = Some s /\ SlotData (st_dev st) s = Some d /\
                In c (TextureUpload (st_dev st) X d)) eC.
Proof.
  induction l as [|X l IH]; intros [[Dev B] C]; cbv zeta.
  - exists [], []. cbn. rewrite !app_nil_r. repeat split; constructor.
  - cbn [fold_left].
    destruct (PrepareTexture_barrier Dev B C X) as (eB1 & HB1 & HF1).
    destruct (PrepareTexture_step Dev B C X) as (Dev1 & eB1' & E & Hsame & Hslots & _).
    rewrite E in HB1 |- *. unfold st_barriers in HB1. cbn [fst snd] in HB1.
    apply app_inv_head in HB1. subst eB1'.
    set (eC1 := match TextureSlot X with
                | Some s => match SlotData Dev s with
                            | Some InitData => TextureUpload Dev X InitData
                            | None => []
                            end
                | None => []
                end) in *.
    destruct (IH (Dev1, B ++ eB1, C ++ eC1)) as (eB & eC & HB & HC & HFB & HFC).
    unfold st_dev, st_barriers, st_cmds in *. cbn [fst snd] in *.
    exists (eB1 ++ eB), (eC1 ++ eC).
    split; [rewrite HB, app_assoc; reflexivity|].
    split; [rewrite HC, app_assoc; reflexivity|].
    split.
    + apply Forall_app. split.
      * eapply Forall_impl; [exact HF1|]. cbv beta.
        intros b (Hs & HT & t & s & d & Ht & Hr & Hsl & Hd). split; [exact Hs|].
        exists X, t, s, d. auto 10 using in_eq.
      * eapply Forall_impl; [exact HFB|]. cbv beta.
        intros b (Hs & Y & t & s & d & HY & HT & Ht & Hr & Hsl & Hd). split; [exact Hs|].
        exists Y, t, s, d. split; [auto using in_cons|]. split; [exact HT|].
        split; [rewrite <- (EntryTexture_same _ _ Y Hsame); exact Ht|].
        split; [exact Hr|]. split; [exact Hsl|].
        rewrite Hslots in Hd. case_decide; [discriminate | exact Hd].
    + apply Forall_app. split.
      * apply List.Forall_forall. intros c Hc. unfold eC1 in Hc.
        destruct (TextureSlot X) as [s|] eqn:Es; [|destruct Hc].
        destruct (SlotData Dev s) as [d|] eqn:Ed; [|destruct Hc].
        exists X, s, d. auto using in_eq.
      * eapply Forall_impl; [exact HFC|]. cbv beta.
        intros c (Y & s & d & HY & Hs & Hd & Hc).
        exists Y, s, d. split; [auto using in_cons|]. split; [exact Hs|].
        rewrite Hslots in Hd. case_decide; [discriminate|]. split; [exact Hd|].
        rewrite <- (TextureUpload_same _ _ _ _ Hsame). exact Hc.
Qed.

(** Init data of a buffer entry after a step of the loop over the buffers
    was there before the step *)
Lemma PrepareBuffer_data_before Dev Barriers Cmds e B d :
  BufferData (st_dev (PrepareBuffer (Dev, Barriers, Cmds) e)) B = Some d ->
  BufferData Dev B = Some d.
Proof.
  destruct e as [lst [pB pS]]. unfold PrepareBuffer, st_dev. cbn [pBuffer pSuballocation].
  destruct pS as [a|].
  - destruct (DevBufferAllocations Dev !! a) as [al|] eqn:Ea; [|auto].
    assert (H : BufferData (ClearBufferAllocationUserData Dev a) B = Some d ->
                BufferData Dev B = Some d).
    { destruct B as [b0 s0]. unfold BufferData. cbn.
      destruct s0 as [a0|]; [|auto].
      destruct (decide (a = a0)) as [-> | N].
      - rewrite lookup_alter_eq. destruct (DevBufferAllocations Dev !! a0); discriminate.
      - rewrite lookup_alter_ne by exact N. auto. }
    destruct (SubAllocUserData al); exact H.
  - destruct pB as [b|]; [|auto].
    destruct (DevBuffers Dev !! b) as [o|] eqn:Eo; [|auto].
    assert (H : BufferData (ClearBufferUserData Dev b) B = Some d -> BufferData Dev B = Some d).
    { destruct B as [b0 s0]. unfold BufferData. cbn.
      destruct s0 as [a0|]; [auto|]. destruct b0 as [b0|]; [|auto].
      destruct (decide (b = b0)) as [-> | N].
      - rewrite lookup_alter_eq. destruct (DevBuffers Dev !! b0); discriminate.
      - rewrite lookup_alter_ne by exact N. auto. }
    destruct (BufObjUserData o); exact H.
Qed.

(** One step of the loop over the buffers: what it adds *)
Lemma PrepareBuffer_issue Dev Barriers Cmds lst BuffInfo :
  exists eB eC,
    st_barriers (PrepareBuffer (Dev, Barriers, Cmds) (lst, BuffInfo)) = Barriers ++ eB /\
    st_cmds (PrepareBuffer (Dev, Barriers, Cmds) (lst, BuffInfo)) = Cmds ++ eC /\
    Forall (fun b => is_Some (pBuffer BuffInfo) /\
                     pResource b = ObjBuffer (EntryBuffer Dev BuffInfo) /\
                     (exists data, BufferData Dev BuffInfo = Some data) /\
                     NewState b = if lst then RESOURCE_STATE_INDEX_BUFFER
                                  else RESOURCE_STATE_VERTEX_BUFFER) eB /\
    Forall (fun c => exists data p Offset,
                BufferData Dev BuffInfo = Some data /\
                c = CmdUpdateBuffer p Offset (wrap32 (Z.of_nat (length data))) data) eC.
Proof.
  assert (Hnil : forall (P : StateTransitionDesc -> Prop) (Q : Command -> Prop),
             exists eB eC, Barriers = Barriers ++ eB /\ Cmds = Cmds ++ eC /\
                           Forall P eB /\ Forall Q eC)
    by (intros; exists [], []; rewrite !app_nil_r; repeat split; constructor).
  destruct BuffInfo as [pB pS].
  unfold PrepareBuffer, st_barriers, st_cmds, BufferData, EntryBuffer.
  cbn [pBuffer pSuballocation].
  destruct pS as [a|].
  - destruct (DevBufferAllocations Dev !! a) as [al|] eqn:Ea; [|apply Hnil].
    destruct (SubAllocUserData al) as [data|] eqn:Ed; [|apply Hnil]. cbn [fst snd].
    destruct pB as [b|].
    + eexists _, _. split; [reflexivity|]. split; [reflexivity|].
      split; repeat constructor; eauto.
    + exists [], [CmdUpdateBuffer (SubAllocBuffer al) (SubAllocOffset al)
                                  (wrap32 (Z.of_nat (length data))) data].
      rewrite app_nil_r. split; [reflexivity|]. split; [reflexivity|].
      split; repeat constructor; eauto.
  - destruct pB as [b|]; [|apply Hnil].
    destruct (DevBuffers Dev !! b) as [o|] eqn:Eo; [|apply Hnil].
    destruct (BufObjUserData o) as [data|] eqn:Ed; [|apply Hnil]. cbn [fst snd].
    eexists _, _. split; [reflexivity|]. split; [reflexivity|].
    split; repeat constructor; eauto.
Qed.

(** The loops leave the buffer of every entry where it is *)
Lemma PrepareBuffer_EntryBuffer Dev Barriers Cmds e B :
  EntryBuffer (st_dev (PrepareBuffer (Dev, Barriers, Cmds) e)) B = EntryBuffer Dev B.
Proof.
  destruct e as [lst [pB pS]]. unfold PrepareBuffer, st_dev. cbn [pBuffer pSuballocation].
  destruct pS as [a|].
  - destruct (DevBufferAllocations Dev !! a) as [al|] eqn:Ea; [|reflexivity].
    assert (H : EntryBuffer (ClearBufferAllocationUserData Dev a) B = EntryBuffer Dev B).
    { unfold EntryBuffer. destruct (pSuballocation B) as [a0|]; [|reflexivity]. cbn.
      destruct (decide (a = a0)) as [-> | N].
      - rewrite lookup_alter_eq. destruct (DevBufferAllocations Dev !! a0); reflexivity.
      - rewrite lookup_alter_ne by exact N. reflexivity. }
    destruct (SubAllocUserData al); exact H.
  - destruct pB as [b|]; [|reflexivity].
    destruct (DevBuffers Dev !! b) as [o|]; [|reflexivity].
    destruct (BufObjUserData o); reflexivity.
Qed.

Lemma PrepareTexture_EntryBuffer Dev Barriers Cmds X B :
  EntryBuffer (st_dev (PrepareTexture (Dev, Barriers, Cmds) X)) B = EntryBuffer Dev B.
Proof.
  unfold PrepareTexture, st_dev. destruct X as [pT pA]. cbn [pTexture pAtlasSuballocation].
  destruct pA as [a|].
  - destruct (DevAllocations Dev !! a) as [al|]; [|reflexivity].
    destruct (AllocAtlasTexture al) as [pTex|]; [|reflexivity].
    destruct (AllocUserData al) as [d|]; [|reflexivity].
    destruct (DevTextures (ClearAllocationUserData Dev a) !! pTex); reflexivity.
  - destruct pT as [t|]; [|reflexivity].
    destruct (DevTextures Dev !! t) as [o|]; [|reflexivity].
    destruct (TexObjUserData o) as [d|]; [|reflexivity].
    destruct (DevTextures (ClearTextureUserData Dev t) !! t); reflexivity.
Qed.

Lemma PrepareTextures_EntryBuffer l B : forall st,
  EntryBuffer (st_dev (fold_left PrepareTexture l st)) B = EntryBuffer (st_dev st) B.
Proof.
  induction l as [|X l IH]; intros [[Dev Bs] C]; [reflexivity|].
  cbn [fold_left]. rewrite IH.
  destruct (PrepareTexture (Dev, Bs, C) X) as [[Dev1 B1] C1] eqn:E.
  change Dev1 with (st_dev (Dev1, B1, C1)). rewrite <- E. apply PrepareTexture_EntryBuffer.
Qed.

Lemma PrepareBuffer_eta st e :
  PrepareBuffer st e
  = (st_dev (PrepareBuffer st e), st_barriers (PrepareBuffer st e),
     st_cmds (PrepareBuffer st e)).
Proof. destruct (PrepareBuffer st e) as [[a b] c]. reflexivity. Qed.

Lemma PrepareBuffers_issue l : forall st,
  let st' := fold_left PrepareBuffer l st in
  exists eB eC,
    st_barriers st' = st_barriers st ++ eB /\
    st_cmds st' = st_cmds st ++ eC /\
    Forall (fun b => exists lst B,
                In (lst, B) l /\ is_Some (pBuffer B) /\
                pResource b = ObjBuffer (EntryBuffer (st_dev st) B) /\
                (exists data, BufferData (st_dev st) B = Some data) /\
                NewState b = if lst : bool then RESOURCE_STATE_INDEX_BUFFER
                             else RESOURCE_STATE_VERTEX_BUFFER) eB /\
    Forall (fun c => exists lst B data p Offset,
                In (lst, B) l /\ BufferData (st_dev st) B = Some data /\
                c = CmdUpdateBuffer p Offset (wrap32 (Z.of_nat (length data))) data) eC.
Proof.
  induction l as [|[lst X] l IH]; intros [[Dev B] C]; cbv zeta.
  - exists [], []. cbn. rewrite !app_nil_r. repeat split; constructor.
  - cbn [fold_left].
    destruct (PrepareBuffer_issue Dev B C lst X) as (eB1 & eC1 & HB1 & HC1 & HF1 & HG1).
    pose proof (PrepareBuffer_data_before Dev B C (lst, X)) as Hbefore.
    pose proof (PrepareBuffer_EntryBuffer Dev B C (lst, X)) as Hentry.
    rewrite (PrepareBuffer_eta (Dev, B, C) (lst, X)), HB1, HC1.
    destruct (IH (st_dev (PrepareBuffer (Dev, B, C) (lst, X)), B ++ eB1, C ++ eC1))
      as (eB & eC & HB & HC & HFB & HFC).
    unfold st_barriers, st_cmds in HB, HC. cbn [fst snd] in HB, HC.
    change (st_dev (?a, ?b, ?c)) with a in HFC.
    change (st_dev (?a, ?b, ?c)) with a in HFB.
    exists (eB1 ++ eB), (eC1 ++ eC).
    split; [unfold st_barriers at 2; cbn [fst snd]; rewrite app_assoc; exact HB|].
    split; [unfold st_cmds at 2; cbn [fst snd]; rewrite app_assoc; exact HC|].
    split.
    + apply Forall_app. split.
      * eapply Forall_impl; [exact HF1|]. cbv beta.
        intros b (H1 & H2 & H3 & H4). exists lst, X. auto using in_eq.
      * eapply Forall_impl; [exact HFB|]. cbv beta.
        intros b (l0 & Y & HY & HpB & Hr & (data & Hd) & Hs). exists l0, Y.
        change (st_dev (Dev, B, C)) with Dev.
        split; [auto using in_cons|]. split; [exact HpB|].
        split; [rewrite <- Hentry; exact Hr|].
        split; [exists data; apply Hbefore; exact Hd | exact Hs].
    + apply Forall_app. split.
      * eapply Forall_impl; [exact HG1|]. cbv beta.
        intros c (data & p & Offset & Hd & ->). exists lst, X, data, p, Offset.
        auto using in_eq.
      * eapply Forall_impl; [exact HFC|]. cbv beta.
        intros c (l0 & Y & data & p & Offset & HY & Hd & ->).
        exists l0, Y, data, p, Offset. split; [auto using in_cons|].
        split; [|reflexivity]. change (st_dev (Dev, B, C)) with Dev.
        apply Hbefore. exact Hd.
Qed.

Lemma enumerate_lookup {A} (l : list A) i x :
  In (i, x) (enumerate l) -> l !! i = Some x.
Proof.
  unfold enumerate.
  assert (H : forall k, In (i, x) (combine (seq k (length l)) l) ->
                        k <= i /\ l !! (i - k) = Some x).
  { induction l as [|a l IH]; intros k Hin; [destruct Hin|].
    cbn [length seq combine] in Hin. destruct Hin as [E | Hin].
    - injection E as <- <-. rewrite Nat.sub_diag. split; [lia | reflexivity].
    - destruct (IH (S k) Hin) as [Hle Hl]. split; [lia|].
      replace (i - k) with (S (i - S k)) by lia. exact Hl. }
  intros Hin. destruct (H 0 Hin) as [_ Hl]. rewrite Nat.sub_0_r in Hl. exact Hl.
Qed.

Lemma MarkLast_position Bufs lst B :
  In (lst, B) (MarkLast Bufs) ->
  exists i, Bufs !! i = Some B /\ lst = Nat.eqb (S i) (length Bufs).
Proof.
  unfold MarkLast. intros H. apply in_map_iff in H as ([i B'] & E & Hin).
  injection E as <- <-. exists i. split; [apply enumerate_lookup; exact Hin | reflexivity].
Qed.

End IssueFacts.

Section IssueClaims.
Context `{GA : GraphicsAccessories} `{BM : BasicMath}.

Lemma PrepareGPUResources_issue M Dev :
  exists Uploads Barriers,
    snd (PrepareGPUResources M Dev)
      = Uploads ++ match Barriers with
                   | [] => []
                   | _ => [CmdTransitionResourceStates Barriers]
                   end /\
    Forall (UploadsPayload M Dev) Uploads /\
    Forall (BarrierOf M Dev) Barriers.
Proof.
  unfold PrepareGPUResources. destruct (GPUDataInitialized M).
  { exists [], []. cbn. repeat split; constructor. }
  destruct (PrepareTextures_issue (Textures M) (Dev, [], []))
    as (eB & eC & HB & HC & HFB & HFC).
  destruct (PrepareTextures_state (Textures M) (Dev, [], [])) as (_ & Hbuf & _).
  pose proof (fun B => PrepareTextures_EntryBuffer (Textures M) B (Dev, [], [])) as Hentry.
  set (st1 := fold_left PrepareTexture (Textures M) (Dev, [], [])) in *.
  destruct (PrepareBuffers_issue (MarkLast (Buffers M)) st1)
    as (eB' & eC' & HB' & HC' & HFB' & HFC').
  destruct (fold_left PrepareBuffer (MarkLast (Buffers M)) st1) as [[Dev' Barriers] Cmds].
  unfold st_dev, st_barriers, st_cmds in *. cbn [fst snd] in *.
  exists Cmds, Barriers. split; [destruct Barriers; rewrite ?app_nil_r; reflexivity|].
  rewrite HC', HC, HB', HB. cbn [app]. split.
  - apply Forall_app. split.
    + eapply Forall_impl; [exact HFC|]. intros c H. left. exact H.
    + eapply Forall_impl; [exact HFC'|]. cbv beta.
      intros c (lst & B & data & p & Offset & Hin & Hd & ->). right.
      exists B, data, p, Offset.
      split; [apply (MarkLast_In _ (lst, B)); exact Hin|].
      split; [rewrite <- Hbuf; exact Hd | reflexivity].
  - apply Forall_app. split.
    + eapply Forall_impl; [exact HFB|]. cbv beta.
      intros b (Hs & H). unfold BarrierOf. rewrite Hs. exact H.
    + eapply Forall_impl; [exact HFB'|]. cbv beta.
      intros b (lst & B & Hin & HpB & Hr & (data & Hd) & Hs).
      apply MarkLast_position in Hin as (i & Hi & ->).
      rewrite Hentry in Hr. rewrite Hbuf in Hd.
      unfold BarrierOf. rewrite Hs.
      destruct (Nat.eqb_spec (S i) (length (Buffers M))) as [E | N].
      * exists B, data. split; [rewrite last_lookup, <- E; exact Hi|].
        split; [exact HpB|]. split; [exact Hr | exact Hd].
      * exists i, B, data. split; [exact Hi|].
        split; [apply lookup_lt_Some in Hi; lia|].
        split; [exact HpB|]. split; [exact Hr | exact Hd].
Qed.

(** X5: the state transitions of a call are batched: the commands are
    uploads followed by at most one [TransitionResourceStates], which is
    never given an empty list.  Each of its barriers names the resource of
    an entry of the model that held init data before the call and whose
    member [pTexture] or [pBuffer] is set: the texture of an entry of
    [Textures] (the texture of the atlas for an entry with a
    suballocation) goes to the shader resource state, the buffer of the
    last entry of [Buffers] to the index buffer state and the buffer of an
    earlier entry to the vertex buffer state. *)
Theorem PrepareGPUResources_batches_barriers (M : Model) (Dev : Device) :
  exists Uploads Barriers,
    snd (PrepareGPUResources M Dev)
      = Uploads ++ match Barriers with
                   | [] => []
                   | _ => [CmdTransitionResourceStates Barriers]
                   end /\
    Forall (fun c => IsTransition c = false) Uploads /\
    Forall (BarrierOf M Dev) Barriers.
Proof.
  destruct (PrepareGPUResources_issue M Dev) as (Uploads & Barriers & E & HU & HB).
  exists Uploads, Barriers. split; [exact E|]. split; [|exact HB].
  eapply Forall_impl; [exact HU|]. cbv beta.
  intros c [(X & s & d & _ & _ & _ & Hc) | (B & data & p & Offset & _ & _ & ->)].
  - pose proof (TextureUpload_kinds Dev X d) as Hk.
    rewrite List.Forall_forall in Hk. apply Hk. exact Hc.
  - reflexivity.
Qed.


End IssueClaims.

Section ReleaseFacts.
Context `{GA : GraphicsAccessories} `{BM : BasicMath}.

Lemma PrepareBuffer_clears Dev Barriers Cmds lst B :
  BufferData (st_dev (PrepareBuffer (Dev, Barriers, Cmds) (lst, B))) B = None.
Proof.
  destruct B as [pB pS]. unfold PrepareBuffer, st_dev, BufferData.
  cbn [pBuffer pSuballocation].
  destruct pS as [a|].
  - destruct (DevBufferAllocations Dev !! a) as [al|] eqn:Ea; cbn [fst]; [|rewrite Ea; reflexivity].
    destruct (SubAllocUserData al); cbn [fst DevBufferAllocations ClearBufferAllocationUserData];
      rewrite lookup_alter_eq, Ea; reflexivity.
  - destruct pB as [b|]; [|reflexivity].
    destruct (DevBuffers Dev !! b) as [o|] eqn:Eo; cbn [fst]; [|rewrite Eo; reflexivity].
    destruct (BufObjUserData o); cbn [fst DevBuffers ClearBufferUserData];
      rewrite lookup_alter_eq, Eo; reflexivity.
Qed.

Lemma PrepareBuffers_clear l : forall st e,
  In e l -> BufferData (st_dev (fold_left PrepareBuffer l st)) (snd e) = None.
Proof.
  assert (Hmono : forall l0 st B, BufferData (st_dev st) B = None ->
                    BufferData (st_dev (fold_left PrepareBuffer l0 st)) B = None).
  { intros l0. induction l0 as [|[lst X] l0 IH]; intros [[Dev Bs] C] B HB; [exact HB|].
    cbn [fold_left]. apply IH.
    destruct (PrepareBuffer_step Dev Bs C lst X) as (Dev1 & eB & eC & E & _ & _ & Hm & _).
    rewrite E. apply Hm. exact HB. }
  induction l as [|[lst X] l IH]; intros [[Dev Bs] C] e Hin; [destruct Hin|].
  cbn [fold_left]. destruct Hin as [<- | Hin].
  - apply Hmono. apply PrepareBuffer_clears.
  - apply IH. exact Hin.
Qed.

(** X7: a call by a model whose flag is not set releases every payload
    the model references: afterwards no texture, atlas suballocation,
    buffer or buffer suballocation of the model holds init data, while the
    descriptions of the textures and the placement of the suballocations
    are as before. *)
Theorem PrepareGPUResources_releases_payloads (M : Model) (Dev : Device) :
  GPUDataInitialized M = false ->
  let Dev' := snd (fst (PrepareGPUResources M Dev)) in
  (forall X s, In X (Textures M) -> TextureSlot X = Some s -> SlotData Dev' s = None) /\
  (forall B, In B (Buffers M) -> BufferData Dev' B = None) /\
  SameObjects Dev Dev'.
Proof.
  intros Hflag. cbv zeta.
  destruct (PrepareGPUResources_call M Dev) as (Hsame & _ & Hclear & _).
  split; [intros X s HX Hs; apply Hclear; eauto|]. split; [|exact Hsame].
  intros B HB. unfold PrepareGPUResources. rewrite Hflag.
  set (st1 := fold_left PrepareTexture (Textures M) (Dev, [], [])).
  assert (Hin : exists lst, In (lst, B) (MarkLast (Buffers M))).
  { unfold MarkLast, enumerate. apply In_nth with (d := B) in HB as (i & Hi & <-).
    exists (Nat.eqb (S i) (length (Buffers M))).
    apply in_map_iff. exists (i, nth i (Buffers M) B). split; [reflexivity|].
    replace (i, nth i (Buffers M) B)
      with (nth i (combine (seq 0 (length (Buffers M))) (Buffers M)) (0, B)).
    - apply nth_In. rewrite length_combine, length_seq. lia.
    - rewrite combine_nth by (rewrite length_seq; reflexivity).
      rewrite seq_nth by exact Hi. reflexivity. }
  destruct Hin as [lst Hin].
  pose proof (PrepareBuffers_clear (MarkLast (Buffers M)) st1 (lst, B) Hin) as Hc.
  destruct (fold_left PrepareBuffer (MarkLast (Buffers M)) st1) as [[Dev' Barriers] Cmds].
  exact Hc.
Qed.

(** X8: [GenerateMips] is only issued for a texture entry of the model
    whose [pTexture] is set, whose init data held exactly one level, and
    whose texture has more than one mip level. *)
Theorem GenerateMips_needs_single_level (M : Model) (Dev : Device) (t : nat) :
  In (CmdGenerateMips t) (snd (PrepareGPUResources M Dev)) ->
  exists X s d o,
    In X (Textures M) /\ is_Some (pTexture X) /\
    TextureSlot X = Some s /\ SlotData Dev s = Some d /\
    length (Levels d) = 1 /\
    DevTextures Dev !! t = Some o /\ (1 < TexMipLevels (TexObjDesc o))%Z.
Proof.
  intros Hin.
  destruct (PrepareGPUResources_issue M Dev) as (Uploads & Barriers & E & HU & _).
  rewrite E in Hin. apply in_app_or in Hin as [Hin | Hin].
  2:{ destruct Barriers; [destruct Hin|]. destruct Hin as [Hin | []]. discriminate Hin. }
  rewrite List.Forall_forall in HU.
  destruct (HU _ Hin) as [(X & s & d & HX & Hs & Hd & Hc) | (B & data & p & Offset & _ & _ & Hc)];
    [|discriminate Hc].
  assert (Hup : forall alloc pTex o,
            DevTextures Dev !! pTex = Some o ->
            In (CmdGenerateMips t) (UploadTextureData Dev X alloc pTex (TexObjDesc o) d) ->
            is_Some (pTexture X) /\ length (Levels d) = 1 /\
            DevTextures Dev !! t = Some o /\ (1 < TexMipLevels (TexObjDesc o))%Z).
  { intros alloc pTex o Ho. unfold UploadTextureData.
    destruct (match alloc with Some al => AllocOrigin al | None => (0%Z, 0%Z) end)
      as [DstX DstY].
    destruct (Levels d) as [|L Lv] eqn:El.
    - destruct (pStagingTex d) as [p|]; [|intros []].
      destruct (DevTextures Dev !! p); [|intros []].
      intros H. apply in_map_iff in H as (mip & Hm & _). discriminate Hm.
    - intros H. apply in_app_or in H as [H | H].
      + apply in_map_iff in H as ([mip Level] & Hm & _). discriminate Hm.
      + destruct (Nat.eqb (length (L :: Lv)) 1) eqn:E1; [|destruct H].
        destruct (1 <? TexMipLevels (TexObjDesc o))%Z eqn:E2; [|destruct H].
        destruct (bool_decide (is_Some (pTexture X))) eqn:E3; [|destruct H].
        destruct H as [H | []]. injection H as <-.
        split; [apply bool_decide_eq_true in E3; exact E3|].
        split; [apply Nat.eqb_eq in E1; exact E1|].
        split; [exact Ho | apply Z.ltb_lt; exact E2]. }
  unfold TextureUpload in Hc.
  destruct (pAtlasSuballocation X) as [a|].
  - destruct (DevAllocations Dev !! a) as [al|]; [|destruct Hc].
    destruct (AllocAtlasTexture al) as [pTex|]; [|destruct Hc].
    destruct (DevTextures Dev !! pTex) as [o|] eqn:Eo; [|destruct Hc].
    destruct (Hup _ _ _ Eo Hc) as (H1 & H2 & H3 & H4). exists X, s, d, o.
    split; [exact HX|]. split; [exact H1|]. split; [exact Hs|]. split; [exact Hd|].
    split; [exact H2|]. split; [exact H3 | exact H4].
  - destruct (pTexture X) as [t0|] eqn:Ep; [|destruct Hc].
    destruct (DevTextures Dev !! t0) as [o|] eqn:Eo; [|destruct Hc].
    destruct (Hup _ _ _ Eo Hc) as (H1 & H2 & H3 & H4). exists X, s, d, o.
    split; [exact HX|]. split; [rewrite Ep; exact H1|]. split; [exact Hs|]. split; [exact Hd|].
    split; [exact H2|]. split; [exact H3 | exact H4].
Qed.

(** The loop that trims the mip levels of a compressed staging texture *)
Lemma TrimSrcMips_spec (d : TextureDesc TEXTURE_FORMAT) (f : TextureFormatAttribs) (n : nat) :
  let k := TrimSrcMips d f n in
  k <= n /\
  (forall j, k <= j < n ->
     (fst (GetMipLevelProperties d (Z.of_nat j)) < FmtBlockWidth f)%Z \/
     (snd (GetMipLevelProperties d (Z.of_nat j)) < FmtBlockHeight f)%Z) /\
  (0 < k ->
     (FmtBlockWidth f <= fst (GetMipLevelProperties d (Z.of_nat (k - 1))))%Z /\
     (FmtBlockHeight f <= snd (GetMipLevelProperties d (Z.of_nat (k - 1))))%Z).
Proof.
  cbv zeta. induction n as [|n IH].
  - cbn. split; [lia|]. split; [intros j Hj; lia | intros H; lia].
  - cbn [TrimSrcMips].
    destruct (GetMipLevelProperties d (Z.of_nat n)) as [w h] eqn:Ep.
    destruct ((FmtBlockWidth f <=? w)%Z && (FmtBlockHeight f <=? h)%Z) eqn:Eb.
    + split; [lia|]. split; [intros j Hj; lia|]. intros _.
      replace (S n - 1) with n by lia. rewrite Ep. cbn.
      apply andb_true_iff in Eb as [E1 E2]. split; apply Z.leb_le; assumption.
    + destruct IH as (Hle & Hsmall & Hk). split; [lia|]. split; [|exact Hk].
      intros j Hj. destruct (decide (j = n)) as [-> | Hne]; [|apply Hsmall; lia].
      rewrite Ep. cbn. apply andb_false_iff in Eb as [E | E]; apply Z.leb_gt in E; auto.
Qed.

(** X9: the copy from a staging texture of a compressed format stops
    before the mip levels that are smaller than a block: the commands copy
    the mip levels [0 .. k-1], where [k] is at most the number of mip
    levels the two textures share, level [k-1] is at least one block wide
    and high, and every shared level from [k] on is smaller than a block. *)
Theorem staging_copy_skips_small_mips
    (Dev : Device) (X : TextureInfo) (alloc : option AtlasSuballocation) (pTex : nat)
    (TexDesc : TextureDesc TEXTURE_FORMAT) (InitData : TextureInitData)
    (p : nat) (staging : TextureObject) :
  Levels InitData = [] ->
  pStagingTex InitData = Some p ->
  DevTextures Dev !! p = Some staging ->
  FmtIsCompressed (GetTextureFormatAttribs (TexFormat TexDesc)) = true ->
  let f := GetTextureFormatAttribs (TexFormat TexDesc) in
  let Src := TexObjDesc staging in
  let n := Z.to_nat (Z.min (TexMipLevels Src) (TexMipLevels TexDesc)) in
  let DstSlice := match alloc with Some al => AllocSlice al | None => 0%Z end in
  let Origin := match alloc with Some al => AllocOrigin al | None => (0%Z, 0%Z) end in
  exists k,
    UploadTextureData Dev X alloc pTex TexDesc InitData
      = map (fun mip => CmdCopyTexture p pTex mip DstSlice
                          (Z.shiftr (fst Origin) (Z.of_nat mip))
                          (Z.shiftr (snd Origin) (Z.of_nat mip)))
            (seq 0 k) /\
    k <= n /\
    (forall j, k <= j < n ->
       (fst (GetMipLevelProperties Src (Z.of_nat j)) < FmtBlockWidth f)%Z \/
       (snd (GetMipLevelProperties Src (Z.of_nat j)) < FmtBlockHeight f)%Z) /\
    (0 < k ->
       (FmtBlockWidth f <= fst (GetMipLevelProperties Src (Z.of_nat (k - 1))))%Z /\
       (FmtBlockHeight f <= snd (GetMipLevelProperties Src (Z.of_nat (k - 1))))%Z).
Proof.
  intros HL HS Hp Hc. cbv zeta.
  exists (TrimSrcMips (TexObjDesc staging) (GetTextureFormatAttribs (TexFormat TexDesc))
            (Z.to_nat (Z.min (TexMipLevels (TexObjDesc staging)) (TexMipLevels TexDesc)))).
  split; [|apply TrimSrcMips_spec].
  unfold UploadTextureData. rewrite HL, HS, Hp, Hc.
  destruct (match alloc with Some al => AllocOrigin al | None => (0%Z, 0%Z) end) as [DstX DstY].
  reflexivity.
Qed.

End ReleaseFacts.

(** ** Adding a texture *)
Section AddTextureFacts.
Context `{GA : GraphicsAccessories} `{BM : BasicMath}.
Variable BaseColorTextureName : string.

Lemma DeviceCreateTexture_fresh Dev Desc UserData :
  let t := fst (DeviceCreateTexture Dev Desc UserData) in
  let Dev' := snd (DeviceCreateTexture Dev Desc UserData) in
  DevTextures Dev !! t = None /\
  DevTextures Dev' !! t = Some {| TexObjDesc := Desc; TexObjUserData := UserData |} /\
  (forall t0, t0 <> t -> DevTextures Dev' !! t0 = DevTextures Dev !! t0) /\
  DevAllocations Dev' = DevAllocations Dev /\
  DevBuffers Dev' = DevBuffers Dev /\
  DevBufferAllocations Dev' = DevBufferAllocations Dev.
Proof.
  cbv zeta. unfold DeviceCreateTexture. cbn.
  split; [apply not_elem_of_dom, is_fresh|].
  split; [apply lookup_insert_eq|].
  split; [intros t0 Hne; apply lookup_insert_ne; congruence|].
  repeat split.
Qed.


(** When the lookup found nothing, one texture is created under a fresh
    handle, entered into the cache and appended *)
Lemma AddTexture_Create_miss M TexInfo pTextureCache Dev Image CacheId :
  TextureInfo_IsValid TexInfo = false ->
  let t := fresh (dom (DevTextures Dev)) in
  exists (o : TextureObject) (log : list Diag),
    AddTexture_Create BaseColorTextureName M TexInfo pTextureCache Dev Image CacheId
    = (set_Textures M (Textures M ++ [{| pTexture := Some t; pAtlasSuballocation := None |}]),
       Emplace pTextureCache CacheId t, WithTexture Dev t o, log) /\
    ((0 < ImgWidth Image)%Z -> (0 < ImgHeight Image)%Z -> o = ImageTexture BaseColorTextureName M Image) /\
    ((0 <? ImgWidth Image)%Z && (0 <? ImgHeight Image)%Z = false ->
     IsDDSorKTX Image = false -> o = StubTexture).
Proof.
  intros Hinv. cbv zeta. unfold AddTexture_Create. rewrite Hinv.
  destruct (GetTextureAlphaCutoffValue _ _ _) as [AlphaCutoff log0] eqn:Ecut.
  destruct ((0 <? ImgWidth Image)%Z && (0 <? ImgHeight Image)%Z) eqn:Edim.
  - destruct (PrepareGLTFTextureInitData Image AlphaCutoff 1) as [InitData l] eqn:Ei.
    unfold DeviceCreateTexture. cbv beta iota zeta.
    eexists _, _. split; [destruct pTextureCache; reflexivity|].
    split.
    + intros _ _. unfold ImageTexture. rewrite Ecut. cbn [fst]. rewrite Ei. reflexivity.
    + discriminate.
  - assert (Hno : (0 < ImgWidth Image)%Z -> (0 < ImgHeight Image)%Z -> False).
    { intros H1 H2. apply Z.ltb_lt in H1, H2. rewrite H1, H2 in Edim. discriminate. }
    destruct (IsDDSorKTX Image) eqn:Edds.
    + destruct (CreateTextureLoaderFromMemory _ _) as [Desc|].
      * unfold DeviceCreateTexture. cbv beta iota zeta.
        eexists _, _. split; [destruct pTextureCache; reflexivity|].
        split; [intros H1 H2; destruct (Hno H1 H2) | discriminate].
      * unfold DeviceCreateTexture. cbv beta iota zeta.
        eexists _, _. split; [destruct pTextureCache; reflexivity|].
        split; [intros H1 H2; destruct (Hno H1 H2) | discriminate].
    + unfold DeviceCreateTexture. cbv beta iota zeta.
      eexists _, _. split; [destruct pTextureCache; reflexivity|].
      split; [intros H1 H2; destruct (Hno H1 H2) | reflexivity].
Qed.

End AddTextureFacts.

Section AddTextureClaims.
Context `{GA : GraphicsAccessories} `{BM : BasicMath}.
Variable BaseColorTextureName : string.

(** The lookup finds nothing or a texture of the store that the cache
    holds under the key *)
Lemma AddTexture_Find_cases pTextureCache Dev Image CacheId :
  let r := AddTexture_Find pTextureCache Dev Image CacheId in
  (fst (fst r) = TextureInfo_null) \/
  (exists C t, pTextureCache = Some C /\ CacheId <> "" /\
               CacheTextures C !! CacheId = Some t /\ is_Some (DevTextures Dev !! t) /\
               r = ({| pTexture := Some t; pAtlasSuballocation := None |}, pTextureCache, [])).
Proof.
  cbv zeta. unfold AddTexture_Find.
  destruct pTextureCache as [C|]; [|left; reflexivity].
  destruct (String.eqb_spec CacheId "") as [-> | Hne]; [left; reflexivity|].
  destruct (CacheTextures C !! CacheId) as [t|] eqn:Ec; [|left; reflexivity].
  destruct (DevTextures Dev !! t) as [o|] eqn:Eo.
  - right. exists C, t. rewrite Eo. eauto 10.
  - left. destruct (_ || _); reflexivity.
Qed.

Lemma AddTexture_Create_hit M t pTextureCache Dev Image CacheId :
  AddTexture_Create BaseColorTextureName M
    {| pTexture := Some t; pAtlasSuballocation := None |} pTextureCache Dev Image CacheId
  = (set_Textures M (Textures M ++ [{| pTexture := Some t; pAtlasSuballocation := None |}]),
     pTextureCache, Dev, []).
Proof. reflexivity. Qed.

(** X10: [AddTexture] (without a resource manager) always appends exactly
    one entry to [Textures], whose texture exists in the store afterwards:
    when no texture can be made from the image, the checkerboard stub takes
    its place.  The textures that were in the store are as before, and so
    are the suballocations, the buffers and the rest of the model. *)
Theorem AddTexture_appends_live_texture
    (M : Model) (pTextureCache : option TextureCacheType) (Dev : Device)
    (Image : ImageData) (CacheId : string) :
  let '(M', _, Dev', _) :=
    AddTexture BaseColorTextureName M pTextureCache Dev Image CacheId in
  (exists t, Textures M' = Textures M ++ [{| pTexture := Some t; pAtlasSuballocation := None |}] /\
             is_Some (DevTextures Dev' !! t)) /\
  (forall t0 o, DevTextures Dev !! t0 = Some o -> DevTextures Dev' !! t0 = Some o) /\
  DevAllocations Dev' = DevAllocations Dev /\
  DevBuffers Dev' = DevBuffers Dev /\
  DevBufferAllocations Dev' = DevBufferAllocations Dev /\
  Materials M' = Materials M /\ Buffers M' = Buffers M /\
  GPUDataInitialized M' = GPUDataInitialized M.
Proof.
  unfold AddTexture.
  destruct (AddTexture_Find_cases pTextureCache Dev Image CacheId)
    as [Hnull | (C & t & -> & Hne & Hc & Hlive & E)].
  - destruct (AddTexture_Find pTextureCache Dev Image CacheId) as [[TexInfo C1] log0].
    cbn [fst] in Hnull. subst TexInfo.
    destruct (AddTexture_Create_miss BaseColorTextureName M TextureInfo_null C1 Dev Image CacheId)
      as (o & log & E & _); [reflexivity|].
    rewrite E. cbn [Textures set_Textures Materials Buffers GPUDataInitialized].
    split.
    + eexists. split; [reflexivity|]. unfold WithTexture. cbn [DevTextures].
      rewrite lookup_insert_eq. eauto.
    + unfold WithTexture. cbn. split; [|auto 10].
      intros t0 o0 H0. rewrite lookup_insert_ne; [exact H0|].
      intros <-. pose proof (is_fresh (dom (DevTextures Dev))) as Hf.
      apply not_elem_of_dom in Hf. congruence.
  - rewrite E, AddTexture_Create_hit.
    cbn [Textures set_Textures Materials Buffers GPUDataInitialized].
    split; [eauto|]. auto 10.
Qed.


Lemma AddTexture_Find_absent C Dev Image CacheId :
  CacheTextures C !! CacheId = None ->
  AddTexture_Find (Some C) Dev Image CacheId = (TextureInfo_null, Some C, []).
Proof.
  intros Hc. unfold AddTexture_Find. rewrite Hc. destruct (String.eqb CacheId ""); reflexivity.
Qed.

Lemma AddTexture_Find_live C Dev Image CacheId t :
  CacheId <> "" -> CacheTextures C !! CacheId = Some t -> is_Some (DevTextures Dev !! t) ->
  AddTexture_Find (Some C) Dev Image CacheId
  = ({| pTexture := Some t; pAtlasSuballocation := None |}, Some C, []).
Proof.
  intros Hne Hc [o Ho]. unfold AddTexture_Find. rewrite Hc, Ho.
  destruct (String.eqb_spec CacheId ""); [contradiction | reflexivity].
Qed.

Lemma AddTexture_Find_empty pTextureCache Dev Image :
  AddTexture_Find pTextureCache Dev Image "" = (TextureInfo_null, pTextureCache, []).
Proof. destruct pTextureCache; reflexivity. Qed.

(** X11: the cache round trip, for loads without a resource manager
    ([pResourceMgr == nullptr]).  After [AddTexture] has run with a cache
    and a key that is not empty (and for which the cache holds no stale
    entry), a second [AddTexture] with the same key, for any model and
    whatever its image, appends the same texture, creates nothing, leaves
    the cache as it is and reports nothing. *)
Theorem AddTexture_shares_cached_texture
    (M1 M2 : Model) (C : TextureCacheType) (Dev : Device)
    (Image1 Image2 : ImageData) (CacheId : string) :
  CacheId <> "" ->
  (forall t, CacheTextures C !! CacheId = Some t -> is_Some (DevTextures Dev !! t)) ->
  let '(M1', C1, Dev1, _) :=
    AddTexture BaseColorTextureName M1 (Some C) Dev Image1 CacheId in
  let '(M2', C2, Dev2, log2) :=
    AddTexture BaseColorTextureName M2 C1 Dev1 Image2 CacheId in
  last (Textures M2') = last (Textures M1') /\ Dev2 = Dev1 /\ C2 = C1 /\ log2 = [].
Proof.
  intros Hne Hlive. unfold AddTexture.
  destruct (CacheTextures C !! CacheId) as [t|] eqn:Ec.
  - rewrite (AddTexture_Find_live C Dev Image1 CacheId t Hne Ec (Hlive t eq_refl)).
    rewrite AddTexture_Create_hit.
    rewrite (AddTexture_Find_live C Dev Image2 CacheId t Hne Ec (Hlive t eq_refl)).
    rewrite AddTexture_Create_hit. cbn [Textures set_Textures app].
    rewrite !last_snoc. auto.
  - rewrite (AddTexture_Find_absent C Dev Image1 CacheId Ec).
    destruct (AddTexture_Create_miss BaseColorTextureName M1 TextureInfo_null (Some C) Dev
                Image1 CacheId) as (o & log & E & _); [reflexivity|].
    rewrite E. unfold Emplace. rewrite Ec.
    set (t := fresh (dom (DevTextures Dev))).
    rewrite (AddTexture_Find_live {| CacheTextures := <[CacheId := t]> (CacheTextures C) |}
               (WithTexture Dev t o) Image2 CacheId t Hne).
    + rewrite AddTexture_Create_hit. cbn [Textures set_Textures app].
      rewrite !last_snoc. auto.
    + cbn. apply lookup_insert_eq.
    + unfold WithTexture. cbn. rewrite lookup_insert_eq. eauto.
Qed.

(** X12: a stale entry, one whose texture is gone from the store, in a
    load without a resource manager ([pResourceMgr == nullptr]).  A new
    texture is created under a fresh handle in any case.  When the image
    has its dimensions (or is a DDS or KTX file) the stale entry is
    reported and stays in the cache, so that the new texture is not
    entered; otherwise the entry is erased and the checkerboard stub that
    is created takes its place. *)
Theorem AddTexture_stale_entry
    (M : Model) (C : TextureCacheType) (Dev : Device) (Image : ImageData)
    (CacheId : string) (t : nat) :
  CacheId <> "" ->
  CacheTextures C !! CacheId = Some t ->
  DevTextures Dev !! t = None ->
  let '(M', C', Dev', log) :=
    AddTexture BaseColorTextureName M (Some C) Dev Image CacheId in
  let t' := fresh (dom (DevTextures Dev)) in
  last (Textures M') = Some {| pTexture := Some t'; pAtlasSuballocation := None |} /\
  if ((0 <? ImgWidth Image)%Z && (0 <? ImgHeight Image)%Z) || IsDDSorKTX Image
  then C' = Some C /\
       head log = Some (DiagUnexpected "Stale textures should not be found in the texture cache because we hold strong references.")
  else C' = Some {| CacheTextures := <[CacheId := t']> (CacheTextures C) |} /\
       DevTextures Dev' !! t' = Some StubTexture.
Proof.
  intros Hne Hc Hdead. unfold AddTexture, AddTexture_Find. rewrite Hc, Hdead.
  destruct (String.eqb_spec CacheId "") as [|_]; [contradiction|].
  destruct (((0 <? ImgWidth Image)%Z && (0 <? ImgHeight Image)%Z) || IsDDSorKTX Image) eqn:Ek.
  - destruct (AddTexture_Create_miss BaseColorTextureName M TextureInfo_null (Some C) Dev
                Image CacheId) as (o & log & E & _); [reflexivity|].
    rewrite E. cbn [Textures set_Textures]. rewrite last_snoc.
    split; [reflexivity|]. split; [|reflexivity].
    unfold Emplace. rewrite Hc. destruct C. reflexivity.
  - apply orb_false_iff in Ek as [Edim Edds].
    destruct (AddTexture_Create_miss BaseColorTextureName M TextureInfo_null
                (Some {| CacheTextures := delete CacheId (CacheTextures C) |}) Dev
                Image CacheId) as (o & log & E & _ & Hstub); [reflexivity|].
    rewrite E. cbn [Textures set_Textures]. rewrite last_snoc.
    split; [reflexivity|]. split.
    + unfold Emplace. cbn [CacheTextures]. rewrite lookup_delete_eq.
      rewrite insert_delete_eq. reflexivity.
    + rewrite (Hstub Edim Edds). unfold WithTexture. cbn. apply lookup_insert_eq.
Qed.

(** X13: without a resource manager ([pResourceMgr == nullptr]), a
    texture without a cache id is never taken from the cache: with
    an empty key a new texture is created under a fresh handle whatever the
    cache holds, and it is entered under the empty key unless an entry is
    there. *)
Theorem AddTexture_empty_key_never_shares
    (M : Model) (pTextureCache : option TextureCacheType) (Dev : Device)
    (Image : ImageData) :
  let '(M', C', Dev', _) :=
    AddTexture BaseColorTextureName M pTextureCache Dev Image "" in
  let t := fresh (dom (DevTextures Dev)) in
  Textures M' = Textures M ++ [{| pTexture := Some t; pAtlasSuballocation := None |}] /\
  DevTextures Dev !! t = None /\
  is_Some (DevTextures Dev' !! t) /\
  C' = Emplace pTextureCache "" t.
Proof.
  unfold AddTexture. rewrite AddTexture_Find_empty.
  destruct (AddTexture_Create_miss BaseColorTextureName M TextureInfo_null pTextureCache Dev
              Image "") as (o & log & E & _); [reflexivity|].
  rewrite E. cbn [Textures set_Textures].
  split; [reflexivity|]. split; [apply not_elem_of_dom, is_fresh|].
  split; [|reflexivity]. unfold WithTexture. cbn. rewrite lookup_insert_eq. eauto.
Qed.

End AddTextureClaims.

(** ** From loading to uploading *)
Section LoadThenPrepare.
Context `{GA : GraphicsAccessories} `{BM : BasicMath}.
Variable BaseColorTextureName : string.

(** The call for a model with one texture that holds init data, and no
    buffers *)
Lemma PrepareGPUResources_single M Dev t desc InitData :
  GPUDataInitialized M = false ->
  Textures M = [{| pTexture := Some t; pAtlasSuballocation := None |}] ->
  Buffers M = [] ->
  DevTextures Dev !! t = Some {| TexObjDesc := desc; TexObjUserData := Some InitData |} ->
  snd (PrepareGPUResources M Dev)
  = UploadTextureData (ClearTextureUserData Dev t)
      {| pTexture := Some t; pAtlasSuballocation := None |} None t desc InitData
    ++ [CmdTransitionResourceStates
          [{| pResource := ObjTexture t; NewState := RESOURCE_STATE_SHADER_RESOURCE |}]].
Proof.
  intros Hflag HT HB Ht. unfold PrepareGPUResources. rewrite Hflag, HT, HB.
  cbn [fold_left MarkLast enumerate length seq combine map].
  unfold PrepareTexture. cbn [pAtlasSuballocation pTexture]. rewrite Ht.
  cbn [TexObjUserData TexObjDesc].
  assert (E : DevTextures (ClearTextureUserData Dev t) !! t
              = Some {| TexObjDesc := desc; TexObjUserData := None |}).
  { cbn. rewrite lookup_alter_eq, Ht. reflexivity. }
  rewrite E. cbn. reflexivity.
Qed.

Lemma single_level_upload Dev X t desc Level0 :
  UploadTextureData Dev X None t desc {| Levels := [Level0]; pStagingTex := None |}
  = [CmdUpdateTexture t 0 0
       {| MinX := 0; MaxX := wrap32 (LvlWidth Level0);
          MinY := 0; MaxY := wrap32 (LvlHeight Level0) |} Level0]
    ++ (if (1 <? TexMipLevels desc)%Z && bool_decide (is_Some (pTexture X))
        then [CmdGenerateMips t] else []).
Proof. reflexivity. Qed.

Lemma ImageTexture_levels M Image :
  TexObjUserData (ImageTexture BaseColorTextureName M Image)
  = Some {| Levels :=
              [{| LvlData :=
                    Level0Data Image
                      (fst (GetTextureAlphaCutoffValue BaseColorTextureName M
                              (Z.of_nat (length (Textures M))))) 1;
                  LvlStride := wrap32 (ImgWidth Image) * 4;
                  LvlWidth := wrap32 (ImgWidth Image);
                  LvlHeight := wrap32 (ImgHeight Image) |}];
            pStagingTex := None |}.
Proof.
  unfold ImageTexture. cbn [TexObjUserData]. f_equal.
  pose proof (PrepareGLTFTextureInitData_levels Image
                (fst (GetTextureAlphaCutoffValue BaseColorTextureName M
                        (Z.of_nat (length (Textures M))))) 1) as HL.
  cbn in HL.
  destruct (PrepareGLTFTextureInitData Image _ 1) as [[Lv st] log] eqn:E.
  cbn [fst Levels] in *. rewrite HL. f_equal.
  unfold PrepareGLTFTextureInitData in E. cbv zeta in E.
  destruct (ImgNumComponents Image =? 3)%Z;
    [|destruct (ImgNumComponents Image =? 4)%Z; [destruct (F32.gtb _ F32.zero)|]];
    cbv beta iota in E; destruct (GenerateMipLevels 1 _ _); injection E as _ <- _; reflexivity.
Qed.


Lemma wrap32_idem z : wrap32 (wrap32 z) = wrap32 z.
Proof. unfold wrap32. apply Z.mod_mod. lia. Qed.

(** X14: from loading to uploading, for a decoded image and a model
    loaded without a cache.  [AddTexture] creates the texture with level 0
    as its init data; the first [PrepareGPUResources] then issues one
    [UpdateTexture] for mip level 0 that covers the whole image, a
    [GenerateMips] exactly when the texture has more than one mip level,
    and one barrier that moves the texture to the shader resource state. *)
Theorem decoded_image_is_uploaded_once
    (M : Model) (Dev : Device) (Image : ImageData) (CacheId : string) :
  Textures M = [] -> Buffers M = [] -> GPUDataInitialized M = false ->
  (0 < ImgWidth Image)%Z -> (0 < ImgHeight Image)%Z ->
  let '(M', _, Dev', _) := AddTexture BaseColorTextureName M None Dev Image CacheId in
  let t := fresh (dom (DevTextures Dev)) in
  let Level0 :=
    {| LvlData := Level0Data Image
                    (fst (GetTextureAlphaCutoffValue BaseColorTextureName M 0)) 1;
       LvlStride := wrap32 (ImgWidth Image) * 4;
       LvlWidth := wrap32 (ImgWidth Image);
       LvlHeight := wrap32 (ImgHeight Image) |} in
  snd (PrepareGPUResources M' Dev')
  = [CmdUpdateTexture t 0 0
       {| MinX := 0; MaxX := wrap32 (ImgWidth Image);
          MinY := 0; MaxY := wrap32 (ImgHeight Image) |} Level0]
    ++ (if (1 <? ComputeMipLevelsCount (ImgWidth Image) (ImgHeight Image))%Z
        then [CmdGenerateMips t] else [])
    ++ [CmdTransitionResourceStates
          [{| pResource := ObjTexture t; NewState := RESOURCE_STATE_SHADER_RESOURCE |}]].
Proof.
  intros HT HB Hflag HW HH. unfold AddTexture, AddTexture_Find.
  destruct (AddTexture_Create_miss BaseColorTextureName M TextureInfo_null None Dev Image CacheId)
    as (o & log & E & Himg & _); [reflexivity|].
  rewrite E. cbv zeta. rewrite (Himg HW HH). clear E Himg o.
  pose proof (ImageTexture_levels M Image) as HL.
  rewrite HT in HL. change (Z.of_nat (length [])) with 0%Z in HL.
  erewrite (PrepareGPUResources_single _ _ (fresh (dom (DevTextures Dev)))
              (TexObjDesc (ImageTexture BaseColorTextureName M Image)));
    [ | exact Hflag | cbn; rewrite HT; reflexivity | exact HB
      | unfold WithTexture; cbn [DevTextures]; rewrite lookup_insert_eq;
        destruct (ImageTexture BaseColorTextureName M Image) as [d u];
        cbn [TexObjUserData TexObjDesc] in *; rewrite HL; reflexivity ].
  rewrite single_level_upload. cbn [LvlWidth LvlHeight pTexture TexObjDesc ImageTexture
                                    TexMipLevels].
  rewrite !wrap32_idem, <- app_assoc.
  rewrite bool_decide_eq_true_2 by eauto. rewrite andb_true_r. reflexivity.
Qed.

(** X15: in a load without a resource manager and without a texture
    cache, into a model that has no textures and no buffers yet and whose
    flag is not set, an image without dimensions that is neither a DDS nor
    a KTX file gets the checkerboard stub: a 32x32 texture with one mip
    level.  The first [PrepareGPUResources] uploads its one level and
    issues no [GenerateMips]. *)
Theorem missing_image_gets_checkerboard
    (M : Model) (Dev : Device) (Image : ImageData) (CacheId : string) :
  Textures M = [] -> Buffers M = [] -> GPUDataInitialized M = false ->
  (0 <? ImgWidth Image)%Z && (0 <? ImgHeight Image)%Z = false ->
  IsDDSorKTX Image = false ->
  let '(M', _, Dev', _) := AddTexture BaseColorTextureName M None Dev Image CacheId in
  let t := fresh (dom (DevTextures Dev)) in
  let Level0 := {| LvlData := GenerateCheckerBoardPattern 32 32;
                   LvlStride := 32 * 4; LvlWidth := 32; LvlHeight := 32 |} in
  DevTextures Dev' !! t = Some StubTexture /\
  snd (PrepareGPUResources M' Dev')
  = [CmdUpdateTexture t 0 0 {| MinX := 0; MaxX := 32; MinY := 0; MaxY := 32 |} Level0;
     CmdTransitionResourceStates
       [{| pResource := ObjTexture t; NewState := RESOURCE_STATE_SHADER_RESOURCE |}]].
Proof.
  intros HT HB Hflag Hdim Hdds. unfold AddTexture, AddTexture_Find.
  destruct (AddTexture_Create_miss BaseColorTextureName M TextureInfo_null None Dev Image CacheId)
    as (o & log & E & _ & Hstub); [reflexivity|].
  rewrite E. cbv zeta. rewrite (Hstub Hdim Hdds). clear E Hstub o.
  split; [unfold WithTexture; cbn; apply lookup_insert_eq|].
  rewrite (PrepareGPUResources_single _ _ (fresh (dom (DevTextures Dev)))
             (TexObjDesc StubTexture)
             {| Levels := [{| LvlData := GenerateCheckerBoardPattern 32 32;
                              LvlStride := 32 * 4; LvlWidth := 32; LvlHeight := 32 |}];
                pStagingTex := None |});
    [ | exact Hflag | cbn; rewrite HT; reflexivity | exact HB
      | unfold WithTexture; cbn [DevTextures]; rewrite lookup_insert_eq; reflexivity ].
  rewrite single_level_upload. reflexivity.
Qed.

End LoadThenPrepare.

(** ** Loading the textures of a file *)
Section LoadTexturesFacts.
Context `{GA : GraphicsAccessories} `{BM : BasicMath}.
Variable BaseColorTextureName : string.
Variable SimplifyPath : string -> string.
Variable IMAGE_FILE_FORMAT_of_int : Z -> IMAGE_FILE_FORMAT.

Lemma AddTexture_Find_alive pTextureCache Dev Image CacheId :
  CacheAlive pTextureCache Dev ->
  AddTexture_Find pTextureCache Dev Image CacheId = (TextureInfo_null, pTextureCache, []) \/
  exists C t, pTextureCache = Some C /\ CacheId <> "" /\
              CacheTextures C !! CacheId = Some t /\
              AddTexture_Find pTextureCache Dev Image CacheId
              = ({| pTexture := Some t; pAtlasSuballocation := None |}, pTextureCache, []).
Proof.
  intros Halive. unfold AddTexture_Find.
  destruct pTextureCache as [C|]; [|left; reflexivity].
  destruct (String.eqb_spec CacheId "") as [-> | Hne]; [left; reflexivity|].
  destruct (CacheTextures C !! CacheId) as [t|] eqn:Ec; [|left; reflexivity].
  destruct (Halive C CacheId t eq_refl Ec) as [o Ho]. rewrite Ho.
  right. exists C, t. auto.
Qed.

(** One [AddTexture] with a cache that has no stale entry *)
Lemma AddTexture_alive M pTextureCache Dev Image CacheId :
  CacheAlive pTextureCache Dev ->
  let '(M', C', Dev', _) :=
    AddTexture BaseColorTextureName M pTextureCache Dev Image CacheId in
  exists t,
    Textures M' = Textures M ++ [{| pTexture := Some t; pAtlasSuballocation := None |}] /\
    is_Some (DevTextures Dev' !! t) /\
    CacheAlive C' Dev' /\
    (forall t0, is_Some (DevTextures Dev !! t0) -> is_Some (DevTextures Dev' !! t0)) /\
    (forall C0 k t0, pTextureCache = Some C0 -> CacheTextures C0 !! k = Some t0 ->
       exists C1, C' = Some C1 /\ CacheTextures C1 !! k = Some t0) /\
    (CacheId <> "" -> forall C0, pTextureCache = Some C0 ->
       exists C1, C' = Some C1 /\ CacheTextures C1 !! CacheId = Some t) /\
    (forall C0, pTextureCache = Some C0 -> is_Some C') /\
    (pTextureCache = None -> C' = None /\ DevTextures Dev !! t = None).
Proof.
  intros Halive. unfold AddTexture.
  destruct (AddTexture_Find_alive pTextureCache Dev Image CacheId Halive)
    as [E | (C & t & -> & Hne & Hc & E)]; rewrite E.
  - destruct (AddTexture_Create_miss BaseColorTextureName M TextureInfo_null pTextureCache Dev
                Image CacheId) as (o & log & Ec & _); [reflexivity|].
    rewrite Ec. cbn [Textures set_Textures].
    set (t := fresh (dom (DevTextures Dev))).
    assert (Hfresh : DevTextures Dev !! t = None) by apply not_elem_of_dom, is_fresh.
    assert (Hmono : forall t0, is_Some (DevTextures Dev !! t0) ->
                               is_Some (DevTextures (WithTexture Dev t o) !! t0)).
    { intros t0 H0. unfold WithTexture. cbn. destruct (decide (t0 = t)) as [-> | N].
      - rewrite lookup_insert_eq. eauto.
      - rewrite lookup_insert_ne by congruence. exact H0. }
    exists t. split; [reflexivity|].
    split; [unfold WithTexture; cbn; rewrite lookup_insert_eq; eauto|].
    split.
    { intros C1 k t1 HC1 Hk. destruct pTextureCache as [C0|]; [|discriminate].
      cbn in HC1. injection HC1 as <-. cbn [CacheTextures] in Hk.
      destruct (CacheTextures C0 !! CacheId) eqn:E0.
      - apply Hmono. apply (Halive C0 k t1 eq_refl Hk).
      - destruct (decide (k = CacheId)) as [-> | N].
        + rewrite lookup_insert_eq in Hk. injection Hk as <-.
          unfold WithTexture. cbn. rewrite lookup_insert_eq. eauto.
        + rewrite lookup_insert_ne in Hk by congruence.
          apply Hmono. apply (Halive C0 k t1 eq_refl Hk). }
    split; [exact Hmono|].
    split.
    { intros C0 k t0 -> Hk. cbn. eexists. split; [reflexivity|]. cbn.
      destruct (CacheTextures C0 !! CacheId) eqn:E0; [exact Hk|].
      rewrite lookup_insert_ne; [exact Hk|]. intros <-. congruence. }
    split.
    { intros Hne C0 ->. cbn. eexists. split; [reflexivity|]. cbn.
      destruct (CacheTextures C0 !! CacheId) as [t0|] eqn:E0.
      - exfalso. unfold AddTexture_Find in E.
        destruct (String.eqb_spec CacheId ""); [contradiction|].
        rewrite E0 in E. destruct (Halive C0 CacheId t0 eq_refl E0) as [o0 Ho0].
        rewrite Ho0 in E. discriminate E.
      - apply lookup_insert_eq. }
    split; [intros C0 ->; cbn; eauto|].
    intros ->. split; [reflexivity | exact Hfresh].
  - rewrite AddTexture_Create_hit. cbn [Textures set_Textures].
    exists t. split; [reflexivity|].
    split; [apply (Halive C CacheId t eq_refl Hc)|].
    split; [exact Halive|]. split; [auto|].
    split; [intros C0 k t0 [= <-] Hk; eauto|].
    split; [intros _ C0 [= <-]; eauto|].
    split; [eauto | discriminate].
Qed.

Lemma LoadTexture_eta gltf_images BaseDir st x :
  let '(M, C, Dev, log) := st in
  let key := TextureKey SimplifyPath gltf_images BaseDir x in
  let Image := LoadTextures_Image IMAGE_FILE_FORMAT_of_int
                 (SourceImage gltf_images (tex_source x)) in
  let r := AddTexture BaseColorTextureName M C Dev Image key in
  LoadTexture BaseColorTextureName SimplifyPath IMAGE_FILE_FORMAT_of_int gltf_images BaseDir st x
  = (fst (fst (fst r)), snd (fst (fst r)), snd (fst r), log ++ snd r).
Proof.
  destruct st as [[[M C] Dev] log]. cbv zeta. unfold LoadTexture, TextureKey.
  destruct (AddTexture _ _ _ _ _ _) as [[[M' C'] Dev'] l]. reflexivity.
Qed.

(** The loop with a cache that has no stale entry: the entries appended,
    and the cache at the end, which holds the texture of every entry whose
    key is not empty *)
Lemma LoadTextures_fold gltf_images BaseDir l : forall M C Dev log,
  CacheAlive C Dev ->
  let '(M', C', Dev', _) :=
    fold_left (LoadTexture BaseColorTextureName SimplifyPath IMAGE_FILE_FORMAT_of_int
                           gltf_images BaseDir) l (M, C, Dev, log) in
  exists new,
    Textures M' = Textures M ++ map (fun t => {| pTexture := Some t;
                                                pAtlasSuballocation := None |}) new /\
    length new = length l /\
    Forall (fun t => is_Some (DevTextures Dev' !! t)) new /\
    CacheAlive C' Dev' /\
    (forall t0, is_Some (DevTextures Dev !! t0) -> is_Some (DevTextures Dev' !! t0)) /\
    (forall C0 k t0, C = Some C0 -> CacheTextures C0 !! k = Some t0 ->
       exists C1, C' = Some C1 /\ CacheTextures C1 !! k = Some t0) /\
    (forall C0 i x t, C = Some C0 -> l !! i = Some x -> new !! i = Some t ->
       TextureKey SimplifyPath gltf_images BaseDir x <> "" ->
       exists C1, C' = Some C1 /\
                  CacheTextures C1 !! TextureKey SimplifyPath gltf_images BaseDir x = Some t) /\
    (C = None -> C' = None /\ NoDup new /\
                 Forall (fun t => DevTextures Dev !! t = None) new).
Proof.
  induction l as [|x l IH]; intros M C Dev log Halive.
  - cbn [fold_left]. exists []. cbn. rewrite app_nil_r.
    split; [reflexivity|]. split; [reflexivity|]. split; [constructor|].
    split; [exact Halive|]. split; [auto|]. split; [eauto|].
    split; [intros C0 i x t _ Hi; rewrite lookup_nil in Hi; discriminate|].
    intros ->. split; [reflexivity|]. split; constructor.
  - cbn [fold_left].
    pose proof (LoadTexture_eta gltf_images BaseDir (M, C, Dev, log) x) as Heta.
    cbv zeta in Heta. rewrite Heta. clear Heta.
    set (key := TextureKey SimplifyPath gltf_images BaseDir x).
    set (Image := LoadTextures_Image IMAGE_FILE_FORMAT_of_int _).
    pose proof (AddTexture_alive M C Dev Image key Halive) as Hstep.
    destruct (AddTexture BaseColorTextureName M C Dev Image key) as [[[M1 C1] Dev1] l1].
    cbn [fst snd].
    destruct Hstep as (t & HT & Hlive & Halive1 & Hmono & Hkeep & Hkey & Hsome & Hnone).
    specialize (IH M1 C1 Dev1 (log ++ l1) Halive1).
    destruct (fold_left (LoadTexture _ _ _ _ _) l (M1, C1, Dev1, log ++ l1))
      as [[[M' C'] Dev'] log'].
    destruct IH as (new & HT' & Hlen & Hall & Halive' & Hmono' & Hkeep' & Hkeys' & Hnone').
    exists (t :: new).
    split; [rewrite HT', HT, <- app_assoc; reflexivity|].
    split; [cbn; rewrite Hlen; reflexivity|].
    split; [constructor; [apply Hmono'; exact Hlive | exact Hall]|].
    split; [exact Halive'|].
    split; [intros t0 H0; apply Hmono', Hmono, H0|].
    split.
    { intros C0 k t0 HC Hk. destruct (Hkeep C0 k t0 HC Hk) as (C2 & -> & Hk2).
      apply (Hkeep' C2 k t0 eq_refl Hk2). }
    split.
    { intros C0 i y t' HC Hi Hn Hne. destruct i as [|i].
      - cbn in Hi, Hn. injection Hi as <-. injection Hn as <-.
        destruct (Hkey Hne C0 HC) as (C2 & -> & Hk2).
        apply (Hkeep' C2 _ t eq_refl Hk2).
      - cbn in Hi, Hn. destruct (Hsome C0 HC) as [C2 ->].
        apply (Hkeys' C2 i y t' eq_refl Hi Hn Hne). }
    intros ->. destruct Hnone as [-> Hfresh]; [reflexivity|].
    destruct Hnone' as (-> & Hnd & Hf); [reflexivity|].
    split; [reflexivity|]. split.
    + constructor; [|exact Hnd]. intros Hin.
      rewrite Forall_forall in Hf. specialize (Hf t Hin).
      rewrite Hf in Hlive. destruct Hlive; discriminate.
    + constructor; [exact Hfresh|].
      eapply Forall_impl; [exact Hf|]. cbv beta. intros t' Ht'.
      destruct (DevTextures Dev !! t') eqn:E'; [|reflexivity].
      destruct (Hmono t') as [o' Ho']; [eauto|]. congruence.
Qed.


(** X16: without a resource manager ([pResourceMgr == nullptr]), with a
    texture cache that has no stale entry and a file whose textures name
    images that exist, [LoadTextures] appends one texture per texture of
    the file, in order, each of them in the store afterwards; and two
    textures of the file whose images have the same cache key (a key that
    is not empty) get the same texture. *)
Theorem LoadTextures_shares_by_key
    (M : Model) (C : TextureCacheType) (Dev : Device)
    (gltf_textures : list GltfTexture) (gltf_images : list GltfImage) (BaseDir : string) :
  SourcesInRange gltf_textures gltf_images ->
  CacheAlive (Some C) Dev ->
  let '(M', _, Dev', _) :=
    LoadTextures BaseColorTextureName SimplifyPath IMAGE_FILE_FORMAT_of_int
                 M (Some C) Dev gltf_textures gltf_images BaseDir in
  let key := TextureKey SimplifyPath gltf_images BaseDir in
  exists new,
    Textures M' = Textures M ++ map (fun t => {| pTexture := Some t;
                                                pAtlasSuballocation := None |}) new /\
    length new = length gltf_textures /\
    Forall (fun t => is_Some (DevTextures Dev' !! t)) new /\
    forall i j x y ti tj,
      gltf_textures !! i = Some x -> gltf_textures !! j = Some y ->
      key x = key y -> key x <> "" ->
      new !! i = Some ti -> new !! j = Some tj -> ti = tj.
Proof.
  intros _ Halive. unfold LoadTextures.
  pose proof (LoadTextures_fold gltf_images BaseDir gltf_textures M (Some C) Dev [] Halive) as H.
  destruct (fold_left (LoadTexture _ _ _ _ _) gltf_textures (M, Some C, Dev, []))
    as [[[M' C'] Dev'] log'].
  destruct H as (new & HT & Hlen & Hall & _ & _ & _ & Hkeys & _).
  exists new. split; [exact HT|]. split; [exact Hlen|]. split; [exact Hall|].
  intros i j x y ti tj Hi Hj Hk Hne Hti Htj.
  destruct (Hkeys C i x ti eq_refl Hi Hti Hne) as (C1 & E1 & H1).
  destruct (Hkeys C j y tj eq_refl Hj Htj) as (C2 & E2 & H2); [congruence|].
  rewrite E1 in E2. injection E2 as <-. rewrite <- Hk in H2. congruence.
Qed.

(** X17: without a resource manager ([pResourceMgr == nullptr]) and
    without a texture cache no two textures of the file share a texture,
    whatever their images: for a file whose textures name images that
    exist, [LoadTextures] creates one new texture per texture of the file,
    under handles that are pairwise different and were not in the
    store. *)
Theorem LoadTextures_without_cache_never_shares
    (M : Model) (Dev : Device)
    (gltf_textures : list GltfTexture) (gltf_images : list GltfImage) (BaseDir : string) :
  SourcesInRange gltf_textures gltf_images ->
  let '(M', C', Dev', _) :=
    LoadTextures BaseColorTextureName SimplifyPath IMAGE_FILE_FORMAT_of_int
                 M None Dev gltf_textures gltf_images BaseDir in
  exists new,
    Textures M' = Textures M ++ map (fun t => {| pTexture := Some t;
                                                pAtlasSuballocation := None |}) new /\
    length new = length gltf_textures /\
    NoDup new /\
    Forall (fun t => DevTextures Dev !! t = None /\ is_Some (DevTextures Dev' !! t)) new /\
    C' = None.
Proof.
  intros _. unfold LoadTextures.
  assert (Halive : CacheAlive None Dev) by (intros C k t HC; discriminate HC).
  pose proof (LoadTextures_fold gltf_images BaseDir gltf_textures M None Dev [] Halive) as H.
  destruct (fold_left (LoadTexture _ _ _ _ _) gltf_textures (M, None, Dev, []))
    as [[[M' C'] Dev'] log'].
  destruct H as (new & HT & Hlen & Hall & _ & _ & _ & _ & Hnone).
  destruct Hnone as (-> & Hnd & Hf); [reflexivity|].
  exists new. split; [exact HT|]. split; [exact Hlen|]. split; [exact Hnd|].
  split; [|reflexivity].
  rewrite Forall_forall in Hall, Hf. apply Forall_forall. intros t Ht. auto.
Qed.

End LoadTexturesFacts.

(** ** Nodes that no channel animates *)
Section StaticPoseFacts.
Context `{BM : BasicMath}.

Lemma fold_insert_indexed {A B} (g : nat -> B -> A) (l : list B) : forall k (L0 : list A),
  length L0 = k + length l ->
  forall i x, l !! i = Some x ->
    fold_left (fun L '(j, N) => <[j := g j N]> L) (combine (seq k (length l)) l) L0
      !! (k + i) = Some (g (k + i) x).
Proof.
  induction l as [|a l IH]; intros k L0 Hlen i x Hi; [rewrite lookup_nil in Hi; discriminate|].
  cbn [length seq combine fold_left]. cbn [length] in Hlen.
  destruct i as [|i].
  - cbn in Hi. injection Hi as ->. rewrite Nat.add_0_r.
    assert (Hkeep : forall (l' : list B) k' (L : list A) y,
              k < k' -> L !! k = Some y ->
              fold_left (fun L '(j, N) => <[j := g j N]> L)
                        (combine (seq k' (length l')) l') L !! k = Some y).
    { induction l' as [|b l' IH']; intros k' L y Hk HL; [exact HL|].
      cbn [length seq combine fold_left]. apply IH'; [lia|].
      rewrite list_lookup_insert_ne by lia. exact HL. }
    apply Hkeep; [lia|]. apply list_lookup_insert_eq. lia.
  - cbn in Hi. replace (k + S i) with (S k + i) by lia.
    apply IH; [rewrite length_insert; lia | exact Hi].
Qed.

Lemma fold_enumerate_indexed {A B} (g : nat -> B -> A) (l : list B) (L0 : list A) i x :
  length L0 = length l -> l !! i = Some x ->
  fold_left (fun L '(j, N) => <[j := g j N]> L) (enumerate l) L0 !! i = Some (g i x).
Proof.
  intros Hlen Hi. unfold enumerate.
  apply (fold_insert_indexed g l 0 L0 Hlen i x Hi).
Qed.

Lemma ApplyChannel_length animation time st channel :
  length (fst (ApplyChannel animation time st channel)) = length (fst st).
Proof.
  destruct st as [Anims log]. unfold ApplyChannel.
  destruct (_ <? _); [reflexivity|].
  destruct (FindKeyframe _ _); [|reflexivity].
  destruct (PathType channel); cbn [fst]; rewrite ?length_alter; reflexivity.
Qed.

(** A channel for another node, or one that does not write, leaves the
    pose of node [i] alone *)
Lemma ApplyChannel_other animation time st channel i :
  ChannelNodeIndex channel <> i \/ ChannelWrites animation time channel = false ->
  fst (ApplyChannel animation time st channel) !! i = fst st !! i.
Proof.
  destruct st as [Anims log]. unfold ApplyChannel, ChannelWrites. cbv zeta.
  destruct (_ <? _); [reflexivity|].
  destruct (FindKeyframe _ _) as [k|]; [|reflexivity].
  rewrite bool_decide_eq_true_2 by eauto.
  destruct (PathType channel); cbn [fst negb andb]; try reflexivity;
    (intros [H | H]; [apply list_lookup_alter_ne; exact H | discriminate H]).
Qed.

Lemma fold_ApplyChannel_other animation time channels i : forall st,
  (forall ch, In ch channels -> ChannelNodeIndex ch = i ->
              ChannelWrites animation time ch = false) ->
  fst (fold_left (ApplyChannel animation time) channels st) !! i = fst st !! i.
Proof.
  induction channels as [|ch channels IH]; intros st H; [reflexivity|].
  cbn [fold_left]. rewrite IH by (intros c Hc; apply H; right; exact Hc).
  apply ApplyChannel_other.
  destruct (decide (ChannelNodeIndex ch = i)) as [E | N]; [right | left; exact N].
  apply H; [left; reflexivity | exact E].
Qed.

Lemma fold_ApplyChannel_length animation time channels : forall st,
  length (fst (fold_left (ApplyChannel animation time) channels st)) = length (fst st).
Proof.
  induction channels as [|ch channels IH]; intros st; [reflexivity|].
  cbn [fold_left]. rewrite IH. apply ApplyChannel_length.
Qed.

(** The pose and the local matrix that [UpdateAnimation] gives a node that
    no channel writes *)
Lemma UpdateAnimation_static M index animation time T i N :
  Animations M !! index = Some animation ->
  length (NodeLocalMatrices T) = length (LinearNodes M) ->
  LinearNodes M !! i = Some N ->
  (forall ch, In ch (Channels animation) -> ChannelNodeIndex ch = i ->
     ChannelWrites animation (clamp time (AnimStart animation) (AnimEnd animation)) ch = false) ->
  NodeAnimations (fst (UpdateAnimation M index time T)) !! i = Some (StaticPose N) /\
  NodeLocalMatrices (fst (UpdateAnimation M index time T)) !! i
    = Some (ComputeNodeLocalMatrix N).
Proof.
  intros Ha Hlen Hi Hch. unfold UpdateAnimation. rewrite Ha. cbv zeta.
  set (time' := clamp time (AnimStart animation) (AnimEnd animation)) in *.
  set (Anims0 := if Nat.eqb _ _ then _ else _).
  assert (Hlen0 : length Anims0 = length (LinearNodes M)).
  { unfold Anims0. destruct (Nat.eqb_spec (length (NodeAnimations T)) (length (LinearNodes M)));
      [assumption | apply length_resize]. }
  rewrite (fold_enumerate_map StaticPose (LinearNodes M) Anims0 Hlen0).
  pose proof (fold_ApplyChannel_other animation time' (Channels animation) i
                (map StaticPose (LinearNodes M), []) Hch) as Hpose.
  destruct (fold_left (ApplyChannel animation time') (Channels animation) _)
    as [Anims2 log] eqn:E2.
  cbn [fst] in Hpose. rewrite list_lookup_fmap, Hi in Hpose. cbn in Hpose.
  cbn [fst NodeLocalMatrices NodeAnimations set_NodeLocalMatrices set_NodeAnimations].
  split; [exact Hpose|].
  rewrite (fold_enumerate_indexed
             (fun j N0 => ComputeNodeLocalMatrix4
                            (TDScale (nth j Anims2 TransformData_default))
                            (TDRotation (nth j Anims2 TransformData_default))
                            (TDTranslation (nth j Anims2 TransformData_default))
                            (Matrix N0))
             (LinearNodes M) (NodeLocalMatrices T) i N Hlen Hi).
  rewrite (nth_lookup_Some _ _ _ _ Hpose). reflexivity.
Qed.

End StaticPoseFacts.

Section StaticPoseClaims.
Context `{BM : BasicMath}.

Lemma fold_UpdateJoints_animations nodes : forall T,
  NodeAnimations (fold_left UpdateJoints nodes T) = NodeAnimations T.
Proof.
  induction nodes as [|N nodes IH]; intros T; [reflexivity|].
  cbn [fold_left]. rewrite IH. unfold UpdateJoints.
  destruct (pMesh N); [|reflexivity]. destruct (pSkin N); reflexivity.
Qed.

(** The later stages change neither the local matrices nor the poses *)
Lemma ComputeTransforms_poses M T RootTransform AnimationIndex Time :
  let T' := fst (ComputeTransforms M T RootTransform AnimationIndex Time) in
  NodeLocalMatrices T' = NodeLocalMatrices (AfterPoses M T AnimationIndex Time) /\
  NodeAnimations T' = NodeAnimations (AfterPoses M T AnimationIndex Time).
Proof.
  cbv zeta. unfold ComputeTransforms, AfterPoses. cbv zeta.
  set (T1 := set_NodeLocalMatrices _ _).
  assert (H : forall (T2 : ModelTransforms) (log : list Diag),
            let T3 := fold_left (fun T' pRoot =>
                                   UpdateNodeGlobalTransform pRoot (RefValue RootTransform) T')
                                (RootNodes M) T2 in
            let T4 := match Skins T3 with
                      | [] => T3
                      | _ => fold_left UpdateJoints (LinearNodes M) T3
                      end in
            NodeLocalMatrices T4 = NodeLocalMatrices T2 /\
            NodeAnimations T4 = NodeAnimations T2).
  { intros T2 log. cbv zeta.
    destruct (fold_roots_shape (RootNodes M) (RefValue RootTransform) T2)
      as (HL & _ & _ & HA).
    destruct (Skins _).
    - split; [exact HL | exact HA].
    - destruct (fold_UpdateJoints_matrices (LinearNodes M)
                  (fold_left (fun T' pRoot =>
                                UpdateNodeGlobalTransform pRoot (RefValue RootTransform) T')
                             (RootNodes M) T2)) as [HL' _].
      rewrite HL', fold_UpdateJoints_animations. split; [exact HL | exact HA]. }
  destruct (0 <=? AnimationIndex)%Z.
  - destruct (UpdateAnimation M _ Time _) as [T2 log]. cbn [fst]. apply (H T2 log).
  - cbn [fst]. apply (H _ []).
Qed.

Lemma ComputeTransforms_static_node
    (M : Model) (T : ModelTransforms) (RootTransform : float4x4)
    (AnimationIndex : Z) (animation : Animation) (Time : F32.float) (i : nat) (N : Node) :
  (0 <= AnimationIndex)%Z ->
  Animations M !! Z.to_nat AnimationIndex = Some animation ->
  LinearNodes M !! i = Some N ->
  (forall ch, In ch (Channels animation) -> ChannelNodeIndex ch = i ->
     ChannelWrites animation (clamp Time (AnimStart animation) (AnimEnd animation)) ch
     = false) ->
  let T' := fst (ComputeTransforms M T RootTransform AnimationIndex Time) in
  NodeAnimations T' !! i = Some (StaticPose N) /\
  NodeLocalMatrices T' !! i = Some (ComputeNodeLocalMatrix N).
Proof.
  intros Hidx Ha Hi Hch. cbv zeta.
  destruct (ComputeTransforms_poses M T RootTransform AnimationIndex Time) as [HL HA].
  rewrite HL, HA. unfold AfterPoses. cbv zeta.
  apply Z.leb_le in Hidx. rewrite Hidx.
  apply (UpdateAnimation_static M (Z.to_nat AnimationIndex) animation Time _ i N Ha);
    [cbn; apply length_resize | exact Hi | exact Hch].
Qed.

Lemma ComputeTransforms_static_locals
    (M : Model) (T : ModelTransforms) (RootTransform : float4x4) (Time : F32.float) :
  NodeLocalMatrices (fst (ComputeTransforms M T RootTransform (-1) Time))
  = map ComputeNodeLocalMatrix (LinearNodes M).
Proof.
  destruct (ComputeTransforms_poses M T RootTransform (-1) Time) as [HL _].
  rewrite HL. unfold AfterPoses. cbv zeta.
  cbn [Z.leb Z.compare NodeLocalMatrices set_NodeLocalMatrices set_Skins
       set_NodeGlobalMatrices].
  apply fold_enumerate_map. apply length_resize.
Qed.

(** X18: a node that no channel of the animation writes keeps its static
    pose: after [ComputeTransforms] with that animation its entry of
    [NodeAnimations] is the node's own translation, rotation and scale, and
    its local matrix is the one computed without any animation. *)
Theorem unanimated_node_keeps_static_pose
    (M : Model) (T : ModelTransforms) (RootTransform : float4x4)
    (AnimationIndex : Z) (animation : Animation) (Time : F32.float) (i : nat) (N : Node) :
  (0 <= AnimationIndex)%Z ->
  Animations M !! Z.to_nat AnimationIndex = Some animation ->
  LinearNodes M !! i = Some N ->
  (forall ch, In ch (Channels animation) -> ChannelNodeIndex ch = i ->
     ChannelWrites animation (clamp Time (AnimStart animation) (AnimEnd animation)) ch
     = false) ->
  let T' := fst (ComputeTransforms M T RootTransform AnimationIndex Time) in
  let Tstatic := fst (ComputeTransforms M T RootTransform (-1) Time) in
  NodeAnimations T' !! i = Some (StaticPose N) /\
  NodeLocalMatrices T' !! i = NodeLocalMatrices Tstatic !! i.
Proof.
  intros Hidx Ha Hi Hch. cbv zeta.
  destruct (ComputeTransforms_static_node M T RootTransform AnimationIndex animation
              Time i N Hidx Ha Hi Hch) as [Hp Hl].
  split; [exact Hp|].
  rewrite Hl, ComputeTransforms_static_locals, list_lookup_fmap, Hi. reflexivity.
Qed.

Lemma FindKeyframe_single (t0 time : F32.float) : FindKeyframe [t0] time = None.
Proof. reflexivity. Qed.

Lemma UpdateAnimation_poses_length M index animation time T :
  Animations M !! index = Some animation ->
  length (NodeAnimations (fst (UpdateAnimation M index time T))) = length (LinearNodes M).
Proof.
  intros Ha. unfold UpdateAnimation. rewrite Ha. cbv zeta.
  set (Anims0 := if Nat.eqb _ _ then _ else _).
  assert (Hlen0 : length Anims0 = length (LinearNodes M)).
  { unfold Anims0. destruct (Nat.eqb_spec (length (NodeAnimations T)) (length (LinearNodes M)));
      [assumption | apply length_resize]. }
  rewrite (fold_enumerate_map StaticPose (LinearNodes M) Anims0 Hlen0).
  pose proof (fold_ApplyChannel_length animation
                (clamp time (AnimStart animation) (AnimEnd animation))
                (Channels animation) (map StaticPose (LinearNodes M), [])) as HL.
  destruct (fold_left _ (Channels animation) _) as [Anims2 log].
  cbn [fst NodeAnimations set_NodeAnimations set_NodeLocalMatrices] in *.
  rewrite HL. apply length_map.
Qed.

(** X19: an animation whose channels all use samplers with a single
    keyframe animates nothing, whatever the time: the scan over pairs of
    keyframes has no pair to visit, so every node keeps its static pose and
    the local matrices are those computed without any animation. *)
Theorem single_keyframe_animation_is_static
    (M : Model) (T : ModelTransforms) (RootTransform : float4x4)
    (AnimationIndex : Z) (animation : Animation) (Time : F32.float) :
  (0 <= AnimationIndex)%Z ->
  Animations M !! Z.to_nat AnimationIndex = Some animation ->
  (forall ch, In ch (Channels animation) ->
     exists sampler, Samplers animation !! SamplerIndex ch = Some sampler /\
                     length (Inputs sampler) = 1) ->
  let T' := fst (ComputeTransforms M T RootTransform AnimationIndex Time) in
  let Tstatic := fst (ComputeTransforms M T RootTransform (-1) Time) in
  NodeAnimations T' = map StaticPose (LinearNodes M) /\
  NodeLocalMatrices T' = NodeLocalMatrices Tstatic.
Proof.
  intros Hidx Ha Hone. cbv zeta.
  assert (Hquiet : forall i ch, In ch (Channels animation) -> ChannelNodeIndex ch = i ->
            ChannelWrites animation (clamp Time (AnimStart animation) (AnimEnd animation)) ch
            = false).
  { intros i ch Hch _. destruct (Hone ch Hch) as (sampler & Hs & Hl).
    unfold ChannelWrites. cbv zeta. rewrite (nth_lookup_Some _ _ _ _ Hs).
    destruct (Inputs sampler) as [|t0 [|t1 rest]]; try discriminate Hl.
    rewrite FindKeyframe_single. rewrite bool_decide_eq_false_2 by (intros [x Hx]; discriminate).
    rewrite andb_false_r. reflexivity. }
  pose proof (ComputeTransforms_lengths M T RootTransform AnimationIndex Time) as [HlenL _].
  pose proof (ComputeTransforms_lengths M T RootTransform (-1) Time) as [HlenS _].
  assert (HlenA : length (NodeAnimations
                            (fst (ComputeTransforms M T RootTransform AnimationIndex Time)))
                  = length (LinearNodes M)).
  { destruct (ComputeTransforms_poses M T RootTransform AnimationIndex Time) as [_ HA].
    rewrite HA. unfold AfterPoses. cbv zeta.
    apply Z.leb_le in Hidx. rewrite Hidx.
    apply UpdateAnimation_poses_length with (animation := animation). exact Ha. }
  rewrite ComputeTransforms_static_locals.
  split; apply list_eq; intros i; rewrite list_lookup_fmap;
    (destruct (LinearNodes M !! i) as [N|] eqn:Hi;
     [ destruct (ComputeTransforms_static_node M T RootTransform AnimationIndex
                   animation Time i N Hidx Ha Hi (Hquiet i)) as [Hp Hl];
       rewrite ?Hp, ?Hl; reflexivity
     | cbn; apply lookup_ge_None; apply lookup_ge_None in Hi; lia ]).
Qed.

(** X20: the global pass writes only the nodes below the root nodes: a
    node index that is not reached from a root keeps the global matrix it
    had (the zero matrix if the array has just been extended to it). *)
Theorem unreached_nodes_keep_global_matrix
    (M : Model) (T : ModelTransforms) (RootTransform : float4x4)
    (AnimationIndex : Z) (Time : F32.float) (i : nat) :
  ~ In i (flat_map Preorder (RootNodes M)) ->
  let T' := fst (ComputeTransforms M T RootTransform AnimationIndex Time) in
  nth i (NodeGlobalMatrices T') float4x4_default
  = nth i (resize (length (LinearNodes M)) float4x4_default (NodeGlobalMatrices T))
        float4x4_default.
Proof.
  intros Hout. cbv zeta. unfold ComputeTransforms. cbv zeta.
  set (T1 := set_NodeLocalMatrices _ _).
  assert (H : forall (T2 : ModelTransforms),
            NodeGlobalMatrices T2
            = resize (length (LinearNodes M)) float4x4_default (NodeGlobalMatrices T) ->
            let T3 := fold_left (fun T' pRoot =>
                                   UpdateNodeGlobalTransform pRoot (RefValue RootTransform) T')
                                (RootNodes M) T2 in
            let T4 := match Skins T3 with
                      | [] => T3
                      | _ => fold_left UpdateJoints (LinearNodes M) T3
                      end in
            nth i (NodeGlobalMatrices T4) float4x4_default
            = nth i (resize (length (LinearNodes M)) float4x4_default (NodeGlobalMatrices T))
                  float4x4_default).
  { intros T2 HG. cbv zeta. rewrite <- HG.
    assert (H3 : nth i (NodeGlobalMatrices
                          (fold_left (fun T' pRoot =>
                                        UpdateNodeGlobalTransform pRoot (RefValue RootTransform) T')
                                     (RootNodes M) T2)) float4x4_default
                 = nth i (NodeGlobalMatrices T2) float4x4_default).
    { rewrite roots_pass_Edges. apply writes_other. rewrite forest_edges_Preorder. exact Hout. }
    destruct (Skins _); [exact H3|].
    destruct (fold_UpdateJoints_matrices (LinearNodes M)
                (fold_left (fun T' pRoot =>
                              UpdateNodeGlobalTransform pRoot (RefValue RootTransform) T')
                           (RootNodes M) T2)) as [_ HG'].
    rewrite HG'. exact H3. }
  destruct (0 <=? AnimationIndex)%Z.
  - pose proof (UpdateAnimation_lengths M (Z.to_nat AnimationIndex) Time
                  (set_Skins T1 (resize (SkinTransformsCount M) SkinTransforms_default
                                        (Skins T1)))) as (_ & HG & _).
    destruct (UpdateAnimation M _ Time _) as [T2 log]. cbn [fst] in *.
    apply H. rewrite HG. reflexivity.
  - cbn [fst]. apply H. reflexivity.
Qed.

End StaticPoseClaims.

(** ** Joint matrices *)
Section JointFacts.
Context `{BM : BasicMath}.

Lemma UpdateJoints_skins_length T N : length (Skins (UpdateJoints T N)) = length (Skins T).
Proof.
  unfold UpdateJoints. destruct (pMesh N); [|reflexivity]. destruct (pSkin N); [|reflexivity].
  cbn. apply length_alter.
Qed.

Lemma fold_UpdateJoints_skins_length nodes : forall T,
  length (Skins (fold_left UpdateJoints nodes T)) = length (Skins T).
Proof.
  induction nodes as [|N nodes IH]; intros T; [reflexivity|].
  cbn [fold_left]. rewrite IH. apply UpdateJoints_skins_length.
Qed.

(** Nodes that do not use slot [idx] leave it alone *)
Lemma fold_UpdateJoints_other nodes idx : forall T,
  (forall N', In N' nodes -> is_Some (pMesh N') -> is_Some (pSkin N') ->
              SkinTransformsIndex N' <> idx) ->
  Skins (fold_left UpdateJoints nodes T) !! idx = Skins T !! idx.
Proof.
  induction nodes as [|N nodes IH]; intros T H; [reflexivity|].
  cbn [fold_left]. rewrite IH by (intros N' HN'; apply H; right; exact HN').
  unfold UpdateJoints.
  destruct (pMesh N) as [mesh|] eqn:Em; [|reflexivity].
  destruct (pSkin N) as [skin|] eqn:Es; [|reflexivity].
  cbn. apply list_lookup_alter_ne. apply H; [left; reflexivity | rewrite Em | rewrite Es]; eauto.
Qed.

Lemma ComputeJointMatrices_spec T node skin JM :
  let JM' := ComputeJointMatrices T node skin JM in
  length JM' = length (Joints skin) /\
  forall j joint, Joints skin !! j = Some joint ->
    JM' !! j = Some (nth j (InverseBindMatrices skin) float4x4_default
                     *m nth joint (NodeGlobalMatrices T) float4x4_default
                     *m float4x4_Inverse
                          (nth (Index node) (NodeGlobalMatrices T) float4x4_default)).
Proof.
  cbv zeta. unfold ComputeJointMatrices. cbv zeta.
  set (JM0 := if Nat.eqb _ _ then _ else _).
  assert (Hlen0 : length JM0 = length (Joints skin)).
  { unfold JM0. destruct (Nat.eqb_spec (length JM) (length (Joints skin)));
      [assumption | apply length_resize]. }
  split.
  - rewrite (fold_insert_length
               (fun (_ : list float4x4) i JointNodeIndex =>
                  nth i (InverseBindMatrices skin) float4x4_default
                  *m nth JointNodeIndex (NodeGlobalMatrices T) float4x4_default
                  *m float4x4_Inverse
                       (nth (Index node) (NodeGlobalMatrices T) float4x4_default))).
    exact Hlen0.
  - intros j joint Hj.
    apply (fold_enumerate_indexed
             (fun i JointNodeIndex =>
                nth i (InverseBindMatrices skin) float4x4_default
                *m nth JointNodeIndex (NodeGlobalMatrices T) float4x4_default
                *m float4x4_Inverse
                     (nth (Index node) (NodeGlobalMatrices T) float4x4_default))
             (Joints skin) JM0 j joint Hlen0 Hj).
Qed.


(** The skins before the joint matrices are updated *)
Lemma ComputeTransforms_skins M T RootTransform AnimationIndex Time :
  let T' := fst (ComputeTransforms M T RootTransform AnimationIndex Time) in
  let S0 := if (0 <=? AnimationIndex)%Z
            then resize (SkinTransformsCount M) SkinTransforms_default (Skins T) else [] in
  exists T3,
    Skins T3 = S0 /\
    NodeGlobalMatrices T3 = NodeGlobalMatrices T' /\
    T' = match S0 with
         | [] => T3
         | _ => fold_left UpdateJoints (LinearNodes M) T3
         end.
Proof.
  cbv zeta. unfold ComputeTransforms. cbv zeta.
  set (T1 := set_NodeLocalMatrices _ _).
  assert (H : forall (T2 : ModelTransforms) S0,
            Skins T2 = S0 ->
            let T3 := fold_left (fun T' pRoot =>
                                   UpdateNodeGlobalTransform pRoot (RefValue RootTransform) T')
                                (RootNodes M) T2 in
            let T4 := match Skins T3 with
                      | [] => T3
                      | _ => fold_left UpdateJoints (LinearNodes M) T3
                      end in
            exists T3', Skins T3' = S0 /\
                        NodeGlobalMatrices T3' = NodeGlobalMatrices T4 /\
                        T4 = match S0 with
                             | [] => T3'
                             | _ => fold_left UpdateJoints (LinearNodes M) T3'
                             end).
  { intros T2 S0 HS. cbv zeta.
    destruct (fold_roots_shape (RootNodes M) (RefValue RootTransform) T2)
      as (_ & _ & HS3 & _).
    set (T3 := fold_left _ (RootNodes M) T2) in *.
    exists T3. rewrite HS3, HS. split; [reflexivity|]. split; [|reflexivity].
    destruct S0; [reflexivity|].
    destruct (fold_UpdateJoints_matrices (LinearNodes M) T3) as [_ HG]. rewrite HG. reflexivity. }
  destruct (0 <=? AnimationIndex)%Z.
  - pose proof (UpdateAnimation_lengths M (Z.to_nat AnimationIndex) Time
                  (set_Skins T1 (resize (SkinTransformsCount M) SkinTransforms_default
                                        (Skins T1)))) as (_ & _ & HS).
    destruct (UpdateAnimation M _ Time _) as [T2 log]. cbn [fst] in *.
    apply H. rewrite HS. reflexivity.
  - cbn [fst]. apply H. reflexivity.
Qed.

(** X21: the array of skins follows the animation index: with an index
    below 0 it is emptied, so that no joint matrix is computed, even for
    skinned meshes; with any other index (one without animation too) it
    has [SkinTransformsCount] elements. *)
Theorem skins_follow_the_animation_index
    (M : Model) (T : ModelTransforms) (RootTransform : float4x4)
    (AnimationIndex : Z) (Time : F32.float) :
  let T' := fst (ComputeTransforms M T RootTransform AnimationIndex Time) in
  ((AnimationIndex < 0)%Z -> Skins T' = []) /\
  ((0 <= AnimationIndex)%Z -> length (Skins T') = SkinTransformsCount M).
Proof.
  cbv zeta.
  destruct (ComputeTransforms_skins M T RootTransform AnimationIndex Time)
    as (T3 & HS & _ & E).
  cbv zeta in HS, E. split; intros Hidx.
  - apply Z.leb_gt in Hidx. rewrite Hidx in HS, E. rewrite E. exact HS.
  - apply Z.leb_le in Hidx. rewrite Hidx in HS, E. rewrite E.
    destruct (resize (SkinTransformsCount M) SkinTransforms_default (Skins T)) eqn:Er.
    + rewrite HS. rewrite <- Er. apply length_resize.
    + rewrite fold_UpdateJoints_skins_length, HS, <- Er. apply length_resize.
Qed.

(** X22: the joint matrices of a skinned mesh.  With an animation index
    of 0 or more, for a node with a mesh and a skin whose slot
    [SkinTransformsIndex] is in range and is not used by a later node of
    [LinearNodes], the slot holds one matrix per joint, and matrix [j] is
    [InverseBindMatrices[j] * Global[joint j] * Inverse(Global[node])]
    with the global matrices of the result. *)
Theorem joint_matrices_formula
    (M : Model) (T : ModelTransforms) (RootTransform : float4x4)
    (AnimationIndex : Z) (Time : F32.float)
    (l1 l2 : list Node) (N : Node) (mesh : Mesh) (skin : Skin) :
  (0 <= AnimationIndex)%Z ->
  LinearNodes M = l1 ++ N :: l2 ->
  pMesh N = Some mesh -> pSkin N = Some skin ->
  SkinTransformsIndex N < SkinTransformsCount M ->
  (forall N', In N' l2 -> is_Some (pMesh N') -> is_Some (pSkin N') ->
              SkinTransformsIndex N' <> SkinTransformsIndex N) ->
  let T' := fst (ComputeTransforms M T RootTransform AnimationIndex Time) in
  let Global i := nth i (NodeGlobalMatrices T') float4x4_default in
  exists JM,
    Skins T' !! SkinTransformsIndex N = Some {| JointMatrices := JM |} /\
    length JM = length (Joints skin) /\
    forall j joint, Joints skin !! j = Some joint ->
      JM !! j = Some (nth j (InverseBindMatrices skin) float4x4_default
                      *m Global joint *m float4x4_Inverse (Global (Index N))).
Proof.
  intros Hidx HL Hm Hs Hrange Hlast. cbv zeta.
  destruct (ComputeTransforms_skins M T RootTransform AnimationIndex Time)
    as (T3 & HS & HG & E).
  cbv zeta in HS, E. apply Z.leb_le in Hidx. rewrite Hidx in HS, E.
  set (T' := fst (ComputeTransforms M T RootTransform AnimationIndex Time)) in *.
  assert (Hlen3 : length (Skins T3) = SkinTransformsCount M)
    by (rewrite HS; apply length_resize).
  destruct (resize (SkinTransformsCount M) SkinTransforms_default (Skins T)) as [|S0 Ss] eqn:Er.
  { rewrite HS in Hlen3. cbn in Hlen3. lia. }
  set (Ta := fold_left UpdateJoints l1 T3).
  assert (HGa : NodeGlobalMatrices Ta = NodeGlobalMatrices T').
  { unfold Ta. destruct (fold_UpdateJoints_matrices l1 T3) as [_ H]. rewrite H. exact HG. }
  assert (Hlena : length (Skins Ta) = SkinTransformsCount M)
    by (unfold Ta; rewrite fold_UpdateJoints_skins_length; exact Hlen3).
  destruct (lookup_lt_is_Some_2 (Skins Ta) (SkinTransformsIndex N)) as [Sa HSa]; [lia|].
  destruct (ComputeJointMatrices_spec Ta N skin (JointMatrices Sa)) as [HlenJ Hjoint].
  exists (ComputeJointMatrices Ta N skin (JointMatrices Sa)).
  split; [|split; [exact HlenJ|]].
  - replace (Skins T') with (Skins (fold_left UpdateJoints l2 (UpdateJoints Ta N))).
    + rewrite fold_UpdateJoints_other by exact Hlast.
      unfold UpdateJoints. rewrite Hm, Hs. cbn [Skins set_Skins].
      rewrite list_lookup_alter_eq, HSa. reflexivity.
    + rewrite E, HL, fold_left_app. reflexivity.
  - intros j joint Hj. rewrite (Hjoint j joint Hj), HGa. reflexivity.
Qed.

End JointFacts.

(** ** The bounding box *)
Section MinMaxFacts.

Lemma std_min_acc a b :
  F32.is_nan a = false ->
  F32.is_nan (F32.std_min a b) = false /\
  F32.leb (F32.std_min a b) a = true /\
  (F32.is_nan b = false -> F32.leb (F32.std_min a b) b = true).
Proof.
  intros Ha. unfold F32.std_min. destruct (F32.ltb b a) eqn:E.
  - split; [clear - E; f32_order|]. split; [clear - E; f32_order|].
    intros Hb. clear - Hb; f32_order.
  - split; [exact Ha|]. split; [clear - Ha; f32_order|].
    intros Hb. clear - E Ha Hb; f32_order.
Qed.

Lemma std_max_acc a b :
  F32.is_nan a = false ->
  F32.is_nan (F32.std_max a b) = false /\
  F32.leb a (F32.std_max a b) = true /\
  (F32.is_nan b = false -> F32.leb b (F32.std_max a b) = true).
Proof.
  intros Ha. unfold F32.std_max. destruct (F32.ltb a b) eqn:E.
  - split; [clear - E; f32_order|]. split; [clear - E; f32_order|].
    intros Hb. clear - Hb; f32_order.
  - split; [exact Ha|]. split; [clear - Ha; f32_order|].
    intros Hb. clear - E Ha Hb; f32_order.
Qed.


Lemma float3_has_nan_false a :
  float3_has_nan a = false <->
  F32.is_nan (f3x a) = false /\ F32.is_nan (f3y a) = false /\ F32.is_nan (f3z a) = false.
Proof.
  unfold float3_has_nan. rewrite !orb_false_iff. tauto.
Qed.

Lemma float3_leb_true a b :
  float3_leb a b = true <->
  F32.leb (f3x a) (f3x b) = true /\ F32.leb (f3y a) (f3y b) = true /\
  F32.leb (f3z a) (f3z b) = true.
Proof.
  unfold float3_leb. rewrite !andb_true_iff. tauto.
Qed.

Lemma float3_leb_trans a b c :
  float3_leb a b = true -> float3_leb b c = true -> float3_leb a c = true.
Proof.
  rewrite !float3_leb_true. intros (H1 & H2 & H3) (G1 & G2 & G3).
  split; [|split]; eapply F32Facts.leb_trans; eassumption.
Qed.

Lemma vmin_acc a b :
  float3_has_nan a = false ->
  float3_has_nan (Ref.vmin a b) = false /\
  float3_leb (Ref.vmin a b) a = true /\
  (float3_has_nan b = false -> float3_leb (Ref.vmin a b) b = true).
Proof.
  rewrite !float3_has_nan_false, !float3_leb_true. intros (Hx & Hy & Hz). cbn.
  destruct (std_min_acc (f3x a) (f3x b) Hx) as (X1 & X2 & X3).
  destruct (std_min_acc (f3y a) (f3y b) Hy) as (Y1 & Y2 & Y3).
  destruct (std_min_acc (f3z a) (f3z b) Hz) as (Z1 & Z2 & Z3).
  split; [auto|]. split; [auto|]. intros (Bx & By & Bz). auto.
Qed.

Lemma vmax_acc a b :
  float3_has_nan a = false ->
  float3_has_nan (Ref.vmax a b) = false /\
  float3_leb a (Ref.vmax a b) = true /\
  (float3_has_nan b = false -> float3_leb b (Ref.vmax a b) = true).
Proof.
  rewrite !float3_has_nan_false, !float3_leb_true. intros (Hx & Hy & Hz). cbn.
  destruct (std_max_acc (f3x a) (f3x b) Hx) as (X1 & X2 & X3).
  destruct (std_max_acc (f3y a) (f3y b) Hy) as (Y1 & Y2 & Y3).
  destruct (std_max_acc (f3z a) (f3z b) Hz) as (Z1 & Z2 & Z3).
  split; [auto|]. split; [auto|]. intros (Bx & By & Bz). auto.
Qed.

Lemma float3_leb_refl a : float3_has_nan a = false -> float3_leb a a = true.
Proof.
  rewrite float3_has_nan_false, float3_leb_true. intros (Hx & Hy & Hz).
  auto using F32Facts.leb_refl.
Qed.

End MinMaxFacts.

Section BoundingBoxFacts.
Context `{BM : BasicMath}.
Hypothesis float3_min_std : forall a b, float3_min a b = Ref.vmin a b.
Hypothesis float3_max_std : forall a b, float3_max a b = Ref.vmax a b.

(** The body of the loop of [ComputeBoundingBox] *)
Abbreviation grow G :=
  (fun (ModelAABB : BoundBox) '(i, N) =>
     match pMesh N with
     | Some mesh =>
         if MeshIsValidBB mesh then
           let GlobalMatrix := nth i G float4x4_default in
           let NodeAABB := BoundBox_Transform (MeshBB mesh) GlobalMatrix in
           {| BBMin := float3_min (BBMin ModelAABB) (BBMin NodeAABB);
              BBMax := float3_max (BBMax ModelAABB) (BBMax NodeAABB) |}
         else ModelAABB
     | None => ModelAABB
     end).

Lemma grow_fold G (l : list (nat * Node)) : forall A,
  float3_has_nan (BBMin A) = false -> float3_has_nan (BBMax A) = false ->
  let A' := fold_left (grow G) l A in
  float3_has_nan (BBMin A') = false /\ float3_has_nan (BBMax A') = false /\
  float3_leb (BBMin A') (BBMin A) = true /\ float3_leb (BBMax A) (BBMax A') = true /\
  forall i N mesh, In (i, N) l -> pMesh N = Some mesh -> MeshIsValidBB mesh = true ->
    let NodeAABB := BoundBox_Transform (MeshBB mesh) (nth i G float4x4_default) in
    float3_has_nan (BBMin NodeAABB) = false -> float3_has_nan (BBMax NodeAABB) = false ->
    float3_leb (BBMin A') (BBMin NodeAABB) = true /\
    float3_leb (BBMax NodeAABB) (BBMax A') = true.
Proof.
  induction l as [|[i N] l IH]; intros A Hmin Hmax; cbv zeta.
  - cbn [fold_left]. split; [exact Hmin|]. split; [exact Hmax|].
    split; [apply float3_leb_refl; exact Hmin|]. split; [apply float3_leb_refl; exact Hmax|].
    intros i N mesh [].
  - cbn [fold_left].
    set (A1 := grow G A (i, N)).
    assert (H1 : float3_has_nan (BBMin A1) = false /\ float3_has_nan (BBMax A1) = false /\
                 float3_leb (BBMin A1) (BBMin A) = true /\
                 float3_leb (BBMax A) (BBMax A1) = true /\
                 forall mesh, pMesh N = Some mesh -> MeshIsValidBB mesh = true ->
                   let NodeAABB := BoundBox_Transform (MeshBB mesh) (nth i G float4x4_default) in
                   float3_has_nan (BBMin NodeAABB) = false ->
                   float3_has_nan (BBMax NodeAABB) = false ->
                   float3_leb (BBMin A1) (BBMin NodeAABB) = true /\
                   float3_leb (BBMax NodeAABB) (BBMax A1) = true).
    { unfold A1. cbv beta iota zeta.
      destruct (pMesh N) as [mesh|].
      - destruct (MeshIsValidBB mesh) eqn:Ev.
        + cbn [BBMin BBMax]. rewrite float3_min_std, float3_max_std.
          destruct (vmin_acc (BBMin A)
                      (BBMin (BoundBox_Transform (MeshBB mesh) (nth i G float4x4_default))) Hmin)
            as (M1 & M2 & M3).
          destruct (vmax_acc (BBMax A)
                      (BBMax (BoundBox_Transform (MeshBB mesh) (nth i G float4x4_default))) Hmax)
            as (X1 & X2 & X3).
          split; [exact M1|]. split; [exact X1|]. split; [exact M2|]. split; [exact X2|].
          intros mesh' [= <-] _ Hn1 Hn2. split; [apply M3 | apply X3]; assumption.
        + split; [exact Hmin|]. split; [exact Hmax|].
          split; [apply float3_leb_refl; exact Hmin|].
          split; [apply float3_leb_refl; exact Hmax|].
          intros mesh' [= <-] Hv. congruence.
      - split; [exact Hmin|]. split; [exact Hmax|].
        split; [apply float3_leb_refl; exact Hmin|].
        split; [apply float3_leb_refl; exact Hmax|].
        intros mesh' Hm. discriminate Hm. }
    destruct H1 as (N1 & N2 & L1 & L2 & Hnode).
    destruct (IH A1 N1 N2) as (I1 & I2 & I3 & I4 & Irest).
    split; [exact I1|]. split; [exact I2|].
    split; [eapply float3_leb_trans; eassumption|].
    split; [eapply float3_leb_trans; eassumption|].
    intros j N' mesh [E | Hin] Hm Hv Hn1 Hn2.
    + injection E as <- <-. destruct (Hnode mesh Hm Hv Hn1 Hn2) as [Ha Hb].
      split; eapply float3_leb_trans; eassumption.
    + apply (Irest j N' mesh Hin Hm Hv Hn1 Hn2).
Qed.

Lemma grow_nothing G (l : list (nat * Node)) : forall A,
  (forall i N mesh, In (i, N) l -> pMesh N = Some mesh -> MeshIsValidBB mesh = false) ->
  fold_left (grow G) l A = A.
Proof.
  induction l as [|[i N] l IH]; intros A H; [reflexivity|].
  cbn [fold_left]. rewrite IH by (intros j N' mesh Hin; apply (H j N' mesh); right; exact Hin).
  cbv beta iota zeta. destruct (pMesh N) as [mesh|] eqn:Em; [|reflexivity].
  rewrite (H i N mesh); [reflexivity | left; reflexivity | exact Em].
Qed.

Lemma enumerate_In {A} (l : list A) i x : l !! i = Some x -> In (i, x) (enumerate l).
Proof.
  unfold enumerate. intros Hi.
  assert (H : forall k, In (k + i, x) (combine (seq k (length l)) l)).
  { revert i Hi. induction l as [|a l IH]; intros i Hi k; [rewrite lookup_nil in Hi; discriminate|].
    cbn [length seq combine]. destruct i as [|i].
    - cbn in Hi. injection Hi as ->. rewrite Nat.add_0_r. left. reflexivity.
    - right. replace (k + S i) with (S k + i) by lia. apply IH. exact Hi. }
  apply (H 0).
Qed.


(** X23: the bounding box of the model encloses the transformed box of
    every node whose mesh has a valid box (for boxes without a NaN), when
    [std::min] and [std::max] on vectors work by component; and a model in
    which no mesh has a valid box gets the inverted box
    [(+FLT_MAX, -FLT_MAX)], not an empty one. *)
Theorem bounding_box_encloses_meshes (M : Model) (T : ModelTransforms) :
  CompatibleWithTransforms M T = true ->
  let BB := fst (ComputeBoundingBox M T) in
  (forall i N mesh,
     LinearNodes M !! i = Some N -> pMesh N = Some mesh -> MeshIsValidBB mesh = true ->
     let NodeAABB :=
       BoundBox_Transform (MeshBB mesh) (nth i (NodeGlobalMatrices T) float4x4_default) in
     float3_has_nan (BBMin NodeAABB) = false -> float3_has_nan (BBMax NodeAABB) = false ->
     float3_leb (BBMin BB) (BBMin NodeAABB) = true /\
     float3_leb (BBMax NodeAABB) (BBMax BB) = true) /\
  ((forall N mesh, In N (LinearNodes M) -> pMesh N = Some mesh -> MeshIsValidBB mesh = false) ->
   BB = {| BBMin := mk_float3 F32.FLT_MAX F32.FLT_MAX F32.FLT_MAX;
           BBMax := mk_float3 (SFopp F32.FLT_MAX) (SFopp F32.FLT_MAX) (SFopp F32.FLT_MAX) |}).
Proof.
  intros Hc. cbv zeta. unfold ComputeBoundingBox. rewrite Hc. cbn [fst].
  split.
  - intros i N mesh Hi Hm Hv Hn1 Hn2.
    destruct (grow_fold (NodeGlobalMatrices T) (enumerate (LinearNodes M))
                {| BBMin := mk_float3 F32.FLT_MAX F32.FLT_MAX F32.FLT_MAX;
                   BBMax := mk_float3 (SFopp F32.FLT_MAX) (SFopp F32.FLT_MAX)
                                      (SFopp F32.FLT_MAX) |})
      as (_ & _ & _ & _ & H); [reflexivity | reflexivity |].
    apply (H i N mesh); [apply enumerate_In; exact Hi | exact Hm | exact Hv | exact Hn1 | exact Hn2].
  - intros Hnone. apply grow_nothing.
    intros i N mesh Hin Hm. apply (Hnone N mesh); [|exact Hm].
    unfold enumerate in Hin. apply in_combine_r in Hin. exact Hin.
Qed.

End BoundingBoxFacts.

(** ** The callbacks *)
Section CallbackFacts.
Context `{GA : GraphicsAccessories} `{BM : BasicMath}.
Variable BaseColorTextureName : string.
Variable SimplifyPath : string -> string.
Variable GetFileFormat : list Z -> IMAGE_FILE_FORMAT.
Variable CreateFromDataBlob : list Z -> IMAGE_FILE_FORMAT -> option DecodedImage.
Variable IMAGE_FILE_FORMAT_to_int : IMAGE_FILE_FORMAT -> Z.
Variable IMAGE_FILE_FORMAT_of_int : Z -> IMAGE_FILE_FORMAT.

(** X24: without a callback of the application, [ReadWholeFile] never
    succeeds with an empty buffer (the importer rejects one): a texture
    found in the cache gives a buffer of one byte, a file gives its
    contents, and an empty file is an error.  When it fails, [out] is as
    before and [err] has got a message. *)
Theorem ReadWholeFile_success_is_not_empty
    (Dev : Device) (FS : FileSystem) (out : list Z) (err filepath : string)
    (user_data : option LoaderData) :
  (forall LD, user_data = Some LD -> LD_ReadWholeFile LD = None) ->
  let '(ok, out', err', _) :=
    Callbacks_ReadWholeFile SimplifyPath Dev FS out err filepath user_data in
  (ok = true -> out' <> [] /\ err' = err) /\
  (ok = false ->
     out' = out /\
     (err' = String.append err
               (String.append "Unable to open file " (String.append filepath newline)) \/
      err' = String.append err
               (String.append "File is empty: " (String.append filepath newline)))).
Proof.
  intros Hcb.
  assert (Hfs : let '(ok, out', err') := ReadFromFileSystem FS out err filepath in
                (ok = true -> out' <> [] /\ err' = err) /\
                (ok = false ->
                   out' = out /\
                   (err' = String.append err
                             (String.append "Unable to open file "
                                            (String.append filepath newline)) \/
                    err' = String.append err
                             (String.append "File is empty: "
                                            (String.append filepath newline))))).
  { unfold ReadFromFileSystem. destruct (FS !! filepath) as [bytes|].
    - destruct (Nat.eqb_spec (length bytes) 0) as [E | N].
      + split; [discriminate | auto].
      + split; [|discriminate]. intros _. split; [|reflexivity].
        destruct bytes; [contradiction | discriminate].
    - split; [discriminate | auto]. }
  unfold Callbacks_ReadWholeFile. destruct user_data as [LD|].
  - destruct (LockCached Dev LD (SimplifyPath filepath)) as [t|].
    + split; [|discriminate]. intros _. split; [|reflexivity].
      destruct out; discriminate.
    + rewrite (Hcb LD eq_refl).
      destruct (ReadFromFileSystem FS out err filepath) as [[ok out'] err']. exact Hfs.
  - destruct (ReadFromFileSystem FS out err filepath) as [[ok out'] err']. exact Hfs.
Qed.

(** X25: without a resource manager ([pResourceMgr == nullptr] in the
    loader data), a path whose key is in the texture cache needs no file.
    While the cached texture is alive, [FileExists] and [ReadWholeFile]
    both succeed whatever the file system and the callbacks of the
    application, and [ReadWholeFile] keeps a reference to the texture.
    [FileExists] does not look at the texture, though: for a stale entry
    it still answers yes, while [ReadWholeFile] falls back to the file and
    fails if there is none. *)
Theorem cached_path_needs_no_file
    (Dev : Device) (FS : FileSystem) (out : list Z) (err path : string)
    (LD : LoaderData) (Cache : TextureCacheType) (t : nat) :
  LD_pTextureCache LD = Some Cache ->
  CacheTextures Cache !! SimplifyPath path = Some t ->
  Callbacks_FileExists SimplifyPath FS path (Some LD) = true /\
  (is_Some (DevTextures Dev !! t) ->
   Callbacks_ReadWholeFile SimplifyPath Dev FS out err path (Some LD)
   = (true, resize 1 0%Z out, err, Some (set_TexturesHold LD (TexturesHold LD ++ [t])))) /\
  (DevTextures Dev !! t = None -> LD_ReadWholeFile LD = None -> FS !! path = None ->
   fst (fst (fst (Callbacks_ReadWholeFile SimplifyPath Dev FS out err path (Some LD))))
   = false).
Proof.
  intros HC Ht. split; [|split].
  - unfold Callbacks_FileExists. rewrite HC, Ht.
    rewrite bool_decide_eq_true_2 by eauto. reflexivity.
  - intros Halive. unfold Callbacks_ReadWholeFile, LockCached. rewrite HC, Ht.
    rewrite bool_decide_eq_true_2 by exact Halive. reflexivity.
  - intros Hdead Hcb Hfile. unfold Callbacks_ReadWholeFile, LockCached. rewrite HC, Ht, Hdead.
    rewrite bool_decide_eq_false_2 by (intros [o Ho]; discriminate).
    rewrite Hcb. unfold ReadFromFileSystem. rewrite Hfile. reflexivity.
Qed.

Lemma insert4_length {A} (l : list A) d a b c e :
  length (<[d + 3 := a]> (<[d + 2 := b]> (<[d + 1 := c]> (<[d := e]> l)))) = length l.
Proof. rewrite !length_insert. reflexivity. Qed.

Lemma CopyPixels_length Img DstRowSize image pixels :
  CopyPixels Img DstRowSize 4 image = Some pixels -> length pixels = length image.
Proof.
  unfold CopyPixels. cbv zeta.
  assert (H3 : forall (f : list Z -> nat -> list Z),
            (forall l k, length (f l k) = length l) ->
            forall ks l, length (fold_left f ks l) = length l).
  { intros f Hf ks. induction ks as [|k ks IH]; intros l; [reflexivity|].
    cbn [fold_left]. rewrite IH. apply Hf. }
  destruct (DecNumComponents Img =? 3)%Z.
  - intros [= <-]. apply H3. intros l row. apply H3. intros l' col. apply insert4_length.
  - cbn [Z.eqb Pos.eqb]. intros [= <-]. apply H3. intros l row. apply H3.
    intros l' k. apply length_insert.
Qed.

(** X26: [LoadImageData] never turns an image down for the number of its
    components.  In a load without a resource manager ([pResourceMgr ==
    nullptr] in the loader data, if there is any), for an image that is not
    found alive in the texture cache: when the bytes are neither unknown
    nor a DDS or KTX file, the image library decodes them, and the
    requested dimensions (if any) are met, the call succeeds whatever the
    number of components of the decoded image: the image gets four
    components and [height * width * 4 * (bits / 8)] bytes. *)
Theorem LoadImageData_accepts_any_component_count
    (Dev : Device) (gltf_image : GltfImage) (error : option string)
    (req_width req_height : Z) (image_data : list Z) (Img : DecodedImage)
    (user_data : option LoaderData) :
  LoadImageData_Cached SimplifyPath Dev gltf_image user_data = None ->
  GetFileFormat image_data = IMAGE_FILE_FORMAT_OTHER ->
  CreateFromDataBlob image_data IMAGE_FILE_FORMAT_OTHER = Some Img ->
  (0 < req_width -> wrap32 req_width = DecWidth Img)%Z ->
  (0 < req_height -> wrap32 req_height = DecHeight Img)%Z ->
  let '(ok, gltf_image', error', _, _) :=
    LoadImageData SimplifyPath GetFileFormat CreateFromDataBlob IMAGE_FILE_FORMAT_to_int
                  Dev gltf_image error req_width req_height image_data user_data in
  ok = true /\ error' = error /\
  img_component gltf_image' = 4%Z /\
  img_width gltf_image' = DecWidth Img /\ img_height gltf_image' = DecHeight Img /\
  length (img_image gltf_image')
  = Z.to_nat (DecHeight Img * (DecWidth Img * 4 * Z.quot (DecComponentSize Img * 8) 8)).
Proof.
  intros Hmiss Hf Hd Hw Hh. unfold LoadImageData. cbv zeta. rewrite Hf, Hd.
  assert (E1 : (0 <? req_width)%Z && negb (wrap32 req_width =? DecWidth Img)%Z = false).
  { destruct (Z.ltb_spec 0 req_width) as [H | H]; [|reflexivity].
    rewrite (Hw H), Z.eqb_refl. reflexivity. }
  assert (E2 : (0 <? req_height)%Z && negb (wrap32 req_height =? DecHeight Img)%Z = false).
  { destruct (Z.ltb_spec 0 req_height) as [H | H]; [|reflexivity].
    rewrite (Hh H), Z.eqb_refl. reflexivity. }
  rewrite E1, E2.
  destruct (CopyPixels Img _ 4 _) as [pixels|] eqn:Ec.
  2:{ exfalso. unfold CopyPixels in Ec. cbv zeta in Ec.
      destruct (DecNumComponents Img =? 3)%Z; discriminate Ec. }
  apply CopyPixels_length in Ec. rewrite length_resize in Ec.
  assert (Hdone : forall (u : option LoaderData) (l : list Diag),
            let '(ok, gltf_image', error', _, _) :=
              (true,
               {| img_uri := img_uri gltf_image; img_width := DecWidth Img;
                  img_height := DecHeight Img; img_component := 4;
                  img_bits := DecComponentSize Img * 8;
                  img_pixel_type := TINYGLTF_COMPONENT_TYPE_UNSIGNED_BYTE;
                  img_image := pixels |}, error, u, l) in
            ok = true /\ error' = error /\
            img_component gltf_image' = 4%Z /\
            img_width gltf_image' = DecWidth Img /\ img_height gltf_image' = DecHeight Img /\
            length (img_image gltf_image')
            = Z.to_nat (DecHeight Img
                        * (DecWidth Img * 4 * Z.quot (DecComponentSize Img * 8) 8)))
    by (intros u l; cbn; auto 10).
  destruct user_data as [LD|]; [|exact (Hdone None [])].
  unfold LoadImageData_Cached, LockCached in Hmiss.
  destruct (LD_pTextureCache LD) as [Cache|]; [|exact (Hdone None [])].
  destruct (CacheTextures Cache !! _) as [t|]; [|exact (Hdone None [])].
  destruct (DevTextures Dev !! t) as [o|] eqn:Et; [|exact (Hdone None [])].
  rewrite bool_decide_eq_true_2 in Hmiss by eauto. discriminate Hmiss.
Qed.

(** X27: the file format travels in [pixel_type].  In a load without a
    resource manager ([pResourceMgr == nullptr] in the loader data, if
    there is any), for an image that is not found alive in the texture
    cache and the bytes of a DDS or KTX file, [LoadImageData] stores the
    bytes as they are and the format in [pixel_type], leaving the
    dimensions alone; if these are the importer's initial -1, the
    [ImageData] that [LoadTextures] builds has that format again (when
    converting the format to an integer and back gives the format), so that
    [AddTexture] takes the branch for DDS and KTX files. *)
Theorem file_format_travels_in_pixel_type
    (Dev : Device) (gltf_image : GltfImage) (error : option string)
    (req_width req_height : Z) (image_data : list Z) (user_data : option LoaderData) :
  LoadImageData_Cached SimplifyPath Dev gltf_image user_data = None ->
  (forall f, IMAGE_FILE_FORMAT_of_int (IMAGE_FILE_FORMAT_to_int f) = f) ->
  IsDDSorKTX_format (GetFileFormat image_data) = true ->
  (img_width gltf_image < 0)%Z -> (img_height gltf_image < 0)%Z ->
  let '(ok, gltf_image', error', _, _) :=
    LoadImageData SimplifyPath GetFileFormat CreateFromDataBlob IMAGE_FILE_FORMAT_to_int
                  Dev gltf_image error req_width req_height image_data user_data in
  let Image := LoadTextures_Image IMAGE_FILE_FORMAT_of_int gltf_image' in
  ok = true /\ error' = error /\
  ImgFileFormat Image = GetFileFormat image_data /\
  IsDDSorKTX Image = true /\
  ImgpData Image = image_data /\
  (0 <? ImgWidth Image)%Z && (0 <? ImgHeight Image)%Z = false.
Proof.
  intros Hmiss Hinv Hdds Hw Hh. unfold LoadImageData. cbv zeta.
  assert (Hneg : (img_width gltf_image <? 0)%Z && (img_height gltf_image <? 0)%Z = true).
  { apply andb_true_iff. split; apply Z.ltb_lt; assumption. }
  assert (Hpos : (0 <? img_width gltf_image)%Z && (0 <? img_height gltf_image)%Z = false).
  { apply andb_false_iff. left. apply Z.ltb_ge. lia. }
  assert (Hdone : forall (u : option LoaderData) (l : list Diag),
            let '(ok, gltf_image', error', _, _) :=
              (true,
               {| img_uri := img_uri gltf_image; img_width := img_width gltf_image;
                  img_height := img_height gltf_image;
                  img_component := img_component gltf_image;
                  img_bits := img_bits gltf_image;
                  img_pixel_type := IMAGE_FILE_FORMAT_to_int (GetFileFormat image_data);
                  img_image := image_data |}, error, u, l) in
            let Image := LoadTextures_Image IMAGE_FILE_FORMAT_of_int gltf_image' in
            ok = true /\ error' = error /\
            ImgFileFormat Image = GetFileFormat image_data /\
            IsDDSorKTX Image = true /\
            ImgpData Image = image_data /\
            (0 <? ImgWidth Image)%Z && (0 <? ImgHeight Image)%Z = false).
  { intros u l. unfold LoadTextures_Image, IsDDSorKTX.
    cbn [img_width img_height img_pixel_type img_image ImgFileFormat ImgpData
         ImgWidth ImgHeight].
    rewrite Hneg, Hinv, Hpos.
    destruct (GetFileFormat image_data); try discriminate Hdds; auto 10. }
  destruct (GetFileFormat image_data) eqn:Ef; try discriminate Hdds.
  - destruct user_data as [LD|]; [|exact (Hdone None [])].
    unfold LoadImageData_Cached, LockCached in Hmiss.
    destruct (LD_pTextureCache LD) as [Cache|]; [|exact (Hdone None [])].
    destruct (CacheTextures Cache !! _) as [t|]; [|exact (Hdone None [])].
    destruct (DevTextures Dev !! t) as [o|] eqn:Et; [|exact (Hdone None [])].
    rewrite bool_decide_eq_true_2 in Hmiss by eauto. discriminate Hmiss.
  - destruct user_data as [LD|]; [|exact (Hdone None [])].
    unfold LoadImageData_Cached, LockCached in Hmiss.
    destruct (LD_pTextureCache LD) as [Cache|]; [|exact (Hdone None [])].
    destruct (CacheTextures Cache !! _) as [t|]; [|exact (Hdone None [])].
    destruct (DevTextures Dev !! t) as [o|] eqn:Et; [|exact (Hdone None [])].
    rewrite bool_decide_eq_true_2 in Hmiss by eauto. discriminate Hmiss.
Qed.


(** X28: an image whose texture is in the cache is not decoded, and the
    texture is shared.  In a load without a resource manager
    ([pResourceMgr == nullptr]), for an image with a URI whose key the cache holds
    with a texture that is alive, [LoadImageData] succeeds without looking
    at the bytes: it leaves the pixels of the image as they are, takes the
    dimensions from the texture, keeps a reference to it and reports
    nothing; [AddTexture] for the image then appends that texture and
    creates nothing. *)
Theorem cached_image_is_not_decoded
    (M : Model) (Dev : Device) (gltf_image : GltfImage) (error : option string)
    (req_width req_height : Z) (image_data : list Z)
    (LD : LoaderData) (Cache : TextureCacheType) (t : nat) (o : TextureObject) :
  img_uri gltf_image <> "" ->
  let key := SimplifyPath (String.append (LD_BaseDir LD) (img_uri gltf_image)) in
  key <> "" ->
  LD_pTextureCache LD = Some Cache ->
  CacheTextures Cache !! key = Some t ->
  DevTextures Dev !! t = Some o ->
  let '(ok, gltf_image', error', user_data', log) :=
    LoadImageData SimplifyPath GetFileFormat CreateFromDataBlob IMAGE_FILE_FORMAT_to_int
                  Dev gltf_image error req_width req_height image_data (Some LD) in
  ok = true /\ error' = error /\
  img_image gltf_image' = img_image gltf_image /\
  img_width gltf_image' = TexWidth (TexObjDesc o) /\
  img_height gltf_image' = TexHeight (TexObjDesc o) /\
  user_data' = Some (set_TexturesHold LD (TexturesHold LD ++ [t])) /\
  log = [] /\
  AddTexture BaseColorTextureName M (Some Cache) Dev
             (LoadTextures_Image IMAGE_FILE_FORMAT_of_int gltf_image')
             (LoadTextures_CacheId SimplifyPath (LD_BaseDir LD) gltf_image')
  = (set_Textures M (Textures M ++ [{| pTexture := Some t; pAtlasSuballocation := None |}]),
     Some Cache, Dev, []).
Proof.
  intros Huri key Hkey HC Ht Ho. unfold LoadImageData. cbv zeta.
  destruct (String.eqb_spec (img_uri gltf_image) "") as [|_]; [contradiction|].
  rewrite HC. fold key. rewrite Ht, Ho.
  split; [reflexivity|]. split; [reflexivity|]. split; [reflexivity|].
  split; [reflexivity|]. split; [reflexivity|]. split; [reflexivity|].
  split; [reflexivity|].
  unfold LoadTextures_CacheId. cbn [img_uri].
  destruct (String.eqb_spec (img_uri gltf_image) "") as [|_]; [contradiction|].
  fold key. unfold AddTexture.
  rewrite (AddTexture_Find_live Cache Dev _ key t Hkey Ht) by eauto.
  rewrite AddTexture_Create_hit. reflexivity.
Qed.

(** X29: images without a URI share the empty key in [LoadImageData],
    in a load without a resource manager ([pResourceMgr == nullptr]).
    [AddTexture] enters the texture of an image without a URI into the
    cache under the empty key; [LoadImageData] for another image without a
    URI then finds that entry: it succeeds without decoding the bytes it is
    given, leaves the pixels of the image as they are and gives the image
    the dimensions of the first texture. *)
Theorem images_without_uri_share_the_empty_key
    (M : Model) (C : TextureCacheType) (Dev : Device) (Image : ImageData)
    (gltf_image : GltfImage) (error : option string)
    (req_width req_height : Z) (image_data : list Z) (LD : LoaderData) :
  CacheTextures C !! "" = None ->
  (0 < ImgWidth Image)%Z -> (0 < ImgHeight Image)%Z ->
  img_uri gltf_image = "" ->
  let '(_, C', Dev', _) := AddTexture BaseColorTextureName M (Some C) Dev Image "" in
  LD_pTextureCache LD = C' ->
  let '(ok, gltf_image', error', _, _) :=
    LoadImageData SimplifyPath GetFileFormat CreateFromDataBlob IMAGE_FILE_FORMAT_to_int
                  Dev' gltf_image error req_width req_height image_data (Some LD) in
  ok = true /\ error' = error /\
  img_image gltf_image' = img_image gltf_image /\
  img_width gltf_image' = ImgWidth Image /\
  img_height gltf_image' = ImgHeight Image.
Proof.
  intros Hno HW HH Huri. unfold AddTexture. rewrite AddTexture_Find_empty.
  destruct (AddTexture_Create_miss BaseColorTextureName M TextureInfo_null (Some C) Dev
              Image "") as (o & log & E & Himg & _); [reflexivity|].
  rewrite E. rewrite (Himg HW HH). clear E Himg o.
  intros HLD. unfold LoadImageData. cbv zeta. rewrite Huri. cbn [String.eqb].
  rewrite HLD. unfold Emplace. rewrite Hno. cbn [CacheTextures].
  rewrite lookup_insert_eq. unfold WithTexture. cbn [DevTextures].
  rewrite lookup_insert_eq. cbn. auto.
Qed.

End CallbackFacts.

(** ** The file name *)
Section FileNameFacts.

Lemma find_last_of_free chars s : free_of chars s = true -> find_last_of s chars = None.
Proof.
  induction s as [|c s IH]; [reflexivity|]. cbn [free_of find_last_of].
  intros H. apply andb_true_iff in H as [Hc Hs]. rewrite (IH Hs).
  apply negb_true_iff in Hc. rewrite Hc. reflexivity.
Qed.

Lemma find_last_of_split chars pre c post :
  existsb (Ascii.eqb c) chars = true -> free_of chars post = true ->
  find_last_of (String.append pre (String c post)) chars = Some (String.length pre).
Proof.
  intros Hc Hfree. induction pre as [|a pre IH].
  - simpl. rewrite (find_last_of_free chars post Hfree), Hc. reflexivity.
  - simpl. simpl in IH. rewrite IH. reflexivity.
Qed.

Lemma substring_prefix pre post :
  String.substring 0 (String.length pre) (String.append pre post) = pre.
Proof.
  induction pre as [|a pre IH]; simpl.
  - destruct post; reflexivity.
  - simpl in IH. rewrite IH. reflexivity.
Qed.

Lemma substring_all s n : String.length s <= n -> String.substring 0 n s = s.
Proof.
  revert n. induction s as [|a s IH]; intros n Hn.
  - destruct n; reflexivity.
  - simpl in Hn. destruct n as [|n]; [lia|].
    simpl. rewrite IH by lia. reflexivity.
Qed.

Lemma substring_skip pre post n :
  String.substring (String.length pre) n (String.append pre post) = String.substring 0 n post.
Proof.
  induction pre as [|a pre IH]; simpl; [reflexivity | exact IH].
Qed.

Lemma length_append s1 s2 :
  String.length (String.append s1 s2) = String.length s1 + String.length s2.
Proof. induction s1 as [|a s1 IH]; simpl; [reflexivity | rewrite IH; reflexivity]. Qed.

(** X30: the base directory and the kind of the file.  The base
    directory is the part of the file name before its last slash or
    backslash, followed by a slash, and just a slash for a name without
    either.  The file is read as binary exactly when the text after the last
    dot of the name is [glb], in lower case; a name without a dot is read
    as text. *)
Theorem file_name_gives_base_directory :
  (forall dir sep name,
     sep = slash \/ sep = backslash ->
     free_of [slash; backslash] name = true ->
     LoadFromFile_BaseDir (String.append dir (String sep name))
     = String.append dir (String slash EmptyString)) /\
  (forall name,
     free_of [slash; backslash] name = true ->
     LoadFromFile_BaseDir name = String slash EmptyString) /\
  (forall stem ext,
     free_of [dot] ext = true ->
     LoadFromFile_binary (String.append stem (String dot ext)) = String.eqb ext "glb") /\
  (forall name, free_of [dot] name = true -> LoadFromFile_binary name = false).
Proof.
  split; [|split; [|split]].
  - intros dir sep name Hsep Hfree. unfold LoadFromFile_BaseDir.
    rewrite (find_last_of_split [slash; backslash] dir sep name); [|destruct Hsep; subst; reflexivity | exact Hfree].
    rewrite substring_prefix. reflexivity.
  - intros name Hfree. unfold LoadFromFile_BaseDir.
    rewrite (find_last_of_free _ _ Hfree). reflexivity.
  - intros stem ext Hfree. unfold LoadFromFile_binary.
    rewrite (find_last_of_split [dot] stem dot ext eq_refl Hfree).
    replace (String.append stem (String dot ext))
      with (String.append (String.append stem (String dot EmptyString)) ext).
    2:{ clear. induction stem as [|a stem IH]; [reflexivity|].
        change (String a (String.append (String.append stem (String dot EmptyString)) ext)
                = String a (String.append stem (String dot ext))).
        f_equal. exact IH. }
    replace (String.length stem + 1)
      with (String.length (String.append stem (String dot EmptyString)))
      by (rewrite length_append; reflexivity).
    rewrite substring_skip, substring_all; [reflexivity|].
    rewrite !length_append. simpl. lia.
  - intros name Hfree. unfold LoadFromFile_binary.
    rewrite (find_last_of_free _ _ Hfree). reflexivity.
Qed.

End FileNameFacts.

(** ** The further properties at concrete inputs *)

Lemma PrepareGLTFTextureInitData_mip_chain_witness :
  let Lv := Levels (fst (PrepareGLTFTextureInitData (GA := Ref.Graphics)
                           Ex2.wide_image F32.zero 4)) in
  length Lv = 4 /\
  LvlWidth (nth 1 Lv LevelData_default) = 2%Z /\
  LvlHeight (nth 1 Lv LevelData_default) = 1%Z /\
  LvlWidth (nth 3 Lv LevelData_default) = 1%Z /\
  LvlStride (nth 3 Lv LevelData_default) = 4%Z.
Proof.
  cbv zeta.
  destruct (PrepareGLTFTextureInitData_mip_chain Ref.Graphics Ex2.wide_image F32.zero 4)
    as [Hlen Hdim].
  - lia.
  - simpl. lia.
  - simpl. lia.
  - reflexivity.
  - intros v. simpl. unfold Ref.align_up. rewrite Z.add_0_r, Z.div_1_r. lia.
  - split; [exact Hlen|].
    destruct (Hdim 1) as (Hw1 & Hh1 & _); [lia|].
    destruct (Hdim 3) as (Hw3 & _ & Hs3); [lia|].
    split; [exact Hw1|]. split; [exact Hh1|]. split; [exact Hw3|].
    rewrite Hs3, Hw3. reflexivity.
Defined.

Lemma RGB_image_becomes_opaque_RGBA_witness :
  let Data := Level0Data (GA := Ref.Graphics) Ex2.rgb_image half 1 in
  length Data = 8 /\
  nth 3 Data 0%Z = 255%Z /\ nth 4 Data 0%Z = 4%Z /\ nth 7 Data 0%Z = 255%Z.
Proof.
  cbv zeta.
  destruct (RGB_image_becomes_opaque_RGBA Ref.Graphics Ex2.rgb_image half 1)
    as [Hlen Hpx].
  - reflexivity.
  - lia.
  - simpl. lia.
  - simpl. lia.
  - simpl. lia.
  - split; [exact Hlen|].
    destruct (Hpx 0) as (_ & _ & _ & Ha0); [simpl; lia|].
    destruct (Hpx 1) as (Hr1 & _ & _ & Ha1); [simpl; lia|].
    split; [exact Ha0|]. split; [exact Hr1 | exact Ha1].
Defined.

Lemma RGBA_alpha_is_never_lowered_witness :
  Level0Data (GA := Ref.Graphics) (Ex.image 2) F32.nan 1 = [10; 20; 30; 2]%Z.
Proof.
  destruct (RGBA_alpha_is_never_lowered Ref.Graphics (Ex.image 2) F32.nan 1)
    as (_ & _ & Hcopy).
  - reflexivity.
  - lia.
  - simpl. lia.
  - simpl. lia.
  - simpl. lia.
  - reflexivity.
  - reflexivity.
  - simpl. repeat constructor; lia.
  - apply Hcopy. reflexivity.
Defined.

Lemma unexpected_components_give_empty_level_witness :
  let r := PrepareGLTFTextureInitData (GA := Ref.Graphics) Ex2.gray_image F32.zero 1 in
  snd r = [DiagUnexpected "Unexpected number of color components in gltf image"] /\
  LvlData (nth 0 (Levels (fst r)) LevelData_default) = [] /\
  LvlWidth (nth 0 (Levels (fst r)) LevelData_default) = 1%Z.
Proof.
  cbv zeta.
  destruct (unexpected_components_give_empty_level Ref.Graphics Ex2.gray_image F32.zero 1)
    as (_ & Hd & Hw & _).
  - simpl. discriminate.
  - simpl. discriminate.
  - lia.
  - split; [vm_compute; reflexivity|]. split; [exact Hd | exact Hw].
Defined.


Lemma PrepareGPUResources_releases_payloads_witness :
  let M := fst Ex2.wide_loaded in
  let Dev := snd Ex2.wide_loaded in
  let Dev' := snd (fst (PrepareGPUResources M Dev)) in
  SlotData Dev (SlotTexture 0) <> None /\
  SlotData Dev' (SlotTexture 0) = None /\
  SameObjects Dev Dev'.
Proof.
  cbv zeta.
  destruct (PrepareGPUResources_releases_payloads
              (fst Ex2.wide_loaded) (snd Ex2.wide_loaded)) as (H1 & _ & H3).
  - vm_compute. reflexivity.
  - split; [vm_compute; discriminate|]. split; [|exact H3].
    apply (H1 {| pTexture := Some 0; pAtlasSuballocation := None |}).
    + vm_compute. left. reflexivity.
    + reflexivity.
Defined.

Lemma GenerateMips_needs_single_level_witness :
  let M := fst Ex2.wide_loaded in
  let Dev := snd Ex2.wide_loaded in
  In (CmdGenerateMips 0) (snd (PrepareGPUResources M Dev)) /\
  exists X s d o,
    In X (Textures M) /\ is_Some (pTexture X) /\
    TextureSlot X = Some s /\ SlotData Dev s = Some d /\
    length (Levels d) = 1 /\
    DevTextures Dev !! 0 = Some o /\ (1 < TexMipLevels (TexObjDesc o))%Z.
Proof.
  cbv zeta.
  assert (H : In (CmdGenerateMips 0)
                 (snd (PrepareGPUResources (fst Ex2.wide_loaded) (snd Ex2.wide_loaded))))
    by (vm_compute; right; left; reflexivity).
  split; [exact H|].
  exact (GenerateMips_needs_single_level _ _ _ H).
Defined.

Lemma staging_copy_skips_small_mips_witness :
  let X := {| pTexture := Some 1; pAtlasSuballocation := None |} in
  exists k,
    UploadTextureData Ex2.staging_device X None 1 Ex2.staging_desc Ex2.staging_data
      = map (fun mip => CmdCopyTexture 0 1 mip 0 (Z.shiftr 0 (Z.of_nat mip))
                                       (Z.shiftr 0 (Z.of_nat mip)))
            (seq 0 k) /\
    k <= 5 /\
    (forall j, k <= j < 5 ->
       (fst (Ref.mip_props Ex2.staging_desc (Z.of_nat j)) < 4)%Z \/
       (snd (Ref.mip_props Ex2.staging_desc (Z.of_nat j)) < 4)%Z) /\
    (0 < k ->
       (4 <= fst (Ref.mip_props Ex2.staging_desc (Z.of_nat (k - 1))))%Z /\
       (4 <= snd (Ref.mip_props Ex2.staging_desc (Z.of_nat (k - 1))))%Z).
Proof.
  cbv zeta.
  apply (staging_copy_skips_small_mips (GA := Ref.Graphics)
           Ex2.staging_device {| pTexture := Some 1; pAtlasSuballocation := None |}
           None 1 Ex2.staging_desc Ex2.staging_data 0
           {| TexObjDesc := Ex2.staging_desc; TexObjUserData := None |}).
  - reflexivity.
  - reflexivity.
  - reflexivity.
  - reflexivity.
Defined.

Lemma AddTexture_shares_cached_texture_witness :
  let '(M1', C1, Dev1, _) :=
    AddTexture (GA := Ref.Graphics) Ex.base_color Ex.scene Ex.empty_cache Ex.no_objects
               (Ex.image 2) Ex.key in
  let '(M2', C2, Dev2, log2) :=
    AddTexture Ex.base_color Ex.scene C1 Dev1 Ex2.wide_image Ex.key in
  last (Textures M2') = last (Textures M1') /\ Dev2 = Dev1 /\ C2 = C1 /\ log2 = [].
Proof.
  apply (AddTexture_shares_cached_texture (GA := Ref.Graphics) (BM := Ref.Math)
           Ex.base_color Ex.scene Ex.scene {| CacheTextures := ∅ |} Ex.no_objects
           (Ex.image 2) Ex2.wide_image Ex.key).
  - discriminate.
  - intros t Ht. simpl in Ht. rewrite lookup_empty in Ht. discriminate Ht.
Defined.

Lemma AddTexture_stale_entry_witness :
  let '(M', C', Dev', log) :=
    AddTexture (GA := Ref.Graphics) Ex.base_color Ex.scene (Some Ex2.stale_cache)
               Ex.no_objects Ex2.missing_image Ex.key in
  last (Textures M') = Some {| pTexture := Some 0; pAtlasSuballocation := None |} /\
  C' = Some {| CacheTextures := <[Ex.key := 0]> (CacheTextures Ex2.stale_cache) |} /\
  DevTextures Dev' !! 0 = Some (StubTexture (GA := Ref.Graphics)).
Proof.
  apply (AddTexture_stale_entry (GA := Ref.Graphics) (BM := Ref.Math)
           Ex.base_color Ex.scene Ex2.stale_cache Ex.no_objects Ex2.missing_image Ex.key 5).
  - discriminate.
  - reflexivity.
  - reflexivity.
Defined.

Lemma decoded_image_is_uploaded_once_witness :
  let '(M', _, Dev', _) :=
    AddTexture (GA := Ref.Graphics) Ex.base_color Ex.scene None Ex.no_objects
               Ex2.wide_image "" in
  snd (PrepareGPUResources M' Dev')
  = [CmdUpdateTexture 0 0 0 {| MinX := 0; MaxX := 5; MinY := 0; MaxY := 3 |}
       {| LvlData := Level0Data (GA := Ref.Graphics) Ex2.wide_image F32.zero 1;
          LvlStride := 20; LvlWidth := 5; LvlHeight := 3 |};
     CmdGenerateMips 0;
     CmdTransitionResourceStates
       [{| pResource := ObjTexture 0; NewState := RESOURCE_STATE_SHADER_RESOURCE |}]].
Proof.
  apply (decoded_image_is_uploaded_once (GA := Ref.Graphics) (BM := Ref.Math)
           Ex.base_color Ex.scene Ex.no_objects Ex2.wide_image "").
  - reflexivity.
  - reflexivity.
  - reflexivity.
  - simpl. lia.
  - simpl. lia.
Defined.

Lemma missing_image_gets_checkerboard_witness :
  let '(M', _, Dev', _) :=
    AddTexture (GA := Ref.Graphics) Ex.base_color Ex.scene None Ex.no_objects
               Ex2.missing_image "" in
  DevTextures Dev' !! 0 = Some (StubTexture (GA := Ref.Graphics)) /\
  snd (PrepareGPUResources M' Dev')
  = [CmdUpdateTexture 0 0 0 {| MinX := 0; MaxX := 32; MinY := 0; MaxY := 32 |}
       {| LvlData := Ref.checkerboard 32 32;
          LvlStride := 32 * 4; LvlWidth := 32; LvlHeight := 32 |};
     CmdTransitionResourceStates
       [{| pResource := ObjTexture 0; NewState := RESOURCE_STATE_SHADER_RESOURCE |}]].
Proof.
  apply (missing_image_gets_checkerboard (GA := Ref.Graphics) (BM := Ref.Math)
           Ex.base_color Ex.scene Ex.no_objects Ex2.missing_image "").
  - reflexivity.
  - reflexivity.
  - reflexivity.
  - reflexivity.
  - reflexivity.
Defined.

Lemma LoadTextures_shares_by_key_witness :
  let '(M', _, Dev', _) :=
    LoadTextures (GA := Ref.Graphics) Ex.base_color Ex2.simple_path Ex2.format_of_int
                 Ex.scene Ex.empty_cache Ex.no_objects Ex2.gltf_textures Ex2.gltf_images
                 "scene/" in
  let key := TextureKey Ex2.simple_path Ex2.gltf_images "scene/" in
  exists new,
    Textures M' = Textures Ex.scene ++ map (fun t => {| pTexture := Some t;
                                                       pAtlasSuballocation := None |}) new /\
    length new = length Ex2.gltf_textures /\
    Forall (fun t => is_Some (DevTextures Dev' !! t)) new /\
    forall i j x y ti tj,
      Ex2.gltf_textures !! i = Some x -> Ex2.gltf_textures !! j = Some y ->
      key x = key y -> key x <> "" ->
      new !! i = Some ti -> new !! j = Some tj -> ti = tj.
Proof.
  apply (LoadTextures_shares_by_key (GA := Ref.Graphics) (BM := Ref.Math)
           Ex.base_color Ex2.simple_path Ex2.format_of_int
           Ex.scene {| CacheTextures := ∅ |} Ex.no_objects Ex2.gltf_textures Ex2.gltf_images
           "scene/").
  { repeat constructor; simpl; lia. }
  intros C k t HC Hk. injection HC as <-. simpl in Hk.
  rewrite lookup_empty in Hk. discriminate Hk.
Defined.

Lemma LoadTextures_without_cache_never_shares_witness :
  let '(M', C', Dev', _) :=
    LoadTextures (GA := Ref.Graphics) Ex.base_color Ex2.simple_path Ex2.format_of_int
                 Ex.scene None Ex.no_objects Ex2.gltf_textures Ex2.gltf_images "scene/" in
  exists new,
    Textures M' = Textures Ex.scene ++ map (fun t => {| pTexture := Some t;
                                                       pAtlasSuballocation := None |}) new /\
    length new = length Ex2.gltf_textures /\
    NoDup new /\
    Forall (fun t => DevTextures Ex.no_objects !! t = None /\
                     is_Some (DevTextures Dev' !! t)) new /\
    C' = None.
Proof.
  apply (LoadTextures_without_cache_never_shares (GA := Ref.Graphics) (BM := Ref.Math)
           Ex.base_color Ex2.simple_path Ex2.format_of_int
           Ex.scene Ex.no_objects Ex2.gltf_textures Ex2.gltf_images "scene/").
  repeat constructor; simpl; lia.
Defined.

Lemma unanimated_node_keeps_static_pose_witness :
  let T' := fst (ComputeTransforms Ex.model Ex.no_transforms Ex.root_transform 0
                                   (F32.of_Z 1)) in
  let Tstatic := fst (ComputeTransforms Ex.model Ex.no_transforms Ex.root_transform (-1)
                                        (F32.of_Z 1)) in
  NodeAnimations T' !! 1 = Some (StaticPose (Ex.plain_node 1 [])) /\
  NodeLocalMatrices T' !! 1 = NodeLocalMatrices Tstatic !! 1.
Proof.
  apply (unanimated_node_keeps_static_pose Ex.model Ex.no_transforms Ex.root_transform 0
           Ex.linear_animation (F32.of_Z 1) 1 (Ex.plain_node 1 [])).
  - lia.
  - reflexivity.
  - reflexivity.
  - intros ch Hch Hi. simpl in Hch. destruct Hch as [<- | []]. simpl in Hi. discriminate Hi.
Defined.

Lemma single_keyframe_animation_is_static_witness :
  let T' := fst (ComputeTransforms Ex2.skinned_model Ex.no_transforms Ex.root_transform 0
                                   (F32.of_Z 1)) in
  let Tstatic := fst (ComputeTransforms Ex2.skinned_model Ex.no_transforms Ex.root_transform
                                        (-1) (F32.of_Z 1)) in
  NodeAnimations T' = map StaticPose (LinearNodes Ex2.skinned_model) /\
  NodeLocalMatrices T' = NodeLocalMatrices Tstatic.
Proof.
  apply (single_keyframe_animation_is_static Ex2.skinned_model Ex.no_transforms
           Ex.root_transform 0 Ex2.still_animation (F32.of_Z 1)).
  - lia.
  - reflexivity.
  - intros ch Hch. simpl in Hch. destruct Hch as [<- | []].
    exists {| Interpolation := LINEAR; Inputs := [F32.of_Z 0];
              OutputsVec4 := [Ex.v4 5 0 0 0] |}.
    split; reflexivity.
Defined.

Lemma unreached_nodes_keep_global_matrix_witness :
  let T' := fst (ComputeTransforms Ex2.skinned_model Ex2.posed Ex.root_transform (-1)
                                   F32.zero) in
  nth 2 (NodeGlobalMatrices T') float4x4_default = Ref.midentity.
Proof.
  cbv zeta.
  rewrite (unreached_nodes_keep_global_matrix Ex2.skinned_model Ex2.posed Ex.root_transform
             (-1) F32.zero 2).
  - reflexivity.
  - simpl. intros [H | [H | []]]; discriminate H.
Defined.

Lemma skins_follow_the_animation_index_witness :
  Skins (fst (ComputeTransforms Ex2.skinned_model Ex.no_transforms Ex.root_transform (-1)
                                F32.zero)) = [] /\
  length (Skins (fst (ComputeTransforms Ex2.skinned_model Ex.no_transforms Ex.root_transform
                                        0 F32.zero))) = 1.
Proof.
  split.
  - apply (proj1 (skins_follow_the_animation_index Ex2.skinned_model Ex.no_transforms
                    Ex.root_transform (-1) F32.zero)). lia.
  - apply (proj2 (skins_follow_the_animation_index Ex2.skinned_model Ex.no_transforms
                    Ex.root_transform 0 F32.zero)). lia.
Defined.

Lemma joint_matrices_formula_witness :
  let T' := fst (ComputeTransforms Ex2.skinned_model Ex.no_transforms Ex.root_transform 0
                                   F32.zero) in
  let Global i := nth i (NodeGlobalMatrices T') float4x4_default in
  exists JM,
    Skins T' !! 0 = Some {| JointMatrices := JM |} /\
    length JM = 2 /\
    forall j joint, Joints Ex2.skin !! j = Some joint ->
      JM !! j = Some (nth j (InverseBindMatrices Ex2.skin) float4x4_default
                      *m Global joint *m float4x4_Inverse (Global 1)).
Proof.
  apply (joint_matrices_formula Ex2.skinned_model Ex.no_transforms Ex.root_transform 0
           F32.zero [Ex.plain_node 0 [Ex2.skinned_node]] [Ex.plain_node 2 []]
           Ex2.skinned_node Ex2.unit_mesh Ex2.skin).
  - lia.
  - reflexivity.
  - reflexivity.
  - reflexivity.
  - simpl. lia.
  - intros N' HN' [m Hm] _. simpl in HN'. destruct HN' as [<- | []]. discriminate Hm.
Defined.

Lemma bounding_box_encloses_meshes_witness :
  let BB := fst (ComputeBoundingBox Ex2.skinned_model Ex2.posed) in
  let NodeAABB := Ref.bb_transform Ex2.unit_box (Ref.mtranslation (Ex.v3 1 2 3)) in
  float3_leb (BBMin BB) (BBMin NodeAABB) = true /\
  float3_leb (BBMax NodeAABB) (BBMax BB) = true.
Proof.
  cbv zeta.
  destruct (@bounding_box_encloses_meshes Ref.Math (fun _ _ => eq_refl) (fun _ _ => eq_refl)
              Ex2.skinned_model Ex2.posed) as [H _].
  - reflexivity.
  - apply (H 1 Ex2.skinned_node Ex2.unit_mesh).
    + reflexivity.
    + reflexivity.
    + reflexivity.
    + vm_compute. reflexivity.
    + vm_compute. reflexivity.
Defined.

Lemma ReadWholeFile_success_is_not_empty_witness :
  Callbacks_ReadWholeFile Ex2.simple_path Ex.no_objects Ex2.files [] "" "scene/model.bin"
                          None
  = (true, [1; 2; 3]%Z, "", None) /\
  let '(ok, out', err', _) :=
    Callbacks_ReadWholeFile Ex2.simple_path Ex.no_objects Ex2.files [7%Z] "" "scene/empty.bin"
                            None in
  (ok = true -> out' <> [] /\ err' = "") /\
  (ok = false ->
     out' = [7%Z] /\
     (err' = String.append ""
               (String.append "Unable to open file " (String.append "scene/empty.bin" newline)) \/
      err' = String.append ""
               (String.append "File is empty: " (String.append "scene/empty.bin" newline)))).
Proof.
  split; [vm_compute; reflexivity|].
  apply (ReadWholeFile_success_is_not_empty (GA := Ref.Graphics) Ex2.simple_path
           Ex.no_objects Ex2.files [7%Z] "" "scene/empty.bin" None).
  intros LD HLD. discriminate HLD.
Defined.

Lemma cached_path_needs_no_file_witness :
  Callbacks_FileExists Ex2.simple_path ∅ Ex.key (Some Ex2.loader_data) = true /\
  Callbacks_ReadWholeFile Ex2.simple_path Ex2.stub_device ∅ [] "" Ex.key
                          (Some Ex2.loader_data)
  = (true, [0%Z], "", Some (set_TexturesHold Ex2.loader_data [0])) /\
  fst (fst (fst (Callbacks_ReadWholeFile Ex2.simple_path Ex.no_objects ∅ [] "" Ex.key
                                         (Some Ex2.loader_data)))) = false.
Proof.
  destruct (cached_path_needs_no_file (GA := Ref.Graphics) Ex2.simple_path
              Ex2.stub_device ∅ [] "" Ex.key Ex2.loader_data Ex2.wall_cache 0)
    as (H1 & H2 & _); [reflexivity | reflexivity |].
  destruct (cached_path_needs_no_file (GA := Ref.Graphics) Ex2.simple_path
              Ex.no_objects ∅ [] "" Ex.key Ex2.loader_data Ex2.wall_cache 0)
    as (_ & _ & H3); [reflexivity | reflexivity |].
  split; [exact H1|]. split.
  - apply H2. eexists. reflexivity.
  - apply H3; reflexivity.
Defined.

Lemma LoadImageData_accepts_any_component_count_witness :
  let '(ok, gltf_image', error', _, _) :=
    LoadImageData (GA := Ref.Graphics) Ex2.simple_path
                  (fun _ => IMAGE_FILE_FORMAT_OTHER) (fun _ _ => Some Ex2.gray_pixel)
                  Ex2.format_to_int Ex2.stub_device Ex2.floor_image (Some "") 0 0 [1; 2]%Z
                  (Some Ex2.loader_data) in
  ok = true /\ error' = Some "" /\
  img_component gltf_image' = 4%Z /\
  img_width gltf_image' = 1%Z /\ img_height gltf_image' = 1%Z /\
  length (img_image gltf_image') = 4.
Proof.
  apply (LoadImageData_accepts_any_component_count (GA := Ref.Graphics) Ex2.simple_path
           (fun _ => IMAGE_FILE_FORMAT_OTHER) (fun _ _ => Some Ex2.gray_pixel)
           Ex2.format_to_int Ex2.stub_device Ex2.floor_image (Some "") 0 0 [1; 2]%Z
           Ex2.gray_pixel (Some Ex2.loader_data)).
  - reflexivity.
  - reflexivity.
  - reflexivity.
  - lia.
  - lia.
Defined.

Lemma file_format_travels_in_pixel_type_witness :
  let '(ok, gltf_image', error', _, _) :=
    LoadImageData (GA := Ref.Graphics) Ex2.simple_path
                  (fun _ => IMAGE_FILE_FORMAT_DDS) (fun _ _ => None)
                  Ex2.format_to_int Ex2.stub_device Ex2.dds_image None 0 0 [1; 2]%Z
                  (Some Ex2.loader_data) in
  let Image := LoadTextures_Image Ex2.format_of_int gltf_image' in
  ok = true /\ error' = None /\
  ImgFileFormat Image = IMAGE_FILE_FORMAT_DDS /\
  IsDDSorKTX Image = true /\
  ImgpData Image = [1; 2]%Z /\
  (0 <? ImgWidth Image)%Z && (0 <? ImgHeight Image)%Z = false.
Proof.
  apply (file_format_travels_in_pixel_type (GA := Ref.Graphics) Ex2.simple_path
           (fun _ => IMAGE_FILE_FORMAT_DDS) (fun _ _ => None)
           Ex2.format_to_int Ex2.format_of_int Ex2.stub_device Ex2.dds_image None 0 0
           [1; 2]%Z (Some Ex2.loader_data)).
  - reflexivity.
  - intros f. destruct f; reflexivity.
  - reflexivity.
  - simpl. lia.
  - simpl. lia.
Defined.

Lemma cached_image_is_not_decoded_witness :
  let '(ok, gltf_image', error', user_data', log) :=
    LoadImageData (GA := Ref.Graphics) Ex2.simple_path
                  (fun _ => IMAGE_FILE_FORMAT_UNKNOWN) (fun _ _ => None)
                  Ex2.format_to_int Ex2.stub_device Ex2.wall_image None 0 0 []
                  (Some Ex2.loader_data) in
  ok = true /\ error' = None /\
  img_image gltf_image' = img_image Ex2.wall_image /\
  img_width gltf_image' = 32%Z /\
  img_height gltf_image' = 32%Z /\
  user_data' = Some (set_TexturesHold Ex2.loader_data [0]) /\
  log = [] /\
  AddTexture Ex.base_color Ex.scene (Some Ex2.wall_cache) Ex2.stub_device
             (LoadTextures_Image Ex2.format_of_int gltf_image')
             (LoadTextures_CacheId Ex2.simple_path "scene/" gltf_image')
  = (set_Textures Ex.scene [{| pTexture := Some 0; pAtlasSuballocation := None |}],
     Some Ex2.wall_cache, Ex2.stub_device, []).
Proof.
  apply (cached_image_is_not_decoded (GA := Ref.Graphics) (BM := Ref.Math)
           Ex.base_color Ex2.simple_path
           (fun _ => IMAGE_FILE_FORMAT_UNKNOWN) (fun _ _ => None)
           Ex2.format_to_int Ex2.format_of_int Ex.scene Ex2.stub_device Ex2.wall_image None
           0 0 [] Ex2.loader_data Ex2.wall_cache 0 (StubTexture (GA := Ref.Graphics))).
  - discriminate.
  - discriminate.
  - reflexivity.
  - reflexivity.
  - reflexivity.
Defined.

Lemma images_without_uri_share_the_empty_key_witness :
  let LD := {| LD_pTextureCache := Some {| CacheTextures := {[ "" := 0 ]} |};
               TexturesHold := []; LD_BaseDir := "scene/";
               LD_FileExists := None; LD_ReadWholeFile := None |} in
  let '(_, C', Dev', _) :=
    AddTexture (GA := Ref.Graphics) Ex.base_color Ex.scene Ex.empty_cache Ex.no_objects
               Ex2.wide_image "" in
  LD_pTextureCache LD = C' /\
  let '(ok, gltf_image', error', _, _) :=
    LoadImageData Ex2.simple_path
                  (fun _ => IMAGE_FILE_FORMAT_OTHER) (fun _ _ => Some Ex2.gray_pixel)
                  Ex2.format_to_int Dev' GltfImage_default None 0 0 [1; 2]%Z (Some LD) in
  ok = true /\ error' = None /\
  img_image gltf_image' = [] /\
  img_width gltf_image' = 5%Z /\
  img_height gltf_image' = 3%Z.
Proof.
  cbv zeta.
  pose proof (images_without_uri_share_the_empty_key (GA := Ref.Graphics) (BM := Ref.Math)
           Ex.base_color Ex2.simple_path
           (fun _ => IMAGE_FILE_FORMAT_OTHER) (fun _ _ => Some Ex2.gray_pixel)
           Ex2.format_to_int Ex.scene {| CacheTextures := ∅ |} Ex.no_objects Ex2.wide_image
           GltfImage_default None 0 0 [1; 2]%Z
           {| LD_pTextureCache := Some {| CacheTextures := {[ "" := 0 ]} |};
              TexturesHold := []; LD_BaseDir := "scene/";
              LD_FileExists := None; LD_ReadWholeFile := None |}) as H.
  specialize (H (lookup_empty _)).
  assert (Hw : (0 < ImgWidth Ex2.wide_image)%Z) by (simpl; lia).
  assert (Hh : (0 < ImgHeight Ex2.wide_image)%Z) by (simpl; lia).
  specialize (H Hw Hh eq_refl).
  unfold Ex.empty_cache.
  destruct (AddTexture Ex.base_color Ex.scene (Some {| CacheTextures := ∅ |}) Ex.no_objects
              Ex2.wide_image "") as [[[M' C'] Dev'] log] eqn:E.
  assert (HC : C' = Some {| CacheTextures := {[ "" := 0 ]} |}).
  { apply (f_equal (fun r => snd (fst (fst r)))) in E. simpl in E. rewrite <- E.
    vm_compute. reflexivity. }
  split; [symmetry; exact HC|].
  apply H. symmetry. exact HC.
Defined.

Lemma file_name_gives_base_directory_witness :
  LoadFromFile_BaseDir "models/helmet/Helmet.glb" = "models/helmet/" /\
  LoadFromFile_BaseDir "Helmet.gltf" = "/" /\
  LoadFromFile_binary "models/helmet/Helmet.glb" = true /\
  LoadFromFile_binary "models.v2/Helmet.gltf" = false /\
  LoadFromFile_binary "Helmet" = false.
Proof.
  destruct file_name_gives_base_directory as (H1 & H2 & H3 & H4).
  split; [apply (H1 "models/helmet" slash "Helmet.glb"); [left; reflexivity | reflexivity]|].
  split; [apply (H2 "Helmet.gltf"); reflexivity|].
  split; [apply (H3 "models/helmet/Helmet" "glb"); reflexivity|].
  split; [apply (H3 "models.v2/Helmet" "gltf"); reflexivity|].
  apply (H4 "Helmet"). reflexivity.
Defined.

(** * Materialization, once per shared object *)

Section MaterializeOnce.
Context `{GA : GraphicsAccessories} `{BM : BasicMath}.




End MaterializeOnce.

(** * The time of an animation *)

Section TimeClamp.
Context `{BM : BasicMath}.

(** The pose that [UpdateAnimation] gives the node of a channel that is
    the only channel of its node *)
Lemma UpdateAnimation_sampled M index animation time T l1 ch l2 sampler i N :
  Animations M !! index = Some animation ->
  Channels animation = l1 ++ ch :: l2 ->
  (forall c, In c (l1 ++ l2) -> ChannelNodeIndex c <> ChannelNodeIndex ch) ->
  LinearNodes M !! ChannelNodeIndex ch = Some N ->
  Samplers animation !! SamplerIndex ch = Some sampler ->
  length (Inputs sampler) <= length (OutputsVec4 sampler) ->
  FindKeyframe (Inputs sampler) (clamp time (AnimStart animation) (AnimEnd animation))
  = Some i ->
  NodeAnimations (fst (UpdateAnimation M index time T)) !! ChannelNodeIndex ch
  = Some (SampledPose N ch sampler
            (clamp time (AnimStart animation) (AnimEnd animation)) i).
Proof.
  intros Ha Hch Hother HN Hs Hlen Hf. unfold UpdateAnimation. rewrite Ha. cbv zeta.
  set (time' := clamp time (AnimStart animation) (AnimEnd animation)) in *.
  set (Anims0 := if Nat.eqb _ _ then _ else _).
  assert (Hlen0 : length Anims0 = length (LinearNodes M)).
  { unfold Anims0. destruct (Nat.eqb_spec (length (NodeAnimations T)) (length (LinearNodes M)));
      [assumption | apply length_resize]. }
  rewrite (fold_enumerate_map StaticPose (LinearNodes M) Anims0 Hlen0).
  rewrite Hch, fold_left_app. cbn [fold_left].
  pose proof (fold_ApplyChannel_other animation time' l1 (ChannelNodeIndex ch)
                (map StaticPose (LinearNodes M), [])) as H1.
  destruct (fold_left (ApplyChannel animation time') l1 _) as [A1 log1].
  cbn [fst] in H1. rewrite list_lookup_fmap, HN in H1. cbn in H1.
  assert (HA1 : A1 !! ChannelNodeIndex ch = Some (StaticPose N)).
  { apply H1. intros c Hc E. exfalso. apply (Hother c); [apply in_or_app; left; exact Hc | exact E]. }
  pose proof (ApplyChannel_sample animation time' A1 log1 ch sampler i (StaticPose N)
                                  Hs Hlen Hf HA1) as Hsample.
  cbv zeta in Hsample.
  pose proof (fold_ApplyChannel_other animation time' l2 (ChannelNodeIndex ch)
                (ApplyChannel animation time' (A1, log1) ch)) as H2.
  destruct (fold_left (ApplyChannel animation time') l2 _) as [Anims2 log].
  cbn [fst NodeAnimations set_NodeLocalMatrices set_NodeAnimations] in *.
  rewrite H2
    by (intros c Hc E; exfalso; apply (Hother c); [apply in_or_app; right; exact Hc | exact E]).
  unfold SampledPose. cbv zeta.
  destruct (PathType ch); try exact Hsample.
  rewrite Hsample. exact HA1.
Qed.

(** C6: the requested time is clamped to the interval of the animation
    before anything is sampled: when [clamp] meets its contract and
    [Start <= End], a time below [Start] gives the result of [Start], with
    the poses of the channels sampled at [Start], and a time above [End]
    gives the result of [End], with the poses sampled at [End]. *)
Theorem ComputeTransforms_time_clamp (M : Model) (T : ModelTransforms)
    (RootTransform : float4x4) (AnimationIndex : Z) (animation : Animation)
    (Time : F32.float) :
  ClampSpec ->
  (0 <= AnimationIndex)%Z ->
  Animations M !! Z.to_nat AnimationIndex = Some animation ->
  F32.leb (AnimStart animation) (AnimEnd animation) = true ->
  (F32.ltb Time (AnimStart animation) = true ->
   UpdateAnimation M (Z.to_nat AnimationIndex) Time T
     = UpdateAnimation M (Z.to_nat AnimationIndex) (AnimStart animation) T /\
   ComputeTransforms M T RootTransform AnimationIndex Time
     = ComputeTransforms M T RootTransform AnimationIndex (AnimStart animation) /\
   PosesSampledAt M animation (AnimStart animation)
     (fst (ComputeTransforms M T RootTransform AnimationIndex Time))) /\
  (F32.ltb (AnimEnd animation) Time = true ->
   UpdateAnimation M (Z.to_nat AnimationIndex) Time T
     = UpdateAnimation M (Z.to_nat AnimationIndex) (AnimEnd animation) T /\
   ComputeTransforms M T RootTransform AnimationIndex Time
     = ComputeTransforms M T RootTransform AnimationIndex (AnimEnd animation) /\
   PosesSampledAt M animation (AnimEnd animation)
     (fst (ComputeTransforms M T RootTransform AnimationIndex Time))).
Proof.
  intros HC Hidx Hanim Hle.
  destruct (HC (AnimStart animation) _ _ Hle) as (_ & _ & HS).
  destruct (HC (AnimEnd animation) _ _ Hle) as (_ & _ & HE).
  assert (HcS : clamp (AnimStart animation) (AnimStart animation) (AnimEnd animation)
                = AnimStart animation).
  { apply HS; [|exact Hle]. clear - Hle. f32_order. }
  assert (HcE : clamp (AnimEnd animation) (AnimStart animation) (AnimEnd animation)
                = AnimEnd animation).
  { apply HE; [exact Hle|]. clear - Hle. f32_order. }
  assert (Hupd : forall t1 t2 T0,
            clamp t1 (AnimStart animation) (AnimEnd animation)
            = clamp t2 (AnimStart animation) (AnimEnd animation) ->
            UpdateAnimation M (Z.to_nat AnimationIndex) t1 T0
            = UpdateAnimation M (Z.to_nat AnimationIndex) t2 T0).
  { intros t1 t2 T0 Heq. unfold UpdateAnimation. rewrite Hanim. rewrite Heq. reflexivity. }
  assert (Hct : forall t1 t2,
            clamp t1 (AnimStart animation) (AnimEnd animation)
            = clamp t2 (AnimStart animation) (AnimEnd animation) ->
            ComputeTransforms M T RootTransform AnimationIndex t1
            = ComputeTransforms M T RootTransform AnimationIndex t2).
  { intros t1 t2 Heq. unfold ComputeTransforms.
    destruct (0 <=? AnimationIndex)%Z; [|reflexivity].
    rewrite (Hupd t1 t2) by exact Heq. reflexivity. }
  assert (Hposes : forall t0,
            clamp Time (AnimStart animation) (AnimEnd animation) = t0 ->
            PosesSampledAt M animation t0
              (fst (ComputeTransforms M T RootTransform AnimationIndex Time))).
  { intros t0 Ht0 l1 ch l2 sampler i N Hch Hother HN Hs Hlen Hi Hfirst.
    destruct (ComputeTransforms_poses M T RootTransform AnimationIndex Time) as [_ HA].
    cbv zeta in HA. rewrite HA. unfold AfterPoses. cbv zeta.
    assert (Hpos : (0 <=? AnimationIndex)%Z = true) by (apply Z.leb_le; exact Hidx).
    rewrite Hpos.
    destruct Hfirst as [Hb Hmin].
    destruct (FindKeyframe_first (Inputs sampler) t0 i Hi Hb) as (i0 & Hf & Hle0 & Hfirst0).
    assert (i0 = i) as ->
      by (apply (FirstBracket_unique (Inputs sampler) t0); [exact Hfirst0 | split; assumption]).
    rewrite <- Ht0 in Hf |- *.
    apply (UpdateAnimation_sampled M (Z.to_nat AnimationIndex) animation Time _ l1 ch l2
             sampler i N Hanim Hch Hother HN Hs Hlen Hf). }
  split; intros Hlt.
  - destruct (HC Time _ _ Hle) as (H1 & _ & _).
    assert (Heq : clamp Time (AnimStart animation) (AnimEnd animation)
                  = clamp (AnimStart animation) (AnimStart animation) (AnimEnd animation))
      by (rewrite HcS; apply H1; exact Hlt).
    split; [apply Hupd; exact Heq|]. split; [apply Hct; exact Heq|].
    apply Hposes. rewrite Heq. exact HcS.
  - destruct (HC Time _ _ Hle) as (_ & H2 & _).
    assert (Heq : clamp Time (AnimStart animation) (AnimEnd animation)
                  = clamp (AnimEnd animation) (AnimStart animation) (AnimEnd animation))
      by (rewrite HcE; apply H2; exact Hlt).
    split; [apply Hupd; exact Heq|]. split; [apply Hct; exact Heq|].
    apply Hposes. rewrite Heq. exact HcE.
Qed.

End TimeClamp.

Lemma ComputeTransforms_time_clamp_witness :
  let Translation0 t :=
    TDTranslation
      <$> NodeAnimations (fst (ComputeTransforms Ex2.slide_model Ex.no_transforms
                                                 Ex.root_transform 0 t)) !! 0 in
  Translation0 (F32.of_Z 0) = Some (Ex.v3 10 0 0) /\
  ComputeTransforms Ex2.slide_model Ex.no_transforms Ex.root_transform 0 (F32.of_Z 0)
  = ComputeTransforms Ex2.slide_model Ex.no_transforms Ex.root_transform 0 (F32.of_Z 1) /\
  Translation0 (F32.of_Z 5) = Some (Ex.v3 30 0 0) /\
  ComputeTransforms Ex2.slide_model Ex.no_transforms Ex.root_transform 0 (F32.of_Z 5)
  = ComputeTransforms Ex2.slide_model Ex.no_transforms Ex.root_transform 0 (F32.of_Z 3).
Proof.
  cbv zeta.
  assert (H0 : (0 <= 0)%Z) by lia.
  assert (Hl : Animations Ex2.slide_model !! Z.to_nat 0 = Some Ex2.slide_animation)
    by reflexivity.
  assert (Hle : F32.leb (AnimStart Ex2.slide_animation) (AnimEnd Ex2.slide_animation) = true)
    by (vm_compute; reflexivity).
  set (ch := {| PathType := TRANSLATION; ChannelNodeIndex := 0; SamplerIndex := 0 |}).
  set (sampler := {| Interpolation := LINEAR; Inputs := [F32.of_Z 1; F32.of_Z 3];
                     OutputsVec4 := [Ex.v4 10 0 0 0; Ex.v4 30 0 0 0] |}).
  assert (Hposes : forall t0 Time,
            F32.leb (F32.of_Z 1) t0 && F32.leb t0 (F32.of_Z 3) = true ->
            PosesSampledAt Ex2.slide_model Ex2.slide_animation t0
              (fst (ComputeTransforms Ex2.slide_model Ex.no_transforms Ex.root_transform 0
                                      Time)) ->
            NodeAnimations (fst (ComputeTransforms Ex2.slide_model Ex.no_transforms
                                                   Ex.root_transform 0 Time)) !! 0
            = Some (SampledPose (Ex.plain_node 0 [Ex.plain_node 1 []]) ch sampler t0 0)).
  { intros t0 Time Hb HP.
    apply (HP [] ch [] sampler 0 (Ex.plain_node 0 [Ex.plain_node 1 []])).
    - reflexivity.
    - intros c [].
    - reflexivity.
    - reflexivity.
    - simpl. lia.
    - simpl. lia.
    - split; [exact Hb | intros j Hj; lia]. }
  destruct (ComputeTransforms_time_clamp Ex2.slide_model Ex.no_transforms Ex.root_transform 0
              Ex2.slide_animation (F32.of_Z 0) Ref_ClampSpec H0 Hl Hle) as [HS _].
  destruct HS as (_ & HS2 & HS3); [vm_compute; reflexivity|].
  destruct (ComputeTransforms_time_clamp Ex2.slide_model Ex.no_transforms Ex.root_transform 0
              Ex2.slide_animation (F32.of_Z 5) Ref_ClampSpec H0 Hl Hle) as [_ HE].
  destruct HE as (_ & HE2 & HE3); [vm_compute; reflexivity|].
  split. { rewrite (Hposes (AnimStart Ex2.slide_animation) _ eq_refl HS3). vm_compute. reflexivity. }
  split; [exact HS2|].
  split. { rewrite (Hposes (AnimEnd Ex2.slide_animation) _ eq_refl HE3). vm_compute. reflexivity. }
  exact HE2.
Defined.
